(* ===== verification/_CoqProject ===== *)
-Q . S2P
Prelude.v
Json.v
Errors.v
Facts.v
Sha256.v
Base64.v
Tables.v
Store.v
Idempotency.v
Ledger.v
Bindings.v
Executors.v
Pages.v
Durable.v
Continuations.v
Snapshots.v
Delegation.v
Claim.v
Outputs.v
Settle.v
Runs.v
Admission.v
Effects.v
Generations.v
Wire.v
Commands.v
Deployments.v
Activation.v
Recovery.v
Dispatch.v
Reboot.v
Staging.v
ChildPolicy.v
Settlement.v
Authority.v
Children.v
ChildPolicyFacts.v
Invalidation.v
Assets.v
Demo.v
Evolution.v
Leases.v
ActivationFacts.v
RecoveryFacts.v
DispatchFacts.v
StagingFacts.v
Sessions.v
Specs.v
Lifecycle.v
GenerationFacts.v
Chain.v
Tasks.v
Reservations.v
Routes.v
SettlementFacts.v
ChildFacts.v
TaskHistory.v
System.v
RebootFacts.v
Replays.v
