(* ===== verification/Prelude.v ===== *)
(** * A verification of the workspace runtime

    The runtime keeps the tasks of a realm in one SQLite file and hands them
    to workers under fenced leases.  This library models that core of
    [src/runtime_protocol] as executable functions on the tables of the realm
    and proves what makes it correct.

    ** The program and its model

    A client admits tasks; a run holds the tasks of one admission; a worker
    claims a queued task and gets a lease (token, fence, deadline) and an
    attempt; it sends heartbeats and finally settles or fails the attempt; the
    outputs of a settlement become objects of the content-addressed store and
    managed outputs of the task; a parent task may delegate children; a boot
    session recovers what a crash left running; remote workers are qualified
    for one task at a time and can be drained or replaced.  Every mutating
    command has an idempotency key and leaves a receipt.

    [RealmStore] methods (store.py) and [RuntimeService] methods (service.py)
    are computations [M A] of [Store]: they read and write the record [tables],
    take readings of the environment, and return a value or raise.  The store
    mutex makes a method one such computation; [transaction] restores the
    tables when its body raises.  Callbacks of the source (the recorder of a
    receipt, the publication of staged outputs, the freezing of a managed
    render) are arguments.

    - [Prelude], [Json] (util.py: [canonical_json] and its reader), [Errors]
      (errors.py), [Sha256], [Base64]: values, errors and encodings.
    - [Tables] (canonical_schema.py), [Store] (store.py: connection,
      transactions; the program logic [steps]/[spec] for invariants).
    - [Facts] (store.py 159-497): execution facts, targets, placements, specs.
    - [Idempotency] (idempotency.py), [Ledger] (store.py: specs, event chain,
      receipts, reservations, render publications), [Bindings] (bindings and
      task views), [Executors] (capabilities, executors, storage preflight).
    - [Continuations], [Snapshots] (snapshot_refs.py), [Delegation] (children,
      cancellation, lease expiry, boot recovery), [Claim], [Outputs],
      [Settle], [Runs], [Admission], [Effects] and [Generations] (the five
      typed settlement effects): the operations of store.py.
    - [Wire], [Commands], [Activation], [Recovery], [Dispatch], [Staging],
      [ChildPolicy], [Settlement], [Pages]: the operations of service.py
      (request checks, receipts and replays, remote activations and drains,
      placement recovery, claims and attempts, outputs of a settlement, child
      policies and the admission route, the settlement route, pages).
    - [Deployments] (remote_worker_deployment.py), [Invalidation]
      (shot_dependencies.py), [Assets] (asset_identity.py).
    - [Routes] and [System]: the commands of the service and the handlers of
      the store as the operations of one machine, and its reachable states.

    ** What is proved

    - [Chain], [System]: the event log only grows and its hash chain verifies
      in every reachable state; two histories with the same last hash are the
      same or show a SHA-256 collision.
    - [Tasks], [TaskHistory], [Reservations], [Specs], [System]: over all
      operations, tasks keep their identity, fences never decrease, a completed
      task stays so unless it is retried, a resource has one holder, and specs
      are content-addressed.
    - [Leases], [Sessions], [Replays]: what a claim, a settlement and a boot
      session establish; stale leases are rejected; keyed admissions happen
      once and repeated commands answer from their receipt.
    - [ActivationFacts], [RecoveryFacts], [DispatchFacts], [Deployments]: the
      activation log is a play of a machine that holds one activation at a
      time; drains end at rest; a recovery installs the replacement; a claim
      key is spent once; a stale attempt writes nothing; binding digests
      identify bindings.
    - [StagingFacts], [SettlementFacts], [ChildPolicyFacts],
      [GenerationFacts], [Lifecycle]: staged outputs are what they claim and
      are published with the completion; child policies are bounded and
      ordered; variants are promoted exactly; the output life cycle implements
      its state machine.
    - [Json], [Facts], [Wire], [Pages], [Invalidation], [Assets]: round trips,
      matching rules, safe names, complete paging, least fixpoints.

    [Evolution] carries the frame proofs: a class [Benign] of relations that
    accept the bookkeeping writes, once for all helpers.  [Demo] is a small
    realm on which the statements are instantiated.

    ** Bounds, fuel and assumptions

    Readings of the environment (clock, uuid, disk space, environment
    variables, bytes of a stored object, zlib) are the fields of the class
    [World], indexed by the count of readings taken; theorems hold for every
    [World].  [datetime.fromisoformat], the identity of a file and the replay
    of a parent publication are parameters as well.  Nested cancellations run
    on the fuel [max_depth] of the world, and running out is Python's
    [RecursionError]; the JSON reader has the length of its text as fuel, a
    walk of pages one page more than there are rows, the staleness loop one
    round more than there are items, and the theorems show that this is enough.
    JSON numbers are integers, cursors and texts that are lower-cased are
    ASCII, and Python integers are unbounded, as here.

    ** What is not modelled

    File operations: staging directories, publication journals, CAS copies,
    backups and upgrades of the database file.  Processes, sockets and
    platform security: the HTTP server, daemon, launcher, supervisors and
    worker hand-off.  The routes of timelines, generations, media and
    documents, the freezing of managed renders (a callback here), child
    authorities and derived inputs, reboot preparation and checkpoints, and
    integrity reports are left for later work. *)

From Stdlib Require Import ZArith String Ascii List Bool Lia Sorted Permutation.
From stdpp Require Import base list strings.

Create HintDb astrid.
Create Rewrite HintDb astrid_rw.

(** ** Tactics shared by the development *)

(** Case analysis on the scrutinee of a [match] or [if] of a hypothesis or of
    the goal, keeping the equation. *)
Ltac break_match_in H :=
  match type of H with
  | context [ match ?x with _ => _ end ] =>
      lazymatch x with
      | context [ match _ with _ => _ end ] => fail
      | _ => let E := fresh "E" in destruct x eqn:E
      end
  end.

Ltac break_match_goal :=
  match goal with
  | |- context [ match ?x with _ => _ end ] =>
      lazymatch x with
      | context [ match _ with _ => _ end ] => fail
      | _ => let E := fresh "E" in destruct x eqn:E
      end
  end.

(** Turn boolean connectives of the context into propositions. *)
Ltac bool_hyps :=
  repeat match goal with
  | H : (_ && _) = true |- _ => apply andb_true_iff in H as [? ?]
  | H : (_ || _) = false |- _ => apply orb_false_iff in H as [? ?]
  | H : negb _ = true |- _ => apply negb_true_iff in H
  | H : negb _ = false |- _ => apply negb_false_iff in H
  | H : String.eqb _ _ = true |- _ => apply String.eqb_eq in H
  | H : String.eqb _ _ = false |- _ => apply String.eqb_neq in H
  | H : (_ =? _)%Z = true |- _ => apply Z.eqb_eq in H
  | H : (_ =? _)%Z = false |- _ => apply Z.eqb_neq in H
  | H : (_ <=? _)%Z = true |- _ => apply Z.leb_le in H
  | H : (_ <=? _)%Z = false |- _ => apply Z.leb_gt in H
  | H : (_ <? _)%Z = true |- _ => apply Z.ltb_lt in H
  | H : (_ <? _)%Z = false |- _ => apply Z.ltb_ge in H
  end.

(** ** Generic list operations *)

Definition str_in (s : string) (l : list string) : bool :=
  existsb (String.eqb s) l.

Lemma str_in_spec s l : str_in s l = true <-> In s l.
Proof.
  unfold str_in. rewrite existsb_exists. split.
  - intros (x & Hx & E). apply String.eqb_eq in E. by subst.
  - intros H. exists s. split; [done|]. apply String.eqb_refl.
Qed.

Lemma str_in_false s l : str_in s l = false <-> ~ In s l.
Proof. rewrite <- str_in_spec. destruct (str_in s l); naive_solver. Qed.

(** [list(dict.fromkeys(l))]: the first occurrence of every element, in order. *)
Fixpoint dedup_from (seen : list string) (l : list string) : list string :=
  match l with
  | [] => []
  | x :: r => if str_in x seen then dedup_from seen r
              else x :: dedup_from (x :: seen) r
  end.

Definition dedup (l : list string) : list string := dedup_from [] l.

Lemma dedup_from_in seen l x :
  In x (dedup_from seen l) <-> In x l /\ ~ In x seen.
Proof.
  revert seen. induction l as [|y l IH]; intros seen; simpl; [tauto|].
  destruct (str_in y seen) eqn:E.
  - apply str_in_spec in E. rewrite IH. split; [tauto|].
    intros [[->|H] Hn]; tauto.
  - apply str_in_false in E. simpl. rewrite IH. simpl.
    destruct (decide (y = x)) as [->|]; tauto.
Qed.

Lemma dedup_from_NoDup seen l : List.NoDup (dedup_from seen l).
Proof.
  revert seen. induction l as [|y l IH]; intros seen; simpl; [constructor|].
  destruct (str_in y seen) eqn:E; [apply IH|].
  constructor; [|apply IH].
  rewrite dedup_from_in. simpl. tauto.
Qed.

Lemma dedup_in l x : In x (dedup l) <-> In x l.
Proof. unfold dedup. rewrite dedup_from_in. simpl. tauto. Qed.

Lemma dedup_NoDup l : List.NoDup (dedup l).
Proof. apply dedup_from_NoDup. Qed.

Lemma dedup_from_id seen l :
  List.NoDup l -> (forall x, In x l -> ~ In x seen) -> dedup_from seen l = l.
Proof.
  intros Hnd. revert seen. induction Hnd as [|x l Hx Hnd IH]; intros seen Hs; simpl; [done|].
  assert (str_in x seen = false) as -> by (apply str_in_false; apply Hs; by left).
  f_equal. apply IH. intros y Hy [->|Hin]; [done|].
  eapply Hs; [by right|done].
Qed.

Lemma dedup_id l : List.NoDup l -> dedup l = l.
Proof. intros H. apply dedup_from_id; [done|]. simpl. tauto. Qed.

(** Boolean duplicate test, [len(set(l)) != len(l)]. *)
Fixpoint has_dup (l : list string) : bool :=
  match l with
  | [] => false
  | x :: r => str_in x r || has_dup r
  end.

Lemma has_dup_false l : has_dup l = false <-> List.NoDup l.
Proof.
  induction l as [|x l IH]; simpl; [split; [constructor|done]|].
  rewrite orb_false_iff, str_in_false, IH. split.
  - intros [? ?]. by constructor.
  - inversion 1; by subst.
Qed.

(** Stable insertion sort, the model of [sorted] and of [ORDER BY]. *)
Section Sort.
Context {A : Type} (leb : A -> A -> bool).

Fixpoint insert_sorted (x : A) (l : list A) : list A :=
  match l with
  | [] => [x]
  | y :: r => if leb x y then x :: y :: r else y :: insert_sorted x r
  end.

Definition sort (l : list A) : list A := foldr insert_sorted [] l.

Lemma insert_sorted_perm x l : Permutation (insert_sorted x l) (x :: l).
Proof.
  induction l as [|y l IH]; simpl; [done|].
  destruct (leb x y); [done|].
  rewrite IH. apply Permutation_swap.
Qed.

Lemma sort_perm l : Permutation (sort l) l.
Proof.
  induction l as [|x l IH]; simpl; [done|].
  rewrite insert_sorted_perm. by rewrite IH.
Qed.

Lemma sort_in l x : In x (sort l) <-> In x l.
Proof.
  split; apply Permutation_in; [|symmetry]; apply sort_perm.
Qed.

Hypothesis leb_total : forall x y, leb x y = true \/ leb y x = true.
Hypothesis leb_trans : forall x y z, leb x y = true -> leb y z = true -> leb x z = true.

Lemma insert_sorted_sorted x l :
  StronglySorted (fun a b => leb a b = true) l ->
  StronglySorted (fun a b => leb a b = true) (insert_sorted x l).
Proof.
  induction 1 as [|y l Hs IH Hf]; simpl; [repeat constructor|].
  destruct (leb x y) eqn:E.
  - constructor; [by constructor|].
    constructor; [done|]. eapply List.Forall_impl; [|apply Hf]. simpl. eauto.
  - assert (leb y x = true) by (destruct (leb_total x y); congruence).
    constructor; [done|].
    eapply Permutation_Forall; [symmetry; apply insert_sorted_perm|].
    by constructor.
Qed.

Lemma sort_sorted l : StronglySorted (fun a b => leb a b = true) (sort l).
Proof. induction l; simpl; [constructor|]. by apply insert_sorted_sorted. Qed.

Lemma sort_sorted_id l :
  StronglySorted (fun a b => leb a b = true) l -> sort l = l.
Proof.
  induction 1 as [|x l Hs IH Hf]; simpl; [done|]. rewrite IH.
  destruct l as [|y l]; [done|]. simpl.
  inversion Hf; subst. by rewrite H1.
Qed.
End Sort.

Lemma sort_map {A B} (f : A -> B) (leA : A -> A -> bool) (leB : B -> B -> bool) l :
  (forall x y, leB (f x) (f y) = leA x y) ->
  sort leB (map f l) = map f (sort leA l).
Proof.
  intros Hf. induction l as [|x l IH]; simpl; [done|]. rewrite IH.
  generalize (sort leA l). intros s. induction s as [|y s IHs]; simpl; [done|].
  rewrite Hf. destruct (leA x y); simpl; [done|]. by rewrite IHs.
Qed.

Lemma map_id_Forall {A} (f : A -> A) l :
  Forall (fun x => f x = x) l -> map f l = l.
Proof. induction 1; simpl; congruence. Qed.

Lemma filter_all {A} (p : A -> bool) l :
  Forall (fun x => p x = true) l -> List.filter p l = l.
Proof. induction 1 as [|x l Hx _ IH]; simpl; [done|]. by rewrite Hx, IH. Qed.

Lemma map_if_id {A} (p : A -> bool) (f : A -> A) l :
  Forall (fun x => p x = false) l ->
  map (fun x => if p x then f x else x) l = l.
Proof. induction 1 as [|x l Hx _ IH]; simpl; [done|]. by rewrite Hx, IH. Qed.

(** The order of [String.compare] (bytes of the UTF-8 text, which is the
    code-point order Python sorts by). *)
Lemma str_leb_total x y : String.leb x y = true \/ String.leb y x = true.
Proof.
  unfold String.leb. rewrite (String.compare_antisym x y).
  destruct (String.compare y x); simpl; auto.
Qed.

Lemma str_leb_trans x y z :
  String.leb x y = true -> String.leb y z = true -> String.leb x z = true.
Proof.
  intros Hxy Hyz.
  assert (String.le x y) as H1 by (unfold String.le; by rewrite Hxy).
  assert (String.le y z) as H2 by (unfold String.le; by rewrite Hyz).
  pose proof (transitivity H1 H2) as H3. unfold String.le in H3.
  by destruct (String.leb x z).
Qed.

Lemma str_leb_antisym x y :
  String.leb x y = true -> String.leb y x = true -> x = y.
Proof.
  intros Hxy Hyx. apply (anti_symm String.le); unfold String.le;
    [by rewrite Hxy | by rewrite Hyx].
Qed.

Lemma str_leb_refl x : String.leb x x = true.
Proof. destruct (str_leb_total x x); done. Qed.

(** ** Strings *)

Fixpoint all_chars (p : ascii -> bool) (s : string) : bool :=
  match s with
  | EmptyString => true
  | String c r => p c && all_chars p r
  end.

Definition is_digit (c : ascii) : bool :=
  let n := N_of_ascii c in (48 <=? n)%N && (n <=? 57)%N.
Definition is_lower (c : ascii) : bool :=
  let n := N_of_ascii c in (97 <=? n)%N && (n <=? 122)%N.
Definition is_upper (c : ascii) : bool :=
  let n := N_of_ascii c in (65 <=? n)%N && (n <=? 90)%N.
Definition is_alnum (c : ascii) : bool := is_digit c || is_lower c || is_upper c.
Definition is_hex (c : ascii) : bool :=
  let n := N_of_ascii c in is_digit c || ((97 <=? n)%N && (n <=? 102)%N).
Definition is_control (c : ascii) : bool := (N_of_ascii c <? 32)%N.
Definition is_space (c : ascii) : bool :=
  let n := N_of_ascii c in
  (n =? 32)%N || ((9 <=? n)%N && (n <=? 13)%N) || ((28 <=? n)%N && (n <=? 31)%N).

#[global] Arguments is_digit : simpl never.
#[global] Arguments is_lower : simpl never.
#[global] Arguments is_upper : simpl never.
#[global] Arguments is_alnum : simpl never.
#[global] Arguments is_hex : simpl never.
#[global] Arguments is_control : simpl never.
#[global] Arguments is_space : simpl never.

Definition lower_char (c : ascii) : ascii :=
  if is_upper c then ascii_of_N (N_of_ascii c + 32) else c.

Fixpoint str_lower (s : string) : string :=
  match s with
  | EmptyString => EmptyString
  | String c r => String (lower_char c) (str_lower r)
  end.

Fixpoint lstrip_by (p : ascii -> bool) (s : string) : string :=
  match s with
  | String c r => if p c then lstrip_by p r else s
  | EmptyString => EmptyString
  end.

Fixpoint rstrip_by (p : ascii -> bool) (s : string) : string :=
  match s with
  | EmptyString => EmptyString
  | String c r =>
      match rstrip_by p r with
      | EmptyString => if p c then EmptyString else String c EmptyString
      | r' => String c r'
      end
  end.

Definition strip_by (p : ascii -> bool) (s : string) : string :=
  rstrip_by p (lstrip_by p s).

(** [str.strip()] *)
Definition str_strip (s : string) : string := strip_by is_space s.

Fixpoint drop_chars (n : nat) (s : string) : string :=
  match n, s with
  | S n', String _ r => drop_chars n' r
  | _, _ => s
  end.

Fixpoint take_chars (n : nat) (s : string) : string :=
  match n, s with
  | S n', String c r => String c (take_chars n' r)
  | _, _ => EmptyString
  end.

(** [str.removeprefix] *)
Definition remove_prefix (p s : string) : string :=
  if String.prefix p s then drop_chars (String.length p) s else s.

Fixpoint str_join (sep : string) (l : list string) : string :=
  match l with
  | [] => EmptyString
  | [x] => x
  | x :: r => (x +:+ sep +:+ str_join sep r)%string
  end.

(** [len(text)] counts code points: every byte that does not continue one. *)
Definition is_continuation (c : ascii) : bool :=
  let n := N_of_ascii c in (128 <=? n)%N && (n <=? 191)%N.

Fixpoint py_len (s : string) : Z :=
  match s with
  | EmptyString => 0
  | String c r => ((if is_continuation c then 0 else 1) + py_len r)%Z
  end.

Lemma all_chars_app p a b : all_chars p (a +:+ b) = all_chars p a && all_chars p b.
Proof.
  induction a as [|c a IH]; [done|]. change (all_chars p (String c a +:+ b)) with (p c && all_chars p (a +:+ b)).
  rewrite IH. simpl. by rewrite andb_assoc.
Qed.

(** The patterns [[0-9a-f]{64}], [sha256:[0-9a-f]{64}] and
    [(?:sha256:)?([0-9a-f]{64})] under [fullmatch]; the last gives group 1. *)
Definition is_hex64 (s : string) : bool :=
  Nat.eqb (String.length s) 64 && all_chars is_hex s.

Definition is_sha256_id (s : string) : bool :=
  String.prefix "sha256:" s && is_hex64 (drop_chars 7 s).

Definition object_id_digest (s : string) : option string :=
  if is_sha256_id s then Some (drop_chars 7 s)
  else if is_hex64 s then Some s else None.

(** Truth value of a Python string. *)
Definition nonempty (s : string) : bool :=
  match s with EmptyString => false | _ => true end.

Lemma nonempty_true s : nonempty s = true <-> s <> EmptyString.
Proof. destruct s; simpl; split; congruence. Qed.

Lemma str_app_nil_r (s : string) : (s +:+ "") = s.
Proof. induction s as [|c s IH]; [done|]. exact (f_equal (String c) IH). Qed.

Lemma str_app_assoc (a b c : string) : ((a +:+ b) +:+ c) = (a +:+ (b +:+ c)).
Proof. induction a as [|x a IH]; [done|]. exact (f_equal (String x) IH). Qed.

Lemma str_length_app (a b : string) :
  String.length (a +:+ b) = (String.length a + String.length b)%nat.
Proof. induction a as [|x a IH]; [done|]. exact (f_equal S IH). Qed.

Lemma drop_prefix_app (p s : string) : drop_chars (String.length p) (p +:+ s) = s.
Proof. induction p as [|c p IH]; [done|]. exact IH. Qed.

Lemma prefix_app (p s : string) : String.prefix p (p +:+ s) = true.
Proof.
  induction p as [|c p IH]; [by destruct s|].
  change ((if ascii_dec c c then String.prefix p (p +:+ s) else false) = true).
  destruct (ascii_dec c c); congruence.
Qed.

Lemma remove_prefix_app (p s : string) : remove_prefix p (p +:+ s) = s.
Proof. unfold remove_prefix. by rewrite prefix_app, drop_prefix_app. Qed.

Lemma prefix_split (p s : string) :
  String.prefix p s = true -> s = p +:+ drop_chars (String.length p) s.
Proof.
  revert s. induction p as [|c p IH]; intros s; [intros _; by destruct s|].
  destruct s as [|d s]; [done|]. simpl. destruct (ascii_dec c d) as [->|]; [|done].
  intros H. exact (f_equal (String d) (IH s H)).
Qed.

(** ** Lookups in tables *)

Lemma find_app_none {A} (f : A -> bool) l l' : find f l = None -> find f (l ++ l') = find f l'.
Proof. induction l as [|x l IH]; simpl; [done|]. destruct (f x); [done|auto]. Qed.

Lemma find_key {A} (f : A -> string) (l : list A) x :
  List.NoDup (map f l) -> In x l -> find (fun r => String.eqb (f r) (f x)) l = Some x.
Proof.
  induction l as [|y l IH]; simpl; [done|]. intros Hk Hx. apply List.NoDup_cons_iff in Hk as [Hn Hk].
  destruct Hx as [->|Hx]; [by rewrite String.eqb_refl|].
  destruct (String.eqb (f y) (f x)) eqn:E; [|auto]. apply String.eqb_eq in E. exfalso. apply Hn. rewrite E.
  by apply in_map.
Qed.

Lemma existsb_find_none {A} (f : A -> bool) l : existsb f l = false -> find f l = None.
Proof. induction l as [|x l IH]; simpl; [done|]. by destruct (f x). Qed.

#[export] Hint Resolve dedup_NoDup str_leb_refl sort_perm : astrid.
