(* ===== verification/Json.v ===== *)
(** * JSON values as Python sees them

    [json] is the data the runtime passes around: the values of [json.loads].
    Objects are association lists in insertion order, as Python dictionaries
    are; strings hold the UTF-8 bytes of the Python text, so that the order of
    [String.compare] is the code-point order of [sorted].  Numbers are
    integers: none of the modelled code computes with a float.

    The file gives dictionary access, Python truth values, Python equality,
    [canonical_json] of [util.py] and its inverse on canonical texts, with the
    round trip that makes a [*_json] column a faithful store for a value. *)

From Stdlib Require Import ZArith String Ascii List Bool Lia Sorted Permutation.
From Stdlib Require Import DecimalString DecimalZ Decimal.
From stdpp Require Import base list strings.
From S2P Require Import Prelude.

#[local] Unset Elimination Schemes.
Inductive json :=
  | JNull
  | JBool (b : bool)
  | JInt (z : Z)
  | JStr (s : string)
  | JArr (l : list json)
  | JObj (kvs : list (string * json)).
#[local] Set Elimination Schemes.

Section JsonInd.
Context (P : json -> Prop).
Context (Hnull : P JNull) (Hbool : forall b, P (JBool b)) (Hint : forall z, P (JInt z))
        (Hstr : forall s, P (JStr s))
        (Harr : forall l, Forall P l -> P (JArr l))
        (Hobj : forall kvs, Forall (fun kv => P kv.2) kvs -> P (JObj kvs)).

Fixpoint json_ind (j : json) : P j :=
  match j with
  | JNull => Hnull
  | JBool b => Hbool b
  | JInt z => Hint z
  | JStr s => Hstr s
  | JArr l => Harr l
      ((fix go (l : list json) : Forall P l :=
          match l with
          | [] => List.Forall_nil _
          | x :: r => @List.Forall_cons _ _ _ _ (json_ind x) (go r)
          end) l)
  | JObj kvs => Hobj kvs
      ((fix go (l : list (string * json)) : Forall (fun kv => P kv.2) l :=
          match l with
          | [] => List.Forall_nil _
          | x :: r => @List.Forall_cons _ _ x _ (json_ind x.2) (go r)
          end) kvs)
  end.
End JsonInd.

Fixpoint json_eq_dec (a b : json) {struct a} : {a = b} + {a <> b}.
Proof.
  destruct a as [|x|x|x|x|x], b as [|y|y|y|y|y];
    try (right; congruence); try (left; reflexivity).
  - destruct (bool_dec x y); [left; congruence | right; congruence].
  - destruct (Z.eq_dec x y); [left; congruence | right; congruence].
  - destruct (string_dec x y); [left; congruence | right; congruence].
  - assert ({x = y} + {x <> y}) as [H|H]; [|left; congruence|right; congruence].
    revert y. induction x as [|u x IH]; destruct y as [|v y];
      [by left | by right | by right |].
    destruct (json_eq_dec u v); [|right; congruence].
    destruct (IH y); [left; congruence | right; congruence].
  - assert ({x = y} + {x <> y}) as [H|H]; [|left; congruence|right; congruence].
    revert y. induction x as [|[k u] x IH]; destruct y as [|[k' v] y];
      [by left | by right | by right |].
    destruct (string_dec k k'); [|right; congruence].
    destruct (json_eq_dec u v); [|right; congruence].
    destruct (IH y); [left; congruence | right; congruence].
Defined.

#[global] Instance json_eq_decision : EqDecision json := json_eq_dec.

(** ** Dictionaries *)

Fixpoint alookup {A} (k : string) (l : list (string * A)) : option A :=
  match l with
  | [] => None
  | (k', v) :: r => if String.eqb k k' then Some v else alookup k r
  end.

(** [d[k] = v]: in place when the key exists, at the end otherwise. *)
Fixpoint aset {A} (k : string) (v : A) (l : list (string * A)) : list (string * A) :=
  match l with
  | [] => [(k, v)]
  | (k', v') :: r => if String.eqb k k' then (k, v) :: r else (k', v') :: aset k v r
  end.

Definition adel {A} (k : string) (l : list (string * A)) : list (string * A) :=
  List.filter (fun kv => negb (String.eqb k kv.1)) l.

Definition akeys {A} (l : list (string * A)) : list string := map fst l.

Section Assoc.
Context {A : Type}.
Implicit Types (l : list (string * A)) (k : string) (v : A).

Lemma alookup_aset_eq k v l : alookup k (aset k v l) = Some v.
Proof.
  induction l as [|[k' v'] l IH]; simpl; [by rewrite String.eqb_refl|].
  destruct (String.eqb k k') eqn:E; simpl; [by rewrite String.eqb_refl|].
  by rewrite E.
Qed.

Lemma alookup_aset_ne k k' v l : k <> k' -> alookup k (aset k' v l) = alookup k l.
Proof.
  intros Hne. induction l as [|[k2 v2] l IH]; simpl.
  - destruct (String.eqb k k') eqn:E; [apply String.eqb_eq in E; congruence|done].
  - destruct (String.eqb k' k2) eqn:E; simpl.
    + apply String.eqb_eq in E. subst k2. rewrite (proj2 (String.eqb_neq k k')); done.
    + destruct (String.eqb k k2); [done|apply IH].
Qed.

Lemma alookup_adel_eq k l : alookup k (adel k l) = None.
Proof.
  induction l as [|[k' v'] l IH]; simpl; [done|].
  destruct (String.eqb k k') eqn:E; simpl; [apply IH|]. by rewrite E.
Qed.

Lemma alookup_adel_ne k k' l : k <> k' -> alookup k (adel k' l) = alookup k l.
Proof.
  intros Hne. induction l as [|[k2 v2] l IH]; simpl; [done|].
  destruct (String.eqb k' k2) eqn:E; simpl.
  - apply String.eqb_eq in E. subst k2. rewrite (proj2 (String.eqb_neq k k')); done.
  - destruct (String.eqb k k2); [done|apply IH].
Qed.

Lemma alookup_In k v l : alookup k l = Some v -> In (k, v) l.
Proof.
  induction l as [|[k' v'] l IH]; simpl; [done|].
  destruct (String.eqb k k') eqn:E.
  - apply String.eqb_eq in E. intros [= ->]. subst. by left.
  - intros H. right. by apply IH.
Qed.

Lemma alookup_Some_key k l : is_Some (alookup k l) <-> In k (akeys l).
Proof.
  induction l as [|[k' v'] l IH]; simpl; [split; [by intros [? [=]]|done]|].
  destruct (String.eqb k k') eqn:E.
  - apply String.eqb_eq in E. subst. split; [by left|eauto].
  - apply String.eqb_neq in E. rewrite IH. split; [by right|]. intros [->|?]; done.
Qed.

Lemma alookup_None_key k l : alookup k l = None <-> ~ In k (akeys l).
Proof.
  rewrite <- alookup_Some_key, eq_None_not_Some. done.
Qed.

Lemma alookup_NoDup k v l :
  List.NoDup (akeys l) -> In (k, v) l -> alookup k l = Some v.
Proof.
  induction l as [|[k' v'] l IH]; simpl; [done|].
  inversion 1 as [|? ? Hk Hnd]; subst. intros [[= -> ->]|Hin].
  - by rewrite String.eqb_refl.
  - destruct (String.eqb k k') eqn:E; [|by apply IH].
    apply String.eqb_eq in E. subst. exfalso. apply Hk.
    by apply (in_map fst) in Hin.
Qed.

Lemma alookup_perm k l1 l2 :
  List.NoDup (akeys l1) -> Permutation l1 l2 -> alookup k l1 = alookup k l2.
Proof.
  intros Hnd Hp.
  assert (List.NoDup (akeys l2)) as Hnd2
    by (eapply Permutation_NoDup; [apply Permutation_map, Hp|done]).
  destruct (alookup k l1) as [v|] eqn:E.
  - symmetry. apply alookup_NoDup; [done|].
    eapply Permutation_in; [apply Hp|by apply alookup_In].
  - symmetry. apply alookup_None_key. apply alookup_None_key in E.
    intros Hin. apply E. eapply Permutation_in; [|apply Hin].
    apply Permutation_map. by symmetry.
Qed.

Lemma akeys_aset k v l :
  akeys (aset k v l) = if str_in k (akeys l) then akeys l else akeys l ++ [k].
Proof.
  induction l as [|[k' v'] l IH]; simpl; [done|].
  destruct (String.eqb k k') eqn:E; simpl.
  - apply String.eqb_eq in E. by subst.
  - rewrite IH. unfold str_in in *. destruct (existsb _ _); done.
Qed.

Lemma NoDup_aset k v l : List.NoDup (akeys l) -> List.NoDup (akeys (aset k v l)).
Proof.
  intros H. rewrite akeys_aset. destruct (str_in k (akeys l)) eqn:E; [done|].
  apply str_in_false in E. eapply Permutation_NoDup; [apply Permutation_cons_append|].
  by constructor.
Qed.

Lemma akeys_adel k l : akeys (adel k l) = List.filter (fun k' => negb (String.eqb k k')) (akeys l).
Proof.
  induction l as [|[k' v'] l IH]; simpl; [done|].
  destruct (String.eqb k k'); simpl; congruence.
Qed.

Lemma NoDup_adel k l : List.NoDup (akeys l) -> List.NoDup (akeys (adel k l)).
Proof. intros H. rewrite akeys_adel. by apply List.NoDup_filter. Qed.
End Assoc.

(** [d.get(k)] and [k in d]; the callers test [isinstance(d, dict)] first. *)
Definition jfields (j : json) : list (string * json) :=
  match j with JObj kvs => kvs | _ => [] end.

Definition jget (j : json) (k : string) : json := default JNull (alookup k (jfields j)).

(** [d.get(k, v)] *)
Definition jget_def (j : json) (k : string) (v : json) : json := default v (alookup k (jfields j)).

Definition jhas (j : json) (k : string) : bool :=
  match alookup k (jfields j) with Some _ => true | None => false end.

Definition jkeys (j : json) : list string := akeys (jfields j).

Definition jset (j : json) (k : string) (v : json) : json := JObj (aset k v (jfields j)).

Definition jdel (j : json) (k : string) : json := JObj (adel k (jfields j)).

(** ** Type tests and truth values *)

Definition is_null (j : json) : bool := match j with JNull => true | _ => false end.
Definition is_bool (j : json) : bool := match j with JBool _ => true | _ => false end.
Definition is_str (j : json) : bool := match j with JStr _ => true | _ => false end.
Definition is_list (j : json) : bool := match j with JArr _ => true | _ => false end.
Definition is_dict (j : json) : bool := match j with JObj _ => true | _ => false end.

(** [isinstance(v, int)]: true of [True] and [False] as well. *)
Definition is_int (j : json) : bool :=
  match j with JInt _ | JBool _ => true | _ => false end.

(** [isinstance(v, int) and not isinstance(v, bool)] *)
Definition as_int (j : json) : option Z := match j with JInt z => Some z | _ => None end.
Definition as_str (j : json) : option string := match j with JStr s => Some s | _ => None end.
Definition as_list (j : json) : option (list json) := match j with JArr l => Some l | _ => None end.

Definition truthy (j : json) : bool :=
  match j with
  | JNull => false
  | JBool b => b
  | JInt z => negb (z =? 0)%Z
  | JStr s => nonempty s
  | JArr l => match l with [] => false | _ => true end
  | JObj l => match l with [] => false | _ => true end
  end.

(** [a or b] *)
Definition py_or (a b : json) : json := if truthy a then a else b.

(** Values that a Python set or dictionary can hold as a key. *)
Definition hashable (j : json) : bool :=
  match j with JArr _ | JObj _ => false | _ => true end.

Definition is_json_str (s : string) (j : json) : bool :=
  match j with JStr x => String.eqb s x | _ => false end.

(** ** Python equality *)

Definition num_of (j : json) : option Z :=
  match j with JInt z => Some z | JBool b => Some (if b then 1 else 0)%Z | _ => None end.

Fixpoint py_eq (a b : json) {struct a} : bool :=
  match a, b with
  | JNull, JNull => true
  | JStr x, JStr y => String.eqb x y
  | JArr x, JArr y =>
      (fix go (x y : list json) : bool :=
         match x, y with
         | [], [] => true
         | u :: x', v :: y' => py_eq u v && go x' y'
         | _, _ => false
         end) x y
  | JObj x, JObj y =>
      Nat.eqb (length x) (length y) &&
      (fix go (x : list (string * json)) : bool :=
         match x with
         | [] => true
         | (k, u) :: x' =>
             match alookup k y with Some v => py_eq u v | None => false end && go x'
         end) x
  | _, _ =>
      match num_of a, num_of b with
      | Some i, Some j => (i =? j)%Z
      | _, _ => false
      end
  end.

(** Every object of the value has pairwise distinct keys, as dictionaries do. *)
Inductive jwf : json -> Prop :=
  | jwf_null : jwf JNull
  | jwf_bool b : jwf (JBool b)
  | jwf_int z : jwf (JInt z)
  | jwf_str s : jwf (JStr s)
  | jwf_arr l : Forall jwf l -> jwf (JArr l)
  | jwf_obj kvs : List.NoDup (akeys kvs) -> Forall (fun kv => jwf kv.2) kvs -> jwf (JObj kvs).

#[export] Hint Constructors jwf : astrid.

(** Decision procedure for [jwf], used on closed values. *)
Fixpoint jwfb (j : json) : bool :=
  match j with
  | JArr l => forallb jwfb l
  | JObj kvs => negb (has_dup (akeys kvs)) && forallb (fun kv => jwfb kv.2) kvs
  | _ => true
  end.

Lemma jwfb_sound j : jwfb j = true -> jwf j.
Proof.
  induction j as [|b|z|s|l IH|kvs IH] using json_ind; simpl; intros H; try constructor.
  - rewrite forallb_forall in H. rewrite List.Forall_forall in *. auto.
  - apply andb_true_iff in H as [H _]. apply has_dup_false. by apply negb_true_iff.
  - apply andb_true_iff in H as [_ H]. rewrite forallb_forall in H.
    rewrite List.Forall_forall in *. auto.
Qed.

Ltac solve_jwf := apply jwfb_sound; vm_compute; reflexivity.

Lemma py_eq_arr_refl l :
  Forall (fun v => py_eq v v = true) l -> py_eq (JArr l) (JArr l) = true.
Proof. induction 1 as [|v l Hv _ IH]; [done|]. simpl in *. by rewrite Hv. Qed.

Lemma py_eq_refl v : jwf v -> py_eq v v = true.
Proof.
  induction v as [|b|z|s|l IH|kvs IH] using json_ind; intros Hwf; simpl; try done.
  - by destruct b.
  - apply Z.eqb_refl.
  - apply String.eqb_refl.
  - apply py_eq_arr_refl. inversion Hwf as [| | | |? Hl|]; subst.
    rewrite Forall_forall in *. auto.
  - inversion Hwf as [| | | | |? Hnd Hl]; subst. rewrite Nat.eqb_refl. simpl.
    assert (forall x, incl x kvs ->
      (fix go (x : list (string * json)) : bool :=
         match x with
         | [] => true
         | (k, u) :: x' =>
             match alookup k kvs with Some v => py_eq u v | None => false end && go x'
         end) x = true) as Hgo; [|apply Hgo, incl_refl].
    intros x. induction x as [|[k u] x IHx]; intros Hx; [done|].
    assert (In (k, u) kvs) as Hin by (apply Hx; by left).
    rewrite (alookup_NoDup k u kvs) by done.
    rewrite !Forall_forall in *. rewrite IHx by (intros y Hy; apply Hx; by right).
    assert (py_eq u u = true) as ->; [|done].
    apply (IH (k, u)); [by apply list_elem_of_In|].
    apply (Hl (k, u)). by apply list_elem_of_In.
Qed.

(** ** Canonical texts *)

(** [sort_keys=True]: every object with its keys in increasing order. *)
Definition key_leb {A} (a b : string * A) : bool := String.leb a.1 b.1.

Fixpoint jnorm (j : json) : json :=
  match j with
  | JArr l => JArr (map jnorm l)
  | JObj kvs => JObj (sort key_leb (map (fun kv => (kv.1, jnorm kv.2)) kvs))
  | _ => j
  end.

Definition quote_char : ascii := ascii_of_nat 34.
Definition backslash : ascii := ascii_of_nat 92.
Definition hex_digit (n : N) : ascii :=
  if (n <? 10)%N then ascii_of_N (48 + n) else ascii_of_N (87 + n).

(** The escapes of [json.dumps] with [ensure_ascii=False]. *)
Definition esc_char (c : ascii) : string :=
  let n := N_of_ascii c in
  if (n =? 34)%N then String backslash (String quote_char EmptyString)
  else if (n =? 92)%N then String backslash (String backslash EmptyString)
  else if (n =? 10)%N then String backslash "n"
  else if (n =? 13)%N then String backslash "r"
  else if (n =? 9)%N then String backslash "t"
  else if (n =? 12)%N then String backslash "f"
  else if (n =? 8)%N then String backslash "b"
  else if (n <? 32)%N then
    String backslash (String "u" (String "0" (String "0"
      (String (hex_digit (n / 16)) (String (hex_digit (n mod 16)) EmptyString)))))
  else String c EmptyString.

Fixpoint esc_string (s : string) : string :=
  match s with
  | EmptyString => EmptyString
  | String c r => esc_char c +:+ esc_string r
  end.

Definition quoted (s : string) : string :=
  String quote_char (esc_string s +:+ String quote_char EmptyString).

(** [str(n)] of an integer. *)
Definition dec_string (z : Z) : string := NilZero.string_of_int (Z.to_int z).

(** [json.dumps(value, separators=(",", ":"), ensure_ascii=False)] *)
Fixpoint dumps (j : json) : string :=
  match j with
  | JNull => "null"
  | JBool true => "true"
  | JBool false => "false"
  | JInt z => dec_string z
  | JStr s => quoted s
  | JArr l => "[" +:+ (str_join "," (map dumps l) +:+ "]")
  | JObj kvs =>
      "{" +:+ (str_join "," (map (fun kv => quoted kv.1 +:+ (":" +:+ dumps kv.2)) kvs) +:+ "}")
  end.

(** [util.canonical_json] *)
Definition canonical_json (v : json) : string := dumps (jnorm v).

(** The value read back from a column that was written as [canonical_json v]
    ([loads_canonical] below proves that reading the text gives this value). *)
Definition json_column (v : json) : json := jnorm v.

(** *** Reading canonical texts *)

Definition hex_value (c : ascii) : option N :=
  let n := N_of_ascii c in
  if is_digit c then Some (n - 48)%N
  else if (97 <=? n)%N && (n <=? 102)%N then Some (n - 87)%N
  else None.

(** The body of a string literal up to its closing quote. *)
Fixpoint parse_chars (s : string) : option (string * string) :=
  match s with
  | EmptyString => None
  | String c r =>
      if Ascii.eqb c quote_char then Some (EmptyString, r)
      else if Ascii.eqb c backslash then
        match r with
        | EmptyString => None
        | String e r' =>
            let put x := match parse_chars r' with
                         | Some (body, rest) => Some (String x body, rest)
                         | None => None
                         end in
            if Ascii.eqb e quote_char then put quote_char
            else if Ascii.eqb e backslash then put backslash
            else if Ascii.eqb e "/" then put "/"%char
            else if Ascii.eqb e "n" then put (ascii_of_nat 10)
            else if Ascii.eqb e "r" then put (ascii_of_nat 13)
            else if Ascii.eqb e "t" then put (ascii_of_nat 9)
            else if Ascii.eqb e "f" then put (ascii_of_nat 12)
            else if Ascii.eqb e "b" then put (ascii_of_nat 8)
            else if Ascii.eqb e "u" then
              match r' with
              | String z1 (String z2 (String h (String l r''))) =>
                  match hex_value z1, hex_value z2, hex_value h, hex_value l with
                  | Some 0%N, Some 0%N, Some h, Some l =>
                      if (h <? 8)%N then
                        match parse_chars r'' with
                        | Some (body, rest) => Some (String (ascii_of_N (16 * h + l)) body, rest)
                        | None => None
                        end
                      else None
                  | _, _, _, _ => None
                  end
              | _ => None
              end
            else None
        end
      else if is_control c then None
      else match parse_chars r with
           | Some (body, rest) => Some (String c body, rest)
           | None => None
           end
  end.

Fixpoint span_digits (s : string) : string * string :=
  match s with
  | String c r => if is_digit c then let '(d, rest) := span_digits r in (String c d, rest)
                  else (EmptyString, s)
  | EmptyString => (EmptyString, EmptyString)
  end.

Definition parse_int (s : string) : option (json * string) :=
  let '(sign, body) :=
    match s with
    | String c r => if Ascii.eqb c "-" then ("-", r) else ("", s)
    | EmptyString => ("", s)
    end in
  let '(digits, rest) := span_digits body in
  match NilZero.int_of_string (sign +:+ digits) with
  | Some d => Some (JInt (Z.of_int d), rest)
  | None => None
  end.

Definition starts_with_char (c : ascii) (s : string) : bool :=
  match s with String d _ => Ascii.eqb c d | EmptyString => false end.

(** Canonical values (no insignificant white space, integers only, escapes
    below U+0080): the texts [canonical_json] writes. *)
Fixpoint parse_value (fuel : nat) (s : string) {struct fuel} : option (json * string) :=
  match fuel with
  | O => None
  | S f =>
      match s with
      | EmptyString => None
      | String c r =>
          if Ascii.eqb c quote_char then
            match parse_chars r with
            | Some (body, rest) => Some (JStr body, rest)
            | None => None
            end
          else if Ascii.eqb c "[" then
            if starts_with_char "]" r then Some (JArr [], drop_chars 1 r)
            else match parse_elems f r with
                 | Some (l, rest) => Some (JArr l, rest)
                 | None => None
                 end
          else if Ascii.eqb c "{" then
            if starts_with_char "}" r then Some (JObj [], drop_chars 1 r)
            else match parse_fields f r with
                 | Some (l, rest) => Some (JObj l, rest)
                 | None => None
                 end
          else if String.prefix "null" s then Some (JNull, drop_chars 4 s)
          else if String.prefix "true" s then Some (JBool true, drop_chars 4 s)
          else if String.prefix "false" s then Some (JBool false, drop_chars 5 s)
          else parse_int s
      end
  end
with parse_elems (fuel : nat) (s : string) {struct fuel} : option (list json * string) :=
  match fuel with
  | O => None
  | S f =>
      match parse_value f s with
      | Some (v, String c r) =>
          if Ascii.eqb c "," then
            match parse_elems f r with
            | Some (l, rest) => Some (v :: l, rest)
            | None => None
            end
          else if Ascii.eqb c "]" then Some ([v], r)
          else None
      | _ => None
      end
  end
with parse_fields (fuel : nat) (s : string) {struct fuel} : option (list (string * json) * string) :=
  match fuel with
  | O => None
  | S f =>
      match s with
      | String q r0 =>
          if Ascii.eqb q quote_char then
            match parse_chars r0 with
            | Some (k, String colon r1) =>
                if Ascii.eqb colon ":" then
                  match parse_value f r1 with
                  | Some (v, String c r) =>
                      if Ascii.eqb c "," then
                        match parse_fields f r with
                        | Some (l, rest) => Some ((k, v) :: l, rest)
                        | None => None
                        end
                      else if Ascii.eqb c "}" then Some ([(k, v)], r)
                      else None
                  | _ => None
                  end
                else None
            | _ => None
            end
          else None
      | EmptyString => None
      end
  end.

(** [json.loads] on a canonical text: the whole text is one value. *)
Definition json_loads (s : string) : option json :=
  match parse_value (S (String.length s)) s with
  | Some (v, EmptyString) => Some v
  | _ => None
  end.

(** *** The round trip *)

Lemma app_cons (c : ascii) (a b : string) : String c a +:+ b = String c (a +:+ b).
Proof. done. Qed.

Lemma app_empty (b : string) : "" +:+ b = b.
Proof. done. Qed.

(** Bring a concatenation of literals and texts to right-nested form. *)
Ltac str_norm := repeat (rewrite str_app_assoc || rewrite app_cons || rewrite app_empty).

(** Each escaped character is read back as itself. *)
Lemma parse_chars_esc c rest :
  parse_chars (esc_char c +:+ rest) =
  match parse_chars rest with
  | Some (body, r) => Some (String c body, r)
  | None => None
  end.
Proof. destruct c as [[] [] [] [] [] [] [] []]; reflexivity. Qed.

Lemma parse_chars_quoted s rest :
  parse_chars (esc_string s +:+ String quote_char rest) = Some (s, rest).
Proof.
  induction s as [|c s IH]; [done|]. simpl.
  rewrite str_app_assoc, parse_chars_esc, IH. done.
Qed.

(** [rest] cannot continue a number. *)
Definition ends_number (rest : string) : Prop :=
  match rest with String c _ => is_digit c = false | EmptyString => True end.

Lemma span_digits_uint d rest :
  ends_number rest ->
  span_digits (NilEmpty.string_of_uint d +:+ rest) = (NilEmpty.string_of_uint d, rest).
Proof.
  intros Hr. induction d as [|d IH|d IH|d IH|d IH|d IH|d IH|d IH|d IH|d IH|d IH];
    simpl; [|by rewrite IH ..].
  change ("" +:+ rest) with rest.
  destruct rest as [|c r]; [done|]. simpl in *. by rewrite Hr.
Qed.

Lemma span_digits_nilzero d rest :
  ends_number rest ->
  span_digits (NilZero.string_of_uint d +:+ rest) = (NilZero.string_of_uint d, rest).
Proof.
  intros Hr. destruct d; try (by apply (span_digits_uint _ rest)).
  pose proof (span_digits_uint (Decimal.D0 Decimal.Nil) rest Hr) as H. exact H.
Qed.

Lemma to_int_not_nil z : Z.to_int z <> Decimal.Pos Decimal.Nil /\ Z.to_int z <> Decimal.Neg Decimal.Nil.
Proof.
  destruct z as [|p|p]; simpl; split; try done;
    intros [= H]; by apply (DecimalPos.Unsigned.to_uint_nonnil p).
Qed.

Lemma nilzero_head d : exists c r, NilZero.string_of_uint d = String c r /\ is_digit c = true.
Proof. destruct d; simpl; eauto. Qed.

Lemma parse_int_dec z rest :
  ends_number rest -> parse_int (dec_string z +:+ rest) = Some (JInt z, rest).
Proof.
  intros Hr. unfold dec_string, parse_int.
  destruct (to_int_not_nil z) as [Hp Hn].
  pose proof (NilZero.isi (Z.to_int z) Hp Hn) as Hsis.
  pose proof (DecimalZ.of_to z) as Hof.
  destruct (Z.to_int z) as [d|d]; simpl in *.
  - destruct (nilzero_head d) as (c & r & E & Hc).
    rewrite E, app_cons.
    assert (Ascii.eqb c "-" = false) as ->.
    { destruct (Ascii.eqb c "-") eqn:Ec; [|done]. apply Ascii.eqb_eq in Ec. by subst. }
    rewrite <- app_cons, <- E, span_digits_nilzero by done.
    change ("" +:+ NilZero.string_of_uint d) with (NilZero.string_of_uint d).
    rewrite Hsis. simpl. by rewrite Hof.
  - rewrite span_digits_nilzero by done.
    change ("" +:+ NilZero.string_of_uint d) with (NilZero.string_of_uint d).
    rewrite Hsis. simpl. by rewrite Hof.
Qed.

(** Fuel that suffices for the text of a value. *)
Fixpoint jsize (j : json) : nat :=
  match j with
  | JArr l => S (list_sum (map (fun v => S (jsize v)) l))
  | JObj kvs => S (list_sum (map (fun kv => S (jsize kv.2)) kvs))
  | _ => 1
  end.

Definition field_text (kv : string * json) : string := quoted kv.1 +:+ (":" +:+ dumps kv.2).

Lemma dec_string_head z : exists c r, dec_string z = String c r /\ (c = "-"%char \/ is_digit c = true).
Proof.
  unfold dec_string. destruct (Z.to_int z) as [d|d]; simpl.
  - destruct (nilzero_head d) as (c & r & -> & H). eauto.
  - eauto.
Qed.

Lemma head_digit_char c : c = "-"%char \/ is_digit c = true ->
  Ascii.eqb c quote_char = false /\ Ascii.eqb c "[" = false /\ Ascii.eqb c "{" = false /\
  c <> "n"%char /\ c <> "t"%char /\ c <> "f"%char /\ c <> "]"%char /\ c <> "}"%char.
Proof.
  intros H. repeat split;
    try (destruct (Ascii.eqb c _) eqn:E; [apply Ascii.eqb_eq in E|done]; subst c);
    try intros ->; destruct H as [H|H]; done.
Qed.

Lemma prefix_head_ne c d p s : c <> d -> String.prefix (String c p) (String d s) = false.
Proof. simpl. by destruct (ascii_dec c d). Qed.

Lemma dumps_head v : exists c r, dumps v = String c r /\ c <> "]"%char /\ c <> "}"%char.
Proof.
  destruct v as [|[]|z|s|l|kvs]; simpl; unfold quoted; rewrite ?app_cons; eauto.
  destruct (dec_string_head z) as (c & r & -> & H). apply head_digit_char in H.
  exists c, r. repeat split; apply H.
Qed.

(** Reading the text of one value, of the elements of an array and of the
    fields of an object, followed by any text that does not extend a number. *)
Definition reads (v : json) : Prop :=
  forall fuel rest, (jsize v <= fuel)%nat -> ends_number rest ->
    parse_value fuel (dumps v +:+ rest) = Some (v, rest).

Lemma parse_elems_reads l fuel rest :
  l <> [] -> Forall reads l ->
  (list_sum (map (fun v => S (jsize v)) l) <= fuel)%nat ->
  parse_elems fuel (str_join "," (map dumps l) +:+ String "]" rest) = Some (l, rest).
Proof.
  intros Hne Hl. revert fuel Hne.
  induction Hl as [|v l Hv Hl IH]; intros fuel Hne Hf; [done|].
  destruct fuel as [|fuel]; [simpl in Hf; lia|].
  destruct l as [|v2 l].
  - simpl in *. rewrite (Hv fuel (String "]" rest)) by (simpl; lia || done). done.
  - change (str_join "," (map dumps (v :: v2 :: l)))
      with (dumps v +:+ ("," +:+ str_join "," (map dumps (v2 :: l)))).
    rewrite !str_app_assoc. cbn [parse_elems].
    change ("," +:+ (str_join "," (map dumps (v2 :: l)) +:+ String "]" rest))
      with (String "," (str_join "," (map dumps (v2 :: l)) +:+ String "]" rest)).
    rewrite Hv by (simpl in *; lia || done).
    simpl (Ascii.eqb "," ",").  cbv iota.
    rewrite IH; [done|done|]. simpl in *. lia.
Qed.

Lemma parse_fields_reads l fuel rest :
  l <> [] -> Forall (fun kv => reads kv.2) l ->
  (list_sum (map (fun kv => S (jsize kv.2)) l) <= fuel)%nat ->
  parse_fields fuel (str_join "," (map field_text l) +:+ String "}" rest) = Some (l, rest).
Proof.
  intros Hne Hl. revert fuel Hne.
  induction Hl as [|[k v] l Hv Hl IH]; intros fuel Hne Hf; [done|].
  destruct fuel as [|fuel]; [simpl in Hf; lia|]. simpl in Hv.
  assert (forall tail, parse_fields (S fuel) (field_text (k, v) +:+ tail) =
      match parse_value fuel (dumps v +:+ tail) with
      | Some (v', String c r) =>
          if Ascii.eqb c "," then
            match parse_fields fuel r with
            | Some (l, rest) => Some ((k, v') :: l, rest)
            | None => None
            end
          else if Ascii.eqb c "}" then Some ([(k, v')], r) else None
      | _ => None
      end) as Hstep.
  { intros tail. unfold field_text, quoted. simpl fst. simpl snd.
    str_norm. cbn [parse_fields]. simpl (Ascii.eqb quote_char quote_char). cbv iota.
    by rewrite parse_chars_quoted. }
  destruct l as [|kv2 l].
  - change (str_join "," (map field_text [(k, v)])) with (field_text (k, v)).
    rewrite Hstep. rewrite Hv by (simpl in *; lia || done). done.
  - change (str_join "," (map field_text ((k, v) :: kv2 :: l)))
      with (field_text (k, v) +:+ ("," +:+ str_join "," (map field_text (kv2 :: l)))).
    rewrite !str_app_assoc. rewrite Hstep.
    change ("," +:+ (str_join "," (map field_text (kv2 :: l)) +:+ String "}" rest))
      with (String "," (str_join "," (map field_text (kv2 :: l)) +:+ String "}" rest)).
    rewrite Hv by (simpl in *; lia || done). simpl (Ascii.eqb "," ","). cbv iota.
    rewrite IH; [done|done|]. simpl in *. lia.
Qed.

Lemma join_head sep x l : exists t, str_join sep (x :: l) = x +:+ t.
Proof. destruct l; simpl; eauto. exists "". by rewrite str_app_nil_r. Qed.

Lemma starts_with_join_elems v l rest :
  starts_with_char "]" (str_join "," (map dumps (v :: l)) +:+ rest) = false.
Proof.
  simpl map. destruct (join_head "," (dumps v) (map dumps l)) as [t ->].
  destruct (dumps_head v) as (c & r & -> & Hc & _). rewrite !app_cons. simpl.
  destruct (Ascii.eqb "]" c) eqn:E; [|done]. apply Ascii.eqb_eq in E. by subst.
Qed.

Theorem dumps_reads v : reads v.
Proof.
  induction v as [|b|z|s|l IH|kvs IH] using json_ind;
    intros [|fuel] rest Hf Hr; try (simpl in Hf; lia).
  - destruct rest; done.
  - destruct b; destruct rest; done.
  - cbn [dumps]. destruct (dec_string_head z) as (c & r & E & Hc).
    pose proof (head_digit_char c Hc) as (H1 & H2 & H3 & H4 & H5 & H6 & _).
    pose proof (parse_int_dec z rest Hr) as Hp. rewrite E, app_cons in *.
    cbn [parse_value]. rewrite H1, H2, H3, !prefix_head_ne by congruence. exact Hp.
  - cbn [dumps]. unfold quoted. rewrite app_cons. cbn [parse_value].
    simpl (Ascii.eqb quote_char quote_char). cbv iota.
    rewrite str_app_assoc.
    change (String quote_char "" +:+ rest) with (String quote_char rest).
    by rewrite parse_chars_quoted.
  - cbn [dumps]. rewrite !str_app_assoc.
    change ("[" +:+ (str_join "," (map dumps l) +:+ ("]" +:+ rest)))
      with (String "[" (str_join "," (map dumps l) +:+ String "]" rest)).
    cbn [parse_value]. simpl (Ascii.eqb "[" quote_char). simpl (Ascii.eqb "[" "["). cbv iota.
    destruct l as [|v l]; [done|].
    rewrite starts_with_join_elems, parse_elems_reads; [done|done|done|].
    simpl in *. lia.
  - cbn [dumps]. rewrite !str_app_assoc.
    change (map (fun kv : string * json => quoted kv.1 +:+ (":" +:+ dumps kv.2)) kvs)
      with (map field_text kvs).
    change ("{" +:+ (str_join "," (map field_text kvs) +:+ ("}" +:+ rest)))
      with (String "{" (str_join "," (map field_text kvs) +:+ String "}" rest)).
    cbn [parse_value]. simpl (Ascii.eqb "{" quote_char).
    simpl (Ascii.eqb "{" "["). simpl (Ascii.eqb "{" "{"). cbv iota.
    destruct kvs as [|kv kvs]; [done|].
    assert (starts_with_char "}" (str_join "," (map field_text (kv :: kvs)) +:+ String "}" rest) = false) as ->.
    { simpl map. destruct (join_head "," (field_text kv) (map field_text kvs)) as [t ->]. done. }
    rewrite parse_fields_reads; [done|done|done|]. simpl in *. lia.
Qed.

Lemma str_join_length (sep : string) l :
  l <> [] ->
  (String.length (str_join sep l) + String.length sep =
   list_sum (map (fun x => String.length x + String.length sep)%nat l))%nat.
Proof.
  induction l as [|x l IH]; intros Hne; [done|].
  destruct l as [|y l]; [simpl; lia|].
  change (str_join sep (x :: y :: l)) with (x +:+ (sep +:+ str_join sep (y :: l))).
  rewrite !str_length_app. simpl in *. rewrite <- IH by done. lia.
Qed.

Lemma list_sum_le {A} (f g : A -> nat) l :
  Forall (fun x => f x <= g x)%nat l -> (list_sum (map f l) <= list_sum (map g l))%nat.
Proof. induction 1; simpl; lia. Qed.

Lemma jsize_length v : (jsize v <= String.length (dumps v))%nat.
Proof.
  induction v as [|b|z|s|l IH|kvs IH] using json_ind; cbn [jsize dumps].
  - simpl. lia.
  - destruct b; simpl; lia.
  - destruct (dec_string_head z) as (c & r & -> & _). simpl. lia.
  - unfold quoted. simpl. lia.
  - rewrite !str_length_app. destruct l as [|v l]; [simpl; lia|].
    assert (Forall (fun x => S (jsize x) <= String.length (dumps x) + 1)%nat (v :: l)) as H.
    { eapply List.Forall_impl; [|apply IH]. simpl. intros. lia. }
    apply list_sum_le in H. pose proof (str_join_length "," (map dumps (v :: l))) as HL.
    rewrite map_map in HL. simpl String.length in *. specialize (HL ltac:(done)). lia.
  - rewrite !str_length_app. destruct kvs as [|kv kvs]; [simpl; lia|].
    set (ft := fun kv : string * json => quoted kv.1 +:+ (":" +:+ dumps kv.2)).
    assert (Forall (fun x => S (jsize x.2) <= String.length (ft x) + 1)%nat (kv :: kvs)) as H.
    { eapply List.Forall_impl; [|apply IH]. subst ft. simpl. intros. rewrite !str_length_app. lia. }
    apply list_sum_le in H. pose proof (str_join_length "," (map ft (kv :: kvs))) as HL.
    rewrite map_map in HL. simpl String.length in *. specialize (HL ltac:(done)). lia.
Qed.

Theorem json_loads_dumps v : json_loads (dumps v) = Some v.
Proof.
  unfold json_loads. pose proof (dumps_reads v (S (String.length (dumps v))) "") as H.
  rewrite str_app_nil_r in H. rewrite H; [done| |done].
  pose proof (jsize_length v). lia.
Qed.

(** *** Normal forms *)

Lemma key_leb_total {A} (x y : string * A) : key_leb x y = true \/ key_leb y x = true.
Proof. apply str_leb_total. Qed.

Lemma key_leb_trans {A} (x y z : string * A) :
  key_leb x y = true -> key_leb y z = true -> key_leb x z = true.
Proof. apply str_leb_trans. Qed.

Lemma jnorm_idem v : jnorm (jnorm v) = jnorm v.
Proof.
  induction v as [|b|z|s|l IH|kvs IH] using json_ind; simpl; try done.
  - f_equal. rewrite map_map. apply map_ext_in. intros x Hx.
    rewrite Forall_forall in IH. apply IH. by apply list_elem_of_In.
  - f_equal.
    set (g := fun kv : string * json => (kv.1, jnorm kv.2)).
    rewrite map_id_Forall.
    + apply sort_sorted_id, sort_sorted; [apply key_leb_total|apply key_leb_trans].
    + apply List.Forall_forall. intros x Hx. apply sort_in, in_map_iff in Hx.
      destruct Hx as ([k u] & <- & Hin). unfold g. simpl. f_equal.
      rewrite Forall_forall in IH. apply (IH (k, u)). by apply list_elem_of_In.
Qed.

(** Two values have the same canonical text exactly when they are equal up to
    the order of their keys. *)
Theorem canonical_json_inj a b :
  canonical_json a = canonical_json b <-> jnorm a = jnorm b.
Proof.
  unfold canonical_json. split; [|congruence].
  intros H. apply (f_equal json_loads) in H. rewrite !json_loads_dumps in H. congruence.
Qed.

Lemma jnorm_keys_perm kvs :
  Permutation (akeys (sort key_leb (map (fun kv => (kv.1, jnorm kv.2)) kvs))) (akeys kvs).
Proof.
  unfold akeys. rewrite (sort_perm key_leb), map_map. done.
Qed.

Lemma jnorm_wf v : jwf v -> jwf (jnorm v).
Proof.
  induction v as [|b|z|s|l IH|kvs IH] using json_ind; intros Hwf; simpl; auto with astrid.
  - inversion Hwf as [| | | |? Hl|]; subst. constructor.
    rewrite List.Forall_map. rewrite !Forall_forall in *. eauto.
  - inversion Hwf as [| | | | |? Hnd Hl]; subst. constructor.
    + eapply Permutation_NoDup; [symmetry; apply jnorm_keys_perm|done].
    + eapply Permutation_Forall; [symmetry; apply sort_perm|].
      rewrite List.Forall_map. simpl. rewrite !Forall_forall in *. eauto.
Qed.

(** Reading a field of a stored dictionary gives the stored field. *)
Lemma jnorm_get v k : jwf v -> jget (jnorm v) k = jnorm (jget v k).
Proof.
  intros Hwf. destruct v as [| | | |l|kvs]; try done.
  inversion Hwf as [| | | | |? Hnd Hl]; subst. unfold jget. simpl.
  rewrite <- (alookup_perm k (map (fun kv => (kv.1, jnorm kv.2)) kvs)).
  - clear. induction kvs as [|[k' u] kvs IH]; simpl; [done|].
    destruct (String.eqb k k'); done.
  - unfold akeys. by rewrite map_map.
  - symmetry. apply sort_perm.
Qed.

(** Sorting keeps the first entry of a key in front of the others. *)
Lemma alookup_insert {A} k (x : string * A) l : alookup k (insert_sorted key_leb x l) = alookup k (x :: l).
Proof.
  induction l as [|y l IH]; [done|]. cbn [insert_sorted]. destruct (key_leb x y) eqn:E; [done|].
  destruct x as [a u], y as [b v]. cbn [alookup] in *. rewrite IH. unfold key_leb in E. simpl in E.
  destruct (String.eqb k b) eqn:Eb, (String.eqb k a) eqn:Ea; try done. apply String.eqb_eq in Ea, Eb. subst.
  by rewrite str_leb_refl in E.
Qed.

Lemma alookup_sort {A} k (l : list (string * A)) : alookup k (sort key_leb l) = alookup k l.
Proof.
  induction l as [|x l IH]; [done|]. change (sort key_leb (x :: l)) with (insert_sorted key_leb x (sort key_leb l)).
  rewrite alookup_insert. destruct x as [a u]. cbn [alookup]. by rewrite IH.
Qed.

Lemma jget_jnorm v k : jget (jnorm v) k = jnorm (jget v k).
Proof.
  destruct v as [| | | | |kvs]; try done. unfold jget. simpl. rewrite alookup_sort.
  induction kvs as [|[k' v] kvs IH]; simpl; [done|]. by destruct (String.eqb k k').
Qed.

(** Key order is the only thing that normalisation changes, so Python sees no
    difference. *)
Lemma jnorm_truthy v : truthy (jnorm v) = truthy v.
Proof.
  destruct v as [| | | |[]|kvs]; try done. simpl.
  destruct kvs as [|kv kvs]; [done|]. cbn [map].
  destruct (sort key_leb _) eqn:E; [|done].
  pose proof (sort_perm key_leb (map (fun kv => (kv.1, jnorm kv.2)) (kv :: kvs))) as H.
  simpl in *. rewrite E in H. by apply Permutation_nil in H.
Qed.

#[export] Hint Resolve jnorm_wf json_loads_dumps : astrid.
#[export] Hint Rewrite @alookup_aset_eq @alookup_adel_eq jnorm_idem : astrid_rw.

(** C26: a value written to a [*_json] column with [canonical_json] is read
    back by [json.loads] as the same value with its keys in order. *)
Theorem loads_canonical v : json_loads (canonical_json v) = Some (json_column v).
Proof. apply json_loads_dumps. Qed.

(** ** [str()] of any value

    [str()] of a container is its [repr]; characters outside ASCII are kept as
    they are. *)

Definition repr_digit (n : N) : ascii := ascii_of_N (if (n <? 10)%N then n + 48 else n + 87)%N.

Definition repr_char (quote c : ascii) : string :=
  let n := N_of_ascii c in
  if Ascii.eqb c quote || Ascii.eqb c "\"%char then String "\"%char (String c EmptyString) else
  if (n =? 9)%N then "\t" else if (n =? 10)%N then "\n" else if (n =? 13)%N then "\r" else
  if is_control c || (n =? 127)%N
  then String "\"%char (String "x"%char (String (repr_digit (n / 16)) (String (repr_digit (n mod 16)) EmptyString)))
  else String c EmptyString.

Fixpoint repr_chars (quote : ascii) (s : string) : string :=
  match s with EmptyString => EmptyString | String c r => repr_char quote c +:+ repr_chars quote r end.

Fixpoint has_char (c : ascii) (s : string) : bool :=
  match s with EmptyString => false | String x r => Ascii.eqb c x || has_char c r end.

Definition double_quote : ascii := ascii_of_N 34.

(** The [repr] of a text uses double quotes when it holds only single ones. *)
Definition repr_str (s : string) : string :=
  let quote := if has_char "'"%char s && negb (has_char double_quote s) then double_quote else "'"%char in
  String quote (repr_chars quote s +:+ String quote EmptyString).

Fixpoint py_repr (j : json) : string :=
  match j with
  | JNull => "None"
  | JBool b => if b then "True" else "False"
  | JInt z => dec_string z
  | JStr s => repr_str s
  | JArr l => "[" +:+ str_join ", " (map py_repr l) +:+ "]"
  | JObj kvs => "{" +:+ str_join ", " (map (fun kv => repr_str kv.1 +:+ ": " +:+ py_repr kv.2) kvs) +:+ "}"
  end.

Definition py_text (j : json) : string := match j with JStr s => s | _ => py_repr j end.

Example py_text_example :
  py_text (JArr [JStr "it's"; JInt (-3); JObj [("a", JBool true)]; JNull]) =
  string_of_list_ascii (list_ascii_of_string "[" ++ double_quote :: list_ascii_of_string "it's" ++
    double_quote :: list_ascii_of_string ", -3, {'a': True}, None]").
Proof. reflexivity. Qed.
