(* ===== verification/Errors.v ===== *)
(** * Errors

    The exception classes of [runtime_protocol/errors.py], the wire form the
    server answers with, and the error monad in which fallible code of the
    development is written.  [ExnClass] lists the runtime's own classes and the
    Python exceptions that modelled code can let escape. *)

From Stdlib Require Import ZArith String List Bool.
From stdpp Require Import base list strings.
From S2P Require Import Prelude Json.

(** String comparisons stay folded under [simpl] from here on. *)
#[global] Arguments String.eqb : simpl never.
#[global] Arguments str_in : simpl never.

Inductive ExnClass :=
  | RuntimeErrorBase
  | AuthorizationError
  | ConflictError
  | ValidationError
  | ForbiddenError
  | CapabilityUnavailableError
  | NotFoundError
  | RetiredRouteError
  | OwnerBusyError
  | RealmAdmissionError
  | LeaseError
  | ProtocolError
  | BodyTooLargeError
  | InvalidRequestError
  | IdempotencyWindowExpired
  | IntegrityError
  | TypeError
  | KeyError
  | ValueError
  | AttributeError
  | OverflowError
  | RecursionError
  | IndexError
  | StopIteration
  | OSError.

#[global] Instance ExnClass_eq_dec : EqDecision ExnClass.
Proof. solve_decision. Defined.

(** Subclassing of the error hierarchy (reflexive; Python exceptions apart). *)
Definition parent_class (c : ExnClass) : option ExnClass :=
  match c with
  | RuntimeErrorBase | IntegrityError | TypeError | KeyError | ValueError
  | AttributeError | OverflowError | RecursionError | IndexError | StopIteration | OSError => None
  | CapabilityUnavailableError | OwnerBusyError | RealmAdmissionError | LeaseError
  | IdempotencyWindowExpired => Some ConflictError
  | BodyTooLargeError => Some ProtocolError
  | _ => Some RuntimeErrorBase
  end.

(** The class attribute [code], inherited where a class does not set it. *)
Definition error_code (c : ExnClass) : option string :=
  match c with
  | RuntimeErrorBase => Some "runtime_error"
  | AuthorizationError => Some "unauthorized"
  | ConflictError => Some "conflict"
  | ValidationError => Some "validation_error"
  | ForbiddenError => Some "forbidden"
  | CapabilityUnavailableError => Some "unavailable"
  | NotFoundError => Some "not_found"
  | RetiredRouteError => Some "retired_route"
  | OwnerBusyError => Some "owner_busy"
  | RealmAdmissionError => Some "realm_admission_failed"
  | LeaseError => Some "lease_fenced"
  | ProtocolError | BodyTooLargeError => Some "protocol_error"
  | InvalidRequestError => Some "invalid_request"
  | IdempotencyWindowExpired => Some "idempotency_window_expired"
  | _ => None
  end.

(** The class attribute [status]. *)
Definition error_status (c : ExnClass) : option Z :=
  match c with
  | RuntimeErrorBase => Some 400%Z
  | AuthorizationError => Some 401%Z
  | ConflictError | CapabilityUnavailableError | OwnerBusyError | RealmAdmissionError
  | LeaseError | IdempotencyWindowExpired => Some 409%Z
  | ValidationError => Some 422%Z
  | ForbiddenError => Some 403%Z
  | NotFoundError => Some 404%Z
  | RetiredRouteError => Some 410%Z
  | ProtocolError | BodyTooLargeError => Some 400%Z
  | InvalidRequestError => Some 400%Z
  | _ => None
  end.

(** A raised exception: class, message, and [details] ([JNull] for [None]). *)
Record exn := Exn { exn_class : ExnClass; exn_message : string; exn_details : json }.

#[global] Instance exn_eq_dec : EqDecision exn.
Proof. solve_decision. Defined.

(** [RuntimeErrorBase.as_dict] *)
Definition as_dict (e : exn) : json :=
  JObj ([("code", match error_code (exn_class e) with Some c => JStr c | None => JNull end);
         ("message", JStr (exn_message e))] ++
        (if is_null (exn_details e) then [] else [("details", exn_details e)])).

(** ** The error monad *)

Inductive res (A : Type) :=
  | Ok (a : A)
  | Err (e : exn).
Arguments Ok {_} _.
Arguments Err {_} _.

#[global] Instance res_ret : MRet res := fun _ a => Ok a.
#[global] Instance res_bind : MBind res := fun _ _ f m =>
  match m with Ok a => f a | Err e => Err e end.
#[global] Instance res_fmap : FMap res := fun _ _ f m =>
  match m with Ok a => Ok (f a) | Err e => Err e end.

(** [raise C(message)] and [raise C(message, details=d)] *)
Definition raise {A} (c : ExnClass) (m : string) : res A := Err (Exn c m JNull).
Definition raise_with {A} (c : ExnClass) (m : string) (d : json) : res A := Err (Exn c m d).

(** [if b: raise C(message)] *)
Definition raise_if (b : bool) (c : ExnClass) (m : string) : res unit :=
  if b then raise c m else Ok tt.
Definition raise_if_with (b : bool) (c : ExnClass) (m : string) (d : json) : res unit :=
  if b then raise_with c m d else Ok tt.

Definition is_ok {A} (r : res A) : bool := match r with Ok _ => true | Err _ => false end.

(** A left fold in the error monad (a [for] loop whose body may raise). *)
Fixpoint foldM {A B} (f : B -> A -> res B) (b : B) (l : list A) : res B :=
  match l with
  | [] => Ok b
  | x :: r => b' ← f b x; foldM f b' r
  end.

Fixpoint mapM_res {A B} (f : A -> res B) (l : list A) : res (list B) :=
  match l with
  | [] => Ok []
  | x :: r => y ← f x; ys ← mapM_res f r; Ok (y :: ys)
  end.

(** [v in {...}] for a set of strings: unhashable values raise. *)
Definition in_set (v : json) (l : list string) : res bool :=
  match v with
  | JArr _ => raise TypeError "unhashable type: 'list'"
  | JObj _ => raise TypeError "unhashable type: 'dict'"
  | JStr s => Ok (str_in s l)
  | _ => Ok false
  end.

Lemma res_bind_Ok {A B} (m : res A) (f : A -> res B) b :
  (m ≫= f) = Ok b <-> exists a, m = Ok a /\ f a = Ok b.
Proof. destruct m; simpl; naive_solver. Qed.

Lemma res_bind_Err {A B} (m : res A) (f : A -> res B) e :
  (m ≫= f) = Err e <-> m = Err e \/ exists a, m = Ok a /\ f a = Err e.
Proof. destruct m; simpl; naive_solver. Qed.

Lemma raise_if_Ok b c m u : raise_if b c m = Ok u <-> b = false.
Proof. destruct b, u; simpl; naive_solver. Qed.

Lemma raise_if_with_Ok b c m d u : raise_if_with b c m d = Ok u <-> b = false.
Proof. destruct b, u; simpl; naive_solver. Qed.

(** Split a successful run of a sequence of checks into its steps. *)
Ltac res_inv :=
  repeat match goal with
  | H : (_ ≫= _) = Ok _ |- _ =>
      let x := fresh "x" in let E := fresh "E" in
      apply res_bind_Ok in H as (x & E & H)
  | H : raise_if _ _ _ = Ok _ |- _ => apply raise_if_Ok in H
  | H : raise_if_with _ _ _ _ = Ok _ |- _ => apply raise_if_with_Ok in H
  | H : raise _ _ = Ok _ |- _ => discriminate H
  | H : raise_with _ _ _ = Ok _ |- _ => discriminate H
  | H : Err _ = Ok _ |- _ => discriminate H
  | H : Ok _ = Ok _ |- _ => injection H as H; try subst
  | H : mret _ = Ok _ |- _ => injection H as H; try subst
  | u : unit |- _ => destruct u
  end.

(** Replay a run whose steps are known from the context. *)
Ltac rewrite_hyps :=
  repeat match goal with
  | H : ?x = Ok _ |- context [?x] => rewrite H
  | H : ?x = true |- context [?x] => rewrite H
  | H : ?x = false |- context [?x] => rewrite H
  | |- _ => progress simpl
  end; try done.

Lemma mapM_res_Forall2 {A B} (f : A -> res B) l ys :
  mapM_res f l = Ok ys <-> Forall2 (fun x y => f x = Ok y) l ys.
Proof.
  revert ys. induction l as [|x l IH]; intros ys; simpl.
  - split; [intros [= <-]; constructor | inversion 1; done].
  - split.
    + intros H. res_inv. constructor; [done|]. by apply IH.
    + inversion 1 as [|? y ? ys' Hy Hys]; subst. rewrite Hy. simpl.
      apply IH in Hys. rewrite Hys. done.
Qed.

(** Only a class of the runtime's own hierarchy has a code and a status, and it
    has both. *)
Lemma error_code_status c : is_Some (error_code c) <-> is_Some (error_status c).
Proof. destruct c; simpl; split; intros [? [=]]; eauto. Qed.
