(* ===== verification/Facts.v ===== *)
(** * Execution facts, targets, placements and requests

    The pure contract layer of [runtime_protocol/store.py]: what a task may
    require of an executor ([normalize_execution_facts],
    [execution_facts_match]), how a placement selector and a verified placement
    are normalised and compared, the targeted admission envelope, and the split
    of a stored task spec into its public part and its generation intent. *)

From Stdlib Require Import ZArith String Ascii List Bool Lia Sorted Permutation.
From stdpp Require Import base list strings.
From S2P Require Import Prelude Json Errors.

Open Scope Z_scope.

(** ** Constants of store.py *)

Definition MAX_STORAGE_ESTIMATE_BYTES : Z := Z.shiftl 1 53 - 1.
Definition GENERATION_INTENT_STORAGE_KEY : string := "__runtime_generation_intent".
Definition LEGACY_GENERATION_INTENT_STORAGE_KEY : string := "generation_intent".
Definition FACT_EXACT_KEYS : list string :=
  ["interpreter"; "runtime_lock"; "engine_lock"; "model_digest";
   "custom_node_digest"; "driver"; "root"; "port"].
Definition FACT_MINIMUM_KEYS : list string := ["vram_bytes"; "scratch_bytes"].

(** [set(d) - {...}] and [set(d) == {...}] *)
Definition unknown_keys (j : json) (allowed : list string) : list string :=
  List.filter (fun k => negb (str_in k allowed)) (jkeys j).

Definition keys_are (j : json) (l : list string) : bool :=
  forallb (fun k => str_in k l) (jkeys j) && forallb (fun k => jhas j k) l.

Definition nil_or {A} (l : list A) : bool := match l with [] => true | _ => false end.

Definition sorted_strings (l : list string) : json := JArr (map JStr (sort String.leb l)).

Definition details1 (k : string) (v : json) : json := JObj [(k, v)].

(** ** normalize_execution_facts *)

(** One item of [exact]: the checks of the loop body, then the assignment. *)
Definition exact_fact (field : string) (acc : list (string * json)) (kf : string * json)
  : res (list (string * json)) :=
  let '(key, fact) := kf in
  (if String.eqb key "port" then
     raise_if (is_bool fact || negb (is_str fact || is_int fact) || negb (truthy fact))
       ValidationError (field +:+ ".exact.port must be a non-empty string or integer");;
     match fact with
     | JInt z => raise_if (negb ((0 <=? z) && (z <=? 65535)))
                   ValidationError (field +:+ ".exact.port is out of range")
     | _ => Ok tt
     end
   else
     raise_if (negb (is_str fact) || negb (truthy fact))
       ValidationError (field +:+ (".exact." +:+ (key +:+ " must be a non-empty string"))));;
  Ok (aset key fact acc).

Definition minimum_fact (field : string) (acc : list (string * json)) (kf : string * json)
  : res (list (string * json)) :=
  let '(key, fact) := kf in
  match fact with
  | JInt z =>
      raise_if ((z <? 0) || (MAX_STORAGE_ESTIMATE_BYTES <? z))
        ValidationError (field +:+ (".minimum." +:+ (key +:+ " is out of range")));;
      Ok (aset key fact acc)
  | _ => raise ValidationError (field +:+ (".minimum." +:+ (key +:+ " must be an integer")))
  end.

Definition normalize_execution_facts (value : json) (field : string) : res json :=
  raise_if (negb (is_dict value)) ValidationError (field +:+ " must be an object");;
  let unknown := unknown_keys value ["exact"; "minimum"] in
  raise_if_with (negb (nil_or unknown)) ValidationError
    (field +:+ " contains unsupported fields") (details1 "fields" (sorted_strings unknown));;
  let exact := jget_def value "exact" (JObj []) in
  let minimum := jget_def value "minimum" (JObj []) in
  raise_if (negb (is_dict exact) || negb (is_dict minimum)) ValidationError
    (field +:+ (".exact and " +:+ (field +:+ ".minimum must be objects")));;
  let unknown_exact := unknown_keys exact FACT_EXACT_KEYS in
  raise_if_with (negb (nil_or unknown_exact)) ValidationError
    (field +:+ ".exact contains unsupported facts") (details1 "facts" (sorted_strings unknown_exact));;
  let unknown_minimum := unknown_keys minimum FACT_MINIMUM_KEYS in
  raise_if_with (negb (nil_or unknown_minimum)) ValidationError
    (field +:+ ".minimum contains unsupported facts") (details1 "facts" (sorted_strings unknown_minimum));;
  normalized_exact ← foldM (exact_fact field) [] (jfields exact);
  normalized_minimum ← foldM (minimum_fact field) [] (jfields minimum);
  Ok (JObj [("exact", JObj normalized_exact); ("minimum", JObj normalized_minimum)]).

(** [execution_facts_match]: both sides are normalised, then compared. *)
Definition exact_satisfied (verified : json) (kf : string * json) : bool :=
  jhas verified kf.1 && py_eq (jget verified kf.1) kf.2.

Definition minimum_satisfied (verified : json) (kf : string * json) : bool :=
  match jget verified kf.1, kf.2 with
  | JInt have, JInt need => jhas verified kf.1 && negb (have <? need)
  | _, _ => false
  end.

Definition execution_facts_match (required verified : json) : res bool :=
  required ← normalize_execution_facts required "required_facts";
  verified ← normalize_execution_facts verified "verified_facts";
  Ok (forallb (exact_satisfied (jget verified "exact")) (jfields (jget required "exact")) &&
      forallb (minimum_satisfied (jget verified "minimum")) (jfields (jget required "minimum"))).

(** ** Task specs: public part and generation intent *)

Definition public_task_spec (spec : json) : json * json :=
  let public := JObj (if truthy spec then jfields spec else []) in
  let public := jdel public "execution_request" in
  let public := jdel public "_runtime_reuse_toolchain" in
  let intent := jget public GENERATION_INTENT_STORAGE_KEY in
  let public := jdel public GENERATION_INTENT_STORAGE_KEY in
  let intent' :=
    if is_null intent && jhas public LEGACY_GENERATION_INTENT_STORAGE_KEY
    then jget public LEGACY_GENERATION_INTENT_STORAGE_KEY else intent in
  (jdel public LEGACY_GENERATION_INTENT_STORAGE_KEY, intent').

Definition canonical_task_spec_for_compare (spec : json) : json :=
  let '(public, intent) := public_task_spec spec in
  if is_null intent then public else jset public GENERATION_INTENT_STORAGE_KEY intent.

Definition task_spec_for_request_hash (spec : json) : json :=
  let '(public, intent) := public_task_spec spec in
  if is_null intent then public else jset public LEGACY_GENERATION_INTENT_STORAGE_KEY intent.

Definition legacy_execution_request_from_spec (spec : json) : res json :=
  if negb (is_dict spec) || negb (jhas spec "execution_request") then Ok JNull else
  let value := jget spec "execution_request" in
  if is_null value then Ok JNull else
  raise_if (negb (is_dict value)) ValidationError "legacy execution_request row is malformed";;
  Ok value.

(** ** Targets *)

Definition common_target_keys : list string :=
  ["kind"; "profile_revision"; "profile_digest"; "release_digest"; "storage"; "mounts"].

Definition nonempty_str (j : json) : bool := is_str j && truthy j.

(** The profile and machine arms, which differ in the alias key and texts. *)
Definition aliased_target (target : json) (what alias : string) : res json :=
  raise_if (negb (nil_or (unknown_keys target (common_target_keys ++ ["id"; alias]))))
    ValidationError (what +:+ " execution target contains unsupported identity fields");;
  raise_if (jhas target "id" && jhas target alias &&
            negb (py_eq (jget target "id") (jget target alias)))
    ValidationError (what +:+ (" execution target id and " +:+ (alias +:+ " conflict")));;
  let identifier := jget_def target "id" (jget target alias) in
  raise_if (negb (nonempty_str identifier))
    ValidationError ("execution_request.target " +:+ (what +:+ " id is required"));;
  Ok (jdel (jset target "id" identifier) alias).

Definition normalize_execution_target (value : json) : res json :=
  raise_if (negb (is_dict value)) ValidationError "execution_request.target must be an object";;
  let target := json_column value in
  let kind := jget target "kind" in
  known ← in_set kind ["default"; "profile"; "machine"; "runpod"];
  raise_if (negb known) ValidationError "execution_request.target.kind is unsupported";;
  if is_json_str "runpod" kind then
    raise_if (negb (nil_or (unknown_keys target (common_target_keys ++ ["pod_id"; "provider_account_ref"]))))
      ValidationError "runpod execution target contains unsupported identity fields";;
    raise_if (negb (nonempty_str (jget target "pod_id")))
      ValidationError "execution_request.target.pod_id is required";;
    raise_if (negb (nonempty_str (jget target "provider_account_ref")))
      ValidationError "execution_request.target.provider_account_ref is required";;
    Ok target
  else if is_json_str "profile" kind then aliased_target target "profile" "profile_alias"
  else if is_json_str "machine" kind then aliased_target target "machine" "machine_id"
  else
    raise_if (negb (keys_are target ["kind"]))
      ValidationError "default execution target cannot carry placement identity";;
    Ok target.

(** ** Verified placements *)

Definition normalize_verified_execution_placement (value : json) : res json :=
  raise_if (negb (is_dict value) ||
            negb (keys_are value ["actual"; "verification"; "executor_incarnation"]))
    ValidationError "trusted execution_binding must contain actual, verification, and executor_incarnation";;
  actual ← normalize_execution_target (jget value "actual");
  raise_if (is_json_str "default" (jget actual "kind"))
    ValidationError "execution_binding.actual.kind cannot be default";;
  let verification := jget value "verification" in
  raise_if (negb (is_dict verification) ||
            negb (keys_are verification ["method"; "evidence_digest"; "verified"]))
    ValidationError "execution_binding.verification has an invalid shape";;
  raise_if (negb (is_json_str "credential_claim" (jget verification "method")) ||
            negb (match jget verification "verified" with JBool true => true | _ => false end))
    ValidationError "execution binding placement is not verified by a credential claim";;
  let digest := jget verification "evidence_digest" in
  raise_if (negb (match digest with JStr s => is_sha256_id s | _ => false end))
    ValidationError "execution_binding.verification.evidence_digest is invalid";;
  match jget value "executor_incarnation" with
  | JStr incarnation =>
      raise_if (negb (nonempty (str_strip incarnation)) || (256 <? py_len incarnation))
        ValidationError "execution_binding.executor_incarnation must be a non-empty string";;
      Ok (JObj [("actual", actual);
                ("verification", JObj [("method", JStr "credential_claim");
                                       ("evidence_digest", digest);
                                       ("verified", JBool true)]);
                ("executor_incarnation", JStr (str_strip incarnation))])
  | _ => raise ValidationError "execution_binding.executor_incarnation must be a non-empty string"
  end.

Definition is_true (j : json) : bool := match j with JBool b => b | _ => false end.

(** The identity fields a selector of each kind pins. *)
Definition identity_fields (kind : json) : res (list string) :=
  match kind with
  | JStr k =>
      Ok (if String.eqb k "profile" || String.eqb k "machine" then ["id"]
          else if String.eqb k "runpod" then ["pod_id"; "provider_account_ref"] else [])
  | JArr _ => raise TypeError "unhashable type: 'list'"
  | JObj _ => raise TypeError "unhashable type: 'dict'"
  | _ => Ok []
  end.

Definition release_fields : list string :=
  ["profile_revision"; "profile_digest"; "release_digest"; "storage"; "mounts"].

Definition execution_placement_matches (selected placement : json) : res bool :=
  if negb (is_dict selected) || negb (is_dict placement) then Ok false else
  let verification := jget placement "verification" in
  if negb (is_dict verification) || negb (is_true (jget verification "verified")) then Ok false else
  let actual := jget placement "actual" in
  if negb (is_dict actual) then Ok false else
  let kind := jget selected "kind" in
  if negb (is_json_str "default" kind) && negb (py_eq kind (jget actual "kind")) then Ok false else
  fields ← identity_fields kind;
  if negb (forallb (fun f => py_eq (jget selected f) (jget actual f)) fields) then Ok false else
  Ok (forallb (fun f => negb (jhas selected f) || py_eq (jget selected f) (jget actual f))
        release_fields).

(** ** The targeted admission envelope *)

(** [list(x)] of a JSON value. *)
Fixpoint chars_of (s : string) : list json :=
  match s with
  | EmptyString => []
  | String c r => JStr (String c EmptyString) :: chars_of r
  end.

Definition py_list (j : json) : res (list json) :=
  match j with
  | JArr l => Ok l
  | JObj kvs => Ok (map (fun kv => JStr kv.1) kvs)
  | JStr s => Ok (chars_of s)
  | _ => raise TypeError "object is not iterable"
  end.

Definition object_digest_of (j : json) : option string :=
  match j with JStr s => object_id_digest s | _ => None end.

Definition index_details (i : nat) : json := details1 "index" (JInt (Z.of_nat i)).

(** One entry of [execution_request.inputs]: [(index, names, declared)]. *)
Definition request_input (acc : nat * list string * list string) (item : json)
  : res (nat * list string * list string) :=
  let '(index, names, declared) := acc in
  match item, jget item "name" with
  | JObj _, JStr name =>
      raise_if_with (negb (nonempty name)) ValidationError
        "execution_request.inputs entries must contain a name" (index_details index);;
      raise_if_with (str_in name names) ValidationError
        "execution_request.inputs contains duplicate names" (details1 "name" (JStr name));;
      match object_digest_of (jget item "object_id") with
      | None => raise_with ValidationError
                  "execution_request.inputs.object_id must be a sha256 object ID" (index_details index)
      | Some digest => Ok (S index, name :: names, declared ++ ["sha256:" +:+ digest])
      end
  | _, _ => raise_with ValidationError
              "execution_request.inputs entries must contain a name" (index_details index)
  end.

Definition supplied_input (acc : nat * list string) (object_id : json) : res (nat * list string) :=
  let '(index, supplied) := acc in
  match object_digest_of object_id with
  | None => raise_with ValidationError
              "input_object_ids must contain sha256 object IDs" (index_details index)
  | Some digest => Ok (S index, supplied ++ ["sha256:" +:+ digest])
  end.

Definition check_request_inputs (inputs input_object_ids : json) : res unit :=
  match inputs with
  | JArr items =>
      '(_, _, declared) ← foldM request_input (O, [], []) items;
      supplied ← py_list (py_or input_object_ids (JArr []));
      '(_, supplied_normalized) ← foldM supplied_input (O, []) supplied;
      raise_if (has_dup declared) ValidationError
        "execution_request.inputs contains duplicate object IDs";;
      raise_if (has_dup supplied_normalized) ValidationError
        "input_object_ids contains duplicate object IDs";;
      raise_if_with (negb (bool_decide (supplied_normalized = declared))) ValidationError
        "input_object_ids must exactly mirror execution_request.inputs in order"
        (JObj [("expected", JArr (map JStr declared));
               ("actual", JArr (map JStr supplied_normalized))])
  | _ => raise ValidationError "execution_request.inputs must be a list"
  end.

Definition normalize_execution_request (value input_object_ids : json) : res json :=
  raise_if (negb (is_dict value)) ValidationError "execution_request must be an object";;
  raise_if (jhas value "execution_binding") ValidationError
    "caller-supplied execution_binding is not accepted";;
  let request := json_column value in
  target ← normalize_execution_target (jget request "target");
  let request := jset request "target" target in
  (if jhas request "remote_activation_required" then
     let flag := jget request "remote_activation_required" in
     raise_if (negb (is_bool flag)) ValidationError
       "execution_request.remote_activation_required must be a boolean";;
     raise_if (is_true flag && negb (is_json_str "runpod" (jget target "kind"))) ValidationError
       "remote activation requires a RunPod execution target"
   else Ok tt);;
  (if jhas request "inputs" then check_request_inputs (jget request "inputs") input_object_ids
   else Ok tt);;
  Ok request.

(** ** Facts: what normalisation accepts and what a match means *)

(** Decidable validity of one exact fact and of one minimum fact. *)
Definition exact_valid (kf : string * json) : bool :=
  match kf.2 with
  | JStr s => nonempty s
  | JInt z => String.eqb kf.1 "port" && (0 <? z) && (z <=? 65535)
  | _ => false
  end.

Definition minimum_valid (kf : string * json) : bool :=
  match kf.2 with
  | JInt z => (0 <=? z) && (z <=? MAX_STORAGE_ESTIMATE_BYTES)
  | _ => false
  end.

Lemma exact_fact_Ok field acc kf acc' :
  exact_fact field acc kf = Ok acc' <-> exact_valid kf = true /\ acc' = aset kf.1 kf.2 acc.
Proof.
  destruct kf as [key fact]. unfold exact_fact, exact_valid. simpl.
  destruct (String.eqb key "port") eqn:Ek.
  - destruct fact as [|b|z|s|l|o]; simpl; try (split; [done|by intros [? _]]).
    + unfold raise_if. destruct (z =? 0) eqn:E0; simpl.
      { apply Z.eqb_eq in E0. subst z. simpl. split; [done|by intros [? _]]. }
      apply Z.eqb_neq in E0.
      destruct (0 <=? z) eqn:E1, (z <=? 65535) eqn:E2, (0 <? z) eqn:E3; simpl;
        bool_hyps; try lia; (split; [try done; by intros [= <-]|intros [? ->]; done]).
    + destruct s; simpl; (split; [try done; by intros [= <-]|intros [? ->]; done]).
  - destruct fact as [|b|z|s|l|o]; simpl; try (split; [done|by intros [? _]]).
    destruct s; simpl; (split; [try done; by intros [= <-]|intros [? ->]; done]).
Qed.

Lemma minimum_fact_Ok field acc kf acc' :
  minimum_fact field acc kf = Ok acc' <-> minimum_valid kf = true /\ acc' = aset kf.1 kf.2 acc.
Proof.
  destruct kf as [key fact]. unfold minimum_fact, minimum_valid. simpl.
  destruct fact as [|b|z|s|l|o]; simpl; try (split; [done|by intros [? _]]).
  unfold raise_if.
  destruct (z <? 0) eqn:E1, (MAX_STORAGE_ESTIMATE_BYTES <? z) eqn:E2, (0 <=? z) eqn:E3,
    (z <=? MAX_STORAGE_ESTIMATE_BYTES) eqn:E4; simpl; bool_hyps; try lia;
    (split; [try done; by intros [= <-]|intros [? ->]; done]).
Qed.

Lemma aset_fresh {A} k (v : A) l : ~ In k (akeys l) -> aset k v l = l ++ [(k, v)].
Proof.
  induction l as [|[k' v'] l IH]; simpl; [done|]. intros Hn.
  destruct (String.eqb k k') eqn:E; [apply String.eqb_eq in E; subst; tauto|].
  rewrite IH; [done|tauto].
Qed.

(** A loop that checks every item and collects it rebuilds the dictionary. *)
Lemma foldM_collect (f : list (string * json) -> string * json -> res (list (string * json)))
    (ok : string * json -> bool) acc l r :
  (forall acc kf acc', f acc kf = Ok acc' <-> ok kf = true /\ acc' = aset kf.1 kf.2 acc) ->
  List.NoDup (akeys (acc ++ l)) ->
  foldM f acc l = Ok r <-> forallb ok l = true /\ r = acc ++ l.
Proof.
  intros Hf. revert acc. induction l as [|[k v] l IH]; intros acc Hnd; simpl.
  - rewrite app_nil_r. split; [by intros [= <-]|by intros [_ ->]].
  - assert (~ In k (akeys acc)) as Hk.
    { unfold akeys in *. rewrite map_app in Hnd. simpl in Hnd.
      apply List.NoDup_remove_2 in Hnd. rewrite in_app_iff in Hnd. tauto. }
    assert (aset k v acc = acc ++ [(k, v)]) as Ha by by apply aset_fresh.
    assert (List.NoDup (akeys ((acc ++ [(k, v)]) ++ l))) as Hnd'
      by (rewrite <- app_assoc; exact Hnd).
    rewrite res_bind_Ok, andb_true_iff. split.
    + intros (acc' & H1 & H2). apply Hf in H1 as [H1 ->]. simpl in *. rewrite Ha in H2.
      apply IH in H2 as [H2 ->]; [|done]. rewrite <- app_assoc. done.
    + intros [[H1 H2] ->]. exists (acc ++ [(k, v)]). split.
      * apply Hf. simpl. by rewrite Ha.
      * apply IH; [done|]. split; [done|]. by rewrite <- app_assoc.
Qed.

(** The decidable acceptance condition of [normalize_execution_facts]. *)
Definition facts_exact (value : json) : json := jget_def value "exact" (JObj []).
Definition facts_minimum (value : json) : json := jget_def value "minimum" (JObj []).

Definition facts_ok (value : json) : bool :=
  is_dict value && nil_or (unknown_keys value ["exact"; "minimum"]) &&
  is_dict (facts_exact value) && is_dict (facts_minimum value) &&
  nil_or (unknown_keys (facts_exact value) FACT_EXACT_KEYS) &&
  nil_or (unknown_keys (facts_minimum value) FACT_MINIMUM_KEYS) &&
  forallb exact_valid (jfields (facts_exact value)) &&
  forallb minimum_valid (jfields (facts_minimum value)).

Definition facts_of (value : json) : json :=
  JObj [("exact", JObj (jfields (facts_exact value)));
        ("minimum", JObj (jfields (facts_minimum value)))].

Lemma jget_def_wf v k d : jwf v -> jwf d -> jwf (jget_def v k d).
Proof.
  intros Hv Hd. unfold jget_def. destruct v as [| | | | |kvs]; try done. simpl.
  destruct (alookup k kvs) as [x|] eqn:E; [|done]. simpl.
  inversion Hv as [| | | | |? _ Hl]; subst. apply alookup_In in E.
  rewrite List.Forall_forall in Hl. apply (Hl _ E).
Qed.

Lemma jwf_fields v : jwf v -> List.NoDup (akeys (jfields v)).
Proof. intros H. destruct v; try constructor. by inversion H. Qed.

Lemma normalize_execution_facts_Ok value field r :
  jwf value ->
  normalize_execution_facts value field = Ok r <-> facts_ok value = true /\ r = facts_of value.
Proof.
  intros Hwf. unfold normalize_execution_facts, facts_ok.
  assert (jwf (JObj [])) as H0 by (constructor; constructor).
  pose proof (jwf_fields _ (jget_def_wf value "exact" (JObj []) Hwf H0)) as He.
  pose proof (jwf_fields _ (jget_def_wf value "minimum" (JObj []) Hwf H0)) as Hm.
  fold (facts_exact value) in *. fold (facts_minimum value) in *.
  destruct (is_dict value); simpl; [|split; [done|by intros [? _]]].
  destruct (nil_or (unknown_keys value _)); simpl; [|split; [done|by intros [? _]]].
  destruct (is_dict (facts_exact value)); simpl; [|split; [done|by intros [? _]]].
  destruct (is_dict (facts_minimum value)); simpl; [|split; [done|by intros [? _]]].
  destruct (nil_or (unknown_keys _ FACT_EXACT_KEYS)); simpl; [|split; [done|by intros [? _]]].
  destruct (nil_or (unknown_keys _ FACT_MINIMUM_KEYS)); simpl; [|split; [done|by intros [? _]]].
  rewrite res_bind_Ok, andb_true_iff. split.
  - intros (e & H1 & H2). apply res_bind_Ok in H2 as (m & H2 & H3).
    eapply foldM_collect in H1 as [H1 ->]; [|apply exact_fact_Ok|done].
    eapply foldM_collect in H2 as [H2 ->]; [|apply minimum_fact_Ok|done].
    injection H3 as <-. done.
  - intros [[H1 H2] ->]. exists (jfields (facts_exact value)). split.
    + eapply foldM_collect; [apply exact_fact_Ok|done|done].
    + apply res_bind_Ok. exists (jfields (facts_minimum value)). split; [|done].
      eapply foldM_collect; [apply minimum_fact_Ok|done|done].
Qed.

Lemma facts_ok_facts_of value : facts_ok value = true -> facts_ok (facts_of value) = true.
Proof.
  unfold facts_ok. intros H. bool_hyps.
  destruct (facts_exact value) as [| | | | |e] eqn:Ee; try done.
  destruct (facts_minimum value) as [| | | | |m] eqn:Em; try done.
  unfold facts_of. rewrite Ee, Em. simpl in *. unfold unknown_keys in *. simpl in *.
  repeat (apply andb_true_iff; split); done.
Qed.

Lemma facts_of_idem value : facts_of (facts_of value) = facts_of value.
Proof. done. Qed.

Lemma facts_of_wf value : jwf value -> jwf (facts_of value).
Proof.
  intros Hwf. assert (jwf (JObj [])) as H0 by (constructor; constructor).
  assert (forall v, jwf v -> jwf (JObj (jfields v))) as Hj.
  { intros v Hv. destruct v; try done. }
  unfold facts_of. constructor.
  - repeat constructor; simpl; intuition discriminate.
  - apply List.Forall_cons; [apply Hj, jget_def_wf; done|].
    apply List.Forall_cons; [apply Hj, jget_def_wf; done|constructor].
Qed.

(** The reference meaning of a match: every required exact fact is verified
    with the same value, every required minimum is reached. *)
Definition facts_le (required verified : json) : Prop :=
  (forall k f, alookup k (jfields (facts_exact required)) = Some f ->
     alookup k (jfields (facts_exact verified)) = Some f) /\
  (forall k n, alookup k (jfields (facts_minimum required)) = Some (JInt n) ->
     exists m, alookup k (jfields (facts_minimum verified)) = Some (JInt m) /\ n <= m).

Lemma py_eq_scalar a b :
  (exists s, b = JStr s) \/ (exists z, b = JInt z) -> is_bool a = false ->
  py_eq a b = true <-> a = b.
Proof.
  intros [[s ->]|[z ->]] Hb; destruct a; simpl in *; try (split; done).
  - rewrite String.eqb_eq. naive_solver.
  - rewrite Z.eqb_eq. naive_solver.
Qed.

Lemma exact_valid_scalar kf :
  exact_valid kf = true -> (exists s, kf.2 = JStr s) \/ (exists z, kf.2 = JInt z).
Proof. destruct kf as [k [| | | | |]]; simpl; intros; try done; eauto. Qed.

Lemma forallb_alookup {A} (p : string * A -> bool) l :
  List.NoDup (akeys l) ->
  forallb p l = true <-> forall k v, alookup k l = Some v -> p (k, v) = true.
Proof.
  intros Hnd. rewrite forallb_forall. split.
  - intros H k v Hl. apply H. by apply alookup_In.
  - intros H [k v] Hin. apply H. by apply alookup_NoDup.
Qed.

Lemma exact_part req ver :
  jwf req -> jwf ver ->
  forallb exact_valid (jfields (facts_exact req)) = true ->
  forallb exact_valid (jfields (facts_exact ver)) = true ->
  forallb (exact_satisfied (JObj (jfields (facts_exact ver)))) (jfields (facts_exact req)) = true <->
  forall k f, alookup k (jfields (facts_exact req)) = Some f ->
     alookup k (jfields (facts_exact ver)) = Some f.
Proof.
  intros Hr Hv Ereq Ever. assert (jwf (JObj [])) as H0 by (constructor; constructor).
  pose proof (jwf_fields _ (jget_def_wf req "exact" (JObj []) Hr H0)) as Nr.
  pose proof (jwf_fields _ (jget_def_wf ver "exact" (JObj []) Hv H0)) as Nv.
  fold (facts_exact req) in *. fold (facts_exact ver) in *.
  rewrite forallb_alookup in Ereq, Ever by done. rewrite forallb_alookup by done.
  unfold exact_satisfied, jhas, jget. simpl.
  split; intros H k f Hl; specialize (H k f Hl); simpl in *.
  - destruct (alookup k (jfields (facts_exact ver))) as [x|] eqn:Ex; [|done].
    simpl in H. apply py_eq_scalar in H; [by subst| |].
    + apply (exact_valid_scalar (k, f)). by apply Ereq.
    + specialize (Ever k x Ex). by destruct x.
  - rewrite H. simpl. apply py_eq_scalar; [|specialize (Ereq k f Hl); by destruct f|done].
    apply (exact_valid_scalar (k, f)). by apply Ereq.
Qed.

Lemma minimum_part req ver :
  jwf req -> jwf ver ->
  forallb minimum_valid (jfields (facts_minimum req)) = true ->
  forallb (minimum_satisfied (JObj (jfields (facts_minimum ver)))) (jfields (facts_minimum req)) = true <->
  forall k n, alookup k (jfields (facts_minimum req)) = Some (JInt n) ->
     exists m, alookup k (jfields (facts_minimum ver)) = Some (JInt m) /\ n <= m.
Proof.
  intros Hr Hv Ereq. assert (jwf (JObj [])) as H0 by (constructor; constructor).
  pose proof (jwf_fields _ (jget_def_wf req "minimum" (JObj []) Hr H0)) as Nr.
  fold (facts_minimum req) in *.
  rewrite forallb_alookup in Ereq by done. rewrite forallb_alookup by done.
  unfold minimum_satisfied, jhas, jget. simpl. split.
  - intros H k n Hl. specialize (H k _ Hl). simpl in H.
    destruct (alookup k (jfields (facts_minimum ver))) as [x|]; simpl in H; [|done].
    destruct x as [| |m| | |]; try done. bool_hyps. exists m. split; [done|lia].
  - intros H k f Hl. pose proof (Ereq k f Hl) as Hf. destruct f as [| |n| | |]; try done.
    destruct (H k n Hl) as (m & Hm & Hle). simpl. rewrite Hm. simpl.
    apply negb_true_iff, Z.ltb_ge. lia.
Qed.

Lemma facts_match_iff required verified :
  jwf required -> jwf verified ->
  execution_facts_match required verified = Ok true <->
  facts_ok required = true /\ facts_ok verified = true /\ facts_le required verified.
Proof.
  intros Hr Hv. unfold execution_facts_match. rewrite res_bind_Ok. split.
  - intros (r & H1 & H2). apply res_bind_Ok in H2 as (v & H2 & H3).
    apply normalize_execution_facts_Ok in H1 as [H1 ->]; [|done].
    apply normalize_execution_facts_Ok in H2 as [H2 ->]; [|done].
    injection H3 as H3. apply andb_true_iff in H3 as [H3 H4].
    pose proof H1 as H1'. pose proof H2 as H2'. unfold facts_ok in H1', H2'. bool_hyps.
    split; [done|]. split; [done|]. split; [by apply exact_part|by apply minimum_part].
  - intros (H1 & H2 & Hle1 & Hle2). pose proof H1 as H1'. pose proof H2 as H2'.
    unfold facts_ok in H1', H2'. bool_hyps.
    exists (facts_of required). split; [by apply normalize_execution_facts_Ok|].
    apply res_bind_Ok. exists (facts_of verified). split; [by apply normalize_execution_facts_Ok|].
    f_equal. apply andb_true_iff. split; [by apply exact_part|by apply minimum_part].
Qed.

(** A conservative claim: a task keeps its guarantees when the executor
    improves, and an executor satisfies exactly its own facts. *)
Lemma facts_le_refl f :
  facts_ok f = true -> jwf f -> facts_le f f.
Proof. intros _ _. split; [done|]. intros k n H. exists n. split; [done|lia]. Qed.

Lemma facts_le_trans a b c : facts_le a b -> facts_le b c -> facts_le a c.
Proof.
  intros [Ha1 Ha2] [Hb1 Hb2]. split; [eauto|].
  intros k n Hk. destruct (Ha2 k n Hk) as (m & Hm & ?).
  destruct (Hb2 k m Hm) as (p & Hp & ?). exists p. split; [done|lia].
Qed.

(** C27: on JSON input, [execution_facts_match] answers [True] exactly when both
    arguments are acceptable facts and the verified facts cover the required
    ones: equal exact facts, reached minimums. *)
Theorem execution_facts_match_spec required verified :
  jwf required -> jwf verified ->
  execution_facts_match required verified = Ok true <->
  facts_ok required = true /\ facts_ok verified = true /\ facts_le required verified.
Proof. apply facts_match_iff. Qed.

(** The facts match is transitive, so an executor whose verified facts
    cover another executor's facts can take every task that one could. *)
Theorem execution_facts_match_trans a b c :
  jwf a -> jwf b -> jwf c ->
  execution_facts_match a b = Ok true -> execution_facts_match b c = Ok true ->
  execution_facts_match a c = Ok true.
Proof.
  intros Ha Hb Hc H1 H2. rewrite facts_match_iff in H1, H2 |- * by done.
  destruct H1 as (? & ? & ?), H2 as (? & ? & ?). eauto using facts_le_trans.
Qed.

(** ** Dictionaries under storage *)

Lemma aset_id {A} k (v : A) l : alookup k l = Some v -> aset k v l = l.
Proof.
  induction l as [|[k' v'] l IH]; simpl; [done|].
  destruct (String.eqb k k') eqn:E.
  - apply String.eqb_eq in E. intros [= ->]. by subst.
  - intros H. by rewrite IH.
Qed.

Lemma adel_id {A} k (l : list (string * A)) : alookup k l = None -> adel k l = l.
Proof.
  induction l as [|[k' v'] l IH]; simpl; [done|].
  destruct (String.eqb k k'); [done|]. simpl. intros H. f_equal. by apply IH.
Qed.

Lemma jhas_get j k : jhas j k = true -> alookup k (jfields j) = Some (jget j k).
Proof. unfold jhas, jget. by destruct (alookup k (jfields j)). Qed.

Lemma jhas_key j k : jhas j k = true <-> In k (jkeys j).
Proof.
  unfold jhas, jkeys. rewrite <- alookup_Some_key.
  destruct (alookup k (jfields j)); split; intros H; eauto; [done|]. by destruct H.
Qed.

Lemma jget_truthy_has j k : truthy (jget j k) = true -> jhas j k = true.
Proof. unfold jhas, jget. by destruct (alookup k (jfields j)). Qed.

Lemma jget_set_eq j k v : jget (jset j k v) k = v.
Proof. unfold jget, jset. simpl. by rewrite alookup_aset_eq. Qed.
Lemma jget_set_ne j k k' v : k <> k' -> jget (jset j k' v) k = jget j k.
Proof. intros H. unfold jget, jset. simpl. by rewrite alookup_aset_ne. Qed.
Lemma jget_del_ne j k k' : k <> k' -> jget (jdel j k') k = jget j k.
Proof. intros H. unfold jget, jdel. simpl. by rewrite alookup_adel_ne. Qed.
Lemma jget_del_eq j k : jget (jdel j k) k = JNull.
Proof. unfold jget, jdel. simpl. by rewrite alookup_adel_eq. Qed.
Lemma jhas_set_eq j k v : jhas (jset j k v) k = true.
Proof. unfold jhas, jset. simpl. by rewrite alookup_aset_eq. Qed.
Lemma jhas_set_ne j k k' v : k <> k' -> jhas (jset j k' v) k = jhas j k.
Proof. intros H. unfold jhas, jset. simpl. by rewrite alookup_aset_ne. Qed.
Lemma jhas_del_ne j k k' : k <> k' -> jhas (jdel j k') k = jhas j k.
Proof. intros H. unfold jhas, jdel. simpl. by rewrite alookup_adel_ne. Qed.
Lemma jhas_del_eq j k : jhas (jdel j k) k = false.
Proof. unfold jhas, jdel. simpl. by rewrite alookup_adel_eq. Qed.

Lemma jwf_get j k : jwf j -> jwf (jget j k).
Proof. intros H. apply (jget_def_wf j k JNull); [done|constructor]. Qed.

Lemma jwf_set j k v : jwf j -> jwf v -> jwf (jset j k v).
Proof.
  intros Hj Hv. constructor.
  - apply NoDup_aset. by apply jwf_fields.
  - destruct j as [| | | | |kvs]; try (by repeat constructor).
    inversion Hj as [| | | | |? _ Hl]; subst. simpl. clear Hj.
    induction Hl as [|[k' v'] l Hx Hl IH]; simpl; [by repeat constructor|].
    destruct (String.eqb k k'); by constructor.
Qed.

Lemma jwf_del j k : jwf j -> jwf (jdel j k).
Proof.
  intros Hj. constructor.
  - apply NoDup_adel. by apply jwf_fields.
  - destruct j as [| | | | |kvs]; try (by repeat constructor).
    inversion Hj as [| | | | |? _ Hl]; subst. simpl. unfold adel.
    apply List.Forall_forall. intros x Hx. apply List.filter_In in Hx as [Hx _].
    rewrite List.Forall_forall in Hl. auto.
Qed.

Lemma jnorm_has v k : jhas (jnorm v) k = jhas v k.
Proof.
  destruct v as [| | | | |kvs]; try done.
  apply eq_true_iff_eq. rewrite !jhas_key. unfold jkeys. simpl.
  pose proof (jnorm_keys_perm kvs) as H.
  split; apply Permutation_in; [done|by symmetry].
Qed.

Lemma jnorm_unknown v allowed :
  nil_or (unknown_keys (jnorm v) allowed) = nil_or (unknown_keys v allowed).
Proof.
  destruct v as [| | | | |kvs]; try done. unfold unknown_keys, jkeys. simpl.
  pose proof (jnorm_keys_perm kvs) as H.
  assert (forall l1 l2 : list string, Permutation l1 l2 ->
    nil_or (List.filter (fun k => negb (str_in k allowed)) l1) = true ->
    nil_or (List.filter (fun k => negb (str_in k allowed)) l2) = true) as Hp.
  { intros l1 l2 Hl. destruct (List.filter _ l1) as [|x f] eqn:E1; [|done]. intros _.
    destruct (List.filter _ l2) as [|x f] eqn:E2; [done|]. exfalso.
    assert (In x (List.filter (fun k => negb (str_in k allowed)) l2)) as Hx by (rewrite E2; by left).
    apply List.filter_In in Hx as [Hx Hb].
    assert (In x (List.filter (fun k => negb (str_in k allowed)) l1)) as Hx'
      by (apply List.filter_In; split; [eapply Permutation_in; [by symmetry|done]|done]).
    by rewrite E1 in Hx'. }
  apply eq_true_iff_eq. split; apply Hp; [done|by symmetry].
Qed.

Lemma unknown_keys_nil j allowed :
  nil_or (unknown_keys j allowed) = true <-> (forall k, In k (jkeys j) -> In k allowed).
Proof.
  unfold unknown_keys. split.
  - intros H k Hk. destruct (str_in k allowed) eqn:E; [by apply str_in_spec|].
    exfalso. destruct (List.filter _ _) eqn:F; [|done].
    assert (In k (List.filter (fun k => negb (str_in k allowed)) (jkeys j))) as Hin
      by (apply List.filter_In; by rewrite E). by rewrite F in Hin.
  - intros H. destruct (List.filter _ _) as [|k f] eqn:F; [done|]. exfalso.
    assert (In k (List.filter (fun k => negb (str_in k allowed)) (jkeys j))) as Hin
      by (rewrite F; by left).
    apply List.filter_In in Hin as [Hin Hb]. apply H in Hin. apply str_in_spec in Hin.
    by rewrite Hin in Hb.
Qed.

(** ** Targets are stable under storage *)

Lemma jnorm_scalar v : hashable v = true -> jnorm v = v.
Proof. by destruct v. Qed.

Lemma nonempty_str_inv j : nonempty_str j = true -> exists s, j = JStr s /\ nonempty s = true.
Proof. destruct j; simpl; try done. eauto. Qed.

Lemma aliased_target_stable target what alias t :
  jwf target -> alias <> "id" -> alias <> "kind" ->
  aliased_target target what alias = Ok t ->
  jwf t /\ jget t "kind" = jget target "kind" /\
  aliased_target (jnorm t) what alias = Ok (jnorm t).
Proof.
  intros Hwf Hid Hkind H. unfold aliased_target in H. res_inv. bool_hyps.
  match goal with H : nonempty_str _ = true |- _ =>
    apply nonempty_str_inv in H as (ident & Hident & Hne) end.
  rewrite Hident in *. set (t := jdel (jset target "id" (JStr ident)) alias).
  assert (jwf t) as Ht by (apply jwf_del, jwf_set; [done|constructor]).
  assert (jget t "id" = JStr ident) as Hgid.
  { unfold t. rewrite jget_del_ne by done. apply jget_set_eq. }
  split; [done|]. split.
  { unfold t. rewrite jget_del_ne by congruence. by rewrite jget_set_ne. }
  assert (jhas (jnorm t) alias = false) as Hal by (rewrite jnorm_has; apply jhas_del_eq).
  assert (jget (jnorm t) "id" = JStr ident) as Hnid by (by rewrite jnorm_get, Hgid).
  assert (jhas (jnorm t) "id" = true) as Hhid by (apply jget_truthy_has; by rewrite Hnid).
  assert (nil_or (unknown_keys t (common_target_keys ++ ["id"; alias])) = true) as Hunk.
  { apply unknown_keys_nil. intros k Hk. apply jhas_key in Hk.
    destruct (decide (k = "id")) as [->|]; [rewrite in_app_iff; right; by left|].
    destruct (decide (k = alias)) as [->|]; [rewrite in_app_iff; right; right; by left|].
    unfold t in Hk. rewrite jhas_del_ne, jhas_set_ne in Hk by done.
    eapply unknown_keys_nil; [done|]. by apply jhas_key. }
  clearbody t. pose proof (jhas_get _ _ Hhid) as Hl. rewrite Hnid in Hl.
  unfold aliased_target, jget_def. rewrite jnorm_unknown, Hal, andb_false_r, Hunk, Hl.
  simpl. unfold nonempty_str. simpl. rewrite Hne. simpl.
  f_equal. destruct (jnorm t) as [| | | | |kvs] eqn:En; try done.
  unfold jdel, jset. simpl in *. f_equal. rewrite aset_id by done. apply adel_id.
  unfold jhas in Hal. simpl in Hal. by destruct (alookup alias kvs).
Qed.

Lemma normalize_target_column v :
  normalize_execution_target (jnorm v) = normalize_execution_target v.
Proof.
  unfold normalize_execution_target, json_column. rewrite jnorm_idem. by destruct v.
Qed.

Lemma is_json_str_inv s j : is_json_str s j = true -> j = JStr s.
Proof. destruct j; simpl; try done. intros H. bool_hyps. by subst. Qed.

Lemma normalize_target_wf v t :
  jwf v -> normalize_execution_target v = Ok t ->
  jwf t /\ jget t "kind" = jget (jnorm v) "kind" /\
  normalize_execution_target t = Ok (jnorm t).
Proof.
  intros Hwf H. pose proof (jnorm_wf v Hwf) as Hn. pose proof H as Hnorm.
  unfold normalize_execution_target in H. res_inv. bool_hyps.
  fold (json_column v) in *. unfold json_column in *.
  destruct (is_json_str "runpod" (jget (jnorm v) "kind")) eqn:Er.
  { res_inv. split; [done|]. split; [done|]. by rewrite jnorm_idem, normalize_target_column. }
  destruct (is_json_str "profile" (jget (jnorm v) "kind")) eqn:Ep.
  { pose proof H as H'. apply aliased_target_stable in H as (Ht & Hk & Hs); [|done..].
    split; [done|]. split; [done|]. unfold normalize_execution_target, json_column.
    rewrite jnorm_get, Hk by done. apply is_json_str_inv in Ep. rewrite Ep in *. simpl.
    unfold aliased_target in H'. res_inv. exact Hs. }
  destruct (is_json_str "machine" (jget (jnorm v) "kind")) eqn:Em.
  { pose proof H as H'. apply aliased_target_stable in H as (Ht & Hk & Hs); [|done..].
    split; [done|]. split; [done|]. unfold normalize_execution_target, json_column.
    rewrite jnorm_get, Hk by done. apply is_json_str_inv in Em. rewrite Em in *. simpl.
    unfold aliased_target in H'. res_inv. exact Hs. }
  res_inv. split; [done|]. split; [done|]. by rewrite jnorm_idem, normalize_target_column.
Qed.

(** Normalising a target is stable: the normalised target that was stored
    normalises to itself when it is read back. *)
Theorem normalize_execution_target_stable v t :
  jwf v -> normalize_execution_target v = Ok t ->
  normalize_execution_target (json_column t) = Ok (json_column t).
Proof.
  intros Hwf H. destruct (normalize_target_wf v t Hwf H) as (_ & _ & Ht).
  unfold json_column. by rewrite normalize_target_column.
Qed.

Lemma jset_get_id j k v :
  is_dict j = true -> jhas j k = true -> jget j k = v -> jset j k v = j.
Proof.
  intros Hd Hh <-. destruct j; try done. unfold jset. simpl. f_equal.
  apply aset_id. by apply (jhas_get (JObj kvs)).
Qed.

(** A stored targeted request is a fixed point: every later read of the
    column re-normalises it to exactly the stored value. *)
Theorem normalize_execution_request_stable v ids r :
  jwf v -> normalize_execution_request v ids = Ok r ->
  normalize_execution_request (json_column r) ids = Ok (json_column r).
Proof.
  intros Hwf H. unfold normalize_execution_request in H. res_inv. bool_hyps.
  unfold json_column in *. pose proof (jnorm_wf v Hwf) as Hn.
  match goal with Ht : normalize_execution_target _ = Ok ?x |- _ =>
    destruct (normalize_target_wf _ _ (jwf_get _ _ Hn) Ht) as (Hx & Hk & Hst);
    rename x into t end.
  remember (jset (jnorm v) "target" t) as r eqn:Er.
  assert (jwf r) as Hr by (rewrite Er; by apply jwf_set).
  assert (forall k, k <> "target" -> jget (jnorm r) k = jget r k) as Hsame.
  { intros k Hne. rewrite jnorm_get by done. rewrite Er. rewrite jget_set_ne by done.
    rewrite jnorm_get by done. apply jnorm_idem. }
  assert (forall k, k <> "target" -> jhas (jnorm r) k = jhas r k) as Hsame'
    by (intros; apply jnorm_has).
  assert (jget (jnorm r) "target" = jnorm t) as Htg
    by (rewrite jnorm_get by done; rewrite Er; by rewrite jget_set_eq).
  assert (jhas (jnorm r) "target" = true) as Hht by (rewrite jnorm_has; rewrite Er; apply jhas_set_eq).
  assert (jhas (jnorm r) "execution_binding" = false) as Heb.
  { rewrite jnorm_has. rewrite Er. rewrite jhas_set_ne by done. by rewrite jnorm_has. }
  assert (is_dict (jnorm r) = true) as Hd by (by rewrite Er).
  assert (is_json_str "runpod" (jget (jnorm t) "kind") = is_json_str "runpod" (jget t "kind")) as Hkind.
  { rewrite jnorm_get by done. by destruct (jget t "kind"). }
  unfold normalize_execution_request, json_column.
  rewrite jnorm_idem, Hd, Heb, Htg, normalize_target_column, Hst. simpl.
  rewrite jset_get_id, !Hsame', !Hsame, Hkind by done.
  destruct (jhas r "remote_activation_required"); simpl in *; res_inv; bool_hyps;
    destruct (jhas r "inputs"); res_inv; rewrite_hyps.
Qed.

(** ** Placements *)

#[local] Instance Ok_inj {A} : Inj (=) (=) (@Ok A).
Proof. by intros ?? [=]. Qed.

Lemma py_eq_str s j : py_eq (JStr s) j = true <-> j = JStr s.
Proof.
  destruct j; simpl; try (split; done).
  rewrite String.eqb_eq. split; [by intros ->|by intros [= ->]].
Qed.

Lemma target_kind v t :
  jwf v -> normalize_execution_target v = Ok t ->
  exists k, jget t "kind" = JStr k /\ In k ["default"; "profile"; "machine"; "runpod"].
Proof.
  intros Hwf H. destruct (normalize_target_wf v t Hwf H) as (_ & -> & _).
  unfold normalize_execution_target in H. res_inv. bool_hyps. unfold json_column in *.
  destruct (jget (jnorm v) "kind") as [| | |k| |]; simpl in *; simplify_eq.
  exists k. split; [done|]. by apply str_in_spec in E0.
Qed.

(** The identity fields of a normalised target are non-empty strings. *)
Lemma target_identity v t fields :
  jwf v -> normalize_execution_target v = Ok t -> identity_fields (jget t "kind") = Ok fields ->
  Forall (fun f => exists s, jget t f = JStr s /\ nonempty s = true) fields.
Proof.
  intros Hwf H Hf. pose proof (normalize_target_wf v t Hwf H) as (Ht & Hk & _).
  destruct (target_kind v t Hwf H) as (k & Hkk & Hin). rewrite Hkk in *. symmetry in Hk.
  unfold normalize_execution_target in H. res_inv. bool_hyps. unfold json_column in *.
  rewrite Hk in *. simpl in Hf, H. injection Hf as <-.
  repeat (destruct Hin as [<-|Hin]; simpl in *); try done; try (by constructor).
  - pose proof H as H'. unfold aliased_target in H'. res_inv. bool_hyps.
    constructor; [|constructor]. rewrite jget_del_ne, jget_set_eq by done.
    by apply nonempty_str_inv.
  - pose proof H as H'. unfold aliased_target in H'. res_inv. bool_hyps.
    constructor; [|constructor]. rewrite jget_del_ne, jget_set_eq by done.
    by apply nonempty_str_inv.
  - res_inv. bool_hyps. repeat constructor; by apply nonempty_str_inv.
Qed.

(** C28: a selector of a concrete kind is satisfied only by a placement of that
    kind carrying the very identity the selector names and every release
    detail the selector mentions, and only when the placement is
    credential-verified. *)
Theorem execution_placement_matches_sound v selected placement fields :
  jwf v -> normalize_execution_target v = Ok selected ->
  jget selected "kind" <> JStr "default" ->
  identity_fields (jget selected "kind") = Ok fields ->
  execution_placement_matches selected placement = Ok true ->
  let actual := jget placement "actual" in
  jget (jget placement "verification") "verified" = JBool true /\
  jget actual "kind" = jget selected "kind" /\
  Forall (fun f => jget actual f = jget selected f) fields /\
  Forall (fun f => jhas selected f = true -> py_eq (jget selected f) (jget actual f) = true)
    release_fields.
Proof.
  intros Hwf Hsel Hnd Hf Hm. simpl.
  destruct (target_kind v selected Hwf Hsel) as (k & Hk & _).
  pose proof (target_identity v selected fields Hwf Hsel Hf) as Hid.
  unfold execution_placement_matches in Hm.
  destruct (negb (is_dict selected) || _); [done|].
  destruct (_ || negb (is_true _)) eqn:E2; [done|]. bool_hyps.
  destruct (negb (is_dict (jget placement "actual"))); [done|].
  destruct (negb _ && _) eqn:E4; [done|]. rewrite Hf in Hm. cbn [mbind res_bind] in Hm.
  destruct (forallb _ fields) eqn:E5; [|done]. cbn [negb] in Hm. apply (inj Ok) in Hm as Hrel.
  split; [by destruct (jget (jget placement "verification") "verified") as [|[]| | | |]|].
  split; [|split].
  - apply andb_false_iff in E4 as [E4|E4]; apply negb_false_iff in E4; rewrite Hk in *.
    + apply String.eqb_eq in E4. congruence.
    + by apply py_eq_str in E4.
  - rewrite forallb_forall in E5. apply List.Forall_forall. intros f Hin.
    rewrite List.Forall_forall in Hid. destruct (Hid f Hin) as (s & Hs & _).
    specialize (E5 f Hin). rewrite Hs in *. by apply py_eq_str in E5.
  - rewrite forallb_forall in Hrel. apply List.Forall_forall. intros f Hin Hhas.
    specialize (Hrel f Hin). by rewrite Hhas in Hrel.
Qed.

(** A worker's own verified placement satisfies the selector that names
    it, and the default selector. *)
Theorem execution_placement_self p q :
  jwf p -> normalize_verified_execution_placement p = Ok q ->
  execution_placement_matches (jget q "actual") q = Ok true /\
  execution_placement_matches (JObj [("kind", JStr "default")]) q = Ok true.
Proof.
  intros Hwf H. unfold normalize_verified_execution_placement in H. res_inv. bool_hyps.
  match goal with Ht : normalize_execution_target _ = Ok ?x |- _ =>
    destruct (target_kind _ _ (jwf_get _ "actual" Hwf) Ht) as (k & Hk & _);
    destruct (normalize_target_wf _ _ (jwf_get _ "actual" Hwf) Ht) as (Hwx & _ & _);
    rename x into actual end.
  destruct (jget p "executor_incarnation") as [| | |inc| |]; res_inv.
  assert (is_dict actual = true) as Hd.
  { by destruct actual. }
  assert (forall l, forallb (fun f => py_eq (jget actual f) (jget actual f)) l = true) as Hall
    by (intros l; apply forallb_forall; intros f _; by apply py_eq_refl, jwf_get).
  assert (forallb (fun f => negb (jhas actual f) || py_eq (jget actual f) (jget actual f))
            release_fields = true) as Hrel
    by (apply forallb_forall; intros f _; rewrite py_eq_refl by (by apply jwf_get);
        apply orb_true_r).
  match goal with |- execution_placement_matches _ ?q = _ /\ _ =>
    change (jget q "actual") with actual; remember q as placement eqn:Eq end.
  assert (is_dict placement = true) as Hp by (by rewrite Eq).
  assert (jget placement "actual" = actual) as Ha by (by rewrite Eq).
  assert (is_dict (jget placement "verification") = true) as Hv by (by rewrite Eq).
  assert (is_true (jget (jget placement "verification") "verified") = true) as Ht by (by rewrite Eq).
  unfold execution_placement_matches. rewrite Hp, Ha, Hv, Ht, Hd. cbn [negb orb is_dict]. split.
  - rewrite py_eq_refl, andb_false_r by (by apply jwf_get). rewrite Hk. cbn [identity_fields].
    cbn [mbind res_bind]. by rewrite Hall, Hrel.
  - done.
Qed.

(** ** Stored specs *)

Lemma adel_comm {A} k k' (l : list (string * A)) : adel k (adel k' l) = adel k' (adel k l).
Proof.
  unfold adel. induction l as [|x l IH]; simpl; [done|].
  destruct (negb (String.eqb k' x.1)) eqn:E1, (negb (String.eqb k x.1)) eqn:E2; simpl;
    rewrite ?E1, ?E2, IH; done.
Qed.

Lemma adel_aset {A} k (v : A) l : adel k (aset k v l) = adel k l.
Proof.
  induction l as [|[k' v'] l IH]; simpl; [by rewrite String.eqb_refl|].
  destruct (String.eqb k k') eqn:E; simpl; rewrite ?String.eqb_refl, ?E; simpl; [done|].
  by rewrite IH.
Qed.


(** ** Concrete inputs *)

Definition ex_facts (vram : Z) : json :=
  JObj [("minimum", JObj [("vram_bytes", JInt vram)]);
        ("exact", JObj [("driver", JStr "550"); ("port", JInt 8188)])].

Definition ex_target : json :=
  JObj [("kind", JStr "machine"); ("machine_id", JStr "m1"); ("storage", JStr "nvme")].

Definition ex_digest : string :=
  "sha256:0123456789abcdef0123456789abcdef0123456789abcdef0123456789abcdef".

Definition ex_request : json :=
  JObj [("target", ex_target);
        ("inputs", JArr [JObj [("name", JStr "image"); ("object_id", JStr ex_digest)]])].

Definition ex_placement : json :=
  JObj [("verification", JObj [("verified", JBool true); ("method", JStr "credential_claim");
                               ("evidence_digest", JStr ex_digest)]);
        ("actual", ex_target); ("executor_incarnation", JStr " boot-1 ")].

Lemma execution_facts_match_spec_witness :
  jwf (ex_facts 1) /\ jwf (ex_facts 2) /\ facts_le (ex_facts 1) (ex_facts 2).
Proof.
  split; [solve_jwf|]. split; [solve_jwf|].
  apply (execution_facts_match_spec (ex_facts 1) (ex_facts 2)); [solve_jwf..|].
  vm_compute. reflexivity.
Defined.

Lemma execution_facts_match_trans_witness :
  execution_facts_match (ex_facts 1) (ex_facts 3) = Ok true.
Proof.
  apply (execution_facts_match_trans (ex_facts 1) (ex_facts 2) (ex_facts 3));
    [solve_jwf..| |]; vm_compute; reflexivity.
Defined.

Lemma normalize_execution_target_stable_witness :
  exists t, normalize_execution_target ex_target = Ok t /\
            normalize_execution_target (json_column t) = Ok (json_column t).
Proof.
  eexists. split; [vm_compute; reflexivity|].
  apply (normalize_execution_target_stable ex_target); [solve_jwf|].
  vm_compute. reflexivity.
Defined.

Lemma normalize_execution_request_stable_witness :
  exists r, normalize_execution_request ex_request (JArr [JStr ex_digest]) = Ok r /\
            normalize_execution_request (json_column r) (JArr [JStr ex_digest]) = Ok (json_column r).
Proof.
  eexists. split; [vm_compute; reflexivity|].
  apply (normalize_execution_request_stable ex_request (JArr [JStr ex_digest])); [solve_jwf|].
  vm_compute. reflexivity.
Defined.

Lemma execution_placement_self_witness :
  exists q, normalize_verified_execution_placement ex_placement = Ok q /\
            execution_placement_matches (jget q "actual") q = Ok true.
Proof.
  eexists. split; [vm_compute; reflexivity|].
  refine (proj1 (execution_placement_self ex_placement _ _ _)); [solve_jwf|].
  vm_compute. reflexivity.
Defined.

Lemma execution_placement_matches_sound_witness :
  let selected := JObj [("kind", JStr "machine"); ("storage", JStr "nvme"); ("id", JStr "m1")] in
  let placement := JObj [("actual", selected);
                         ("verification", JObj [("verified", JBool true)])] in
  jget (jget placement "actual") "kind" = jget selected "kind".
Proof.
  refine (proj1 (proj2 (execution_placement_matches_sound ex_target
    (JObj [("kind", JStr "machine"); ("storage", JStr "nvme"); ("id", JStr "m1")])
    (JObj [("actual", JObj [("kind", JStr "machine"); ("storage", JStr "nvme"); ("id", JStr "m1")]);
           ("verification", JObj [("verified", JBool true)])]) ["id"] _ _ _ _ _)));
    [solve_jwf | vm_compute; reflexivity | vm_compute; discriminate
    | vm_compute; reflexivity | vm_compute; reflexivity].
Defined.

