(* ===== verification/Sha256.v ===== *)
(** * SHA-256

    [hashlib.sha256(text.encode()).hexdigest()], the digest behind spec
    records, event hashes, request hashes, association ids and object ids.
    Words are 32-bit values in [Z]; [u32] writes the wrap-around out. *)

From Stdlib Require Import ZArith String Ascii List Bool Lia.
From stdpp Require Import base list strings.
From S2P Require Import Prelude.

Open Scope Z_scope.

Definition u32 (x : Z) : Z := Z.land x 0xffffffff.
Definition rotr (n x : Z) : Z := u32 (Z.lor (Z.shiftr x n) (Z.shiftl x (32 - n))).
Definition ch (x y z : Z) : Z := Z.lxor (Z.land x y) (Z.land (Z.lxor x 0xffffffff) z).
Definition maj (x y z : Z) : Z :=
  Z.lxor (Z.lxor (Z.land x y) (Z.land x z)) (Z.land y z).
Definition big_sigma0 (x : Z) : Z := Z.lxor (Z.lxor (rotr 2 x) (rotr 13 x)) (rotr 22 x).
Definition big_sigma1 (x : Z) : Z := Z.lxor (Z.lxor (rotr 6 x) (rotr 11 x)) (rotr 25 x).
Definition small_sigma0 (x : Z) : Z := Z.lxor (Z.lxor (rotr 7 x) (rotr 18 x)) (Z.shiftr x 3).
Definition small_sigma1 (x : Z) : Z := Z.lxor (Z.lxor (rotr 17 x) (rotr 19 x)) (Z.shiftr x 10).

(** The constants of the standard: the first 32 bits of the fractional parts of
    the cube roots of the first 64 primes, and of the square roots of the first
    eight. *)
Definition is_prime (n : Z) : bool :=
  forallb (fun d => negb (n mod Z.of_nat d =? 0)) (seq 2 (Z.to_nat n - 2)).

Definition primes (bound : nat) : list Z :=
  List.filter is_prime (map Z.of_nat (seq 2 bound)).

(** The largest [r] below [acc + 2 ^ bits] with [r ^ 3 <= n], bit by bit. *)
Fixpoint cube_root (bits : nat) (acc n : Z) : Z :=
  match bits with
  | O => acc
  | S k => let next := acc + 2 ^ Z.of_nat k in cube_root k (if next ^ 3 <=? n then next else acc) n
  end.

Definition round_constants : list Z := Eval vm_compute in
  map (fun p => u32 (cube_root 40 0 (p * 2 ^ 96))) (primes 310).

Definition initial_state : list Z := Eval vm_compute in
  map (fun p => u32 (Z.sqrt (p * 2 ^ 64))) (firstn 8 (primes 310)).

(** The message schedule, kept newest word first. *)
Fixpoint schedule (n : nat) (w : list Z) : list Z :=
  match n with
  | O => w
  | S n' =>
      let word i := nth i w 0 in
      schedule n' (u32 (small_sigma1 (word 1%nat) + word 6%nat +
                        small_sigma0 (word 14%nat) + word 15%nat) :: w)
  end.

Definition round (s : list Z) (kw : Z * Z) : list Z :=
  match s with
  | [a; b; c; d; e; f; g; h] =>
      let t1 := u32 (h + big_sigma1 e + ch e f g + kw.1 + kw.2) in
      let t2 := u32 (big_sigma0 a + maj a b c) in
      [u32 (t1 + t2); a; b; c; u32 (d + t1); e; f; g]
  | _ => s
  end.

Definition compress (s block : list Z) : list Z :=
  let w := rev (schedule 48 (rev block)) in
  zip_with (fun x y => u32 (x + y)) s (foldl round s (combine round_constants w)).

Fixpoint bytes_of (s : string) : list Z :=
  match s with
  | EmptyString => []
  | String c r => Z.of_N (N_of_ascii c) :: bytes_of r
  end.

(** [n] big-endian bytes of [x]. *)
Fixpoint be_bytes (n : nat) (x : Z) : list Z :=
  match n with
  | O => []
  | S n' => be_bytes n' (Z.shiftr x 8) ++ [Z.land x 255]
  end.

(** The number of zero bytes that pads the message to 56 bytes modulo 64. *)
Definition padding (msg : list Z) : list Z :=
  let len := Z.of_nat (length msg) in
  [128] ++ repeat 0 (Z.to_nat ((55 - len) mod 64)) ++ be_bytes 8 (8 * len).

Fixpoint words (bs : list Z) : list Z :=
  match bs with
  | a :: b :: c :: d :: r =>
      Z.lor (Z.shiftl a 24) (Z.lor (Z.shiftl b 16) (Z.lor (Z.shiftl c 8) d)) :: words r
  | _ => []
  end.

(** The blocks of sixteen words; [fuel] bounds their number. *)
Fixpoint digest_blocks (fuel : nat) (s ws : list Z) : list Z :=
  match fuel, ws with
  | S fuel', _ :: _ => digest_blocks fuel' (compress s (firstn 16 ws)) (skipn 16 ws)
  | _, _ => s
  end.

Definition sha256_words (msg : list Z) : list Z :=
  let padded := msg ++ padding msg in
  digest_blocks (length padded) initial_state (words padded).

Definition hex_digit (x : Z) : ascii :=
  ascii_of_N (Z.to_N (if x <? 10 then 48 + x else 87 + x)).

Fixpoint hex_of (bs : list Z) : string :=
  match bs with
  | [] => EmptyString
  | b :: r => String (hex_digit (Z.shiftr b 4)) (String (hex_digit (Z.land b 15)) (hex_of r))
  end.

(** [hashlib.sha256(text.encode("utf-8")).hexdigest()] *)
Definition sha256 (text : string) : string :=
  hex_of (List.concat (map (be_bytes 4) (sha256_words (bytes_of text)))).

#[global] Arguments sha256 : simpl never.

(** The standard's test vectors: the empty message, one block, two blocks. *)
Example sha256_empty :
  sha256 EmptyString = "e3b0c44298fc1c149afbf4c8996fb92427ae41e4649b934ca495991b7852b855".
Proof. vm_compute. reflexivity. Qed.

Example sha256_abc :
  sha256 "abc" = "ba7816bf8f01cfea414140de5dae2223b00361a396177a9cb410ff61f20015ad".
Proof. vm_compute. reflexivity. Qed.

Example sha256_two_blocks :
  sha256 "abcdbcdecdefdefgefghfghighijhijkijkljklmklmnlmnomnopnopq" =
  "248d6a61d20638b8e5c026930c3e6039a33ce45964ff2167f6ecedd419db06c1".
Proof. vm_compute. reflexivity. Qed.

(** Two texts with one digest: the event that the tamper-evidence theorems
    leave as the only alternative. *)
Definition sha256_collision : Prop := exists a b, a <> b /\ sha256 a = sha256 b.

Lemma sha256_inj_or_collision a b : sha256 a = sha256 b -> a = b \/ sha256_collision.
Proof.
  intros H. destruct (string_dec a b); [by left|]. right. by exists a, b.
Qed.

(** ** The shape of a digest *)

Lemma round_length s kw : length s = 8%nat -> length (round s kw) = 8%nat.
Proof. do 9 (destruct s as [|? s]; try done). Qed.

Lemma rounds_length s l : length s = 8%nat -> length (foldl round s l) = 8%nat.
Proof. revert s. induction l as [|x l IH]; intros s Hs; simpl; [done|]. by apply IH, round_length. Qed.

Lemma compress_length s b : length s = 8%nat -> length (compress s b) = 8%nat.
Proof. intros Hs. unfold compress. rewrite length_zip_with, Hs, rounds_length; done. Qed.

Lemma digest_blocks_length fuel s ws : length s = 8%nat -> length (digest_blocks fuel s ws) = 8%nat.
Proof.
  revert s ws. induction fuel as [|fuel IH]; intros s ws Hs; simpl; [done|].
  destruct ws as [|w ws]; [done|]. by apply IH, compress_length.
Qed.

Lemma be_bytes_length n x : length (be_bytes n x) = n.
Proof. revert x. induction n as [|n IH]; intros x; simpl; [done|]. rewrite length_app, IH. simpl. lia. Qed.

Lemma be_bytes_range n x : Forall (fun b => 0 <= b < 256) (be_bytes n x).
Proof.
  revert x. induction n as [|n IH]; intros x; simpl; [constructor|].
  apply Forall_app. split; [apply IH|]. constructor; [|constructor].
  change 255 with (Z.ones 8). rewrite Z.land_ones by lia. apply Z.mod_pos_bound. lia.
Qed.

Lemma hex_digit_hex x : 0 <= x < 16 -> is_hex (hex_digit x) = true.
Proof.
  intros Hx. assert (In x (map Z.of_nat (seq 0 16))) as Hin.
  { apply in_map_iff. exists (Z.to_nat x). split; [lia|]. apply in_seq. lia. }
  simpl in Hin. repeat (destruct Hin as [<-|Hin]; [reflexivity|]). done.
Qed.

Lemma hex_of_shape bs :
  Forall (fun b => 0 <= b < 256) bs ->
  String.length (hex_of bs) = (2 * length bs)%nat /\ all_chars is_hex (hex_of bs) = true.
Proof.
  induction 1 as [|b bs Hb _ [IH1 IH2]]; [done|]. simpl. split; [rewrite IH1; lia|].
  rewrite IH2, !hex_digit_hex; [done| |].
  - change 15 with (Z.ones 4). rewrite Z.land_ones by lia. apply Z.mod_pos_bound. lia.
  - rewrite Z.shiftr_div_pow2 by lia. change (2 ^ 4) with 16.
    split; [apply Z.div_pos; lia|apply Z.div_lt_upper_bound; lia].
Qed.

Lemma concat_bytes l :
  length (List.concat (map (be_bytes 4) l)) = (4 * length l)%nat /\
  Forall (fun b => 0 <= b < 256) (List.concat (map (be_bytes 4) l)).
Proof.
  induction l as [|w l [IH1 IH2]]; [done|]. cbn [map List.concat]. split.
  - rewrite length_app, be_bytes_length, IH1. simpl. lia.
  - apply Forall_app. split; [apply be_bytes_range|done].
Qed.

(** A digest is 64 lower-case hexadecimal characters. *)
Theorem sha256_hex64 text : is_hex64 (sha256 text) = true.
Proof.
  unfold is_hex64, sha256. set (ws := sha256_words _).
  assert (length ws = 8%nat) as Hw by (apply digest_blocks_length; reflexivity).
  destruct (concat_bytes ws) as [Hl Hr]. destruct (hex_of_shape _ Hr) as [H1 H2].
  rewrite H1, Hl, Hw, H2. reflexivity.
Qed.

Lemma sha256_nonempty text : sha256 text <> EmptyString.
Proof. intros E. pose proof (sha256_hex64 text) as Hh. by rewrite E in Hh. Qed.
