(* ===== verification/Base64.v ===== *)
(** * URL-safe base64

    [base64.urlsafe_b64encode] with its padding removed and
    [base64.urlsafe_b64decode] with the padding put back, as the page cursors
    of [runtime_protocol/service.py] use them.  The decoder is the lenient one
    of [binascii.a2b_base64]: bytes outside the alphabet are skipped, and the
    input ends at a complete padding. *)

From Stdlib Require Import ZArith NArith String Ascii List Bool Lia.
From stdpp Require Import base list strings.
From S2P Require Import Prelude.

Open Scope N_scope.

(** ** The alphabet *)

Definition b64_char (n : N) : ascii :=
  if n <? 26 then ascii_of_N (65 + n)
  else if n <? 52 then ascii_of_N (71 + n)
  else if n <? 62 then ascii_of_N (n - 4)
  else if n =? 62 then "-"%char
  else "_"%char.

(** Both alphabets are read: [urlsafe_b64decode] translates before decoding. *)
Definition b64_value (c : ascii) : option N :=
  let n := N_of_ascii c in
  if is_upper c then Some (n - 65)
  else if is_lower c then Some (n - 71)
  else if is_digit c then Some (n + 4)
  else if Ascii.eqb c "-" || Ascii.eqb c "+" then Some 62
  else if Ascii.eqb c "_" || Ascii.eqb c "/" then Some 63
  else None.

Definition pad_char : ascii := "="%char.

(** ** Encoding *)

Fixpoint b64_encode (s : string) : string :=
  match s with
  | EmptyString => EmptyString
  | String a EmptyString =>
      let a := N_of_ascii a in
      String (b64_char (a / 4)) (String (b64_char (a mod 4 * 16)) (String pad_char (String pad_char EmptyString)))
  | String a (String b EmptyString) =>
      let a := N_of_ascii a in let b := N_of_ascii b in
      String (b64_char (a / 4)) (String (b64_char (a mod 4 * 16 + b / 16))
        (String (b64_char (b mod 16 * 4)) (String pad_char EmptyString)))
  | String a (String b (String c r)) =>
      let a := N_of_ascii a in let b := N_of_ascii b in let c := N_of_ascii c in
      String (b64_char (a / 4)) (String (b64_char (a mod 4 * 16 + b / 16))
        (String (b64_char (b mod 16 * 4 + c / 64)) (String (b64_char (c mod 64)) (b64_encode r))))
  end.

(** [urlsafe_b64encode(raw).decode("ascii").rstrip("=")] *)
Definition b64_text (s : string) : string := rstrip_by (Ascii.eqb pad_char) (b64_encode s).

(** ** Decoding *)

Definition put_byte (n : N) (r : option string) : option string :=
  match r with Some s => Some (String (ascii_of_N n) s) | None => None end.

(** [quad] bytes of a group of four are read, [left] holds their spare bits,
    [pads] counts the padding in a row. *)
Fixpoint a2b (quad : nat) (left : N) (pads : nat) (s : string) : option string :=
  match s with
  | EmptyString => match quad with O => Some EmptyString | _ => None end
  | String c r =>
      if Ascii.eqb c pad_char then
        if (2 <=? quad)%nat then
          if (4 <=? quad + S pads)%nat then Some EmptyString else a2b quad left (S pads) r
        else a2b quad left pads r
      else
        match b64_value c with
        | None => a2b quad left pads r
        | Some v =>
            match quad with
            | 0%nat => a2b 1 v 0 r
            | 1%nat => put_byte (left * 4 + v / 16) (a2b 2 (v mod 16) 0 r)
            | 2%nat => put_byte (left * 16 + v / 4) (a2b 3 (v mod 4) 0 r)
            | _ => put_byte (left * 64 + v) (a2b 0 0 0 r)
            end
        end
  end.

Fixpoint repeat_char (c : ascii) (n : nat) : string :=
  match n with O => EmptyString | S m => String c (repeat_char c m) end.

(** ["=" * (-len(text) % 4)] *)
Definition b64_padding (text : string) : string :=
  repeat_char pad_char ((4 - String.length text mod 4) mod 4).

(** [urlsafe_b64decode(text + "=" * (-len(text) % 4))]; a text with a byte
    outside ASCII is refused. *)
Definition b64_decode (text : string) : option string :=
  if all_chars (fun c => N_of_ascii c <? 128) text then a2b 0 0 0 (text +:+ b64_padding text) else None.

(** ** The round trip *)

Fixpoint below (n : nat) : list N := match n with O => [] | S m => below m ++ [N.of_nat m] end.

Lemma in_below n k : (N.to_nat k < n)%nat -> In k (below n).
Proof.
  induction n as [|n IH]; simpl; [lia|]. intros Hk. apply in_or_app.
  destruct (decide (N.to_nat k = n)) as [<-|]; [right; left; lia|left; apply IH; lia].
Qed.

(** Every digit is read back and is neither padding nor outside ASCII. *)
Definition digit_ok (n : N) : bool :=
  bool_decide (b64_value (b64_char n) = Some n) && negb (Ascii.eqb (b64_char n) pad_char) &&
  negb (Ascii.eqb pad_char (b64_char n)) && (N_of_ascii (b64_char n) <? 128).

Lemma digits_ok : forallb digit_ok (below 64) = true.
Proof. vm_compute. reflexivity. Qed.

Lemma digit_spec n : n < 64 ->
  b64_value (b64_char n) = Some n /\ Ascii.eqb (b64_char n) pad_char = false /\
  Ascii.eqb pad_char (b64_char n) = false /\ (N_of_ascii (b64_char n) <? 128) = true.
Proof.
  intros Hn. pose proof digits_ok as H. rewrite forallb_forall in H.
  specialize (H n (in_below 64 n ltac:(lia))). unfold digit_ok in H. bool_hyps.
  apply bool_decide_eq_true in H. auto.
Qed.

Lemma byte_bound c : N_of_ascii c < 256.
Proof. apply N_ascii_bounded. Qed.

Section RoundTrip.
#[local] Ltac Zify.zify_post_hook ::= Z.to_euclidean_division_equations.

Lemma a2b_digit quad left pads n r : n < 64 ->
  a2b quad left pads (String (b64_char n) r) =
  match quad with
  | 0%nat => a2b 1 n 0 r
  | 1%nat => put_byte (left * 4 + n / 16) (a2b 2 (n mod 16) 0 r)
  | 2%nat => put_byte (left * 16 + n / 4) (a2b 3 (n mod 4) 0 r)
  | _ => put_byte (left * 64 + n) (a2b 0 0 0 r)
  end.
Proof. intros Hn. destruct (digit_spec n Hn) as (Hv & Hp & _). cbn [a2b]. by rewrite Hp, Hv. Qed.

Lemma rstrip_digit n r : n < 64 ->
  rstrip_by (Ascii.eqb pad_char) (String (b64_char n) r) = String (b64_char n) (rstrip_by (Ascii.eqb pad_char) r).
Proof. intros Hn. destruct (digit_spec n Hn) as (_ & _ & Hp & _). cbn [rstrip_by]. rewrite Hp. by destruct (rstrip_by _ r). Qed.

Lemma ascii_digit n r : n < 64 ->
  all_chars (fun c => N_of_ascii c <? 128) (String (b64_char n) r) = all_chars (fun c => N_of_ascii c <? 128) r.
Proof. intros Hn. destruct (digit_spec n Hn) as (_ & _ & _ & Hp). cbn [all_chars]. by rewrite Hp. Qed.

(** Four digits of a group stand for its three bytes. *)
Lemma group_bytes a b c : a < 256 -> b < 256 -> c < 256 ->
  a / 4 < 64 /\ a mod 4 * 16 + b / 16 < 64 /\ b mod 16 * 4 + c / 64 < 64 /\ c mod 64 < 64 /\
  a / 4 * 4 + (a mod 4 * 16 + b / 16) / 16 = a /\
  (a mod 4 * 16 + b / 16) mod 16 * 16 + (b mod 16 * 4 + c / 64) / 4 = b /\
  (b mod 16 * 4 + c / 64) mod 4 * 64 + c mod 64 = c.
Proof. intros. repeat split; lia. Qed.

Lemma padding_group x y z w r :
  b64_padding (String x (String y (String z (String w r)))) = b64_padding r.
Proof.
  unfold b64_padding. f_equal. cbn [String.length].
  replace (S (S (S (S (String.length r))))) with (String.length r + 1 * 4)%nat by lia.
  by rewrite Nat.Div0.mod_add.
Qed.

(** What the cursors need of the codec. *)
Definition b64_reads (s : string) : Prop :=
  all_chars (fun c => N_of_ascii c <? 128) (b64_text s) = true /\
  a2b 0 0 0 (b64_text s +:+ b64_padding (b64_text s)) = Some s.

Lemma b64_reads_group a b c r : b64_reads r -> b64_reads (String a (String b (String c r))).
Proof.
  intros [Ha Hr]. unfold b64_reads, b64_text in *. cbn [b64_encode].
  destruct (group_bytes (N_of_ascii a) (N_of_ascii b) (N_of_ascii c)) as (H1 & H2 & H3 & H4 & E1 & E2 & E3);
    [apply byte_bound..|].
  rewrite !rstrip_digit, padding_group, !ascii_digit by done. split; [done|].
  set (t := rstrip_by _ (b64_encode r)) in *.
  change (a2b 0 0 0 (String (b64_char (N_of_ascii a / 4)) (String (b64_char (N_of_ascii a mod 4 * 16 + N_of_ascii b / 16))
    (String (b64_char (N_of_ascii b mod 16 * 4 + N_of_ascii c / 64)) (String (b64_char (N_of_ascii c mod 64))
      (t +:+ b64_padding t))))) = Some (String a (String b (String c r)))).
  rewrite !a2b_digit, E1, E2, E3, Hr by done. simpl. by rewrite !ascii_N_embedding.
Qed.

Lemma b64_reads_all s : b64_reads s.
Proof.
  enough (forall n s, (String.length s <= n)%nat -> b64_reads s) as H by by eapply H.
  clear s. intros n. induction n as [|n IH]; intros s Hn.
  { destruct s; [|simpl in Hn; lia]. split; reflexivity. }
  destruct s as [|a [|b [|c r]]]; [split; reflexivity| | |apply b64_reads_group, IH; simpl in Hn; lia].
  - destruct (group_bytes (N_of_ascii a) 0 0) as (H1 & H2 & _ & _ & E1 & _); [apply byte_bound|lia..|].
    change (0 / 16) with 0 in *. rewrite N.add_0_r in *.
    unfold b64_reads, b64_text. cbn [b64_encode]. rewrite !rstrip_digit, !ascii_digit by done. split; [reflexivity|].
    change (a2b 0 0 0 (String (b64_char (N_of_ascii a / 4)) (String (b64_char (N_of_ascii a mod 4 * 16)) "==")) = Some (String a "")).
    rewrite !a2b_digit by done. rewrite E1. simpl. by rewrite ascii_N_embedding.
  - destruct (group_bytes (N_of_ascii a) (N_of_ascii b) 0) as (H1 & H2 & H3 & _ & E1 & E2 & _); [apply byte_bound..|lia|].
    change (0 / 64) with 0 in *. rewrite N.add_0_r in *.
    unfold b64_reads, b64_text. cbn [b64_encode]. rewrite !rstrip_digit, !ascii_digit by done. split; [reflexivity|].
    change (a2b 0 0 0 (String (b64_char (N_of_ascii a / 4)) (String (b64_char (N_of_ascii a mod 4 * 16 + N_of_ascii b / 16))
      (String (b64_char (N_of_ascii b mod 16 * 4)) "="))) = Some (String a (String b ""))).
    rewrite !a2b_digit by done. rewrite E1, E2. simpl. by rewrite !ascii_N_embedding.
Qed.
End RoundTrip.

(** What was encoded is decoded. *)
Lemma b64_decode_text s : b64_decode (b64_text s) = Some s.
Proof. destruct (b64_reads_all s) as [Ha Hr]. unfold b64_decode. by rewrite Ha. Qed.
