(* ===== verification/Tables.v ===== *)
(** * The tables of a realm

    [runtime_protocol/canonical_schema.py]: one record per table, in the
    columns of the schema, and the record of all tables.  A [*_json] column
    holds the value [json.loads] reads from it (see [Json.json_column]); the
    columns whose text is itself hashed or compared ([task_specs.body_json],
    [command_idempotency.result_json]) hold the text.  Enumerated columns are
    inductive types; a timestamp column holds a [stamp]. *)

From Stdlib Require Import ZArith String Ascii List Bool Lia.
From stdpp Require Import base list strings.
From coqutil Require Export Datatypes.RecordSetters.
From S2P Require Import Prelude Json.
Export RecordSetters.DoubleBraceUpdate.

Open Scope Z_scope.

(** Field assignments compute under [simpl]. *)
#[global] Arguments constant {_} _ _ /.

(** [tasks.status] and [runs.status] *)
Inductive Status := Queued | Running | CancelRequested | Completed | Failed | Cancelled.

#[global] Instance Status_eq_dec : EqDecision Status.
Proof. solve_decision. Defined.

Definition status_text (s : Status) : string :=
  match s with
  | Queued => "queued" | Running => "running" | CancelRequested => "cancel_requested"
  | Completed => "completed" | Failed => "failed" | Cancelled => "cancelled"
  end.

(** [execution_bindings.status] *)
Inductive BindingStatus := Prepared | Claimed | Released | Stale.

#[global] Instance BindingStatus_eq_dec : EqDecision BindingStatus.
Proof. solve_decision. Defined.

Definition binding_status_text (s : BindingStatus) : string :=
  match s with
  | Prepared => "prepared" | Claimed => "claimed" | Released => "released" | Stale => "stale"
  end.

(** [managed_output_lifecycle.state] *)
Inductive OutputState := Available | Temporary | Expired | Promoted | Reclaimed.

#[global] Instance OutputState_eq_dec : EqDecision OutputState.
Proof. solve_decision. Defined.

Definition output_state_text (s : OutputState) : string :=
  match s with
  | Available => "available" | Temporary => "temporary" | Expired => "expired"
  | Promoted => "promoted" | Reclaimed => "reclaimed"
  end.

(** A stored timestamp: what [now()] and its relatives write (UTC, milliseconds
    since the epoch), or a text that [datetime.fromisoformat] refuses. *)
Inductive stamp := At (ms : Z) | Malformed (text : string).

#[global] Instance stamp_eq_dec : EqDecision stamp.
Proof. solve_decision. Defined.

(** [isoformat(timespec="milliseconds")] of a UTC time. *)
Definition digit_char (n : Z) : ascii := ascii_of_N (Z.to_N (48 + n)).

Fixpoint digits (width : nat) (n : Z) : string :=
  match width with
  | O => EmptyString
  | S w => digits w (n / 10) +:+ String (digit_char (n mod 10)) EmptyString
  end.

(** Days since 1970-01-01 to year, month, day in the proleptic Gregorian
    calendar (eras of 146097 days that start on 1 March). *)
Definition civil_from_days (z : Z) : Z * Z * Z :=
  let z := z + 719468 in
  let era := z / 146097 in
  let doe := z mod 146097 in
  let yoe := (doe - doe / 1460 + doe / 36524 - doe / 146096) / 365 in
  let doy := doe - (365 * yoe + yoe / 4 - yoe / 100) in
  let mp := (5 * doy + 2) / 153 in
  let d := doy - (153 * mp + 2) / 5 + 1 in
  let m := if mp <? 10 then mp + 3 else mp - 9 in
  let y := yoe + era * 400 + (if m <=? 2 then 1 else 0) in
  (y, m, d).

Definition iso_text (ms : Z) : string :=
  let '(y, m, d) := civil_from_days (ms / 86400000) in
  let t := ms mod 86400000 in
  digits 4 y +:+ "-" +:+ digits 2 m +:+ "-" +:+ digits 2 d +:+ "T" +:+
  digits 2 (t / 3600000) +:+ ":" +:+ digits 2 (t / 60000 mod 60) +:+ ":" +:+
  digits 2 (t / 1000 mod 60) +:+ "." +:+ digits 3 (t mod 1000) +:+ "+00:00".

Definition stamp_text (s : stamp) : string :=
  match s with At ms => iso_text ms | Malformed text => text end.

(** The truth value of a timestamp column. *)
Definition stamp_truthy (s : option stamp) : bool :=
  match s with Some (Malformed EmptyString) | None => false | _ => true end.

#[global] Arguments iso_text : simpl never.

Example iso_text_example : iso_text 1753142399007 = "2025-07-21T23:59:59.007+00:00".
Proof. reflexivity. Qed.

(** ** Rows *)

(** Table tasks (canonical_schema.py). *)
Record task_row := Task {
  t_id : string; t_run_id : string; t_capability : string; t_spec_digest : option string;
  t_status : Status; t_lease_token : option string; t_executor_id : option string;
  t_attempt : Z; t_expected_effect_json : option json; t_result_json : option json;
  t_created_at : stamp; t_updated_at : stamp; t_capability_digest : option string;
  t_waiting_reason : option string; t_lease_expires_at : option stamp; t_lease_fence : Z;
  t_attempt_id : option string; t_runtime_epoch : option Z;
  t_execution_request_json : option json }.

#[global] Instance set_t_spec_digest : Setter t_spec_digest := ltac:(setter task_row (option string) t_spec_digest).
#[global] Instance set_t_status : Setter t_status := ltac:(setter task_row (Status) t_status).
#[global] Instance set_t_lease_token : Setter t_lease_token := ltac:(setter task_row (option string) t_lease_token).
#[global] Instance set_t_executor_id : Setter t_executor_id := ltac:(setter task_row (option string) t_executor_id).
#[global] Instance set_t_attempt : Setter t_attempt := ltac:(setter task_row (Z) t_attempt).
#[global] Instance set_t_result_json : Setter t_result_json := ltac:(setter task_row (option json) t_result_json).
#[global] Instance set_t_updated_at : Setter t_updated_at := ltac:(setter task_row (stamp) t_updated_at).
#[global] Instance set_t_waiting_reason : Setter t_waiting_reason := ltac:(setter task_row (option string) t_waiting_reason).
#[global] Instance set_t_lease_expires_at : Setter t_lease_expires_at := ltac:(setter task_row (option stamp) t_lease_expires_at).
#[global] Instance set_t_lease_fence : Setter t_lease_fence := ltac:(setter task_row (Z) t_lease_fence).
#[global] Instance set_t_attempt_id : Setter t_attempt_id := ltac:(setter task_row (option string) t_attempt_id).
#[global] Instance set_t_runtime_epoch : Setter t_runtime_epoch := ltac:(setter task_row (option Z) t_runtime_epoch).
#[global] Instance set_t_expected_effect_json : Setter t_expected_effect_json := ltac:(setter task_row (option json) t_expected_effect_json).
#[global] Instance set_t_execution_request_json : Setter t_execution_request_json := ltac:(setter task_row (option json) t_execution_request_json).

(** Table runs. *)
Record run_row := Run {
  r_id : string; r_project_id : option string; r_capability : string;
  r_spec_digest : option string; r_status : Status; r_idempotency_key : option string;
  r_created_at : stamp; r_updated_at : stamp }.

#[global] Instance set_r_spec_digest : Setter r_spec_digest := ltac:(setter run_row (option string) r_spec_digest).
#[global] Instance set_r_status : Setter r_status := ltac:(setter run_row (Status) r_status).
#[global] Instance set_r_updated_at : Setter r_updated_at := ltac:(setter run_row (stamp) r_updated_at).

(** Table task_specs. *)
Record spec_row := Spec {
  sp_digest : string; sp_body : string; sp_created_at : stamp }.

(** Table events. *)
Record event_row := Event {
  e_id : Z; e_run_id : string; e_task_id : option string; e_kind : string;
  e_payload_json : json; e_previous_hash : string; e_event_hash : string; e_created_at : stamp }.

(** Table reservations. *)
Record reservation_row := Reservation {
  rv_task_id : string; rv_resource_key : string; rv_lease_token : string;
  rv_created_at : stamp; rv_released_at : option stamp; rv_executor_id : option string;
  rv_fence : Z; rv_lease_expires_at : option stamp; rv_runtime_epoch : Z }.

#[global] Instance set_rv_released_at : Setter rv_released_at := ltac:(setter reservation_row (option stamp) rv_released_at).
#[global] Instance set_rv_lease_expires_at : Setter rv_lease_expires_at := ltac:(setter reservation_row (option stamp) rv_lease_expires_at).

(** Table capabilities. *)
Record capability_row := Capability {
  cap_id : string; cap_definition_digest : string; cap_status : string;
  cap_required_resource_keys_json : list string; cap_estimated_scratch_bytes : Z;
  cap_estimated_output_bytes : Z; cap_unavailable_reason : option string;
  cap_created_at : stamp; cap_updated_at : stamp }.

#[global] Instance set_cap_created_at : Setter cap_created_at := ltac:(setter capability_row (stamp) cap_created_at).

(** Table executors. *)
Record executor_row := Executor {
  ex_id : string; ex_max_concurrency : Z; ex_resource_keys_json : list string;
  ex_capabilities_json : list json; ex_protocol : string; ex_created_at : stamp;
  ex_runtime_epoch : Z; ex_readiness : string; ex_readiness_reason : option string;
  ex_last_seen_at : option stamp; ex_source_digest : option string;
  ex_dependency_digest : option string; ex_source_epoch : option string }.

#[global] Instance set_ex_readiness : Setter ex_readiness := ltac:(setter executor_row (string) ex_readiness).
#[global] Instance set_ex_readiness_reason : Setter ex_readiness_reason := ltac:(setter executor_row (option string) ex_readiness_reason).
#[global] Instance set_ex_last_seen_at : Setter ex_last_seen_at := ltac:(setter executor_row (option stamp) ex_last_seen_at).
#[global] Instance set_ex_runtime_epoch : Setter ex_runtime_epoch := ltac:(setter executor_row (Z) ex_runtime_epoch).
#[global] Instance set_ex_created_at : Setter ex_created_at := ltac:(setter executor_row (stamp) ex_created_at).

(** Table attempts. *)
Record attempt_row := Attempt {
  at_id : string; at_task_id : string; at_lease_id : string; at_fence : Z;
  at_executor_id : string; at_lease_expires_at : stamp; at_settled : bool;
  at_runtime_epoch : Z; at_recovery_nonce : option string; at_recovery_nonce_expires_at : option stamp;
  at_recovery_nonce_used : bool }.

#[global] Instance set_at_settled : Setter at_settled := ltac:(setter attempt_row (bool) at_settled).
#[global] Instance set_at_recovery_nonce : Setter at_recovery_nonce := ltac:(setter attempt_row (option string) at_recovery_nonce).
#[global] Instance set_at_recovery_nonce_expires_at : Setter at_recovery_nonce_expires_at := ltac:(setter attempt_row (option stamp) at_recovery_nonce_expires_at).
#[global] Instance set_at_recovery_nonce_used : Setter at_recovery_nonce_used := ltac:(setter attempt_row (bool) at_recovery_nonce_used).

(** Table execution_bindings. *)
Record binding_row := Binding {
  b_binding_id : string; b_task_id : string; b_run_id : string; b_attempt_id : option string;
  b_lease_id : option string; b_fence : Z; b_executor_id : option string;
  b_session_id : string; b_runtime_epoch : Z; b_capability_id : string;
  b_profile_revision : json; b_profile_digest : json; b_release_digest : json;
  b_target_kind : json; b_target_id : json; b_provider_account_ref : json; b_pod_id : json;
  b_storage_json : option json; b_mounts_json : option json; b_resolved_target_json : json;
  b_status : BindingStatus; b_created_at : stamp; b_updated_at : stamp }.

#[global] Instance set_b_attempt_id : Setter b_attempt_id := ltac:(setter binding_row (option string) b_attempt_id).
#[global] Instance set_b_lease_id : Setter b_lease_id := ltac:(setter binding_row (option string) b_lease_id).
#[global] Instance set_b_fence : Setter b_fence := ltac:(setter binding_row (Z) b_fence).
#[global] Instance set_b_executor_id : Setter b_executor_id := ltac:(setter binding_row (option string) b_executor_id).
#[global] Instance set_b_session_id : Setter b_session_id := ltac:(setter binding_row (string) b_session_id).
#[global] Instance set_b_runtime_epoch : Setter b_runtime_epoch := ltac:(setter binding_row (Z) b_runtime_epoch).
#[global] Instance set_b_resolved_target_json : Setter b_resolved_target_json := ltac:(setter binding_row (json) b_resolved_target_json).
#[global] Instance set_b_status : Setter b_status := ltac:(setter binding_row (BindingStatus) b_status).
#[global] Instance set_b_updated_at : Setter b_updated_at := ltac:(setter binding_row (stamp) b_updated_at).

(** Table task_dependencies. *)
Record dependency_row := Dependency {
  d_continuation_task_id : string; d_predecessor_task_id : string; d_ordinal : Z }.

(** Table continuation_admissions. *)
Record admission_row := Admission {
  ad_continuation_task_id : string; ad_dependency_snapshot_json : json; ad_admitted_at : stamp }.

(** Table command_idempotency. *)
Record receipt_row := Receipt {
  rc_command_kind : string; rc_aggregate_id : string; rc_idempotency_key : string;
  rc_request_hash : string; rc_result_json : string; rc_created_at : stamp;
  rc_txn_id : option string; rc_primary_stream_id : option string;
  rc_resulting_stream_seq : option Z; rc_first_project_seq : option Z;
  rc_last_project_seq : option Z; rc_event_ids_json : option json }.

#[global] Instance set_rc_result_json : Setter rc_result_json := ltac:(setter receipt_row (string) rc_result_json).
#[global] Instance set_rc_request_hash : Setter rc_request_hash := ltac:(setter receipt_row (string) rc_request_hash).

(** Table runtime_lifecycle (the row id = 1). *)
Record lifecycle_row := Lifecycle {
  lc_runtime_epoch : Z; lc_boot_id : string; lc_previous_boot_id : option string;
  lc_started_at : stamp; lc_recovered_task_count : Z }.

#[global] Instance set_lc_recovered_task_count : Setter lc_recovered_task_count := ltac:(setter lifecycle_row (Z) lc_recovered_task_count).

(** The values of [recovery_checkpoints.state]. *)
Inductive CheckpointState := Durable | RebootRequested | Executed | ExecutorFailed | Recovered | Resumed.

#[global] Instance checkpoint_state_eq_dec : EqDecision CheckpointState.
Proof. solve_decision. Defined.

Definition checkpoint_state_text (s : CheckpointState) : string :=
  match s with
  | Durable => "durable"
  | RebootRequested => "reboot_requested"
  | Executed => "executed"
  | ExecutorFailed => "executor_failed"
  | Recovered => "recovered"
  | Resumed => "resumed"
  end.

(** Table recovery_checkpoints. *)
Record checkpoint_row := Checkpoint {
  ck_id : string; ck_attempt_id : string; ck_task_id : string; ck_executor_id : string;
  ck_runtime_epoch : Z; ck_lease_id : string; ck_fence : Z; ck_nonce : string;
  ck_checkpoint_path : string; ck_checkpoint_digest : string; ck_checkpoint_size : Z;
  ck_state : CheckpointState; ck_recovery_receipt_json : option string; ck_created_at : stamp;
  ck_updated_at : stamp }.

#[global] Instance set_ck_state : Setter ck_state := ltac:(setter checkpoint_row (CheckpointState) ck_state).
#[global] Instance set_ck_recovery_receipt_json : Setter ck_recovery_receipt_json := ltac:(setter checkpoint_row (option string) ck_recovery_receipt_json).
#[global] Instance set_ck_updated_at : Setter ck_updated_at := ltac:(setter checkpoint_row (stamp) ck_updated_at).

(** Table objects. *)
Record object_row := Object {
  o_digest : string; o_size : Z; o_media_type : string; o_original_name : option string;
  o_created_at : stamp }.

(** Table project_objects. *)
Record project_object_row := ProjectObject {
  po_project_id : string; po_digest : string; po_relation : string; po_created_at : stamp }.

(** Table managed_output_associations. *)
Record association_row := Association {
  mo_association_id : string; mo_task_id : string; mo_attempt_id : string;
  mo_project_id : option string; mo_output_port : json; mo_group_key : json;
  mo_generation_id : json; mo_variant_key : json; mo_object_digest : string;
  mo_manifest_digest : option string; mo_size : Z; mo_filename : json; mo_media_type : json;
  mo_ordinal : Z; mo_role : json; mo_producer_json : json; mo_provenance_json : json;
  mo_durability : json; mo_regeneration_json : option json; mo_coverage_json : option json;
  mo_created_at : stamp }.

(** Table managed_output_lifecycle. *)
Record output_row := Output {
  l_association_id : string; l_state : OutputState; l_version : Z; l_expires_at : option stamp;
  l_pinned_at : option stamp; l_lease_id : option string; l_lease_owner : option string;
  l_lease_expires_at : option stamp; l_updated_at : stamp; l_created_at : stamp }.

(** Table timeline_render_publications. *)
Record publication_row := Publication {
  pb_authoring_task_id : string; pb_attempt_id : string; pb_fence : Z; pb_runtime_epoch : Z;
  pb_request_hash : string; pb_prepared_json : json; pb_published : bool;
  pb_timeline_id : option string; pb_timeline_version : option Z;
  pb_render_task_id : option string; pb_render_run_id : option string;
  pb_result_json : option json; pb_created_at : stamp; pb_updated_at : stamp }.

(** Table timeline_events. *)
Record timeline_event_row := TimelineEvent {
  te_id : Z; te_timeline_id : string; te_kind : string; te_payload_json : json;
  te_previous_hash : string; te_event_hash : string; te_created_at : stamp }.

(** Table parent_composition_revisions (the columns the ledger reads). *)
Record revision_row := Revision {
  pr_id : string; pr_project_id : string; pr_timeline_id : string; pr_content_digest : string }.

(** Table projects. *)
Record project_row := Project {
  p_id : string; p_realm_id : string; p_slug : string; p_name : string; p_metadata_json : json;
  p_version : Z; p_created_at : stamp; p_updated_at : stamp; p_idempotency_key : option string }.

#[global] Instance set_p_slug : Setter p_slug := ltac:(setter project_row (string) p_slug).
#[global] Instance set_p_name : Setter p_name := ltac:(setter project_row (string) p_name).
#[global] Instance set_p_metadata_json : Setter p_metadata_json := ltac:(setter project_row (json) p_metadata_json).
#[global] Instance set_p_version : Setter p_version := ltac:(setter project_row (Z) p_version).
#[global] Instance set_p_updated_at : Setter p_updated_at := ltac:(setter project_row (stamp) p_updated_at).

(** Table project_selections. *)
Record selection_row := Selection {
  sl_actor_id : string; sl_scope : string; sl_project_id : string; sl_updated_at : stamp }.

(** Table generations. *)
Record generation_row := Generation {
  g_id : string; g_project_id : string; g_source_task_id : option string; g_type : string; g_status : string;
  g_metadata_json : json; g_version : Z; g_created_at : stamp; g_updated_at : stamp }.

#[global] Instance set_g_metadata_json : Setter g_metadata_json := ltac:(setter generation_row (json) g_metadata_json).
#[global] Instance set_g_version : Setter g_version := ltac:(setter generation_row (Z) g_version).
#[global] Instance set_g_updated_at : Setter g_updated_at := ltac:(setter generation_row (stamp) g_updated_at).

(** Table generation_variants. *)
Record variant_row := Variant {
  v_id : string; v_generation_id : string; v_object_id : option string; v_variant_type : string;
  v_metadata_json : json; v_thumbnail_object_id : option string; v_thumbnail_source_object_id : option string;
  v_thumbnail_recipe_version : option Z; v_viewed_at : option stamp; v_created_at : stamp }.

#[global] Instance set_v_metadata_json : Setter v_metadata_json := ltac:(setter variant_row (json) v_metadata_json).

(** The temporary table session_command_replay of the service's connection. *)
Record session_row := Session {
  ss_command_kind : string; ss_aggregate_id : string; ss_idempotency_key : string;
  ss_request_hash : string; ss_result_json : string; ss_created_at : stamp; ss_is_expired : bool }.

#[global] Instance set_ss_result_json : Setter ss_result_json := ltac:(setter session_row (string) ss_result_json).
#[global] Instance set_ss_is_expired : Setter ss_is_expired := ltac:(setter session_row (bool) ss_is_expired).

(** The tables of a realm, each in rowid order, with the AUTOINCREMENT
    counters of the two event tables. *)
Record tables := Tables {
  tasks : list task_row; runs : list run_row; task_specs : list spec_row;
  events : list event_row; next_event_id : Z; reservations : list reservation_row;
  capabilities : list capability_row; executors : list executor_row;
  attempts : list attempt_row; execution_bindings : list binding_row;
  task_dependencies : list dependency_row; continuation_admissions : list admission_row;
  command_idempotency : list receipt_row; project_sequences : list (string * Z);
  runtime_lifecycle : option lifecycle_row; recovery_checkpoints : list checkpoint_row;
  objects : list object_row; project_objects : list project_object_row;
  managed_output_associations : list association_row;
  managed_output_lifecycle : list output_row;
  timeline_render_publications : list publication_row;
  timeline_events : list timeline_event_row; next_timeline_event_id : Z;
  parent_composition_revisions : list revision_row; timelines : list string;
  projects : list project_row; project_selections : list selection_row;
  generations : list generation_row; generation_variants : list variant_row;
  session_command_replay : list session_row }.

#[global] Instance set_tasks : Setter tasks := ltac:(setter tables (list task_row) tasks).
#[global] Instance set_runs : Setter runs := ltac:(setter tables (list run_row) runs).
#[global] Instance set_task_specs : Setter task_specs := ltac:(setter tables (list spec_row) task_specs).
#[global] Instance set_events : Setter events := ltac:(setter tables (list event_row) events).
#[global] Instance set_next_event_id : Setter next_event_id := ltac:(setter tables (Z) next_event_id).
#[global] Instance set_reservations : Setter reservations := ltac:(setter tables (list reservation_row) reservations).
#[global] Instance set_capabilities : Setter capabilities := ltac:(setter tables (list capability_row) capabilities).
#[global] Instance set_executors : Setter executors := ltac:(setter tables (list executor_row) executors).
#[global] Instance set_attempts : Setter attempts := ltac:(setter tables (list attempt_row) attempts).
#[global] Instance set_execution_bindings : Setter execution_bindings := ltac:(setter tables (list binding_row) execution_bindings).
#[global] Instance set_task_dependencies : Setter task_dependencies := ltac:(setter tables (list dependency_row) task_dependencies).
#[global] Instance set_continuation_admissions : Setter continuation_admissions := ltac:(setter tables (list admission_row) continuation_admissions).
#[global] Instance set_command_idempotency : Setter command_idempotency := ltac:(setter tables (list receipt_row) command_idempotency).
#[global] Instance set_project_sequences : Setter project_sequences := ltac:(setter tables (list (string * Z)) project_sequences).
#[global] Instance set_runtime_lifecycle : Setter runtime_lifecycle := ltac:(setter tables (option lifecycle_row) runtime_lifecycle).
#[global] Instance set_recovery_checkpoints : Setter recovery_checkpoints := ltac:(setter tables (list checkpoint_row) recovery_checkpoints).
#[global] Instance set_objects : Setter objects := ltac:(setter tables (list object_row) objects).
#[global] Instance set_project_objects : Setter project_objects := ltac:(setter tables (list project_object_row) project_objects).
#[global] Instance set_managed_output_associations : Setter managed_output_associations := ltac:(setter tables (list association_row) managed_output_associations).
#[global] Instance set_managed_output_lifecycle : Setter managed_output_lifecycle := ltac:(setter tables (list output_row) managed_output_lifecycle).
#[global] Instance set_timeline_render_publications : Setter timeline_render_publications := ltac:(setter tables (list publication_row) timeline_render_publications).
#[global] Instance set_timeline_events : Setter timeline_events := ltac:(setter tables (list timeline_event_row) timeline_events).
#[global] Instance set_next_timeline_event_id : Setter next_timeline_event_id := ltac:(setter tables (Z) next_timeline_event_id).
#[global] Instance set_parent_composition_revisions : Setter parent_composition_revisions := ltac:(setter tables (list revision_row) parent_composition_revisions).
#[global] Instance set_timelines : Setter timelines := ltac:(setter tables (list string) timelines).
#[global] Instance set_projects : Setter projects := ltac:(setter tables (list project_row) projects).
#[global] Instance set_project_selections : Setter project_selections := ltac:(setter tables (list selection_row) project_selections).
#[global] Instance set_generations : Setter generations := ltac:(setter tables (list generation_row) generations).
#[global] Instance set_generation_variants : Setter generation_variants := ltac:(setter tables (list variant_row) generation_variants).
#[global] Instance set_session_command_replay : Setter session_command_replay := ltac:(setter tables (list session_row) session_command_replay).
