(* ===== verification/Store.v ===== *)
(** * The store: environment, transactions and SQL

    The setting of [runtime_protocol/store.py].  A [RealmStore] method is a
    computation [M A]: it reads and updates the tables, consumes readings of
    the environment (clock, random ids, free disk space, files), and returns a
    value or raises.  [transaction] is [RealmStore._transaction]: when the body
    raises, the tables are restored.  The store mutex makes every handler one
    such computation.  The second half of the file is the program logic in
    which invariants of handlers are proved. *)

From Stdlib Require Import ZArith String Ascii List Bool Lia.
From stdpp Require Import base list strings.
From S2P Require Import Prelude Json Errors Sha256.
From S2P Require Export Tables.

Open Scope Z_scope.

(** What the code reads from outside the realm database.  The [n]-th reading is
    an argument, so that nothing is assumed about how readings relate. *)
Class World := {
  clock : nat -> Z;               (* [datetime.now(timezone.utc)], microseconds since the epoch *)
  monotonic : nat -> Z;           (* [time.monotonic()], microseconds *)
  fresh : nat -> string;          (* [uuid.uuid4().hex] *)
  free_disk : nat -> Z;           (* [shutil.disk_usage(root).free] *)
  getenv : string -> option string;  (* [os.environ.get] *)
  stored_object : nat -> string -> option string;  (* the bytes of a CAS object, [None] when absent *)
  checkpoint_file : nat -> string -> option string;  (* the bytes of a checkpoint file, [None] when unreadable *)
  zlib_base64 : string -> string;    (* [base64.b64encode(zlib.compress(text, 9))] *)
  unzlib_base64 : string -> option string;  (* its inverse, [None] where it raises *)
  max_depth : nat;                (* nested cancellations the interpreter's stack admits *)
  realm_id : string;
  realm_root : string
}.

(** The durable tables, the count of readings taken, the one attribute of the
    store object that outlives a call ([_last_idempotency_prune]), and the
    variable [recorded] that the callbacks of the service assign. *)
Record state := State { tb : tables; step : nat; last_prune : Z; recorded : json }.

Definition M (A : Type) : Type := state -> res A * state.

#[global] Instance M_ret : MRet M := fun _ a s => (Ok a, s).
#[global] Instance M_bind : MBind M := fun _ _ f m s =>
  match m s with
  | (Ok a, s') => f a s'
  | (Err e, s') => (Err e, s')
  end.

Definition lift {A} (r : res A) : M A := fun s => (r, s).
Definition raiseM {A} (c : ExnClass) (m : string) : M A := lift (raise c m).
Definition raiseM_with {A} (c : ExnClass) (m : string) (d : json) : M A := lift (raise_with c m d).
Definition guard_raise (b : bool) (c : ExnClass) (m : string) : M unit := lift (raise_if b c m).
Definition guard_raise_with (b : bool) (c : ExnClass) (m : string) (d : json) : M unit :=
  lift (raise_if_with b c m d).

Definition gets {A} (f : tables -> A) : M A := fun s => (Ok (f (tb s)), s).
Definition modify (f : tables -> tables) : M unit :=
  fun s => (Ok tt, State (f (tb s)) (step s) (last_prune s) (recorded s)).
Definition tick : M nat := fun s => (Ok (step s), State (tb s) (S (step s)) (last_prune s) (recorded s)).
Definition get_last_prune : M Z := fun s => (Ok (last_prune s), s).
Definition set_last_prune (z : Z) : M unit := fun s => (Ok tt, State (tb s) (step s) z (recorded s)).
Definition get_recorded : M json := fun s => (Ok (recorded s), s).
Definition set_recorded (v : json) : M unit := fun s => (Ok tt, State (tb s) (step s) (last_prune s) v).

(** [RealmStore._transaction], nested or not: an exception restores the tables
    and goes on. *)
Definition transaction {A} (m : M A) : M A := fun s =>
  match m s with
  | (Ok a, s') => (Ok a, s')
  | (Err e, s') => (Err e, State (tb s) (step s') (last_prune s') (recorded s'))
  end.

Fixpoint foldS {A B} (f : B -> A -> M B) (b : B) (l : list A) : M B :=
  match l with
  | [] => mret b
  | x :: r => b' ← f b x; foldS f b' r
  end.

(** Short-circuit conjunction. *)
Definition andM (a b : M bool) : M bool := x ← a; if (x : bool) then b else mret false.

(** [for x in l: body(x)] *)
Definition for_each {A} (l : list A) (f : A -> M unit) : M unit :=
  foldS (fun _ x => f x) tt l.

Definition mapS {A B} (f : A -> M B) (l : list A) : M (list B) :=
  foldS (fun acc x => y ← f x; mret (acc ++ [y])) [] l.

(** ** The environment *)

Section Environment.
Context `{World}.

Definition utcnow : M Z := n ← tick; mret (clock n).
Definition monotonic_now : M Z := n ← tick; mret (monotonic n).
(** [util.now] and [util.new_id] *)
Definition now : M stamp := us ← utcnow; mret (At (us / 1000)).
Definition new_id : M string := n ← tick; mret (fresh n).
Definition disk_free : M Z := n ← tick; mret (free_disk n).

(** [(datetime.now(utc) + timedelta(seconds=k)).isoformat(timespec="milliseconds")] *)
Definition now_plus (seconds : Z) : M stamp :=
  us ← utcnow; mret (At ((us + seconds * 1000000) / 1000)).
End Environment.

(** [datetime.fromisoformat(stamp) <= now], with [None] where it raises
    [ValueError]; [now] is in microseconds. *)
Definition expired_at (deadline : stamp) (now_us : Z) : option bool :=
  match deadline with
  | At ms => Some (ms * 1000 <=? now_us)
  | Malformed _ => None
  end.

(** The text order of two stored timestamps. *)
Definition stamp_ltb (a b : stamp) : bool :=
  match a, b with
  | At x, At y => x <? y
  | _, _ => String.ltb (stamp_text a) (stamp_text b)
  end.

Definition stamp_leb (a b : stamp) : bool := negb (stamp_ltb b a).

(** [value[key]] *)
Definition jitem (j : json) (k : string) : M json :=
  match j with
  | JObj kvs => match alookup k kvs with
                | Some v => mret v
                | None => raiseM KeyError k
                end
  | _ => raiseM TypeError "object is not subscriptable"
  end.

(** A JSON value bound to a text parameter or column. *)
Definition bind_text (j : json) : M string :=
  match j with
  | JStr s => mret s
  | _ => raiseM TypeError "parameter is not a text value"
  end.

(** [json.loads(text)] of a stored text. *)
Definition loads (text : string) : M json :=
  match json_loads text with
  | Some v => mret v
  | None => raiseM ValueError "Expecting value"
  end.

(** [int(text)]: surrounding space, a sign, digits with single underscores. *)
Fixpoint digits_value (acc : Z) (after_digit : bool) (s : string) : option Z :=
  match s with
  | EmptyString => if after_digit then Some acc else None
  | String c r =>
      if is_digit c then digits_value (acc * 10 + (Z.of_N (N_of_ascii c) - 48)) true r
      else if Ascii.eqb c "_"%char && after_digit then digits_value acc false r
      else None
  end.

Definition int_of_text (text : string) : option Z :=
  match str_strip text with
  | String "-" r => match digits_value 0 false r with Some z => Some (- z) | None => None end
  | String "+" r => digits_value 0 false r
  | s => digits_value 0 false s
  end.

(** [int(x)] of a JSON value. *)
Definition py_int (j : json) : M Z :=
  match j with
  | JInt z => mret z
  | JBool b => mret (if b then 1 else 0)
  | JStr s => match int_of_text s with
              | Some z => mret z
              | None => raiseM ValueError "invalid literal for int() with base 10"
              end
  | _ => raiseM TypeError "int() argument must be a string or a real number"
  end.

Example int_of_text_example :
  (int_of_text " -1_000 ", int_of_text "1__0", int_of_text EmptyString) = (Some (-1000), None, None).
Proof. reflexivity. Qed.

(** ** SQL *)

Definition update_where {A} (p : A -> bool) (f : A -> A) (l : list A) : list A :=
  map (fun x => if p x then f x else x) l.

Definition rowcount {A} (p : A -> bool) (l : list A) : nat := length (List.filter p l).

Definition opt_str_eqb (a b : option string) : bool := bool_decide (a = b).

Definition task_by_id (id : string) (t : tables) : option task_row :=
  find (fun x => String.eqb (t_id x) id) (tasks t).
Definition run_by_id (id : string) (t : tables) : option run_row :=
  find (fun x => String.eqb (r_id x) id) (runs t).
Definition binding_of (task_id : string) (t : tables) : option binding_row :=
  find (fun x => String.eqb (b_task_id x) task_id) (execution_bindings t).
Definition executor_by_id (id : string) (t : tables) : option executor_row :=
  find (fun x => String.eqb (ex_id x) id) (executors t).
Definition capability_by_id (id : string) (t : tables) : option capability_row :=
  find (fun x => String.eqb (cap_id x) id) (capabilities t).
Definition attempt_by_id (id : string) (t : tables) : option attempt_row :=
  find (fun x => String.eqb (at_id x) id) (attempts t).

Definition update_tasks (p : task_row -> bool) (f : task_row -> task_row) : M unit :=
  modify (fun t => t {{ tasks := update_where p f (tasks t) }}).
Definition update_runs (p : run_row -> bool) (f : run_row -> run_row) : M unit :=
  modify (fun t => t {{ runs := update_where p f (runs t) }}).
Definition update_bindings (p : binding_row -> bool) (f : binding_row -> binding_row) : M unit :=
  modify (fun t => t {{ execution_bindings := update_where p f (execution_bindings t) }}).
Definition update_attempts (p : attempt_row -> bool) (f : attempt_row -> attempt_row) : M unit :=
  modify (fun t => t {{ attempts := update_where p f (attempts t) }}).
Definition update_reservations (p : reservation_row -> bool) (f : reservation_row -> reservation_row)
  : M unit :=
  modify (fun t => t {{ reservations := update_where p f (reservations t) }}).
Definition update_executors (p : executor_row -> bool) (f : executor_row -> executor_row) : M unit :=
  modify (fun t => t {{ executors := update_where p f (executors t) }}).

Definition is_task (id : string) (x : task_row) : bool := String.eqb (t_id x) id.
Definition is_run (id : string) (x : run_row) : bool := String.eqb (r_id x) id.

(** [status IN (...)] *)
Definition status_in (s : Status) (l : list Status) : bool :=
  existsb (fun x => bool_decide (x = s)) l.

(** ON CONFLICT upserts: the existing row is updated in place, a new one is
    appended. *)
Definition upsert {A} (same : A -> bool) (f : A -> A) (row : A) (l : list A) : list A :=
  if existsb same l then update_where same f l else l ++ [row].

(** INSERT OR IGNORE *)
Definition insert_or_ignore {A} (same : A -> bool) (row : A) (l : list A) : list A :=
  if existsb same l then l else l ++ [row].

(** The constraint violations of an INSERT. *)
Definition foreign_key (ok : bool) : M unit :=
  guard_raise (negb ok) IntegrityError "FOREIGN KEY constraint failed".
Definition unique (ok : bool) : M unit :=
  guard_raise (negb ok) IntegrityError "UNIQUE constraint failed".

(** ** Program logic

    [spec I P m Q]: started where [P] holds, [m] relates the tables before and
    after by [I] whether it returns or raises, and when it returns [a], [Q a]
    holds of the tables. *)

Definition spec {A} (I : tables -> tables -> Prop) (P : tables -> Prop) (m : M A)
    (Q : A -> tables -> Prop) : Prop :=
  forall s, P (tb s) ->
    I (tb s) (tb (m s).2) /\
    match (m s).1 with Ok a => Q a (tb (m s).2) | Err _ => True end.

(** Every run of [m] relates the tables before and after by [I]. *)
Definition steps {A} (I : tables -> tables -> Prop) (m : M A) : Prop :=
  forall s, I (tb s) (tb (m s).2).

Section Logic.
Context (I : tables -> tables -> Prop) `{!PreOrder I}.

Lemma steps_ret {A} (a : A) : steps I (mret a).
Proof. intros s. simpl. reflexivity. Qed.

Lemma steps_lift {A} (r : res A) : steps I (lift r).
Proof. intros s. simpl. reflexivity. Qed.

Lemma steps_gets {A} (f : tables -> A) : steps I (gets f).
Proof. intros s. simpl. reflexivity. Qed.

Lemma steps_tick : steps I tick.
Proof. intros s. simpl. reflexivity. Qed.

Lemma steps_get_last_prune : steps I get_last_prune.
Proof. intros s. simpl. reflexivity. Qed.

Lemma steps_set_last_prune z : steps I (set_last_prune z).
Proof. intros s. simpl. reflexivity. Qed.

Lemma steps_modify f : (forall t, I t (f t)) -> steps I (modify f).
Proof. intros Hf s. apply Hf. Qed.

Lemma steps_bind {A B} (m : M A) (k : A -> M B) :
  steps I m -> (forall a, steps I (k a)) -> steps I (m ≫= k).
Proof.
  intros Hm Hk s. unfold mbind, M_bind. specialize (Hm s).
  destruct (m s) as [[a|e] s']; simpl in *; [|done]. etrans; [exact Hm|]. apply Hk.
Qed.

Lemma steps_transaction {A} (m : M A) : steps I m -> steps I (transaction m).
Proof.
  intros Hm s. unfold transaction. specialize (Hm s).
  destruct (m s) as [[a|e] s']; simpl in *; [done|reflexivity].
Qed.

Lemma steps_foldS {A B} (f : B -> A -> M B) b l :
  (forall b x, steps I (f b x)) -> steps I (foldS f b l).
Proof.
  intros Hf. revert b. induction l as [|x l IH]; intros b; simpl; [apply steps_ret|].
  by apply steps_bind.
Qed.

(** The postcondition rules. *)
Lemma spec_steps {A} (m : M A) P : steps I m -> spec I P m (fun _ _ => True).
Proof. intros Hm s _. split; [apply Hm|]. by destruct (m s).1. Qed.

Lemma spec_conseq {A} (m : M A) (P P' : tables -> Prop) (Q Q' : A -> tables -> Prop) :
  spec I P m Q -> (forall t, P' t -> P t) -> (forall a t, Q a t -> Q' a t) -> spec I P' m Q'.
Proof.
  intros Hm HP HQ s Hs. destruct (Hm s (HP _ Hs)) as [H1 H2]. split; [done|].
  destruct (m s).1; auto.
Qed.

Lemma spec_ret {A} (a : A) P : spec I P (mret a) (fun b t => b = a /\ P t).
Proof. intros s Hs. simpl. split; [reflexivity|done]. Qed.

Lemma spec_gets {A} (f : tables -> A) P : spec I P (gets f) (fun a t => a = f t /\ P t).
Proof. intros s Hs. simpl. split; [reflexivity|done]. Qed.

Lemma spec_lift {A} (r : res A) P : spec I P (lift r) (fun a t => r = Ok a /\ P t).
Proof. intros s Hs. simpl. split; [reflexivity|]. by destruct r. Qed.

Lemma spec_bind {A B} (m : M A) (k : A -> M B) P Q Q' :
  spec I P m Q -> (forall a, spec I (Q a) (k a) Q') -> spec I P (m ≫= k) Q'.
Proof.
  intros Hm Hk s Hs. unfold mbind, M_bind. specialize (Hm s Hs).
  destruct (m s) as [[a|e] s']; simpl in *; destruct Hm as [H1 H2]; [|done].
  destruct (Hk a s' H2) as [H3 H4]. split; [by etrans|done].
Qed.

Lemma spec_modify f P (Q : unit -> tables -> Prop) :
  (forall t, P t -> I t (f t) /\ Q tt (f t)) -> spec I P (modify f) Q.
Proof. intros Hf s Hs. by apply Hf. Qed.

Lemma spec_transaction {A} (m : M A) P Q : spec I P m Q -> spec I P (transaction m) Q.
Proof.
  intros Hm s Hs. unfold transaction. specialize (Hm s Hs).
  destruct (m s) as [[a|e] s']; simpl in *; [done|]. split; [reflexivity|done].
Qed.

(** A loop keeps an assertion that every iteration keeps. *)
Lemma spec_foldS {A B} (f : B -> A -> M B) (P : B -> tables -> Prop) b l :
  (forall b x, In x l -> spec I (P b) (f b x) P) -> spec I (P b) (foldS f b l) P.
Proof.
  revert b. induction l as [|x l IH]; intros b Hf; simpl.
  - eapply spec_conseq; [apply spec_ret|done|]. by intros ? ? [-> ?].
  - eapply spec_bind; [apply Hf; by left|]. intros b'. apply IH. intros. apply Hf. by right.
Qed.

(** What a computation that preserves an assertion may be framed with. *)
Lemma spec_frame {A} (m : M A) (P F : tables -> Prop) Q :
  spec I P m Q -> (forall t t', I t t' -> F t -> F t') ->
  spec I (fun t => P t /\ F t) m (fun a t => Q a t /\ F t).
Proof.
  intros Hm HF s [Hs Hf]. destruct (Hm s Hs) as [H1 H2]. split; [done|].
  destruct (m s).1; [|done]. split; [done|]. by eapply HF.
Qed.

Lemma spec_to_steps {A} (m : M A) Q : spec I (fun _ => True) m Q -> steps I m.
Proof. intros Hm s. by apply Hm. Qed.
End Logic.

Lemma spec_weaken {A} (I J : tables -> tables -> Prop) (m : M A) P Q :
  (forall t t', I t t' -> J t t') -> spec I P m Q -> spec J P m Q.
Proof. intros H Hm s Hs. destruct (Hm s Hs). auto. Qed.

Lemma spec_pure {A} (I : tables -> tables -> Prop) (m : M A) (phi : Prop) P Q :
  (phi -> spec I P m Q) -> spec I (fun t => phi /\ P t) m Q.
Proof. intros Hm s [Hp Hs]. by apply Hm. Qed.

Lemma steps_weaken {A} (I J : tables -> tables -> Prop) (m : M A) :
  (forall t t', I t t' -> J t t') -> steps I m -> steps J m.
Proof. intros H Hm s. apply H, Hm. Qed.

Section DerivedSteps.
Context (I : tables -> tables -> Prop) `{!PreOrder I}.

Lemma steps_raiseM {A} c m : steps I (raiseM (A := A) c m).
Proof. by apply steps_lift. Qed.

Lemma steps_raiseM_with {A} c m d : steps I (raiseM_with (A := A) c m d).
Proof. by apply steps_lift. Qed.

Lemma steps_guard b c m : steps I (guard_raise b c m).
Proof. by apply steps_lift. Qed.

Lemma steps_guard_with b c m d : steps I (guard_raise_with b c m d).
Proof. by apply steps_lift. Qed.

Lemma steps_foreign_key b : steps I (foreign_key b).
Proof. by apply steps_lift. Qed.

Lemma steps_unique b : steps I (unique b).
Proof. by apply steps_lift. Qed.

Lemma steps_jitem j k : steps I (jitem j k).
Proof. unfold jitem. destruct j; try by apply steps_lift. destruct (alookup k kvs); by apply steps_lift. Qed.

Lemma steps_loads s : steps I (loads s).
Proof. unfold loads. destruct (json_loads s); by apply steps_lift. Qed.

Lemma steps_py_int j : steps I (py_int j).
Proof. unfold py_int. destruct j; try by apply steps_lift. destruct (int_of_text s); by apply steps_lift. Qed.

Lemma steps_bind_text j : steps I (bind_text j).
Proof. unfold bind_text. destruct j; by apply steps_lift. Qed.

Lemma steps_andM a b : steps I a -> steps I b -> steps I (andM a b).
Proof.
  intros Ha Hb. unfold andM. apply steps_bind; [exact _|done|].
  intros x. destruct x; [done|]. by apply steps_ret.
Qed.

Lemma steps_for_each {A} (l : list A) f : (forall x, steps I (f x)) -> steps I (for_each l f).
Proof. intros Hf. apply steps_foldS; auto. Qed.

Context `{World}.

Lemma steps_utcnow : steps I utcnow.
Proof. apply steps_bind; [exact _|by apply steps_tick|intros; by apply steps_ret]. Qed.

Lemma steps_monotonic : steps I monotonic_now.
Proof. apply steps_bind; [exact _|by apply steps_tick|intros; by apply steps_ret]. Qed.

Lemma steps_now : steps I now.
Proof. apply steps_bind; [exact _|by apply steps_utcnow|intros; by apply steps_ret]. Qed.

Lemma steps_now_plus n : steps I (now_plus n).
Proof. apply steps_bind; [exact _|by apply steps_utcnow|intros; by apply steps_ret]. Qed.

Lemma steps_new_id : steps I new_id.
Proof. apply steps_bind; [exact _|by apply steps_tick|intros; by apply steps_ret]. Qed.

Lemma steps_disk_free : steps I disk_free.
Proof. apply steps_bind; [exact _|by apply steps_tick|intros; by apply steps_ret]. Qed.
End DerivedSteps.

Create HintDb steps.
#[export] Hint Resolve steps_ret steps_lift steps_gets steps_tick steps_get_last_prune
  steps_set_last_prune steps_raiseM steps_raiseM_with steps_guard steps_guard_with steps_foreign_key
  steps_unique steps_jitem steps_loads steps_py_int steps_bind_text steps_utcnow steps_monotonic
  steps_now steps_now_plus steps_new_id steps_disk_free : steps.

(** Walk a handler: sequencing, branches and loops; the leaves are left to the
    hint database and then to the caller. *)
Ltac steps_walk :=
  repeat first
    [ progress intros
    | solve [eauto 3 with steps typeclass_instances]
    | apply steps_bind; [exact _| |]
    | apply steps_transaction; [exact _|]
    | apply steps_for_each; [exact _|]
    | apply steps_foldS; [exact _|]
    | apply steps_andM; [exact _| |]
    | match goal with
      | |- steps _ (match ?x with _ => _ end) => destruct x
      | |- steps _ (let '_ := ?x in _) => destruct x
      end ].

(** ** Facts about row updates *)

Lemma in_update_where {A} (p : A -> bool) (f : A -> A) l y :
  In y (update_where p f l) <-> exists x, In x l /\ y = (if p x then f x else x).
Proof.
  unfold update_where. rewrite in_map_iff. split; intros (x & H1 & H2); exists x; auto.
Qed.

Lemma find_update_where {A} (k p : A -> bool) (f : A -> A) l :
  (forall x, k (f x) = k x) ->
  find k (update_where p f l) =
  match find k l with Some x => Some (if p x then f x else x) | None => None end.
Proof.
  intros Hk. induction l as [|x l IH]; simpl; [done|].
  assert (k (if p x then f x else x) = k x) as -> by (destruct (p x); auto).
  by destruct (k x).
Qed.

Lemma length_update_where {A} (p : A -> bool) (f : A -> A) l :
  length (update_where p f l) = length l.
Proof. apply length_map. Qed.

Lemma status_in_spec s l : status_in s l = true <-> In s l.
Proof.
  unfold status_in. rewrite existsb_exists. split.
  - intros (x & Hx & E). apply bool_decide_eq_true in E. by subst.
  - intros H. exists s. split; [done|]. by apply bool_decide_eq_true.
Qed.
