(* ===== verification/Idempotency.v ===== *)
(** * Replay bodies

    [runtime_protocol/idempotency.py]: how the result of a command is stored in
    its receipt (compacted where it repeats an immutable spec or a
    registration catalog), how it expires, and how a replay restores it. *)

From Stdlib Require Import ZArith String Ascii List Bool Lia.
From stdpp Require Import base list strings.
From S2P Require Import Prelude Json Errors Facts Sha256 Store.

Open Scope Z_scope.

Definition RESULT_WINDOW_SECONDS : Z := 24 * 60 * 60.
Definition EXPIRED : string := "__runtime_idempotency_result_expired_v1".
Definition COMPACT : string := "__runtime_compact_result_v1".

Definition expired_result (result_json : string) : string :=
  canonical_json (JObj [(EXPIRED, JStr (sha256 result_json))]).

Definition task_result_kinds : list string :=
  ["task.claim"; "task.create"; "attempt.settle"; "task.cancel"; "task.retry"; "attempt.fail";
   "attempt.heartbeat"].

Definition spec_source (path source : string) (identity : json) (column : string) : json :=
  JArr [JStr path; JStr source; identity; JStr column].

(** The three places a task result repeats a spec, removed one after the other:
    the shortened result and the sources that restore it. *)
Definition strip_own_spec (short : json) : json * list json :=
  if truthy (jget short "task_id") && jhas short "spec"
  then (jdel short "spec", [spec_source "" "task" (jget short "task_id") "spec"])
  else (short, []).

Definition strip_task_spec (short : json) : json * list json :=
  let task := jget short "task" in
  let identity := py_or (jget task "task_id") (jget task "id") in
  if is_dict task && truthy identity && jhas task "spec"
  then (jset short "task" (jdel task "spec"), [spec_source "task" "task" identity "spec"])
  else (short, []).

Definition strip_run_spec (short : json) : json * list json :=
  let run := jget short "run" in
  if is_dict run && truthy (jget run "id") && jhas run "spec_json"
  then (jset short "run" (jdel run "spec_json"), [spec_source "run" "run" (jget run "id") "spec_json"])
  else (short, []).

Definition strip_specs (result : json) : json * list json :=
  let '(short, a) := strip_own_spec result in
  let '(short, b) := strip_task_spec short in
  let '(short, c) := strip_run_spec short in
  (short, a ++ b ++ c).

Section Idempotency.
Context `{World}.

Definition compact_registration (result : json) : json :=
  JObj [(COMPACT, JStr "registration"); ("result", jdel result "capabilities");
        ("catalog_zlib", JStr (zlib_base64 (canonical_json (jget result "capabilities"))))].

Definition compact_result (kind : string) (result : json) : string :=
  let '(short, specs) :=
    if str_in kind task_result_kinds && is_dict result then strip_specs result else (result, []) in
  match specs with
  | _ :: _ =>
      canonical_json (JObj [(COMPACT, JStr "task_spec"); ("result", short); ("specs", JArr specs)])
  | [] =>
      if String.eqb kind "executor.register" && is_dict result && jhas result "capabilities"
      then canonical_json (compact_registration result)
      else canonical_json result
  end.

(** [SELECT s.body_json FROM tasks|runs t LEFT JOIN task_specs s ... WHERE t.id=?];
    [None] stands for a missing row and for a NULL body. *)
Definition stored_body (source : json) (identity : json) (t : tables) : option string :=
  let digest :=
    match identity with
    | JStr id =>
        if is_json_str "task" source
        then match task_by_id id t with Some x => t_spec_digest x | None => None end
        else match run_by_id id t with Some x => r_spec_digest x | None => None end
    | _ => None
    end in
  match digest with
  | Some d => match find (fun r => String.eqb (sp_digest r) d) (task_specs t) with
              | Some r => Some (sp_body r)
              | None => None
              end
  | None => None
  end.

Definition window_expired {A} : M A :=
  raiseM IdempotencyWindowExpired
    "idempotency result is outside its replay window; the command was not executed again".

(** [target[column] = value] at [path], where the empty path is the result. *)
Definition put_at (result path : json) (column : string) (value : json) : M json :=
  if negb (truthy path) then mret (jset result column value) else
  match path with
  | JStr p => target ← jitem result p; mret (jset result p (jset target column value))
  | _ => raiseM KeyError "path"
  end.

Definition restore_spec (result : json) (entry : json) : M json :=
  match entry with
  | JArr [path; source; identity; JStr column] =>
      row ← gets (stored_body source identity);
      match row with
      | None => raiseM IdempotencyWindowExpired "task or run is unavailable for replay"
      | Some body =>
          value ← (if String.eqb column "spec_json" then mret (JStr body)
                   else spec ← loads body; mret (public_task_spec spec).1);
          put_at result path column value
      end
  | _ => raiseM ValueError "not enough values to unpack"
  end.

Definition command_result_within (window_seconds : Z) (result_json : string) (created_at : option stamp) : M json :=
  (match created_at with
   | Some (At ms) =>
       us ← utcnow;
       if ms * 1000 <? us - window_seconds * 1000000 then window_expired else mret tt
   | Some (Malformed _) => raiseM ValueError "Invalid isoformat string"
   | None => mret tt
   end);;
  value ← loads result_json;
  if is_dict value && jhas value EXPIRED then window_expired else
  if is_dict value && is_json_str "task_spec" (jget value COMPACT) then
    result ← jitem value "result";
    specs ← jitem value "specs";
    entries ← lift (py_list specs);
    foldS restore_spec result entries
  else if is_dict value && is_json_str "registration" (jget value COMPACT) then
    result ← jitem value "result";
    encoded ← jitem value "catalog_zlib";
    match encoded with
    | JStr text =>
        match unzlib_base64 text with
        | Some catalog => capabilities ← loads catalog; mret (jset result "capabilities" capabilities)
        | None => raiseM ValueError "Incorrect padding"
        end
    | _ => raiseM TypeError "argument should be a bytes-like object or ASCII string"
    end
  else mret value.

(** With the default window. *)
Definition command_result (result_json : string) (created_at : option stamp) : M json :=
  command_result_within RESULT_WINDOW_SECONDS result_json created_at.
End Idempotency.
