(* ===== verification/Ledger.v ===== *)
(** * The ledger

    The append-only records every handler of [runtime_protocol/store.py] writes
    through: content-addressed task specs, the per-run event hash chain, the
    timeline event chain, project transaction sequences, command receipts with
    the expiry of their replay bodies, waiting
    reasons, reservations, and timeline render publications. *)

From Stdlib Require Import ZArith String Ascii List Bool Lia Sorted.
From stdpp Require Import base list strings.
From S2P Require Import Prelude Json Errors Facts Sha256 Store Idempotency.

Open Scope Z_scope.

(** ** Column values as JSON *)

Definition opt_str (s : option string) : json := match s with Some x => JStr x | None => JNull end.
Definition opt_int (z : option Z) : json := match z with Some x => JInt x | None => JNull end.
Definition jstamp (s : stamp) : json := JStr (stamp_text s).
Definition opt_stamp (s : option stamp) : json := match s with Some x => jstamp x | None => JNull end.
Definition jstrs (l : list string) : json := JArr (map JStr l).

(** [value or None] for a string column: the empty string is falsy. *)
Definition str_truthy (s : option string) : bool :=
  match s with Some x => nonempty x | None => false end.

Section Ledger.
Context `{World}.

(** ** Task specs *)

Definition store_spec (spec : json) : M string :=
  let body := canonical_json spec in
  let digest := sha256 body in
  timestamp ← now;
  modify (fun t => t {{ task_specs :=
    insert_or_ignore (fun r => String.eqb (sp_digest r) digest)
      (Spec digest body timestamp) (task_specs t) }});;
  mret digest.

Definition spec_by_digest (digest : string) (t : tables) : option spec_row :=
  find (fun r => String.eqb (sp_digest r) digest) (task_specs t).

Definition load_spec (digest : option string) : M json :=
  match digest with
  | None => mret (JObj [])
  | Some d =>
      row ← gets (spec_by_digest d);
      match row with
      | Some r =>
          guard_raise (negb (String.eqb (sha256 (sp_body r)) d)) ValidationError
            "task spec reference is missing or corrupt";;
          loads (sp_body r)
      | None => raiseM ValidationError "task spec reference is missing or corrupt"
      end
  end.

Definition spec_of (task : task_row) : M json := load_spec (t_spec_digest task).

(** ** Events *)

Definition event_content (run_id : string) (task_id : option string) (kind : string)
    (payload : json) (previous_hash : string) (created_at : stamp) : json :=
  JObj [("run_id", JStr run_id); ("task_id", opt_str task_id); ("kind", JStr kind);
        ("payload", payload); ("previous_hash", JStr previous_hash);
        ("created_at", jstamp created_at)].

Definition event_hash_of run_id task_id kind payload previous_hash created_at : string :=
  sha256 (canonical_json (event_content run_id task_id kind payload previous_hash created_at)).

Definition run_events (run_id : string) (l : list event_row) : list event_row :=
  List.filter (fun e => String.eqb (e_run_id e) run_id) l.

(** The hash of the run's newest event, empty for a run without events. *)
Definition last_hash (l : list event_row) : string :=
  match last l with Some e => e_event_hash e | None => EmptyString end.

(** The row [_append_event] inserts. *)
Definition next_event (run_id : string) (task_id : option string) (kind : string)
    (payload : json) (timestamp : stamp) (t : tables) : event_row :=
  let previous := last_hash (run_events run_id (events t)) in
  Event (next_event_id t) run_id task_id kind (json_column payload) previous
    (event_hash_of run_id task_id kind payload previous timestamp) timestamp.

Definition insert_event (run_id : string) (task_id : option string) (kind : string)
    (payload : json) (timestamp : stamp) (t : tables) : tables :=
  t {{ events := events t ++ [next_event run_id task_id kind payload timestamp t];
       next_event_id := next_event_id t + 1 }}.

Definition append_event (run_id : string) (task_id : option string) (kind : string)
    (payload : json) (created_at : option stamp) : M string :=
  previous ← gets (fun t => last_hash (run_events run_id (events t)));
  timestamp ← match created_at with
              | Some s => if stamp_truthy (Some s) then mret s else now
              | None => now
              end;
  let hash := event_hash_of run_id task_id kind payload previous timestamp in
  known ← gets (fun t => existsb (is_run run_id) (runs t));
  foreign_key known;;
  modify (insert_event run_id task_id kind payload timestamp);;
  event ← gets (fun t => find (fun e => String.eqb (e_run_id e) run_id &&
                                        String.eqb (e_event_hash e) hash &&
                                        bool_decide (e_created_at e = timestamp)) (events t));
  match event with
  | Some e => mret (dec_string (e_id e))
  | None => raiseM TypeError "'NoneType' object is not subscriptable"
  end.

Definition list_events (run_id : string) : M json :=
  rows ← gets (fun t => run_events run_id (events t));
  mret (JArr (map (fun e =>
    JObj [("id", JInt (e_id e)); ("run_id", JStr (e_run_id e)); ("task_id", opt_str (e_task_id e));
          ("kind", JStr (e_kind e)); ("payload_json", JStr (canonical_json (e_payload_json e)));
          ("previous_hash", JStr (e_previous_hash e)); ("event_hash", JStr (e_event_hash e));
          ("created_at", jstamp (e_created_at e)); ("payload", e_payload_json e)]) rows)).

Definition timeline_event_hash (timeline_id kind : string) (payload : json)
    (previous_hash : string) (created_at : stamp) : string :=
  sha256 (canonical_json (JObj [
    ("timeline_id", JStr timeline_id); ("kind", JStr kind); ("payload", payload);
    ("previous_hash", JStr previous_hash); ("created_at", jstamp created_at)])).

Definition append_timeline_event (timeline_id kind : string) (payload : json) : M string :=
  previous ← gets (fun t => last (List.filter (fun e => String.eqb (te_timeline_id e) timeline_id)
                                    (timeline_events t)));
  timestamp ← now;
  let previous_hash := match previous with Some e => te_event_hash e | None => EmptyString end in
  let hash := timeline_event_hash timeline_id kind payload previous_hash timestamp in
  id ← gets next_timeline_event_id;
  known ← gets (fun t => str_in timeline_id (timelines t));
  foreign_key known;;
  modify (fun t => t {{ timeline_events := timeline_events t ++
      [TimelineEvent id timeline_id kind (json_column payload) previous_hash hash timestamp];
      next_timeline_event_id := id + 1 }});;
  mret (dec_string id).

(** ** Project sequences *)

Definition allocate_project_seq (project_id : string) : M Z :=
  modify (fun t => t {{ project_sequences :=
    upsert (fun r => String.eqb r.1 project_id) (fun r => (r.1, r.2 + 1)) (project_id, 2)
      (project_sequences t) }});;
  row ← gets (fun t => find (fun r => String.eqb r.1 project_id) (project_sequences t));
  match row with
  | Some r => mret (r.2 - 1)
  | None => raiseM TypeError "'NoneType' object is not subscriptable"
  end.

(** ** Command receipts *)

Definition IDEMPOTENCY_RESULT_WINDOW_SECONDS : Z := 24 * 60 * 60.
Definition IDEMPOTENCY_RESULT_MARKER : string := "__runtime_idempotency_result_expired_v1".
Definition IDEMPOTENCY_RESULT_MARKER_PREFIX : string :=
  "{" +:+ String quote_char EmptyString +:+ IDEMPOTENCY_RESULT_MARKER +:+
  String quote_char EmptyString +:+ ":".

Definition expired_command_result (result_json : string) : string :=
  canonical_json (JObj [(IDEMPOTENCY_RESULT_MARKER, JStr (sha256 result_json))]).

Definition expired_publication_result (result_json : string) : M string :=
  result ← loads result_json;
  guard_raise (negb (is_dict result) || negb (is_dict (jget result "dependency_manifest")))
    ValidationError "parent publication result lacks dependency evidence";;
  mret (canonical_json (JObj [
    (IDEMPOTENCY_RESULT_MARKER, JStr (sha256 result_json));
    ("project_id", jget result "project_id");
    ("timeline_id", jget result "timeline_id");
    ("parent_revision_id", jget result "parent_revision_id");
    ("content_digest", jget result "content_digest");
    ("event_id", jget result "event_id");
    ("created_at", jget result "created_at");
    ("dependency_manifest_sha256",
      JStr (sha256 (canonical_json (jget result "dependency_manifest"))))])).

(** EXPIRABLE_RESULT_SQL.  [NULL IN (...)] is unknown, hence not expirable,
    unless the list is empty. *)
Definition live_runs (t : tables) : list string :=
  map t_run_id (List.filter (fun x => status_in (t_status x) [Queued; Running; CancelRequested]) (tasks t)).

Definition expirable (t : tables) (r : receipt_row) : bool :=
  negb (str_in (rc_command_kind r) ["object.ingest"; "media.import"]) &&
  (negb (String.eqb (rc_command_kind r) "task.create") ||
   match rc_primary_stream_id r with
   | Some run => negb (str_in run (live_runs t))
   | None => nil_or (live_runs t)
   end) &&
  (negb (String.eqb (rc_command_kind r) "parent_composition.publish") ||
   match json_loads (rc_result_json r) with
   | Some v => is_dict (jget v "dependency_manifest")
   | None => false
   end).

Definition same_receipt (kind aggregate key : string) (r : receipt_row) : bool :=
  String.eqb (rc_command_kind r) kind && String.eqb (rc_aggregate_id r) aggregate &&
  String.eqb (rc_idempotency_key r) key.

Definition receipt_of (kind aggregate key : string) (t : tables) : option receipt_row :=
  find (same_receipt kind aggregate key) (command_idempotency t).

Definition prune_candidates (cutoff : stamp) (t : tables) : list receipt_row :=
  firstn 100 (List.filter (fun r => stamp_ltb (rc_created_at r) cutoff &&
    negb (String.prefix IDEMPOTENCY_RESULT_MARKER_PREFIX (rc_result_json r)) && expirable t r)
    (command_idempotency t)).

Definition expire_receipt (old : receipt_row) : M unit :=
  text ← (if String.eqb (rc_command_kind old) "parent_composition.publish"
          then expired_publication_result (rc_result_json old)
          else mret (expired_command_result (rc_result_json old)));
  modify (fun t => t {{ command_idempotency :=
    update_where (same_receipt (rc_command_kind old) (rc_aggregate_id old) (rc_idempotency_key old))
      (fun r => r {{ rc_result_json := text }}) (command_idempotency t) }}).

(** The bounded sweep at the head of [_record_command_receipt]. *)
Definition prune_replay_bodies : M unit :=
  clock ← monotonic_now;
  last ← get_last_prune;
  if 15 * 60 * 1000000 <=? clock - last then
    cutoff ← now_plus (- IDEMPOTENCY_RESULT_WINDOW_SECONDS);
    rows ← gets (prune_candidates cutoff);
    for_each rows expire_receipt;;
    if (length rows <? 100)%nat then set_last_prune clock else mret tt
  else mret tt.

Definition insert_receipt (row : receipt_row) : M unit :=
  known ← gets (receipt_of (rc_command_kind row) (rc_aggregate_id row) (rc_idempotency_key row));
  unique (match known with Some _ => false | None => true end);;
  modify (fun t => t {{ command_idempotency := command_idempotency t ++ [row] }}).

Definition record_command_receipt (command_kind aggregate_id idempotency_key request_hash : string)
    (result : json) (project_id : string) (event_ids : list string)
    (primary_stream_id : option string) (resulting_stream_seq : option Z)
    (created_at : option stamp) : M string :=
  prune_replay_bodies;;
  project_seq ← allocate_project_seq project_id;
  id ← new_id;
  let txn_id := "txn-" +:+ id in
  timestamp ← match created_at with
              | Some s => if stamp_truthy (Some s) then mret s else now
              | None => now
              end;
  insert_receipt (Receipt command_kind aggregate_id idempotency_key request_hash
    (compact_result command_kind result) timestamp (Some txn_id) primary_stream_id
    resulting_stream_seq (Some project_seq) (Some project_seq) (Some (json_column (jstrs event_ids))));;
  mret txn_id.

(** ** Waiting reasons and reservations *)

Definition waiting_char (c : ascii) : ascii := if is_alnum c then c else "_"%char.

Fixpoint map_chars (f : ascii -> ascii) (s : string) : string :=
  match s with
  | EmptyString => EmptyString
  | String c r => String (f c) (map_chars f r)
  end.

Definition waiting_for_resource (resource_key : string) : string :=
  let safe := str_lower (strip_by (fun c => Ascii.eqb c "_"%char) (map_chars waiting_char resource_key)) in
  "waiting_for_" +:+ (if nonempty safe then safe else "resource").

Definition set_waiting_reason (task_id : string) (reason : option string) : M unit :=
  timestamp ← now;
  update_tasks (fun x => is_task task_id x && bool_decide (t_status x = Queued))
    (fun x => x {{ t_waiting_reason := reason; t_updated_at := timestamp }}).

Definition active (r : reservation_row) : bool :=
  match rv_released_at r with None => true | Some _ => false end.

Definition release_reservations (task_id : string) (lease_token : option string)
    (released_at : option stamp) : M unit :=
  timestamp ← match released_at with
              | Some s => if stamp_truthy (Some s) then mret s else now
              | None => now
              end;
  update_reservations
    (fun r => String.eqb (rv_task_id r) task_id &&
              match lease_token with Some l => String.eqb (rv_lease_token r) l | None => true end &&
              active r)
    (fun r => r {{ rv_released_at := Some timestamp }}).

(** ** Timeline render publications *)

Definition publication_of (authoring_task_id : string) (t : tables) : option publication_row :=
  find (fun r => String.eqb (pb_authoring_task_id r) authoring_task_id) (timeline_render_publications t).

Definition publication_json (r : publication_row) : json :=
  JObj ([("authoring_task_id", JStr (pb_authoring_task_id r)); ("attempt_id", JStr (pb_attempt_id r));
        ("fence", JInt (pb_fence r)); ("runtime_epoch", JInt (pb_runtime_epoch r));
        ("request_hash", JStr (pb_request_hash r));
        ("state", JStr (if pb_published r then "published" else "prepared"));
        ("timeline_id", opt_str (pb_timeline_id r)); ("timeline_version", opt_int (pb_timeline_version r));
        ("render_task_id", opt_str (pb_render_task_id r)); ("render_run_id", opt_str (pb_render_run_id r))] ++
        (match pb_result_json r with Some _ => [] | None => [("result_json", JNull)] end) ++
        [("created_at", jstamp (pb_created_at r)); ("updated_at", jstamp (pb_updated_at r));
        ("prepared", pb_prepared_json r);
        ("result", match pb_result_json r with Some v => v | None => JNull end)]).

Definition timeline_render_publication (authoring_task_id : string) : M (option json) :=
  row ← gets (publication_of authoring_task_id);
  mret (match row with Some r => Some (publication_json r) | None => None end).

Definition prepare_timeline_render_publication (authoring_task_id attempt_id : string)
    (fence runtime_epoch : Z) (request_hash : string) (prepared : json) : M (option json) :=
  transaction (
    current ← timeline_render_publication authoring_task_id;
    match current with
    | Some value =>
        guard_raise (negb (is_json_str request_hash (jget value "request_hash"))) ConflictError
          "authoring task publication payload changed";;
        mret (Some value)
    | None =>
        timestamp ← now;
        known ← gets (fun t => existsb (is_task authoring_task_id) (tasks t) &&
                               existsb (fun a => String.eqb (at_id a) attempt_id) (attempts t));
        foreign_key known;;
        modify (fun t => t {{ timeline_render_publications := timeline_render_publications t ++
          [Publication authoring_task_id attempt_id fence runtime_epoch request_hash
             (json_column prepared) false None None None None None timestamp timestamp] }});;
        timeline_render_publication authoring_task_id
    end).

Definition complete_timeline_render_publication (authoring_task_id attempt_id : string)
    (fence runtime_epoch : Z) (timeline_id : string) (timeline_version : Z)
    (render_task_id render_run_id : string) (result : json) : M (option json) :=
  timestamp ← now;
  let prepared r := String.eqb (pb_authoring_task_id r) authoring_task_id && negb (pb_published r) in
  changed ← gets (fun t => rowcount prepared (timeline_render_publications t));
  known ← gets (fun t => str_in timeline_id (timelines t) &&
                         existsb (fun a => String.eqb (at_id a) attempt_id) (attempts t) &&
                         existsb (is_task render_task_id) (tasks t) &&
                         existsb (is_run render_run_id) (runs t));
  foreign_key (Nat.eqb changed 0 || known);;
  taken ← gets (fun t => existsb (fun r => negb (prepared r) &&
    bool_decide (pb_render_task_id r = Some render_task_id)) (timeline_render_publications t));
  unique (Nat.eqb changed 0 || negb taken);;
  modify (fun t => t {{ timeline_render_publications :=
    update_where prepared
      (fun r => Publication (pb_authoring_task_id r) attempt_id fence runtime_epoch (pb_request_hash r)
                  (pb_prepared_json r) true (Some timeline_id) (Some timeline_version)
                  (Some render_task_id) (Some render_run_id) (Some (json_column result))
                  (pb_created_at r) timestamp)
      (timeline_render_publications t) }});;
  guard_raise (negb (Nat.eqb changed 1)) ConflictError
    "timeline render publication checkpoint is no longer prepared";;
  timeline_render_publication authoring_task_id.
End Ledger.
