(* ===== verification/Bindings.v ===== *)
(** * Execution bindings and task views

    The execution-binding projection of [runtime_protocol/store.py]
    ([execution_binding], [bind_execution_attempt], [reset_execution_attempt],
    [release_execution_attempt], [placement_recovery]) and the task read model
    built on it ([_task_result], [get_task], [_task_page]). *)

From Stdlib Require Import ZArith String Ascii List Bool Lia.
From stdpp Require Import base list strings.
From S2P Require Import Prelude Json Errors Facts Sha256 Store Idempotency Ledger.

Open Scope Z_scope.

Section Bindings.
Context `{World}.

(** [_execution_request_from_row]: the stored request, or the legacy one
    nested in the spec, normalised against the spec's inputs. *)
Definition execution_request_from_row (encoded : option json) (digest : option string)
    (stored_spec : option json) : M (option json) :=
  spec ← match stored_spec with Some s => mret s | None => load_spec digest end;
  let ids := jget_def spec "input_object_ids" (JArr []) in
  match encoded with
  | Some request => r ← lift (normalize_execution_request request ids); mret (Some r)
  | None =>
      legacy ← lift (legacy_execution_request_from_spec spec);
      if is_null legacy then mret None
      else r ← lift (normalize_execution_request legacy ids); mret (Some r)
  end.

Definition placement_recovery (task_id : string) : M (option json) :=
  row ← gets (fun t => last (List.filter (fun e =>
    opt_str_eqb (e_task_id e) (Some task_id) && String.eqb (e_kind e) "task.placement_recovered")
    (events t)));
  mret (match row with
        | Some e => if is_dict (e_payload_json e) then Some (e_payload_json e) else None
        | None => None
        end).

(** [dict(row)] without the three encoded columns, which are decoded below. *)
Definition binding_columns (b : binding_row) : json :=
  JObj [("binding_id", JStr (b_binding_id b)); ("task_id", JStr (b_task_id b));
        ("run_id", JStr (b_run_id b)); ("attempt_id", opt_str (b_attempt_id b));
        ("lease_id", opt_str (b_lease_id b)); ("fence", JInt (b_fence b));
        ("executor_id", opt_str (b_executor_id b)); ("session_id", JStr (b_session_id b));
        ("runtime_epoch", JInt (b_runtime_epoch b)); ("capability_id", JStr (b_capability_id b));
        ("profile_revision", b_profile_revision b); ("profile_digest", b_profile_digest b);
        ("release_digest", b_release_digest b); ("target_kind", b_target_kind b);
        ("target_id", b_target_id b); ("provider_account_ref", b_provider_account_ref b);
        ("pod_id", b_pod_id b); ("status", JStr (binding_status_text (b_status b)));
        ("created_at", jstamp (b_created_at b)); ("updated_at", jstamp (b_updated_at b))].

Definition set_some (v : json) (k : string) (x : option json) : json :=
  match x with Some y => jset v k y | None => v end.

Definition dict_or_none (j : json) : option json := if is_dict j then Some j else None.
Definition not_null (j : json) : option json := if is_null j then None else Some j.

(** The decoded placement columns. *)
Definition binding_placement (b : binding_row) : json :=
  let value := set_some (set_some (binding_columns b) "storage" (b_storage_json b))
                 "mounts" (b_mounts_json b) in
  let resolved := b_resolved_target_json b in
  let value :=
    if is_dict resolved && jhas resolved "selected" then
      let value := jset value "resolved_target" (jget resolved "selected") in
      let value := set_some value "actual_target" (dict_or_none (jget resolved "actual")) in
      let value := set_some value "verification" (dict_or_none (jget resolved "verification")) in
      set_some value "executor_incarnation" (not_null (jget resolved "executor_incarnation"))
    else jset value "resolved_target" resolved in
  let value := jset value "effective_target" (jget value "resolved_target") in
  jset (jset value "placement_version" (JInt 0)) "recovery_decision_digest" JNull.

Definition apply_recovery (value : json) (recovery : option json) : M json :=
  match recovery with
  | None => mret value
  | Some r =>
      target ← jitem r "replacement_target";
      let value := jset value "effective_target" target in
      let value := jset value "placement_recovery" r in
      version ← jitem r "placement_version";
      n ← py_int version;
      let value := jset value "placement_version" (JInt n) in
      digest ← jitem r "decision_digest";
      mret (jset value "recovery_decision_digest" digest)
  end.

(** [_execution_binding_from_row]: [task] holds the request column and the
    spec digest of a task already loaded; [recovery] a decision already
    loaded. *)
Definition execution_binding_from_row (row : option binding_row) (task_id : string)
    (task : option (option json * option string)) (stored_spec : option json)
    (recovery : option (option json)) : M (option json) :=
  match row with
  | None => mret None
  | Some b =>
      let value := binding_placement b in
      task ← match task with
             | Some t => mret (Some t)
             | None => gets (fun t => match task_by_id task_id t with
                                      | Some x => Some (t_execution_request_json x, t_spec_digest x)
                                      | None => None
                                      end)
             end;
      request ← match task with
                | Some (encoded, digest) => execution_request_from_row encoded digest stored_spec
                | None => mret None
                end;
      let value := match request with
                   | Some r => jset value "original_target" (jget r "target")
                   | None => value
                   end in
      recovery ← match recovery with
                 | Some r => mret r
                 | None => placement_recovery task_id
                 end;
      value ← apply_recovery value recovery;
      mret (Some value)
  end.

Definition execution_binding (task_id : string) : M (option json) :=
  row ← gets (binding_of task_id);
  execution_binding_from_row row task_id None None None.

Definition effective_execution_target (task_id : string) : M json :=
  recovery ← placement_recovery task_id;
  match recovery with
  | Some r => jitem r "replacement_target"
  | None =>
      task ← gets (task_by_id task_id);
      match task with
      | None => mret JNull
      | Some x =>
          request ← execution_request_from_row (t_execution_request_json x) (t_spec_digest x) None;
          mret (match request with Some r => jget r "target" | None => JNull end)
      end
  end.

Definition current_runtime_epoch (t : tables) : Z :=
  match runtime_lifecycle t with Some l => lc_runtime_epoch l | None => 1 end.

Definition is_binding (task_id : string) (b : binding_row) : bool := String.eqb (b_task_id b) task_id.

Definition bind_execution_attempt (task_id attempt_id lease_id : string) (fence : Z)
    (executor_id : string) (runtime_epoch : Z) (placement : json) : M (option json) :=
  binding ← gets (binding_of task_id);
  match binding with
  | None => mret None
  | Some _ =>
      current ← execution_binding task_id;
      let selected := match current with Some v => jget v "resolved_target" | None => JNull end in
      ok ← lift (execution_placement_matches selected placement);
      guard_raise (negb ok) ConflictError
        "verified actual placement does not match execution selector";;
      actual ← jitem placement "actual";
      verification ← jitem placement "verification";
      incarnation ← jitem placement "executor_incarnation";
      let envelope := JObj [("selected", selected); ("actual", actual);
                            ("verification", verification); ("executor_incarnation", incarnation)] in
      timestamp ← now;
      let prepared b := is_binding task_id b && bool_decide (b_status b = Prepared) in
      changed ← gets (fun t => rowcount prepared (execution_bindings t));
      known ← gets (fun t => existsb (fun a => String.eqb (at_id a) attempt_id) (attempts t));
      foreign_key (Nat.eqb changed 0 || known);;
      update_bindings prepared (fun b => b {{
        b_attempt_id := Some attempt_id; b_lease_id := Some lease_id; b_fence := fence;
        b_executor_id := Some executor_id; b_runtime_epoch := runtime_epoch;
        b_resolved_target_json := json_column envelope; b_status := Claimed;
        b_updated_at := timestamp }});;
      guard_raise (negb (Nat.eqb changed 1)) ConflictError "execution binding is no longer claimable";;
      execution_binding task_id
  end.

Definition reset_execution_attempt (task_id : string) (runtime_epoch : option Z) : M unit :=
  epoch ← match runtime_epoch with Some e => mret e | None => gets current_runtime_epoch end;
  selected ← effective_execution_target task_id;
  timestamp ← now;
  let closed b := is_binding task_id b &&
    (bool_decide (b_status b = Claimed) || bool_decide (b_status b = Released) ||
     bool_decide (b_status b = Stale)) in
  changed ← gets (fun t => rowcount closed (execution_bindings t));
  boot ← gets (fun t => match runtime_lifecycle t with Some l => Some (lc_boot_id l) | None => None end);
  match boot with
  | None => guard_raise (negb (Nat.eqb changed 0)) IntegrityError
              "NOT NULL constraint failed: execution_bindings.session_id"
  | Some session =>
      update_bindings closed (fun b => b {{
        b_attempt_id := None; b_lease_id := None; b_fence := 0; b_executor_id := None;
        b_session_id := session; b_runtime_epoch := epoch;
        b_resolved_target_json := if is_null selected then b_resolved_target_json b
                                  else json_column (JObj [("selected", selected)]);
        b_status := Prepared; b_updated_at := timestamp }})
  end.

Definition release_execution_attempt (task_id : string) (status : BindingStatus) : M unit :=
  guard_raise (negb (bool_decide (status = Released) || bool_decide (status = Stale)))
    ValidationError "execution binding terminal status is invalid";;
  timestamp ← now;
  update_bindings (fun b => is_binding task_id b && bool_decide (b_status b = Claimed))
    (fun b => b {{ b_status := status; b_updated_at := timestamp }}).

(** The test, repeated in the handlers, that a verified external placement of
    the task has not been proven stopped. *)
Definition unresolved_external (binding : option json) : bool :=
  match binding with
  | None => false
  | Some b =>
      (is_json_str "claimed" (jget b "status") || is_json_str "stale" (jget b "status")) &&
      truthy (jget b "actual_target") &&
      is_true (jget (py_or (jget b "verification") (JObj [])) "verified")
  end.

(** ** Task views *)

Definition run_json (r : run_row) : json :=
  JObj [("id", JStr (r_id r)); ("project_id", opt_str (r_project_id r));
        ("capability", JStr (r_capability r)); ("spec_digest", opt_str (r_spec_digest r));
        ("status", JStr (status_text (r_status r))); ("idempotency_key", opt_str (r_idempotency_key r));
        ("created_at", jstamp (r_created_at r)); ("updated_at", jstamp (r_updated_at r))].

(** [dict(task)] less [spec_digest] and [execution_request_json]. *)
Definition task_columns (x : task_row) : json :=
  JObj [("id", JStr (t_id x)); ("run_id", JStr (t_run_id x)); ("capability", JStr (t_capability x));
        ("status", JStr (status_text (t_status x))); ("lease_token", opt_str (t_lease_token x));
        ("executor_id", opt_str (t_executor_id x)); ("attempt", JInt (t_attempt x));
        ("expected_effect_json", match t_expected_effect_json x with
                                 | Some e => JStr (canonical_json e) | None => JNull end);
        ("result_json", match t_result_json x with
                        | Some r => JStr (canonical_json r) | None => JNull end);
        ("created_at", jstamp (t_created_at x)); ("updated_at", jstamp (t_updated_at x));
        ("capability_digest", opt_str (t_capability_digest x));
        ("waiting_reason", opt_str (t_waiting_reason x));
        ("lease_expires_at", opt_stamp (t_lease_expires_at x));
        ("lease_fence", JInt (t_lease_fence x)); ("attempt_id", opt_str (t_attempt_id x));
        ("runtime_epoch", opt_int (t_runtime_epoch x))].

Definition public_task_result (value : json) : json :=
  let task := jget value "task" in
  if is_dict task then
    let '(spec, intent) := public_task_spec (py_or (jget task "spec") (JObj [])) in
    let task := jset task "spec" spec in
    let intent := if is_null intent && negb (is_null (jget task "generation_intent"))
                  then jget task "generation_intent" else intent in
    let task := if is_null intent then jdel task "generation_intent"
                else jset task "generation_intent" intent in
    jset value "task" task
  else value.

Definition task_result (run : option run_row) (task : task_row) (stored_spec : option json)
    (binding : option (option json)) : M json :=
  let result := task_columns task in
  stored ← match stored_spec with Some s => mret s | None => load_spec (t_spec_digest task) end;
  let result := match t_spec_digest task with
                | None => jset result "spec_retired" (JBool true)
                | Some _ => result
                end in
  request ← execution_request_from_row (t_execution_request_json task) (t_spec_digest task) (Some stored);
  let result := set_some result "execution_request" request in
  let '(spec, intent) := public_task_spec stored in
  let result := jset result "spec" spec in
  let result := if is_null intent then result else jset result "generation_intent" intent in
  let result := if jhas spec "required_facts"
                then jset result "required_facts" (jget spec "required_facts") else result in
  let result := match t_expected_effect_json task with
                | Some effect => jset (jdel result "expected_effect_json") "expected_effect" effect
                | None => jdel result "expected_effect_json"
                end in
  let result := match t_result_json task with
                | Some r => jset result "result" r
                | None => result
                end in
  let result := if str_truthy (t_waiting_reason task)
                then jset result "blocked_reason" (opt_str (t_waiting_reason task)) else result in
  match run with
  | None => raiseM TypeError "'NoneType' object is not iterable"
  | Some r =>
      let value := JObj [("run", run_json r); ("task", result)] in
      binding ← match binding with Some b => mret b | None => execution_binding (t_id task) end;
      mret (public_task_result (set_some value "execution_binding" binding))
  end.

Definition get_task (task_id : string) : M json :=
  row ← gets (task_by_id task_id);
  match row with
  | None => raiseM NotFoundError "task not found"
  | Some task =>
      run ← gets (run_by_id (t_run_id task));
      task_result run task None None
  end.

(** ** Task pages *)

(** The specs of a page, loaded once each and checked against their digests. *)
Definition load_page_specs (digests : list string) : M (list (string * json)) :=
  rows ← gets (fun t => List.filter (fun r => str_in (sp_digest r) digests) (task_specs t));
  specs ← foldS (fun acc r =>
    guard_raise (negb (String.eqb (sha256 (sp_body r)) (sp_digest r))) ValidationError
      "task spec reference is missing or corrupt";;
    body ← loads (sp_body r);
    mret (aset (sp_digest r) body acc)) [] rows;
  guard_raise (negb (Nat.eqb (length specs) (length digests))) ValidationError
    "task spec reference is missing or corrupt";;
  mret specs.

(** The newest event of one kind for one task. *)
Definition latest_payload (task_id kind : string) (t : tables) : option json :=
  match last (List.filter (fun e => opt_str_eqb (e_task_id e) (Some task_id) &&
                                    String.eqb (e_kind e) kind) (events t)) with
  | Some e => Some (e_payload_json e)
  | None => None
  end.

Definition page_entry (specs : list (string * json)) (task_id : string) : M json :=
  row ← gets (task_by_id task_id);
  match row with
  | None => raiseM KeyError task_id
  | Some task =>
      spec ← match t_spec_digest task with
             | None => mret (JObj [])
             | Some d => match alookup d specs with Some s => mret s | None => raiseM KeyError d end
             end;
      encoded ← gets (latest_payload task_id "task.placement_recovered");
      let recovery := match encoded with Some v => dict_or_none v | None => None end in
      b ← gets (binding_of task_id);
      binding ← execution_binding_from_row b task_id
                  (Some (t_execution_request_json task, t_spec_digest task)) (Some spec) (Some recovery);
      run ← gets (run_by_id (t_run_id task));
      match run with
      | None => raiseM KeyError (t_run_id task)
      | Some _ => task_result run task (Some spec) (Some binding)
      end
  end.

Definition page_progress (task_id : string) : M (list (string * json)) :=
  encoded ← gets (latest_payload task_id "task.progress");
  mret (match encoded with
        | Some v => if is_dict v then [(task_id, v)] else []
        | None => []
        end).

Definition task_page (task_ids : list string) : M (list (string * json) * list (string * json)) :=
  match task_ids with
  | [] => mret ([], [])
  | _ =>
      rows ← gets (fun t => List.filter (fun x => str_in (t_id x) task_ids) (tasks t));
      let digests := dedup (omap t_spec_digest rows) in
      specs ← load_page_specs digests;
      foldS (fun acc task_id =>
        value ← page_entry specs task_id;
        progress ← page_progress task_id;
        mret (aset task_id value acc.1, foldl (fun l kv => aset kv.1 kv.2 l) acc.2 progress))
        ([], []) task_ids
  end.
End Bindings.
