(* ===== verification/Executors.v ===== *)
(** * Capabilities, executors and storage

    The worker side of [runtime_protocol/store.py]: capability registration,
    executor registration and heartbeats under the runtime-epoch fence, the
    test that an executor can run a task, and the free-space preflight. *)

From Stdlib Require Import ZArith String Ascii List Bool Lia.
From stdpp Require Import base list strings.
From S2P Require Import Prelude Json Errors Facts Sha256 Store Idempotency Ledger Bindings.

Open Scope Z_scope.

Definition LEASE_SECONDS : Z := 30.
Definition EXECUTOR_LIVENESS_SECONDS : Z := 90.

(** ** Storage estimates *)

Definition estimate_bytes (estimate : json) (key : string) : res Z :=
  match jget estimate key with
  | JInt value =>
      raise_if_with ((value <? 0) || (MAX_STORAGE_ESTIMATE_BYTES <? value)) ValidationError
        ("storage_estimate." +:+ key +:+ " is out of range")
        (JObj [("minimum", JInt 0); ("maximum", JInt MAX_STORAGE_ESTIMATE_BYTES)]);;
      Ok value
  | _ => raise ValidationError ("storage_estimate." +:+ key +:+ " must be an integer")
  end.

(** [_validate_storage_estimate]: [(scratch_bytes, output_bytes)], [None] for a
    missing estimate. *)
Definition validate_storage_estimate (storage_estimate : json) : res (option (Z * Z)) :=
  if is_null storage_estimate then Ok None else
  raise_if (negb (is_dict storage_estimate)) ValidationError "storage_estimate must be an object";;
  let expected := ["scratch_bytes"; "output_bytes"] in
  raise_if_with (negb (keys_are storage_estimate expected)) ValidationError
    "storage_estimate must contain exactly scratch_bytes and output_bytes"
    (JObj [("missing", sorted_strings (List.filter (fun k => negb (jhas storage_estimate k)) expected));
           ("unexpected", sorted_strings (unknown_keys storage_estimate expected))]);;
  scratch ← estimate_bytes storage_estimate "scratch_bytes";
  output ← estimate_bytes storage_estimate "output_bytes";
  raise_if_with (MAX_STORAGE_ESTIMATE_BYTES <? scratch + output) ValidationError
    "storage_estimate total is out of range"
    (details1 "maximum" (JInt MAX_STORAGE_ESTIMATE_BYTES));;
  Ok (Some (scratch, output)).

(** ** Capability values *)

(** [list(dict.fromkeys(keys or []))] with the non-empty string check. *)
Definition resource_key_list (keys : json) : res (list string) :=
  items ← py_list (py_or keys (JArr []));
  raise_if (existsb (fun k => negb (hashable k)) items) TypeError "unhashable type";;
  raise_if (existsb (fun k => negb (nonempty_str k)) items) ValidationError
    "resource keys must be non-empty strings";;
  Ok (dedup (omap as_str items)).

(** [value.get("capability_id", value.get("id"))] of an advertised capability. *)
Definition advertised_id (value : json) : res json :=
  match value with
  | JStr _ => Ok value
  | JObj _ => Ok (jget_def value "capability_id" (jget value "id"))
  | _ => raise AttributeError "object has no attribute 'get'"
  end.

(** [_executor_capability]: the descriptor an executor advertises for an id. *)
Fixpoint executor_capability (values : list json) (capability_id : string) : option json :=
  match values with
  | [] => None
  | value :: rest =>
      if is_json_str capability_id value then Some (JObj [("capability_id", value)])
      else if is_dict value &&
              py_eq (py_or (jget value "capability_id") (jget value "id")) (JStr capability_id)
      then Some value
      else executor_capability rest capability_id
  end.

(** [_executor_capability_ids] *)
Definition executor_capability_ids (executor : executor_row) : res (list json) :=
  ids ← mapM_res advertised_id (ex_capabilities_json executor);
  raise_if (existsb (fun k => negb (hashable k)) ids) TypeError "unhashable type";;
  Ok ids.

Definition empty_facts : json := JObj [("exact", JObj []); ("minimum", JObj [])].

Definition executor_toolchain_digest (row : executor_row) : option string :=
  if negb (str_truthy (ex_source_epoch row)) || negb (str_truthy (ex_source_digest row)) then None
  else Some (sha256 (canonical_json (JArr [opt_str (ex_source_epoch row); opt_str (ex_source_digest row);
                                           opt_str (ex_dependency_digest row)]))).

Record preflight := Preflight {
  pf_ok : bool; pf_required : Z; pf_available : Z; pf_floor : Z; pf_scratch : Z; pf_output : Z;
  pf_source : string }.

Definition preflight_json (p : preflight) : json :=
  JObj [("ok", JBool (pf_ok p)); ("required_bytes", JInt (pf_required p));
        ("available_bytes", JInt (pf_available p)); ("floor_bytes", JInt (pf_floor p));
        ("scratch_bytes", JInt (pf_scratch p)); ("output_bytes", JInt (pf_output p));
        ("estimate_source", JStr (pf_source p));
        ("reason", if pf_ok p then JNull else JStr "insufficient_storage")].

Section Executors.
Context `{World}.

Definition capability_json (r : capability_row) : json :=
  JObj [("id", JStr (cap_id r)); ("definition_digest", JStr (cap_definition_digest r));
        ("status", JStr (cap_status r)); ("estimated_scratch_bytes", JInt (cap_estimated_scratch_bytes r));
        ("estimated_output_bytes", JInt (cap_estimated_output_bytes r));
        ("unavailable_reason", opt_str (cap_unavailable_reason r));
        ("created_at", jstamp (cap_created_at r)); ("updated_at", jstamp (cap_updated_at r));
        ("required_resource_keys", jstrs (cap_required_resource_keys_json r))].

Definition register_capability (capability_id definition_digest : string)
    (required_resource_keys : json) (status : string) (unavailable_reason : option string)
    (estimated_scratch_bytes estimated_output_bytes : json) : M json :=
  guard_raise (negb (nonempty capability_id) || negb (nonempty definition_digest)) ValidationError
    "capability_id and definition_digest are required";;
  guard_raise (negb (str_in status ["ready"; "unavailable"; "unsupported"; "retired"])) ValidationError
    "invalid capability readiness status";;
  keys ← lift (resource_key_list required_resource_keys);
  scratch ← py_int estimated_scratch_bytes;
  output ← py_int estimated_output_bytes;
  guard_raise ((scratch <? 0) || (output <? 0)) ValidationError
    "estimated resource bytes must be non-negative";;
  timestamp ← now;
  let row := Capability capability_id definition_digest status keys scratch output
               unavailable_reason timestamp timestamp in
  modify (fun t => t {{ capabilities :=
    upsert (fun c => String.eqb (cap_id c) capability_id)
      (fun c => row {{ cap_created_at := cap_created_at c }}) row (capabilities t) }});;
  stored ← gets (capability_by_id capability_id);
  match stored with
  | Some c => mret (capability_json c)
  | None => raiseM TypeError "'NoneType' object is not iterable"
  end.

Definition list_capabilities : M json :=
  rows ← gets (fun t => sort (fun a b => String.leb (cap_id a) (cap_id b)) (capabilities t));
  mret (JArr (map capability_json rows)).

(** ** The runtime-epoch fence *)

(** [int(supplied)], [None] where it raises [TypeError] or [ValueError]. *)
Definition epoch_number (supplied : json) : option Z :=
  match supplied with
  | JInt z => Some z
  | JBool b => Some (if b then 1 else 0)
  | JStr s => int_of_text s
  | _ => None
  end.

Definition validate_runtime_epoch (supplied : json) (identity : string)
    (identity_id : option string) (required : bool) : M Z :=
  current ← gets current_runtime_epoch;
  guard_raise_with (required && is_null supplied) LeaseError
    (identity +:+ " runtime epoch is required") (details1 "expected" (JInt current));;
  stale ← gets (fun t => match identity_id with
                         | Some id => match executor_by_id id t with
                                      | Some row => negb (ex_runtime_epoch row =? current)
                                      | None => false
                                      end
                         | None => false
                         end);
  guard_raise_with (is_null supplied && str_truthy identity_id && stale) LeaseError
    (identity +:+ " runtime epoch is required after restart") (details1 "expected" (JInt current));;
  (if is_null supplied then mret tt
   else match epoch_number supplied with
        | Some z => guard_raise_with (negb (z =? current)) LeaseError
                      (identity +:+ " belongs to a stale runtime epoch")
                      (JObj [("expected", JInt current); ("actual", JInt z)])
        | None => raiseM LeaseError (identity +:+ " runtime epoch is invalid")
        end);;
  mret current.

(** ** Executors *)

(** One advertised capability of [_executor_result]. *)
Definition executor_result_entry (acc : option json * list json) (value : json)
  : M (option json * list json) :=
  let '(facts, capabilities) := acc in
  facts ← (if is_dict value && jhas value "verified_facts" then
             match facts with
             | None => mret (not_null (jget value "verified_facts"))
             | Some f =>
                 guard_raise (negb (py_eq f (jget value "verified_facts"))) ValidationError
                   "executor capability facts are inconsistent";;
                 mret (Some f)
             end
           else mret facts);
  id ← lift (advertised_id value);
  match id with
  | JStr capability_id =>
      guard_raise (negb (nonempty capability_id)) ValidationError
        "executor capability must identify a capability";;
      row ← gets (capability_by_id capability_id);
      match row with
      | None => raiseM ValidationError "executor capability is not registered"
      | Some c =>
          mret (facts, capabilities ++ [JObj [
            ("capability_id", JStr (cap_id c)); ("definition_digest", JStr (cap_definition_digest c));
            ("status", JStr (cap_status c));
            ("required_resource_keys", jstrs (cap_required_resource_keys_json c));
            ("estimated_scratch_bytes", JInt (cap_estimated_scratch_bytes c));
            ("estimated_output_bytes", JInt (cap_estimated_output_bytes c));
            ("unavailable_reason", opt_str (cap_unavailable_reason c))]])
      end
  | _ => raiseM ValidationError "executor capability must identify a capability"
  end.

Definition executor_columns (r : executor_row) : json :=
  JObj [("id", JStr (ex_id r)); ("max_concurrency", JInt (ex_max_concurrency r));
        ("protocol", JStr (ex_protocol r)); ("created_at", jstamp (ex_created_at r));
        ("runtime_epoch", JInt (ex_runtime_epoch r)); ("readiness", JStr (ex_readiness r));
        ("readiness_reason", opt_str (ex_readiness_reason r));
        ("last_seen_at", opt_stamp (ex_last_seen_at r)); ("source_digest", opt_str (ex_source_digest r));
        ("dependency_digest", opt_str (ex_dependency_digest r));
        ("source_epoch", opt_str (ex_source_epoch r))].

Definition executor_result (row : executor_row) : M json :=
  '(facts, capabilities) ← foldS executor_result_entry (None, []) (ex_capabilities_json row);
  let result := jset (executor_columns row) "capabilities" (JArr capabilities) in
  let result := jset result "resource_keys" (jstrs (ex_resource_keys_json row)) in
  mret (set_some result "verified_facts" facts).

Definition stored_executor_result (executor_id : string) : M json :=
  row ← gets (executor_by_id executor_id);
  match row with
  | Some r => executor_result r
  | None => raiseM TypeError "'NoneType' object is not iterable"
  end.

Definition readiness_text (ready : bool) : string := if ready then "ready" else "not_ready".
Definition readiness_note (ready : bool) (reason : option string) : option string :=
  if ready then None
  else Some (if str_truthy reason then default EmptyString reason else "executor_not_ready").

Definition set_executor_readiness (executor_id : string) (ready : bool) (reason : option string)
    (runtime_epoch : json) : M json :=
  guard_raise (negb (nonempty executor_id)) ValidationError "executor_id is required";;
  epoch ← validate_runtime_epoch runtime_epoch "executor" (Some executor_id) true;
  row ← gets (executor_by_id executor_id);
  guard_raise (match row with Some _ => false | None => true end) NotFoundError "executor not found";;
  timestamp ← now;
  update_executors (fun x => String.eqb (ex_id x) executor_id) (fun x => x {{
    ex_readiness := readiness_text ready; ex_readiness_reason := readiness_note ready reason;
    ex_last_seen_at := Some timestamp; ex_runtime_epoch := epoch }});;
  stored_executor_result executor_id.

Definition heartbeat_executor (executor_id : string) (ready : option bool) (reason : option string)
    (runtime_epoch : json) : M json :=
  guard_raise (negb (nonempty executor_id)) ValidationError "executor_id is required";;
  epoch ← validate_runtime_epoch runtime_epoch "executor" (Some executor_id) true;
  row ← gets (executor_by_id executor_id);
  guard_raise (match row with Some _ => false | None => true end) NotFoundError "executor not found";;
  (match ready with
   | Some b => update_executors (fun x => String.eqb (ex_id x) executor_id) (fun x => x {{
       ex_readiness := readiness_text b; ex_readiness_reason := readiness_note b reason }})
   | None => mret tt
   end);;
  timestamp ← now;
  update_executors (fun x => String.eqb (ex_id x) executor_id) (fun x => x {{
    ex_last_seen_at := Some timestamp; ex_runtime_epoch := epoch }});;
  stored_executor_result executor_id.

Definition executor_live (row : executor_row) : M bool :=
  if negb (stamp_truthy (ex_last_seen_at row)) then mret false else
  match ex_last_seen_at row with
  | Some (At ms) =>
      us ← utcnow; mret (us - EXECUTOR_LIVENESS_SECONDS * 1000000 <? ms * 1000)
  | _ => mret false
  end.

Definition required_resource_keys (capability : string) (t : tables) : list string :=
  match capability_by_id capability t with
  | Some c => cap_required_resource_keys_json c
  | None => []
  end.

(** ** Free space *)

Definition free_disk_floor : M Z :=
  match getenv "ASTRID_RUNTIME_FREE_DISK_FLOOR_BYTES" with
  | None => mret (4 * 1024 ^ 3)
  | Some text => match int_of_text text with
                 | Some z => mret z
                 | None => raiseM ValidationError "ASTRID_RUNTIME_FREE_DISK_FLOOR_BYTES must be an integer"
                 end
  end.

Definition storage_preflight (capability : string) (storage_estimate : json) : M preflight :=
  estimate ← lift (validate_storage_estimate storage_estimate);
  row ← gets (capability_by_id capability);
  let '(scratch, output, source) :=
    match estimate with
    | Some (s, o) => (s, o, "task")
    | None => match row with
              | Some c => (cap_estimated_scratch_bytes c, cap_estimated_output_bytes c, "capability")
              | None => (0, 0, "capability")
              end
    end in
  let required := scratch + output in
  available ← disk_free;
  floor ← free_disk_floor;
  guard_raise (floor <? 0) ValidationError "ASTRID_RUNTIME_FREE_DISK_FLOOR_BYTES must be nonnegative";;
  mret (Preflight (floor <=? available - required) required available floor scratch output source).

Definition executor_can_run (executor : executor_row) (capability_id : string)
    (capability_digest : option string) (include_storage : bool) (required_facts : json) : M bool :=
  if negb (String.eqb (ex_readiness executor) "ready") then mret false else
  live ← executor_live executor;
  if negb live then mret false else
  match executor_capability (ex_capabilities_json executor) capability_id with
  | None => mret false
  | Some descriptor =>
      if negb (truthy descriptor) ||
         negb (is_json_str "ready" (jget_def descriptor "status" (JStr "ready"))) then mret false else
      row ← gets (capability_by_id capability_id);
      match row with
      | None => mret false
      | Some c =>
          if negb (String.eqb (cap_status c) "ready") then mret false else
          if match capability_digest with
             | Some d => negb (String.eqb (cap_definition_digest c) d)
             | None => false
             end then mret false else
          let advertised := jget descriptor "definition_digest" in
          if truthy advertised && negb (is_json_str (cap_definition_digest c) advertised)
          then mret false else
          facts ← (if is_null required_facts then mret true
                   else lift (execution_facts_match required_facts
                                (jget_def descriptor "verified_facts" empty_facts)));
          if negb facts then mret false else
          if negb (forallb (fun k => str_in k (ex_resource_keys_json executor))
                     (cap_required_resource_keys_json c)) then mret false else
          if negb include_storage then mret true else
          p ← storage_preflight capability_id JNull;
          mret (pf_ok p)
      end
  end.

(** [any(self._executor_can_run(row, ...) for row in executors)] *)
Fixpoint any_can_run (rows : list executor_row) (capability_id : string)
    (capability_digest : option string) (include_storage : bool) (required_facts : json) : M bool :=
  match rows with
  | [] => mret false
  | row :: rest =>
      ok ← executor_can_run row capability_id capability_digest include_storage required_facts;
      if (ok : bool) then mret true
      else any_can_run rest capability_id capability_digest include_storage required_facts
  end.

Definition matching_live_executor (capability_id : string) (capability_digest : option string)
    (include_storage : bool) (required_facts : json) : M bool :=
  rows ← gets executors;
  any_can_run rows capability_id capability_digest include_storage required_facts.

(** [_render_toolchain_digest]: the one toolchain identity of the executors
    that can run the capability, if there is exactly one. *)
Definition toolchain_identities (capability : string) (capability_digest : option string)
    (required_facts : json) (rows : list executor_row) : M (list string) :=
  foldS (fun acc row =>
    match executor_toolchain_digest row with
    | None => mret acc
    | Some digest =>
        ok ← executor_can_run row capability capability_digest false required_facts;
        mret (if (ok : bool) && negb (str_in digest acc) then acc ++ [digest] else acc)
    end) [] rows.

Definition render_toolchain_digest (capability : string) (capability_digest : option string)
    (required_facts : json) : M (option string) :=
  rows ← gets executors;
  identities ← toolchain_identities capability capability_digest required_facts rows;
  mret (match identities with [digest] => Some digest | _ => None end).

(** ** Registration *)

(** The classification loop: advertised ids in order, and the descriptors
    that carry a definition digest. *)
Definition classify_capability (acc : list string * list (string * json)) (value : json)
  : M (list string * list (string * json)) :=
  let '(ids, descriptors) := acc in
  let named := py_or (jget value "capability_id") (jget value "id") in
  match value with
  | JStr id => mret (ids ++ [id], descriptors)
  | JObj _ =>
      if truthy named then
        id ← bind_text named;
        mret (ids ++ [id], if truthy (jget value "definition_digest")
                           then descriptors ++ [(id, value)] else descriptors)
      else raiseM ValidationError "capabilities must contain ids or capability descriptors"
  | _ => raiseM ValidationError "capabilities must contain ids or capability descriptors"
  end.

Definition register_descriptor (entry : string * json) : M unit :=
  let '(capability_id, value) := entry in
  digest ← bind_text (jget value "definition_digest");
  status ← bind_text (jget_def value "status" (JStr "ready"));
  reason ← (if is_null (jget value "unavailable_reason") then mret None
            else r ← bind_text (jget value "unavailable_reason"); mret (Some r));
  register_capability capability_id digest (jget value "required_resource_keys") status reason
    (jget_def value "estimated_scratch_bytes" (JInt 0))
    (jget_def value "estimated_output_bytes" (JInt 0));;
  mret tt.

Definition register_default (capability_id : string) : M unit :=
  row ← gets (capability_by_id capability_id);
  match row with
  | Some _ => mret tt
  | None =>
      register_capability capability_id ("sha256:" +:+ sha256 capability_id) (JArr []) "ready" None
        (JInt 0) (JInt 0);;
      mret tt
  end.

Definition with_facts (facts : json) (value : json) : json :=
  match value with
  | JStr id => JObj [("capability_id", value); ("verified_facts", facts)]
  | _ => jset value "verified_facts" facts
  end.

Definition upsert_executor (executor_id : string) (capabilities : json) (max_concurrency : Z)
    (resource_keys : json) (protocol readiness : string) (readiness_reason : option string)
    (runtime_epoch : json) (source_digest dependency_digest source_epoch : option string)
    (verified_facts : json) : M json :=
  guard_raise (negb (nonempty executor_id) || (max_concurrency <? 1)) ValidationError
    "executor_id and positive max_concurrency are required";;
  guard_raise (negb (str_in readiness ["ready"; "not_ready"])) ValidationError
    "readiness must be ready or not_ready";;
  epoch ← validate_runtime_epoch runtime_epoch "executor" (Some executor_id) false;
  values ← lift (py_list (py_or capabilities (JArr [])));
  facts ← (if is_null verified_facts then mret None
           else f ← lift (normalize_execution_facts verified_facts "verified_facts"); mret (Some f));
  '(ids, descriptors) ← foldS classify_capability ([], []) values;
  keys ← lift (resource_key_list resource_keys);
  for_each descriptors register_descriptor;;
  for_each ids register_default;;
  let stored := match facts with Some f => map (with_facts f) values | None => values end in
  timestamp ← now;
  let row := Executor executor_id max_concurrency keys (map json_column stored) protocol timestamp
               epoch readiness (readiness_note (String.eqb readiness "ready") readiness_reason)
               (Some timestamp) source_digest dependency_digest source_epoch in
  modify (fun t => t {{ executors :=
    upsert (fun x => String.eqb (ex_id x) executor_id)
      (fun x => row {{ ex_created_at := ex_created_at x }}) row (executors t) }});;
  stored_executor_result executor_id.
End Executors.
