(* ===== verification/Pages.v ===== *)
(** * Pages and cursors

    The keyset pages of [runtime_protocol/service.py]: page arguments, opaque
    cursors ([_page_args], [_page_cursor]), the generic page ([_page_rows]) and
    the event page ([events_page]).  Identifiers, timestamps and scopes are
    ASCII texts here, where [json.dumps] escapes nothing but control
    characters. *)

From Stdlib Require Import ZArith String Ascii List Bool Lia Sorted.
From Stdlib Require Import DecimalString DecimalZ Decimal.
From stdpp Require Import base list strings.
From stdpp Require sorting.
From S2P Require Import Prelude Json Errors Facts Sha256 Base64 Store Idempotency Ledger Executors.

Open Scope Z_scope.

Definition PAGE_DEFAULT_LIMIT : Z := 50.
Definition PAGE_MAX_LIMIT : Z := 200.

(** ** UTF-8 *)

Definition in_range (lo hi : N) (c : ascii) : bool := (lo <=? N_of_ascii c)%N && (N_of_ascii c <=? hi)%N.

(** [bytes.decode("utf-8")] accepts the bytes. *)
Fixpoint utf8_valid (s : string) : bool :=
  match s with
  | EmptyString => true
  | String a r =>
      if in_range 0 127 a then utf8_valid r else
      match r with
      | String b r =>
          if in_range 194 223 a then in_range 128 191 b && utf8_valid r else
          match r with
          | String c r =>
              if in_range 224 239 a then
                (if in_range 224 224 a then in_range 160 191 b
                 else if in_range 237 237 a then in_range 128 159 b else in_range 128 191 b) &&
                in_range 128 191 c && utf8_valid r
              else
              match r with
              | String d r =>
                  in_range 240 244 a &&
                  (if in_range 240 240 a then in_range 144 191 b
                   else if in_range 244 244 a then in_range 128 143 b else in_range 128 191 b) &&
                  in_range 128 191 c && in_range 128 191 d && utf8_valid r
              | EmptyString => false
              end
          | EmptyString => false
          end
      | EmptyString => false
      end
  end.

(** ** Page arguments *)

Definition invalid_request {A} (m : string) : res A := raise InvalidRequestError m.
Definition bad_limit : string := "limit must be an integer between 1 and 200".

Definition page_limit (limit : json) : res Z :=
  if is_bool limit then invalid_request bad_limit else
  match epoch_number limit with
  | None => invalid_request bad_limit
  | Some n => if (n <? 1) || (PAGE_MAX_LIMIT <? n) then invalid_request bad_limit else Ok n
  end.

(** The value an opaque cursor stands for. *)
Definition cursor_value (cursor : string) : option json :=
  match b64_decode cursor with
  | Some raw => if utf8_valid raw then json_loads raw else None
  | None => None
  end.

Definition page_args (cursor limit : json) : res (Z * option json) :=
  n ← page_limit limit;
  match cursor with
  | JNull => Ok (n, None)
  | JStr EmptyString => Ok (n, None)
  | JStr text =>
      match cursor_value text with
      | None => invalid_request "cursor is invalid"
      | Some value =>
          raise_if (negb (is_dict value) || negb (py_eq (jget value "v") (JInt 1)) ||
                    match jget value "k" with JArr (_ :: _) => false | _ => true end)
            InvalidRequestError "cursor is invalid";;
          Ok (n, Some value)
      end
  | _ => invalid_request "cursor must be a non-empty string"
  end.

Definition cursor_json (scope : string) (key : list json) (numeric : bool) : json :=
  JObj ([("v", JInt 1); ("s", JStr scope); ("k", JArr key)] ++
        if numeric then [("numeric", JBool true)] else []).

Definition page_cursor (scope : string) (key : list json) (numeric : bool) : string :=
  b64_text (canonical_json (cursor_json scope key numeric)).

Definition decoded_key (value : json) : list json :=
  match jget value "k" with JArr l => l | _ => [] end.

(** ** Keyset pages *)

(** [key <= after] of two tuples: the first elements that differ decide;
    [None] where Python raises [TypeError]. *)
Fixpoint tuple_le (key after : list json) : option bool :=
  match key, after with
  | [], _ => Some true
  | _ :: _, [] => Some false
  | x :: key, y :: after =>
      if py_eq x y then tuple_le key after else
      match x, y with
      | JStr a, JStr b => Some (String.leb a b)
      | _, _ => match num_of x, num_of y with
                | Some a, Some b => Some (a <=? b)
                | _, _ => None
                end
      end
  end.

Record page (A : Type) := Page { pg_items : list A; pg_next : option string }.
Arguments Page {A}.
Arguments pg_items {A}.
Arguments pg_next {A}.

Section PageRows.
Context {R A : Type}.
Context (key_fn : R -> list json) (resource_fn : R -> A) (skip : list json -> list json -> option bool).

(** Whether the row belongs to an earlier page. *)
Definition row_skipped (after : option (list json)) (row : R) : res bool :=
  match after with
  | None => Ok false
  | Some a =>
      if Nat.eqb (length (key_fn row)) (length a)
      then match skip (key_fn row) a with
           | Some before => Ok before
           | None => invalid_request "cursor is invalid"
           end
      else invalid_request "cursor is invalid"
  end.

(** The loop: at most one row beyond the limit is taken. *)
Fixpoint page_scan (limit : nat) (after : option (list json)) (taken : list (list json * A)) (rows : list R)
  : res (list (list json * A)) :=
  match rows with
  | [] => Ok taken
  | row :: rest =>
      before ← row_skipped after row;
      if (before : bool) then page_scan limit after taken rest else
      let taken := taken ++ [(key_fn row, resource_fn row)] in
      if (limit <? length taken)%nat then Ok taken else page_scan limit after taken rest
  end.

Definition page_rows (rows : list R) (scope : string) (cursor limit : json) : res (page A) :=
  '(n, decoded) ← page_args cursor limit;
  raise_if (match decoded with Some v => negb (is_json_str scope (jget v "s")) | None => false end)
    InvalidRequestError "cursor does not belong to this collection";;
  let after := option_map decoded_key decoded in
  selected ← page_scan (Z.to_nat n) after [] rows;
  let shown := firstn (Z.to_nat n) selected in
  Ok (Page (map snd shown)
        (if (Z.to_nat n <? length selected)%nat
         then match last shown with Some (k, _) => Some (page_cursor scope k false) | None => None end
         else None)).
End PageRows.

(** ** Events *)

(** [str.isdecimal] of an ASCII text, and [int] of it. *)
Definition is_decimal (s : string) : bool := nonempty s && all_chars is_digit s.
Definition decimal_value (s : string) : option Z :=
  match parse_int s with Some (JInt z, EmptyString) => Some z | _ => None end.

Definition events_scope (aggregate_id : option string) : string :=
  "events:" +:+ (if str_truthy aggregate_id then default EmptyString aggregate_id else "*").

Definition event_matches (aggregate_id : option string) (e : event_row) : bool :=
  if str_truthy aggregate_id
  then opt_str_eqb (e_task_id e) aggregate_id || opt_str_eqb (Some (e_run_id e)) aggregate_id
  else true.

Definition by_event_id (a b : event_row) : bool := e_id a <=? e_id b.

Definition matching_events (aggregate_id : option string) (t : tables) : list event_row :=
  sort by_event_id (List.filter (event_matches aggregate_id) (events t)).

Definition event_item (e : event_row) : json :=
  JObj [("event_id", JStr (dec_string (e_id e))); ("sequence", JInt (e_id e));
        ("cursor", JStr (dec_string (e_id e))); ("event_type", JStr (e_kind e));
        ("aggregate_type", JStr (if str_truthy (e_task_id e) then "task" else "run"));
        ("aggregate_id", if str_truthy (e_task_id e) then opt_str (e_task_id e) else JStr (e_run_id e));
        ("payload", e_payload_json e); ("occurred_at", jstamp (e_created_at e))].

(** The position a decoded cursor stands for: its text and its value. *)
Definition event_position (decoded : json) : res (string * Z) :=
  match decoded_key decoded with
  | [JStr k] =>
      raise_if (negb (is_decimal k)) InvalidRequestError "cursor is invalid";;
      match decimal_value k with
      | Some after => raise_if (2 ^ 63 - 1 <? after) InvalidRequestError "cursor is invalid";; Ok (k, after)
      | None => invalid_request "cursor is invalid"
      end
  | _ => invalid_request "cursor is invalid"
  end.

Definition event_cursor (scope : string) (id : Z) (numeric : bool) : string :=
  page_cursor scope [JStr (dec_string id)] numeric.

(** The rows a page selects: the new cursors compare numbers, the old ones
    numbers and texts. *)
Definition events_after (position : option (string * Z)) (polling : bool) (l : list event_row) : list event_row :=
  match position with
  | None => List.filter (fun e => 0 <? e_id e) l
  | Some (text, after) =>
      List.filter (fun e => (after <? e_id e) && (polling || String.ltb text (dec_string (e_id e)))) l
  end.

Definition events_page (aggregate_id : option string) (cursor limit from_ : json) (t : tables)
  : res (page json) :=
  let scope := events_scope aggregate_id in
  '(n, decoded) ← page_args cursor limit;
  raise_if (match decoded with Some v => negb (is_json_str scope (jget v "s")) | None => false end)
    InvalidRequestError "cursor does not belong to this collection";;
  raise_if (negb (is_null from_) && negb (is_json_str "latest" from_) ||
            (is_json_str "latest" from_ && match decoded with Some _ => true | None => false end))
    InvalidRequestError "from must be latest and cannot be combined with cursor";;
  let all := matching_events aggregate_id t in
  if is_json_str "latest" from_ then
    Ok (Page [] (Some (event_cursor scope (match last all with Some e => e_id e | None => 0 end) true)))
  else
  position ← match decoded with
             | None => Ok None
             | Some v => p ← event_position v; Ok (Some p)
             end;
  let polling := match decoded with Some v => bool_decide (jget v "numeric" = JBool true) | None => false end in
  let rows := firstn (S (Z.to_nat n)) (events_after position polling all) in
  let has_more := (Z.to_nat n <? length rows)%nat in
  let selected := firstn (Z.to_nat n) rows in
  Ok (Page (map event_item selected)
        (if has_more || (polling && negb (nil_or selected))
         then match last selected with Some e => Some (event_cursor scope (e_id e) polling) | None => None end
         else if polling then match cursor with JStr c => Some c | _ => None end else None)).

(** ** Cursors are read back *)

Definition ascii_text (s : string) : bool := all_chars (in_range 0 127) s.

Lemma utf8_ascii s : ascii_text s = true -> utf8_valid s = true.
Proof.
  induction s as [|c s IH]; [done|]. unfold ascii_text. cbn [all_chars utf8_valid]. intros Hs. bool_hyps.
  rewrite H. auto.
Qed.

Lemma ascii_join sep l : ascii_text sep = true -> Forall (fun s => ascii_text s = true) l -> ascii_text (str_join sep l) = true.
Proof.
  intros Hs Hl. induction Hl as [|x l Hx Hl IH]; [done|]. unfold ascii_text in *. destruct l as [|y l]; [done|].
  change (str_join sep (x :: y :: l)) with (x +:+ (sep +:+ str_join sep (y :: l))).
  by rewrite !all_chars_app, Hx, Hs, IH.
Qed.

Definition ascii_esc_ok (n : N) : bool := ascii_text (esc_char (ascii_of_N n)).
Lemma ascii_esc_all : forallb ascii_esc_ok (below 128) = true.
Proof. vm_compute. reflexivity. Qed.

Lemma ascii_esc c : in_range 0 127 c = true -> ascii_text (esc_char c) = true.
Proof.
  intros Hc. unfold in_range in Hc. apply andb_true_iff in Hc as [_ Hc]. apply N.leb_le in Hc.
  pose proof ascii_esc_all as H. rewrite forallb_forall in H.
  specialize (H (N_of_ascii c) (in_below 128 (N_of_ascii c) ltac:(lia))). unfold ascii_esc_ok in H. by rewrite ascii_N_embedding in H.
Qed.

Lemma ascii_quoted s : ascii_text s = true -> ascii_text (quoted s) = true.
Proof.
  intros Hs. unfold quoted, ascii_text.
  change (all_chars (in_range 0 127) (esc_string s +:+ String quote_char EmptyString) = true).
  rewrite all_chars_app. apply andb_true_iff. split; [|done].
  induction s as [|c s IH]; [done|]. unfold ascii_text in *. cbn [all_chars] in Hs. bool_hyps. cbn [esc_string].
  rewrite all_chars_app. apply andb_true_iff. split; [by apply ascii_esc|auto].
Qed.

Lemma ascii_uint d : ascii_text (NilEmpty.string_of_uint d) = true.
Proof. induction d; done. Qed.

Lemma ascii_dec z : ascii_text (dec_string z) = true.
Proof. unfold dec_string. destruct (Z.to_int z) as [d|d]; (destruct d; [done|apply ascii_uint..]). Qed.

(** All texts of the value are ASCII. *)
Fixpoint ascii_json (j : json) : bool :=
  match j with
  | JStr s => ascii_text s
  | JArr l => forallb ascii_json l
  | JObj kvs => forallb (fun kv => ascii_text kv.1 && ascii_json kv.2) kvs
  | _ => true
  end.

Lemma ascii_dumps j : ascii_json j = true -> ascii_text (dumps j) = true.
Proof.
  induction j as [|[]|z|s|l IH|kvs IH] using json_ind; intros Hj; try done.
  - apply ascii_dec.
  - by apply ascii_quoted.
  - cbn [dumps]. unfold ascii_text. rewrite !all_chars_app. apply andb_true_iff. split; [done|]. apply andb_true_iff.
    split; [|done]. apply ascii_join; [done|]. apply Forall_map. simpl in Hj. rewrite forallb_forall in Hj.
    rewrite Forall_forall in *. intros x Hx. apply IH; [done|]. apply Hj. by apply list_elem_of_In.
  - cbn [dumps]. unfold ascii_text. rewrite !all_chars_app. apply andb_true_iff. split; [done|]. apply andb_true_iff.
    split; [|done]. apply ascii_join; [done|]. apply Forall_map. simpl in Hj. rewrite forallb_forall in Hj.
    rewrite Forall_forall in *. intros x Hx. assert (In x kvs) as Hin by (by apply list_elem_of_In).
    specialize (Hj x Hin). bool_hyps. unfold ascii_text. rewrite !all_chars_app.
    apply andb_true_iff. split; [by apply ascii_quoted|]. apply andb_true_iff. split; [done|]. by apply IH.
Qed.

(** A cursor as the sender meant it. *)
Definition sent_cursor (scope : string) (key : list string) (numeric : bool) : json :=
  JObj ([("k", JArr (map JStr key))] ++ (if numeric then [("numeric", JBool true)] else []) ++
        [("s", JStr scope); ("v", JInt 1)]).

Lemma jnorm_strings l : map jnorm (map JStr l) = map JStr l.
Proof. induction l as [|x l IH]; [done|]. simpl. by rewrite IH. Qed.

Lemma jnorm_cursor scope key numeric : jnorm (cursor_json scope (map JStr key) numeric) = sent_cursor scope key numeric.
Proof. unfold cursor_json, sent_cursor. destruct numeric; simpl; by rewrite jnorm_strings. Qed.

Lemma cursor_value_sent scope key numeric :
  ascii_text scope = true -> Forall (fun k => ascii_text k = true) key ->
  cursor_value (page_cursor scope (map JStr key) numeric) = Some (sent_cursor scope key numeric).
Proof.
  intros Hs Hk. unfold cursor_value, page_cursor, canonical_json. rewrite b64_decode_text, jnorm_cursor.
  rewrite utf8_ascii; [apply json_loads_dumps|]. apply ascii_dumps.
  assert (forallb ascii_json (map JStr key) = true) as Hkey.
  { apply forallb_forall. intros x Hx. apply in_map_iff in Hx as (k & <- & Hin). rewrite Forall_forall in Hk.
    apply Hk. by apply list_elem_of_In. }
  destruct numeric; simpl; by rewrite Hkey, Hs.
Qed.

Lemma page_cursor_nonempty scope key numeric : exists c r, page_cursor scope key numeric = String c r.
Proof.
  destruct (page_cursor scope key numeric) as [|c r] eqn:E; [|by exists c, r].
  pose proof (b64_decode_text (canonical_json (cursor_json scope key numeric))) as H.
  unfold page_cursor in E. rewrite E in H. by destruct numeric.
Qed.

Lemma page_args_sent scope key numeric limit n :
  ascii_text scope = true -> Forall (fun k => ascii_text k = true) key -> key <> [] -> page_limit limit = Ok n ->
  page_args (JStr (page_cursor scope (map JStr key) numeric)) limit = Ok (n, Some (sent_cursor scope key numeric)).
Proof.
  intros Hs Hk Hne Hl. unfold page_args. rewrite Hl. simpl.
  pose proof (cursor_value_sent scope key numeric Hs Hk) as Hv.
  destruct (page_cursor_nonempty scope (map JStr key) numeric) as (c & r & E). rewrite E in *. rewrite Hv.
  destruct key as [|k key]; [done|]. by destruct numeric.
Qed.

(** ** Walking over all pages *)

(** The order of tuples of texts. *)
Fixpoint lex_leb (a b : list string) : bool :=
  match a, b with
  | [], _ => true
  | _ :: _, [] => false
  | x :: a, y :: b => if String.eqb x y then lex_leb a b else String.leb x y
  end.

Definition lex_lt (a b : list string) : Prop := lex_leb a b = true /\ a <> b.

Lemma lex_leb_refl a : lex_leb a a = true.
Proof. induction a as [|x a IH]; simpl; [done|]. by rewrite String.eqb_refl. Qed.

Lemma lex_leb_antisym a b : lex_leb a b = true -> lex_leb b a = true -> a = b.
Proof.
  revert b. induction a as [|x a IH]; intros [|y b]; simpl; try done.
  rewrite (String.eqb_sym y x). destruct (String.eqb x y) eqn:E.
  - apply String.eqb_eq in E as ->. intros H1 H2. f_equal. auto.
  - intros H1 H2. apply String.eqb_neq in E. exfalso. by apply E, String.leb_antisym.
Qed.

Lemma tuple_le_texts a b : length a = length b -> tuple_le (map JStr a) (map JStr b) = Some (lex_leb a b).
Proof.
  revert b. induction a as [|x a IH]; intros [|y b] Hl; simpl in *; try done.
  destruct (String.eqb x y); [apply IH; lia|done].
Qed.

Section Walk.
Context {R A : Type} (names : R -> list string) (resource_fn : R -> A) (scope : string) (width : nat).

Definition text_key (row : R) : list json := map JStr (names row).

(** A table whose rows come in the order of their keys, which are distinct. *)
Record keyset (rows : list R) : Prop := {
  ks_sorted : StronglySorted (fun x y => lex_lt (names x) (names y)) rows;
  ks_width : Forall (fun r => length (names r) = width) rows;
  ks_ascii : Forall (fun r => Forall (fun k => ascii_text k = true) (names r)) rows }.

Definition paged (r : R) : list json * A := (text_key r, resource_fn r).

Notation scan := (page_scan text_key resource_fn tuple_le).
Notation rows_page := (page_rows text_key resource_fn tuple_le).

Lemma scan_all limit after taken rows :
  Forall (fun r => row_skipped text_key tuple_le after r = Ok false) rows -> (length taken <= limit)%nat ->
  scan limit after taken rows = Ok (taken ++ firstn (S limit - length taken) (map paged rows)).
Proof.
  intros Hs. revert taken. induction Hs as [|r rows Hr Hs IH]; intros taken Hl; cbn [page_scan].
  { simpl. by rewrite firstn_nil, app_nil_r. }
  rewrite Hr. simpl. rewrite length_app. simpl.
  replace (S limit - length taken)%nat with (S (limit - length taken)) by lia. simpl.
  destruct (limit <? length taken + 1)%nat eqn:E.
  - apply Nat.ltb_lt in E. replace (limit - length taken)%nat with 0%nat by lia. by rewrite firstn_O.
  - apply Nat.ltb_ge in E. rewrite IH by (rewrite length_app; simpl; lia).
    rewrite length_app, <- app_assoc. simpl. do 4 f_equal. lia.
Qed.

Lemma scan_skips limit after taken pre rows :
  Forall (fun r => row_skipped text_key tuple_le after r = Ok true) pre ->
  scan limit after taken (pre ++ rows) = scan limit after taken rows.
Proof. induction 1 as [|r pre Hr _ IH]; [done|]. cbn [app page_scan]. by rewrite Hr. Qed.

(** A row is skipped exactly up to the row of the cursor. *)
Lemma skipped_upto pre x post :
  keyset (pre ++ x :: post) ->
  Forall (fun r => row_skipped text_key tuple_le (Some (text_key x)) r = Ok true) (pre ++ [x]) /\
  Forall (fun r => row_skipped text_key tuple_le (Some (text_key x)) r = Ok false) post.
Proof.
  intros [Hs Hw _].
  assert (forall r, In r (pre ++ x :: post) -> row_skipped text_key tuple_le (Some (text_key x)) r = Ok (lex_leb (names r) (names x)))
    as Hrow.
  { intros r Hr. rewrite List.Forall_forall in Hw.
    assert (length (names r) = length (names x)) as Hl
      by (rewrite (Hw r Hr), (Hw x); [done|apply in_or_app; right; by left]).
    unfold row_skipped, text_key. rewrite !length_map, Hl, Nat.eqb_refl. by rewrite tuple_le_texts. }
  apply sorting.StronglySorted_app in Hs as (Hcross & _ & Hx). apply StronglySorted_inv in Hx as [_ Hx].
  rewrite !List.Forall_forall in *. split; intros r Hr.
  - apply in_app_or in Hr as [Hr|[<-|[]]].
    + rewrite Hrow by (apply in_or_app; by left). f_equal. by apply (Hcross r x); [apply list_elem_of_In|left].
    + rewrite Hrow by (apply in_or_app; right; by left). by rewrite lex_leb_refl.
  - rewrite Hrow by (apply in_or_app; right; by right). f_equal. apply not_true_iff_false. intros Hle.
    destruct (Hx r Hr) as [Hlt Hne]. by apply Hne, lex_leb_antisym.
Qed.

Lemma fmap_last_paged l : last (map paged l) = option_map paged (last l).
Proof. induction l as [|x [|y l] IH]; [done|done|]. exact IH. Qed.

(** The page that starts after the rows [pre]. *)
Definition cursor_after (pre : list R) : json :=
  match last pre with Some x => JStr (page_cursor scope (text_key x) false) | None => JNull end.

Lemma rows_page_after pre post limit n :
  keyset (pre ++ post) -> (0 < width)%nat -> ascii_text scope = true -> page_limit limit = Ok n ->
  rows_page (pre ++ post) scope (cursor_after pre) limit =
  Ok (Page (map resource_fn (firstn (Z.to_nat n) post))
        (if (Z.to_nat n <? length post)%nat
         then match last (firstn (Z.to_nat n) post) with
              | Some x => Some (page_cursor scope (text_key x) false)
              | None => None
              end
         else None)).
Proof.
  intros Hks Hw Hsc Hn.
  assert (exists decoded after, page_args (cursor_after pre) limit = Ok (n, decoded) /\
    match decoded with Some v => negb (is_json_str scope (jget v "s")) | None => false end = false /\
    option_map decoded_key decoded = after /\
    scan (Z.to_nat n) after [] (pre ++ post) = Ok (firstn (S (Z.to_nat n)) (map paged post))) as (decoded & after & Ha & Hd & Ho & Hscan).
  { unfold cursor_after. destruct (last pre) as [x|] eqn:E.
    - apply last_Some in E as [pre' ->]. rewrite <- app_assoc in Hks. simpl in Hks.
      destruct (skipped_upto _ _ _ Hks) as [Hpre Hpost]. destruct Hks as [_ Hwd Has].
      assert (In x (pre' ++ x :: post)) as Hin by (apply in_or_app; right; by left).
      rewrite List.Forall_forall in Hwd, Has.
      exists (Some (sent_cursor scope (names x) false)), (Some (text_key x)).
      split; [|split; [|split]].
      + apply page_args_sent; [done|by apply Has| |done]. intros Hnil. specialize (Hwd x Hin). rewrite Hnil in Hwd.
        simpl in Hwd. lia.
      + simpl. unfold jget. simpl. by rewrite String.eqb_refl.
      + done.
      + rewrite scan_skips by done. rewrite scan_all by (done || simpl; lia). done.
    - apply last_None in E as ->. exists None, None. split; [|split; [|split]]; try done.
      + simpl. unfold page_args. by rewrite Hn.
      + simpl. rewrite scan_all; [|by apply Forall_true|simpl; lia]. done. }
  unfold page_rows. rewrite Ha. simpl. rewrite Hd, Ho. simpl. rewrite Hscan. simpl.
  rewrite firstn_firstn, Nat.min_l by lia. rewrite length_firstn, length_map.
  rewrite firstn_map, map_map. f_equal. f_equal.
  replace (Z.to_nat n <? S (Z.to_nat n) `min` length post)%nat with (Z.to_nat n <? length post)%nat
    by (destruct (Z.to_nat n <? length post)%nat eqn:E; symmetry; [apply Nat.ltb_lt in E; apply Nat.ltb_lt; lia|
        apply Nat.ltb_ge in E; apply Nat.ltb_ge; lia]).
  destruct (_ <? _)%nat; [|done]. rewrite fmap_last_paged. by destruct (last _).
Qed.

(** Follow the cursors from page to page. *)
Fixpoint page_walk (fuel : nat) (rows : list R) (cursor limit : json) : res (list A) :=
  match fuel with
  | O => Ok []
  | S f =>
      p ← rows_page rows scope cursor limit;
      match pg_next p with
      | None => Ok (pg_items p)
      | Some c => rest ← page_walk f rows (JStr c) limit; Ok (pg_items p ++ rest)
      end
  end.

Lemma page_walk_rest fuel pre post limit n :
  keyset (pre ++ post) -> (0 < width)%nat -> ascii_text scope = true -> page_limit limit = Ok n ->
  (length post < fuel)%nat -> page_walk fuel (pre ++ post) (cursor_after pre) limit = Ok (map resource_fn post).
Proof.
  intros Hks Hw Hsc Hn. revert pre post Hks. induction fuel as [|fuel IH]; intros pre post Hks Hf; [lia|].
  assert (0 < n) as Hpos.
  { unfold page_limit in Hn. destruct (is_bool limit); [done|]. destruct (epoch_number limit); [|done].
    destruct (_ || _) eqn:E; [done|]. injection Hn as ->. bool_hyps. lia. }
  cbn [page_walk]. rewrite (rows_page_after pre post limit n) by done. simpl.
  destruct (Z.to_nat n <? length post)%nat eqn:E.
  - apply Nat.ltb_lt in E. set (m := Z.to_nat n) in *.
    destruct (last (firstn m post)) as [x|] eqn:Ex.
    + pose proof (firstn_skipn m post) as Hsplit.
      assert (cursor_after (pre ++ firstn m post) = JStr (page_cursor scope (text_key x) false)) as Hc.
      { unfold cursor_after. rewrite last_app, Ex. done. }
      rewrite <- Hc. rewrite <- Hsplit at 1. rewrite app_assoc. rewrite IH.
      * simpl. rewrite <- map_app. by rewrite Hsplit.
      * by rewrite <- app_assoc, Hsplit.
      * rewrite length_skipn. lia.
    + apply last_None in Ex. apply (f_equal length) in Ex. rewrite length_firstn in Ex. simpl in Ex. lia.
  - apply Nat.ltb_ge in E. by rewrite firstn_all2.
Qed.
End Walk.



(** ** Polling for events *)

Lemma decimal_text z : 0 <= z -> is_decimal (dec_string z) = true /\ decimal_value (dec_string z) = Some z.
Proof.
  intros Hz. split.
  - unfold is_decimal, dec_string. destruct z as [|p|p]; [done| |lia]. cbn [Z.to_int NilZero.string_of_int].
    destruct (nilzero_head (Pos.to_uint p)) as (c & r & E & _).
    assert (forall d, all_chars is_digit (NilEmpty.string_of_uint d) = true) as Hall by (intros d; induction d; done).
    assert (all_chars is_digit (NilZero.string_of_uint (Pos.to_uint p)) = true) as ->
      by (destruct (Pos.to_uint p) eqn:Ep; [done|rewrite <- Ep; rewrite Ep; apply Hall..]).
    by rewrite E.
  - unfold decimal_value. pose proof (parse_int_dec z EmptyString I) as H.
    assert (forall s, s +:+ "" = s) as Hnil by (intros s; induction s as [|c s IH]; [done|exact (f_equal (String c) IH)]).
    rewrite Hnil in H. by rewrite H.
Qed.

Lemma event_position_sent scope p numeric :
  0 <= p < 2 ^ 63 -> event_position (sent_cursor scope [dec_string p] numeric) = Ok (dec_string p, p).
Proof.
  intros Hp. destruct (decimal_text p ltac:(lia)) as [Hd Hv].
  assert (decoded_key (sent_cursor scope [dec_string p] numeric) = [JStr (dec_string p)]) as Hk by (by destruct numeric).
  unfold event_position. rewrite Hk, Hd, Hv. simpl.
  replace (2 ^ 63 - 1 <? p) with false by (symmetry; apply Z.ltb_ge; lia). done.
Qed.

Lemma filter_true_all {A} (p : A -> bool) l : (forall x, In x l -> p x = true) -> List.filter p l = l.
Proof.
  induction l as [|x l IH]; simpl; intros H; [done|]. rewrite (H x (or_introl eq_refl)), IH; [done|]. auto.
Qed.

Lemma filter_false_none {A} (p : A -> bool) l : (forall x, In x l -> p x = false) -> List.filter p l = [].
Proof.
  induction l as [|x l IH]; simpl; intros H; [done|]. rewrite (H x (or_introl eq_refl)). auto.
Qed.

Lemma filter_and {A} (p q : A -> bool) l : List.filter (fun x => p x && q x) l = List.filter q (List.filter p l).
Proof. induction l as [|x l IH]; simpl; [done|]. destruct (p x); simpl; [|done]. by destruct (q x); rewrite IH. Qed.

(** The events of a table are numbered in the order of the table. *)
Definition numbered (l : list event_row) : Prop := StronglySorted (fun a b => e_id a < e_id b) l.

Lemma numbered_filter p l : numbered l -> numbered (List.filter p l).
Proof.
  induction 1 as [|x l Hs IH Hx]; simpl; [constructor|]. destruct (p x); [|done]. constructor; [done|].
  rewrite List.Forall_forall in *. intros y Hy. apply filter_In in Hy as [Hy _]. auto.
Qed.

Lemma matching_numbered agg t : numbered (events t) -> matching_events agg t = List.filter (event_matches agg) (events t).
Proof.
  intros Hn. apply sort_sorted_id. apply (numbered_filter (event_matches agg)) in Hn. unfold numbered in Hn.
  induction Hn as [|x l Hs IH Hx]; constructor; [done|]. rewrite List.Forall_forall in *.
  intros y Hy. specialize (Hx y Hy). unfold by_event_id. apply Z.leb_le. lia.
Qed.

(** The first part of a numbered list is cut out by the number of its end. *)
Lemma numbered_cut a b e :
  numbered (a ++ b) -> last a = Some e -> List.filter (fun x => e_id x <=? e_id e) (a ++ b) = a.
Proof.
  intros Hs He. apply last_Some in He as [a' ->]. apply sorting.StronglySorted_app in Hs as (Hcross & Ha & _).
  apply sorting.StronglySorted_app in Ha as (Hcross' & _ & _).
  rewrite List.filter_app.
  assert (List.filter (fun x => e_id x <=? e_id e) (a' ++ [e]) = a' ++ [e]) as ->.
  { apply filter_true_all. intros x Hx. apply Z.leb_le. apply in_app_or in Hx as [Hx|[<-|[]]]; [|lia].
    assert (e_id x < e_id e); [|lia]. apply Hcross'; [by apply list_elem_of_In|by left]. }
  assert (List.filter (fun x => e_id x <=? e_id e) b = []) as ->; [|by rewrite app_nil_r].
  apply filter_false_none. intros x Hx. apply Z.leb_gt. apply Hcross; [|by apply list_elem_of_In].
  apply list_elem_of_In, in_or_app. right. by left.
Qed.

(** C33: polling loses no event and repeats none.  From the polling cursor at
    position [p], a page of the events so far shows exactly the events of the
    aggregate numbered above [p] and up to the position [q] of the next
    cursor, in order; this is so for every later table too, so pages read one
    after the other while events are appended show each event once.  The
    position moves on whenever there is such an event. *)
Theorem event_polling_complete aggregate p limit n t t' new :
  let scope := events_scope aggregate in
  ascii_text scope = true -> 0 <= p < 2 ^ 63 -> page_limit limit = Ok n ->
  events t' = events t ++ new -> numbered (events t') ->
  exists q, p <= q /\ (q = p -> List.filter (fun e => p <? e_id e) (matching_events aggregate t) = []) /\
    events_page aggregate (JStr (event_cursor scope p true)) limit JNull t =
    Ok (Page (map event_item (List.filter (fun e => (p <? e_id e) && (e_id e <=? q)) (matching_events aggregate t')))
          (Some (event_cursor scope q true))).
Proof.
  intros scope Hsc Hp Hn He Hnum.
  assert (numbered (events t)) as Hnum0.
  { rewrite He in Hnum. by apply sorting.StronglySorted_app in Hnum as (_ & ? & _). }
  set (l := List.filter (fun e => p <? e_id e) (matching_events aggregate t)).
  set (later := List.filter (fun e => p <? e_id e) (List.filter (event_matches aggregate) new)).
  assert (List.filter (fun e => p <? e_id e) (matching_events aggregate t') = l ++ later) as Hlater.
  { unfold l, later. rewrite !matching_numbered by done. by rewrite He, !List.filter_app. }
  assert (numbered (l ++ later)) as Hnl.
  { rewrite <- Hlater. apply numbered_filter. rewrite matching_numbered by done. by apply numbered_filter. }
  assert (0 < n) as Hpos.
  { unfold page_limit in Hn. destruct (is_bool limit); [done|]. destruct (epoch_number limit); [|done].
    destruct (_ || _) eqn:E; [done|]. injection Hn as ->. bool_hyps. lia. }
  assert (page_args (JStr (event_cursor scope p true)) limit = Ok (n, Some (sent_cursor scope [dec_string p] true))) as Ha.
  { apply (page_args_sent scope [dec_string p] true); [done|repeat constructor; apply ascii_dec|done|done]. }
  assert (is_json_str scope (jget (sent_cursor scope [dec_string p] true) "s") = true) as Hs
    by (unfold jget; simpl; by rewrite String.eqb_refl).
  assert (events_after (Some (dec_string p, p)) true (matching_events aggregate t) = l) as Hafter.
  { apply List.filter_ext. intros e. simpl. apply andb_true_r. }
  unfold events_page. fold scope. rewrite Ha. cbn [mbind res_bind]. simpl. rewrite String.eqb_refl. simpl.
  rewrite (event_position_sent scope p true Hp). simpl. simpl in Hafter. rewrite Hafter.
  rewrite firstn_firstn, Nat.min_l by lia. set (m := Z.to_nat n).
  assert (l = firstn m l ++ skipn m l) as Hsplit by (symmetry; apply firstn_skipn).
  destruct (last (firstn m l)) as [e|] eqn:El.
  - exists (e_id e). assert (p < e_id e) as Hlt.
    { assert (In e l) as Hin.
      { rewrite Hsplit. apply in_or_app. left. apply last_Some in El as [l' ->]. apply in_or_app. right. by left. }
      apply filter_In in Hin as [_ Hin]. by apply Z.ltb_lt in Hin. }
    split; [lia|]. split; [lia|].
    + assert (nil_or (firstn m l) = false) as -> by (by destruct (firstn m l)). rewrite orb_true_r.
      do 3 f_equal. rewrite (filter_and (fun e0 => p <? e_id e0) (fun x => e_id x <=? e_id e)), Hlater.
      rewrite Hsplit at 2. rewrite <- app_assoc. rewrite numbered_cut; [done| |done].
      by rewrite app_assoc, <- Hsplit.
  - exists p. apply last_None in El.
    assert (l = []) as Hnil.
    { destruct l as [|x l']; [done|]. destruct m eqn:Em; [lia|done]. }
    split; [lia|]. split; [done|]. rewrite El, Hnil. rewrite firstn_nil. simpl. replace (m <? 0)%nat with false by (symmetry; apply Nat.ltb_ge; lia). simpl.
    do 2 f_equal. rewrite filter_false_none; [done|]. intros x _. apply andb_false_iff.
    destruct (Z.ltb_spec p (e_id x)); [right; apply Z.leb_gt; lia|by left].
Qed.

(** A run with the events numbered 1 to [n]. *)
Definition sample_events (n : nat) : list event_row :=
  map (fun i => Event (Z.of_nat i) "run-1" None "run.progress" (JObj []) "" "" (At 0)) (seq 1 n).

Definition sample_table (n : nat) : tables :=
  Tables [] [] [] (sample_events n) (Z.of_nat n + 1) [] [] [] [] [] [] [] [] [] None [] [] [] [] [] [] [] 1 [] [] [] [] [] [] [].

(** C33: ten events polled from position 7 in pages of two, while two more
    arrive. *)
Lemma event_polling_complete_witness :
  exists q, 7 < q /\
    events_page None (JStr (event_cursor "events:*" 7 true)) (JInt 2) JNull (sample_table 10) =
    Ok (Page (map event_item (List.filter (fun e => (7 <? e_id e) && (e_id e <=? q)) (sample_events 12)))
          (Some (event_cursor "events:*" q true))).
Proof.
  destruct (event_polling_complete None 7 (JInt 2) 2 (sample_table 10) (sample_table 12) (skipn 10 (sample_events 12)))
    as (q & Hq & Hmore & He).
  - reflexivity.
  - lia.
  - reflexivity.
  - reflexivity.
  - vm_compute. repeat constructor.
  - exists q. split; [|exact He]. destruct (Z.eq_dec q 7) as [E|E]; [discriminate (Hmore E)|lia].
Defined.

