(* ===== verification/Durable.v ===== *)
(** * Durable JSON files

    [durable_json_bytes] of [runtime_protocol/util.py], the text of a
    checkpoint file: keys sorted, an indent of two, and ASCII only, where
    [canonical_json] is compact and keeps the characters.  [durable_loads] is
    [json.loads] with white space and every escape; numbers are integers, as
    everywhere in the development. *)

From Stdlib Require Import ZArith String Ascii List Bool Lia.
From stdpp Require Import base list strings.
From S2P Require Import Prelude Json Errors Pages.

#[local] Open Scope string_scope.

(** ** Characters *)

Definition byte_char (n : N) : ascii := ascii_of_N n.

(** The UTF-8 text of a code point. *)
Definition utf8_text (cp : N) : string :=
  if (cp <? 128)%N then String (byte_char cp) ""
  else if (cp <? 2048)%N then String (byte_char (192 + cp / 64)) (String (byte_char (128 + cp mod 64)) "")
  else if (cp <? 65536)%N then
    String (byte_char (224 + cp / 4096)) (String (byte_char (128 + cp / 64 mod 64)) (String (byte_char (128 + cp mod 64)) ""))
  else
    String (byte_char (240 + cp / 262144)) (String (byte_char (128 + cp / 4096 mod 64))
      (String (byte_char (128 + cp / 64 mod 64)) (String (byte_char (128 + cp mod 64)) ""))).

(** The code points of a text; texts are UTF-8 ([utf8_valid]). *)
Fixpoint code_points (s : string) : list N :=
  match s with
  | EmptyString => []
  | String a r =>
      let v := N_of_ascii a in
      if in_range 0 127 a then v :: code_points r else
      match r with
      | String b r =>
          let v := (v * 64 + N_of_ascii b)%N in
          if in_range 194 223 a then (v - (192 * 64 + 128))%N :: code_points r else
          match r with
          | String c r =>
              let v := (v * 64 + N_of_ascii c)%N in
              if in_range 224 239 a then (v - (224 * 4096 + 128 * 64 + 128))%N :: code_points r else
              match r with
              | String d r =>
                  let v := (v * 64 + N_of_ascii d)%N in
                  (v - (240 * 262144 + 128 * 4096 + 128 * 64 + 128))%N :: code_points r
              | EmptyString => []
              end
          | EmptyString => []
          end
      | EmptyString => []
      end
  end.

(** ** Writing *)

Definition hex4 (n : N) : string :=
  String (hex_digit (n / 4096)) (String (hex_digit (n / 256 mod 16))
    (String (hex_digit (n / 16 mod 16)) (String (hex_digit (n mod 16)) ""))).

Definition u_escape (n : N) : string := String backslash (String "u" (hex4 n)).

(** [json.encoder.py_encode_basestring_ascii], one character. *)
Definition ascii_escape (cp : N) : string :=
  if (cp =? 34)%N || (cp =? 92)%N then String backslash (String (byte_char cp) "")
  else if (cp =? 10)%N then String backslash "n"
  else if (cp =? 13)%N then String backslash "r"
  else if (cp =? 9)%N then String backslash "t"
  else if (cp =? 12)%N then String backslash "f"
  else if (cp =? 8)%N then String backslash "b"
  else if (32 <=? cp)%N && (cp <=? 126)%N then String (byte_char cp) ""
  else if (cp <? 65536)%N then u_escape cp
  else u_escape (55296 + (cp - 65536) / 1024) +:+ u_escape (56320 + (cp - 65536) mod 1024).

Definition escaped_text (cps : list N) : string := foldr (fun cp t => ascii_escape cp +:+ t) "" cps.

Definition ascii_quoted (s : string) : string :=
  String quote_char (escaped_text (code_points s) +:+ String quote_char "").

Fixpoint spaces (n : nat) : string :=
  match n with O => "" | S m => String " " (spaces m) end.

Definition newline (level : nat) : string := String (ascii_of_nat 10) (spaces (2 * level)).

(** [json.dumps(value, indent=2)] at a depth. *)
Fixpoint pretty (level : nat) (j : json) : string :=
  match j with
  | JStr s => ascii_quoted s
  | JArr [] => "[]"
  | JArr l => "[" +:+ newline (S level) +:+
      str_join ("," +:+ newline (S level)) (map (pretty (S level)) l) +:+ newline level +:+ "]"
  | JObj [] => "{}"
  | JObj kvs => "{" +:+ newline (S level) +:+
      str_join ("," +:+ newline (S level)) (map (fun kv => ascii_quoted kv.1 +:+ ": " +:+ pretty (S level) kv.2) kvs) +:+
      newline level +:+ "}"
  | _ => dumps j
  end.

(** [util.durable_json_bytes] *)
Definition durable_json_bytes (value : json) : string := pretty 0 (jnorm value) +:+ String (ascii_of_nat 10) "".

(** ** Reading *)

Definition is_white (c : ascii) : bool :=
  Ascii.eqb c " " || Ascii.eqb c (ascii_of_nat 9) || Ascii.eqb c (ascii_of_nat 10) || Ascii.eqb c (ascii_of_nat 13).

Fixpoint skip_white (s : string) : string :=
  match s with
  | String c r => if is_white c then skip_white r else s
  | EmptyString => EmptyString
  end.

Definition hex_any (c : ascii) : option N :=
  let n := N_of_ascii c in
  if in_range 65 70 c then Some (n - 55)%N else hex_value c.

Definition hex4_value (a b c d : ascii) : option N :=
  match hex_any a, hex_any b, hex_any c, hex_any d with
  | Some a, Some b, Some c, Some d => Some (a * 4096 + b * 256 + c * 16 + d)%N
  | _, _, _, _ => None
  end.

Definition put_text (t : string) (r : option (string * string)) : option (string * string) :=
  match r with Some (body, rest) => Some (t +:+ body, rest) | None => None end.

Definition simple_escape (e : ascii) : option string :=
  if Ascii.eqb e quote_char || Ascii.eqb e backslash || Ascii.eqb e "/" then Some (String e "")
  else if Ascii.eqb e "n" then Some (String (ascii_of_nat 10) "")
  else if Ascii.eqb e "r" then Some (String (ascii_of_nat 13) "")
  else if Ascii.eqb e "t" then Some (String (ascii_of_nat 9) "")
  else if Ascii.eqb e "f" then Some (String (ascii_of_nat 12) "")
  else if Ascii.eqb e "b" then Some (String (ascii_of_nat 8) "")
  else None.

(** The body of a string literal; a lone surrogate, which is no text of the
    model, is not read. *)
Fixpoint read_chars (s : string) : option (string * string) :=
  match s with
  | EmptyString => None
  | String c r =>
      if Ascii.eqb c quote_char then Some ("", r)
      else if Ascii.eqb c backslash then
        match r with
        | EmptyString => None
        | String e r =>
            if Ascii.eqb e "u" then
              match r with
              | String h1 (String h2 (String h3 (String h4 r))) =>
                  match hex4_value h1 h2 h3 h4 with
                  | None => None
                  | Some n =>
                      if (55296 <=? n)%N && (n <=? 56319)%N then
                        match r with
                        | String b (String u (String g1 (String g2 (String g3 (String g4 r))))) =>
                            match hex4_value g1 g2 g3 g4 with
                            | Some m =>
                                if Ascii.eqb b backslash && Ascii.eqb u "u" && (56320 <=? m)%N && (m <=? 57343)%N
                                then put_text (utf8_text (65536 + (n - 55296) * 1024 + (m - 56320))) (read_chars r)
                                else None
                            | None => None
                            end
                        | _ => None
                        end
                      else if (56320 <=? n)%N && (n <=? 57343)%N then None
                      else put_text (utf8_text n) (read_chars r)
                  end
              | _ => None
              end
            else match simple_escape e with Some t => put_text t (read_chars r) | None => None end
        end
      else if is_control c then None
      else put_text (String c "") (read_chars r)
  end.

Fixpoint read_value (fuel : nat) (s : string) {struct fuel} : option (json * string) :=
  match fuel with
  | O => None
  | S f =>
      let s := skip_white s in
      match s with
      | EmptyString => None
      | String c r =>
          if Ascii.eqb c quote_char then
            match read_chars r with Some (body, rest) => Some (JStr body, rest) | None => None end
          else if Ascii.eqb c "[" then
            if starts_with_char "]" (skip_white r) then Some (JArr [], drop_chars 1 (skip_white r))
            else match read_elems f r with Some (l, rest) => Some (JArr l, rest) | None => None end
          else if Ascii.eqb c "{" then
            if starts_with_char "}" (skip_white r) then Some (JObj [], drop_chars 1 (skip_white r))
            else match read_fields f r with Some (l, rest) => Some (JObj l, rest) | None => None end
          else if String.prefix "null" s then Some (JNull, drop_chars 4 s)
          else if String.prefix "true" s then Some (JBool true, drop_chars 4 s)
          else if String.prefix "false" s then Some (JBool false, drop_chars 5 s)
          else parse_int s
      end
  end
with read_elems (fuel : nat) (s : string) {struct fuel} : option (list json * string) :=
  match fuel with
  | O => None
  | S f =>
      match read_value f s with
      | Some (v, rest) =>
          match skip_white rest with
          | String c r =>
              if Ascii.eqb c "," then
                match read_elems f r with Some (l, rest) => Some (v :: l, rest) | None => None end
              else if Ascii.eqb c "]" then Some ([v], r) else None
          | EmptyString => None
          end
      | None => None
      end
  end
with read_fields (fuel : nat) (s : string) {struct fuel} : option (list (string * json) * string) :=
  match fuel with
  | O => None
  | S f =>
      match skip_white s with
      | String q r0 =>
          if Ascii.eqb q quote_char then
            match read_chars r0 with
            | Some (k, r1) =>
                match skip_white r1 with
                | String colon r2 =>
                    if Ascii.eqb colon ":" then
                      match read_value f r2 with
                      | Some (v, rest) =>
                          match skip_white rest with
                          | String c r =>
                              if Ascii.eqb c "," then
                                match read_fields f r with Some (l, rest) => Some ((k, v) :: l, rest) | None => None end
                              else if Ascii.eqb c "}" then Some ([(k, v)], r) else None
                          | EmptyString => None
                          end
                      | None => None
                      end
                    else None
                | EmptyString => None
                end
            | None => None
            end
          else None
      | EmptyString => None
      end
  end.

(** [json.loads]: one value with white space around it. *)
Definition durable_loads (s : string) : option json :=
  match read_value (S (String.length s)) s with
  | Some (v, rest) => if nonempty (skip_white rest) then None else Some v
  | None => None
  end.

Example durable_sample :
  durable_json_bytes (JObj [("b", JArr [JInt 1; JObj []]); ("a", JStr "x")]) =
  let nl := String (ascii_of_nat 10) "" in let q := String quote_char "" in
  "{" +:+ nl +:+ "  " +:+ q +:+ "a" +:+ q +:+ ": " +:+ q +:+ "x" +:+ q +:+ "," +:+ nl +:+
  "  " +:+ q +:+ "b" +:+ q +:+ ": [" +:+ nl +:+ "    1," +:+ nl +:+ "    {}" +:+ nl +:+ "  ]" +:+ nl +:+ "}" +:+ nl.
Proof. reflexivity. Qed.

(** ** The round trip *)

Definition scalar (cp : N) : Prop := (cp < 55296 \/ 57343 < cp)%N /\ (cp < 1114112)%N.

Definition texts (cps : list N) : string := foldr (fun cp t => utf8_text cp +:+ t) "" cps.

Lemma in_range_spec lo hi c : in_range lo hi c = true <-> (lo <= N_of_ascii c <= hi)%N.
Proof. unfold in_range. rewrite andb_true_iff, !N.leb_le. done. Qed.

Lemma in_range_false lo hi c : in_range lo hi c = false <-> ~ (lo <= N_of_ascii c <= hi)%N.
Proof. rewrite <- in_range_spec. by destruct (in_range lo hi c). Qed.

Lemma char_of_byte a n : n = N_of_ascii a -> byte_char n = a.
Proof. intros ->. apply ascii_N_embedding. Qed.

Ltac ranges := repeat
  match goal with
  | H : in_range _ _ _ = true |- _ => apply in_range_spec in H
  | H : in_range _ _ _ = false |- _ => apply in_range_false in H
  | H : _ && _ = true |- _ => apply andb_true_iff in H as [? ?]
  | H : (if in_range ?a ?b ?c then _ else _) = true |- _ => destruct (in_range a b c) eqn:?
  end.

Ltac div_lia := Z.to_euclidean_division_equations; lia.

Ltac compare_N :=
  repeat match goal with |- context [(?a <? ?b)%N] => destruct (N.ltb_spec a b); try lia end.

Lemma utf8_two a b : (194 <= N_of_ascii a <= 223)%N -> (128 <= N_of_ascii b <= 191)%N ->
  let cp := (N_of_ascii a * 64 + N_of_ascii b - (192 * 64 + 128))%N in
  scalar cp /\ utf8_text cp = String a (String b "").
Proof.
  intros Ha Hb cp. assert (128 <= cp < 2048)%N by (subst cp; lia). split; [unfold scalar; lia|].
  unfold utf8_text. compare_N. rewrite (char_of_byte a), (char_of_byte b); [done|subst cp; zify; div_lia ..].
Qed.

Lemma utf8_three a b c : (224 <= N_of_ascii a <= 239)%N ->
  (if in_range 224 224 a then in_range 160 191 b
   else if in_range 237 237 a then in_range 128 159 b else in_range 128 191 b) = true ->
  (128 <= N_of_ascii c <= 191)%N ->
  let cp := ((N_of_ascii a * 64 + N_of_ascii b) * 64 + N_of_ascii c - (224 * 4096 + 128 * 64 + 128))%N in
  scalar cp /\ utf8_text cp = String a (String b (String c "")).
Proof.
  intros Ha Hb Hc cp. assert (128 <= N_of_ascii b <= 191)%N by (ranges; lia).
  assert (2048 <= cp < 65536)%N by (subst cp; ranges; lia).
  assert (cp < 55296 \/ 57343 < cp)%N by (subst cp; ranges; lia). split; [unfold scalar; lia|].
  unfold utf8_text. compare_N.
  rewrite (char_of_byte a), (char_of_byte b), (char_of_byte c); [done|subst cp; zify; div_lia ..].
Qed.

Lemma utf8_four a b c d : (240 <= N_of_ascii a <= 244)%N ->
  (if in_range 240 240 a then in_range 144 191 b
   else if in_range 244 244 a then in_range 128 143 b else in_range 128 191 b) = true ->
  (128 <= N_of_ascii c <= 191)%N -> (128 <= N_of_ascii d <= 191)%N ->
  let cp := (((N_of_ascii a * 64 + N_of_ascii b) * 64 + N_of_ascii c) * 64 + N_of_ascii d -
             (240 * 262144 + 128 * 4096 + 128 * 64 + 128))%N in
  scalar cp /\ utf8_text cp = String a (String b (String c (String d ""))).
Proof.
  intros Ha Hb Hc Hd cp. assert (128 <= N_of_ascii b <= 191)%N by (ranges; lia).
  assert (65536 <= cp < 1114112)%N by (subst cp; ranges; lia). split; [unfold scalar; lia|].
  unfold utf8_text. compare_N.
  rewrite (char_of_byte a), (char_of_byte b), (char_of_byte c), (char_of_byte d); [done|subst cp; zify; div_lia ..].
Qed.

Lemma code_points_texts s : utf8_valid s = true -> Forall scalar (code_points s) /\ texts (code_points s) = s.
Proof.
  remember (String.length s) as n eqn:En. assert (String.length s <= n)%nat as Hn by lia. clear En. revert s Hn.
  induction n as [|n IH]; intros [|a r] Hn Hv; simpl in Hn; try lia; try by split.
  cbn [utf8_valid code_points] in *. destruct (in_range 0 127 a) eqn:Ea.
  { destruct (IH r ltac:(lia) Hv) as [Hs Ht]. apply in_range_spec in Ea. split; [constructor; [unfold scalar; lia|done]|].
    cbn [texts foldr]. unfold texts in Ht. rewrite Ht. unfold utf8_text. compare_N. by rewrite (char_of_byte a). }
  destruct r as [|b r]; [done|]. destruct (in_range 194 223 a) eqn:Ea2.
  { apply andb_true_iff in Hv as [Hb Hv]. destruct (IH r ltac:(simpl in *; lia) Hv) as [Hs Ht].
    destruct (utf8_two a b) as [H1 H2]; [by apply in_range_spec ..|]. split; [by constructor|].
    cbn [texts foldr]. unfold texts in Ht. rewrite Ht, H2. done. }
  destruct r as [|c r]; [done|]. destruct (in_range 224 239 a) eqn:Ea3.
  { apply andb_true_iff in Hv as [Hv' Hv]. apply andb_true_iff in Hv' as [Hb Hc].
    destruct (IH r ltac:(simpl in *; lia) Hv) as [Hs Ht].
    destruct (utf8_three a b c) as [H1 H2]; [by apply in_range_spec|done|by apply in_range_spec|]. split; [by constructor|].
    cbn [texts foldr]. unfold texts in Ht. rewrite Ht, H2. done. }
  destruct r as [|d r]; [done|]. do 4 (apply andb_true_iff in Hv as [Hv ?]).
  destruct (IH r ltac:(simpl in *; lia) ltac:(done)) as [Hs Ht].
  destruct (utf8_four a b c d) as [H1' H2']; [by apply in_range_spec|done|by apply in_range_spec|by apply in_range_spec|].
  split; [by constructor|]. cbn [texts foldr]. unfold texts in Ht. rewrite Ht, H2'. done.
Qed.

(** *** Characters *)

Lemma hex_digit_any n : (n < 16)%N -> hex_any (hex_digit n) = Some n.
Proof.
  intros H. assert (In n (map N.of_nat (seq 0 16))) as Hi.
  { apply in_map_iff. exists (N.to_nat n). rewrite N2Nat.id, in_seq. lia. }
  simpl in Hi. repeat (destruct Hi as [<-|Hi]; [reflexivity|]). destruct Hi.
Qed.

Lemma hex4_read n : (n < 65536)%N ->
  hex4_value (hex_digit (n / 4096)) (hex_digit (n / 256 mod 16)) (hex_digit (n / 16 mod 16)) (hex_digit (n mod 16)) = Some n.
Proof.
  intros H. unfold hex4_value. rewrite !hex_digit_any by (zify; div_lia). f_equal. zify. div_lia.
Qed.

Lemma read_basic n rest : (n < 65536)%N -> (n < 55296 \/ 57343 < n)%N ->
  read_chars (u_escape n +:+ rest) = put_text (utf8_text n) (read_chars rest).
Proof.
  intros Hn Hs. unfold u_escape, hex4. rewrite !app_cons, app_empty. cbn [read_chars].
  change (Ascii.eqb backslash quote_char) with false. change (Ascii.eqb backslash backslash) with true.
  change (Ascii.eqb "u" "u") with true. cbv iota. rewrite hex4_read by done.
  destruct (N.leb_spec 55296 n), (N.leb_spec n 56319), (N.leb_spec 56320 n), (N.leb_spec n 57343); try lia; reflexivity.
Qed.

Lemma read_pair n m rest : (55296 <= n <= 56319)%N -> (56320 <= m <= 57343)%N ->
  read_chars (u_escape n +:+ u_escape m +:+ rest) =
  put_text (utf8_text (65536 + (n - 55296) * 1024 + (m - 56320))) (read_chars rest).
Proof.
  intros Hn Hm. unfold u_escape, hex4. rewrite !app_cons, !app_empty. cbn [read_chars].
  change (Ascii.eqb backslash quote_char) with false. change (Ascii.eqb backslash backslash) with true.
  change (Ascii.eqb "u" "u") with true. cbv iota. rewrite !hex4_read by lia.
  destruct (N.leb_spec 55296 n), (N.leb_spec n 56319), (N.leb_spec 56320 m), (N.leb_spec m 57343); try lia; reflexivity.
Qed.

Lemma read_escape cp rest : scalar cp -> read_chars (ascii_escape cp +:+ rest) = put_text (utf8_text cp) (read_chars rest).
Proof.
  intros [Hs Hm]. destruct (N.lt_ge_cases cp 128) as [Hlow|Hhigh].
  - rewrite <- (N_ascii_embedding cp) by lia. set (c := ascii_of_N cp).
    assert (in_range 0 127 c = true) as Hc by (apply in_range_spec; subst c; rewrite N_ascii_embedding; lia).
    clearbody c. clear cp Hs Hm Hlow. destruct c as [[] [] [] [] [] [] [] []]; try discriminate Hc; reflexivity.
  - unfold ascii_escape.
    repeat match goal with |- context [(cp =? ?k)%N] => destruct (N.eqb_spec cp k); [lia|] end. simpl orb. cbv iota.
    destruct (N.leb_spec cp 126); [lia|]. rewrite andb_false_r. destruct (N.ltb_spec cp 65536).
    + by apply read_basic.
    + rewrite str_app_assoc, read_pair by (zify; div_lia). do 2 f_equal. zify. div_lia.
Qed.

Lemma put_text_empty r : put_text "" r = r.
Proof. by destruct r as [[]|]. Qed.

Lemma put_text_app a b r : put_text (a +:+ b) r = put_text a (put_text b r).
Proof. destruct r as [[]|]; simpl; by rewrite ?str_app_assoc. Qed.

Lemma read_escaped cps rest : Forall scalar cps ->
  read_chars (escaped_text cps +:+ rest) = put_text (texts cps) (read_chars rest).
Proof.
  induction 1 as [|cp cps Hc Hcs IH]; [simpl; by rewrite put_text_empty|].
  change (escaped_text (cp :: cps)) with (ascii_escape cp +:+ escaped_text cps).
  change (texts (cp :: cps)) with (utf8_text cp +:+ texts cps).
  by rewrite str_app_assoc, read_escape, IH, put_text_app.
Qed.

Lemma read_quoted s rest : utf8_valid s = true ->
  read_chars (escaped_text (code_points s) +:+ String quote_char rest) = Some (s, rest).
Proof.
  intros Hs. destruct (code_points_texts s Hs) as [Hc Ht]. rewrite read_escaped, Ht by done.
  change (read_chars (String quote_char rest)) with (Some ("", rest)). simpl. by rewrite str_app_nil_r.
Qed.

(** *** White space *)

Lemma skip_spaces n rest : skip_white (spaces n +:+ rest) = skip_white rest.
Proof. induction n as [|n IH]; [done|]. exact IH. Qed.

Lemma skip_newline n rest : skip_white (newline n +:+ rest) = skip_white rest.
Proof. unfold newline. rewrite app_cons. exact (skip_spaces _ rest). Qed.

(** A value is read after white space as without. *)
Lemma read_value_skip fuel s : read_value fuel (skip_white s) = read_value fuel s.
Proof.
  assert (skip_white (skip_white s) = skip_white s) as Hs.
  { induction s as [|c s IH]; [done|]. simpl. destruct (is_white c) eqn:E; [done|]. simpl. by rewrite E. }
  destruct fuel; [done|]. cbn [read_value]. by rewrite Hs.
Qed.

Lemma read_newline fuel n s : read_value fuel (newline n +:+ s) = read_value fuel s.
Proof. rewrite <- read_value_skip, skip_newline. apply read_value_skip. Qed.

(** *** Values *)

(** Every text of the value is UTF-8. *)
Fixpoint utf8_json (j : json) : bool :=
  match j with
  | JStr s => utf8_valid s
  | JArr l => forallb utf8_json l
  | JObj kvs => forallb (fun kv => utf8_valid kv.1 && utf8_json kv.2) kvs
  | _ => true
  end.

Lemma pretty_head level v : exists c r, pretty level v = String c r /\ is_white c = false /\ c <> "]"%char /\ c <> "}"%char.
Proof.
  destruct v as [|[]|z|s|[|v l]|[|kv kvs]]; cbn [pretty dumps]; unfold ascii_quoted; rewrite ?app_cons; try by eauto 8.
  destruct (dec_string_head z) as (c & r & -> & H). exists c, r. pose proof (head_digit_char c H) as Hh.
  repeat split; try apply Hh. unfold is_white.
  destruct H as [->|H]; [done|]. destruct c as [[] [] [] [] [] [] [] []]; try discriminate H; reflexivity.
Qed.

Definition reads_pretty (v : json) : Prop :=
  forall fuel level rest, (jsize v <= fuel)%nat -> ends_number rest ->
    read_value fuel (pretty level v +:+ rest) = Some (v, rest).

Definition pretty_field (level : nat) (kv : string * json) : string := ascii_quoted kv.1 +:+ ": " +:+ pretty level kv.2.

Lemma join_cons sep x y l : str_join sep (x :: y :: l) = x +:+ sep +:+ str_join sep (y :: l).
Proof. done. Qed.

Lemma ends_newline n rest : ends_number (newline n +:+ rest).
Proof. done. Qed.

Lemma read_elems_pretty l fuel level outer rest :
  l <> [] -> Forall reads_pretty l -> (list_sum (map (fun v => S (jsize v)) l) <= fuel)%nat ->
  read_elems fuel (newline level +:+ str_join ("," +:+ newline level) (map (pretty level) l) +:+ newline outer +:+
    String "]" rest) = Some (l, rest).
Proof.
  intros Hne Hl. revert fuel Hne. induction Hl as [|v l Hv Hl IH]; intros fuel Hne Hf; [done|].
  destruct fuel as [|fuel]; [simpl in Hf; lia|]. cbn [read_elems]. rewrite read_newline. destruct l as [|v2 l].
  - cbn [map str_join]. rewrite Hv by (simpl in *; lia || done). by rewrite skip_newline.
  - cbn [map]. rewrite join_cons, !str_app_assoc, Hv by (simpl in *; lia || done).
    change ("," +:+ newline level +:+ ?x) with (String "," (newline level +:+ x)). cbn [skip_white is_white].
    change (is_white ",") with false. cbv iota. change (Ascii.eqb "," ",") with true. cbv iota.
    cbn [map] in IH. rewrite IH; [done|done|]. simpl in *. lia.
Qed.

Lemma read_field fuel level k v tail : utf8_valid k = true ->
  read_fields (S fuel) (newline level +:+ pretty_field level (k, v) +:+ tail) =
  match read_value fuel (pretty level v +:+ tail) with
  | Some (v', rest) =>
      match skip_white rest with
      | String c r =>
          if Ascii.eqb c "," then
            match read_fields fuel r with Some (l, rest) => Some ((k, v') :: l, rest) | None => None end
          else if Ascii.eqb c "}" then Some ([(k, v')], r) else None
      | EmptyString => None
      end
  | None => None
  end.
Proof.
  intros Hk. cbn [read_fields]. rewrite skip_newline. unfold pretty_field, ascii_quoted. cbn [fst snd].
  rewrite !str_app_assoc, !app_cons. change (skip_white (String quote_char ?x)) with (String quote_char x). cbv iota.
  change (Ascii.eqb quote_char quote_char) with true. cbv iota. rewrite str_app_assoc, app_cons, read_quoted by done.
  rewrite !app_empty. change (skip_white (String ":" ?x)) with (String ":" x). cbv iota.
  change (Ascii.eqb ":" ":") with true. cbv iota.
  by rewrite <- (read_value_skip fuel (String " " _)), <- (read_value_skip fuel (pretty level v +:+ tail)).
Qed.

Lemma read_fields_pretty l fuel level outer rest :
  l <> [] -> Forall (fun kv => utf8_valid kv.1 = true /\ reads_pretty kv.2) l ->
  (list_sum (map (fun kv => S (jsize kv.2)) l) <= fuel)%nat ->
  read_fields fuel (newline level +:+ str_join ("," +:+ newline level) (map (pretty_field level) l) +:+ newline outer +:+
    String "}" rest) = Some (l, rest).
Proof.
  intros Hne Hl. revert fuel Hne. induction Hl as [|[k v] l [Hk Hv] Hl IH]; intros fuel Hne Hf; [done|]. simpl in Hk, Hv.
  destruct fuel as [|fuel]; [simpl in Hf; lia|]. destruct l as [|kv2 l].
  - cbn [map str_join]. rewrite read_field, Hv by (simpl in *; lia || done). by rewrite skip_newline.
  - cbn [map]. rewrite join_cons, !str_app_assoc, read_field, Hv by (simpl in *; lia || done).
    change ("," +:+ newline level +:+ ?x) with (String "," (newline level +:+ x)). cbn [skip_white].
    change (is_white ",") with false. cbv iota. change (Ascii.eqb "," ",") with true. cbv iota.
    cbn [map] in IH. rewrite IH; [done|done|]. simpl in *. lia.
Qed.

Lemma starts_elem level v l tail :
  starts_with_char "]" (skip_white (newline level +:+ str_join ("," +:+ newline level) (map (pretty level) (v :: l)) +:+ tail))
  = false.
Proof.
  rewrite skip_newline. cbn [map]. destruct (join_head ("," +:+ newline level) (pretty level v) (map (pretty level) l)) as [t ->].
  destruct (pretty_head level v) as (c & r & -> & Hw & Hc & _). rewrite !app_cons. simpl. rewrite Hw. simpl.
  destruct (Ascii.eqb "]" c) eqn:E; [|done]. apply Ascii.eqb_eq in E. by subst.
Qed.

Lemma read_head fuel c r : is_white c = false ->
  read_value (S fuel) (String c r) =
  (if Ascii.eqb c quote_char then
     match read_chars r with Some (body, rest) => Some (JStr body, rest) | None => None end
   else if Ascii.eqb c "[" then
     if starts_with_char "]" (skip_white r) then Some (JArr [], drop_chars 1 (skip_white r))
     else match read_elems fuel r with Some (l, rest) => Some (JArr l, rest) | None => None end
   else if Ascii.eqb c "{" then
     if starts_with_char "}" (skip_white r) then Some (JObj [], drop_chars 1 (skip_white r))
     else match read_fields fuel r with Some (l, rest) => Some (JObj l, rest) | None => None end
   else if String.prefix "null" (String c r) then Some (JNull, drop_chars 4 (String c r))
   else if String.prefix "true" (String c r) then Some (JBool true, drop_chars 4 (String c r))
   else if String.prefix "false" (String c r) then Some (JBool false, drop_chars 5 (String c r))
   else parse_int (String c r)).
Proof. intros Hc. cbn [read_value skip_white]. by rewrite Hc. Qed.

Lemma pretty_reads v : utf8_json v = true -> reads_pretty v.
Proof.
  induction v as [|b|z|s|l IH|kvs IH] using json_ind; intros Hu [|fuel] level rest Hf Hr; try (simpl in Hf; lia).
  - destruct rest; done.
  - destruct b; destruct rest; done.
  - cbn [pretty dumps]. destruct (pretty_head level (JInt z)) as (c & r & E & Hw & _). cbn [pretty dumps] in E.
    destruct (dec_string_head z) as (c' & r' & E' & Hc). rewrite E' in E. injection E as -> ->.
    pose proof (head_digit_char c Hc) as (H1 & H2 & H3 & H4 & H5 & H6 & _).
    pose proof (parse_int_dec z rest Hr) as Hp. rewrite E', app_cons in *.
    rewrite read_head, H1, H2, H3, !prefix_head_ne by congruence. exact Hp.
  - cbn [pretty]. unfold ascii_quoted. rewrite app_cons, read_head by done.
    change (Ascii.eqb quote_char quote_char) with true. cbv iota. rewrite str_app_assoc, app_cons, app_empty.
    by rewrite read_quoted.
  - destruct l as [|v l]; [done|]. cbn [pretty]. rewrite !str_app_assoc, app_cons, app_empty.
    change ("]" +:+ rest) with (String "]" rest). rewrite read_head by done.
    change (Ascii.eqb "[" quote_char) with false. change (Ascii.eqb "[" "[") with true. cbv iota.
    rewrite starts_elem, read_elems_pretty; [done|done| |simpl in *; lia].
    cbn [utf8_json] in Hu. rewrite forallb_forall in Hu. rewrite List.Forall_forall in *. auto.
  - destruct kvs as [|kv kvs]; [done|]. cbn [pretty]. rewrite !str_app_assoc, app_cons, app_empty.
    change ("}" +:+ rest) with (String "}" rest). rewrite read_head by done.
    change (Ascii.eqb "{" quote_char) with false. change (Ascii.eqb "{" "[") with false.
    change (Ascii.eqb "{" "{") with true. cbv iota.
    change (map (fun kv : string * json => ascii_quoted kv.1 +:+ ": " +:+ pretty (S level) kv.2)) with
      (map (pretty_field (S level))).
    rewrite skip_newline. cbn [map]. 
    destruct (join_head ("," +:+ newline (S level)) (pretty_field (S level) kv) (map (pretty_field (S level)) kvs)) as [t Ht].
    assert (forall tail, starts_with_char "}" (skip_white (str_join ("," +:+ newline (S level))
      (map (pretty_field (S level)) (kv :: kvs)) +:+ tail)) = false) as Hs by (intros tail; cbn [map]; by rewrite Ht).
    change (pretty_field (S level) kv :: map (pretty_field (S level)) kvs) with (map (pretty_field (S level)) (kv :: kvs)).
    rewrite Hs, read_fields_pretty; [done|done| |simpl in *; lia].
    cbn [utf8_json] in Hu. rewrite forallb_forall in Hu. rewrite List.Forall_forall in *. intros x Hx.
    specialize (Hu x Hx). apply andb_true_iff in Hu as [Hk Hu]. auto.
Qed.

Lemma join_length_ge (sep : string) l : (1 <= String.length sep)%nat ->
  (list_sum (map (fun x => S (String.length x)) l) <= S (String.length (str_join sep l)))%nat.
Proof.
  intros Hs. induction l as [|x l IH]; [simpl; lia|]. destruct l as [|y l]; [simpl; lia|].
  rewrite join_cons, !str_length_app. cbn [map list_sum foldr] in *. unfold list_sum in *. simpl foldr in *. lia.
Qed.

Lemma newline_length level : (1 <= String.length (newline level))%nat.
Proof. simpl. lia. Qed.

Lemma jsize_pretty v level : (jsize v <= String.length (pretty level v))%nat.
Proof.
  revert level. induction v as [|b|z|s|l IH|kvs IH] using json_ind; intros level; cbn [jsize pretty].
  - apply (jsize_length JNull).
  - apply (jsize_length (JBool b)).
  - apply (jsize_length (JInt z)).
  - unfold ascii_quoted. simpl. lia.
  - destruct l as [|v l]; [simpl; lia|]. rewrite !str_length_app. pose proof (newline_length (S level)).
    pose proof (join_length_ge ("," +:+ newline (S level)) (map (pretty (S level)) (v :: l)) ltac:(simpl; lia)) as Hj.
    rewrite map_map in Hj. assert (Forall (fun x => S (jsize x) <= S (String.length (pretty (S level) x)))%nat (v :: l)) as Hl.
    { eapply List.Forall_impl; [|apply IH]. simpl. intros a Ha. specialize (Ha (S level)). lia. }
    apply list_sum_le in Hl. simpl String.length in *. lia.
  - destruct kvs as [|kv kvs]; [simpl; lia|]. rewrite !str_length_app. pose proof (newline_length (S level)).
    change (map (fun kv : string * json => ascii_quoted kv.1 +:+ ": " +:+ pretty (S level) kv.2)) with
      (map (pretty_field (S level))).
    pose proof (join_length_ge ("," +:+ newline (S level)) (map (pretty_field (S level)) (kv :: kvs)) ltac:(simpl; lia)) as Hj.
    rewrite map_map in Hj.
    assert (Forall (fun x => S (jsize x.2) <= S (String.length (pretty_field (S level) x)))%nat (kv :: kvs)) as Hl.
    { eapply List.Forall_impl; [|apply IH]. simpl. intros a Ha. specialize (Ha (S level)). unfold pretty_field.
      rewrite !str_length_app. lia. }
    apply list_sum_le in Hl. simpl String.length in *. lia.
Qed.

Lemma forallb_sort {A} (p : string * A -> bool) l : forallb p (sort key_leb l) = forallb p l.
Proof.
  induction l as [|x l IH]; [done|]. simpl. rewrite <- IH. generalize (sort key_leb l) as r. clear.
  induction r as [|y r IH]; [done|]. simpl. destruct (key_leb x y); [done|]. simpl. rewrite IH.
  destruct (p x), (p y); done.
Qed.

Lemma forallb_map {A B} (p : B -> bool) (f : A -> B) l : forallb p (map f l) = forallb (fun x => p (f x)) l.
Proof. induction l as [|x l IH]; [done|]. simpl. by rewrite IH. Qed.

Lemma utf8_jnorm v : utf8_json (jnorm v) = utf8_json v.
Proof.
  induction v as [|b|z|s|l IH|kvs IH] using json_ind; try done; simpl.
  - rewrite forallb_map. induction IH as [|x l Hx _ IHl]; [done|]. simpl. by rewrite Hx, IHl.
  - rewrite forallb_sort, forallb_map. simpl. induction IH as [|x l Hx _ IHl]; [done|]. simpl. by rewrite Hx, IHl.
Qed.

(** A durable file is read back as the value that was written, with its keys
    in order. *)
Theorem durable_loads_bytes value : utf8_json value = true ->
  durable_loads (durable_json_bytes value) = Some (json_column value).
Proof.
  intros Hu. unfold durable_loads, durable_json_bytes. rewrite pretty_reads; [done|by rewrite utf8_jnorm| |done].
  rewrite str_length_app. pose proof (jsize_pretty (jnorm value) 0). simpl. lia.
Qed.
