(* ===== verification/Continuations.v ===== *)
(** * Task inputs, snapshot references and continuations

    What a task may consume in [runtime_protocol/store.py]: authorised input
    objects ([_validate_task_inputs]), pinned timeline snapshots
    ([_validate_spec_snapshot_refs], [snapshot_refs.working_copy_binding]), and
    the two-predecessor continuation whose inputs are the ordered outputs of
    its predecessors ([_continuation_predecessors] ... [_admit_continuation],
    [_refresh_continuations_for_predecessor]). *)

From Stdlib Require Import ZArith String Ascii List Bool Lia.
From stdpp Require Import base list strings.
From S2P Require Import Prelude Json Errors Facts Sha256 Store Idempotency Ledger Bindings.
From S2P Require Import Executors.

Open Scope Z_scope.

(** [d[k] if isinstance(d[k], dict) else {}] *)
Definition dict_at (j : json) (k : string) : json :=
  if is_dict (jget j k) then jget j k else JObj [].

Definition is_sha256_json (j : json) : bool :=
  match j with JStr s => is_sha256_id s | _ => false end.

(** [snapshot_refs.working_copy_binding] *)
Definition working_copy_binding (snapshot revision_id : json) : option json :=
  let value := jget (dict_at snapshot "metadata") "working_copy" in
  if negb (is_dict value) || negb (py_eq (jget value "candidate_parent_revision_id") revision_id)
  then None else
  let candidate := jget value "candidate_digest" in
  let publication := jget value "publication_digest" in
  let base := jget value "base_parent" in
  if negb (is_sha256_json candidate) || negb (is_sha256_json publication) || negb (is_dict base) ||
     negb (is_str (jget base "revision_id")) || negb (is_sha256_json (jget base "content_digest"))
  then None
  else Some (JObj [("candidate_digest", candidate); ("publication_digest", publication);
                   ("base_revision_id", jget base "revision_id");
                   ("base_revision_digest", jget base "content_digest")]).

(** [_validate_task_inputs]: the syntactic half of the loop. *)
Definition normalize_input (acc : nat * list string) (object_id : json) : res (nat * list string) :=
  let '(index, normalized) := acc in
  match object_id with
  | JStr text =>
      match object_id_digest text with
      | None => raise_with ValidationError "input_object_ids must contain sha256 object IDs" (index_details index)
      | Some digest =>
          raise_if_with (str_in digest normalized) ValidationError "input_object_ids must be unique"
            (JObj [("index", JInt (Z.of_nat index)); ("object_id", object_id)]);;
          Ok (S index, normalized ++ [digest])
      end
  | _ => raise_with ValidationError "input_object_ids must contain strings" (index_details index)
  end.

(** [_continuation_predecessors] *)
Definition dependency_edge (acc : list string) (edge : json) : res (list string) :=
  raise_if (negb (is_dict edge)) ValidationError "runtime dependency edges must be objects";;
  match jget edge "from_task_id" with
  | JStr predecessor =>
      raise_if (negb (nonempty predecessor)) ValidationError "runtime dependency edge requires from_task_id";;
      raise_if (negb (is_json_str "self" (jget edge "to")) ||
                negb (is_json_str "task.succeeded" (jget edge "requires_event")) ||
                negb (is_json_str "runtime_task" (jget edge "fence")))
        ValidationError "runtime dependency edge must require fenced task.succeeded for self";;
      Ok (acc ++ [predecessor])
  | _ => raise ValidationError "runtime dependency edge requires from_task_id"
  end.

Definition continuation_predecessors (spec : json) : res (list string) :=
  let public_spec := jget spec "spec" in
  let dependencies := jget public_spec "runtime_dependencies" in
  if is_null dependencies then Ok [] else
  raise_if (negb (is_dict dependencies)) ValidationError "runtime_dependencies must be an object";;
  match jget dependencies "edges" with
  | JArr edges =>
      raise_if (negb (Nat.eqb (length edges) 2)) ValidationError
        "runtime continuation requires exactly two ordered dependency edges";;
      let aggregation := jget dependencies "aggregation" in
      raise_if (negb (is_dict aggregation) || negb (is_json_str "ordered_cas_inputs" (jget aggregation "kind")))
        ValidationError "runtime continuation requires ordered_cas_inputs aggregation";;
      raise_if (truthy (jget spec "input_object_ids")) ValidationError
        "runtime continuation inputs are derived from predecessor outputs";;
      predecessors ← foldM dependency_edge [] edges;
      raise_if (has_dup predecessors) ValidationError
        "runtime continuation predecessor task ids must be unique";;
      Ok predecessors
  | _ => raise ValidationError "runtime continuation requires exactly two ordered dependency edges"
  end.

(** One output of a predecessor: the validated output and its object id. *)
Definition child_output (task_id : string) (output : json) : res string :=
  match output, jget output "digest" with
  | JObj _, JStr digest =>
      match object_id_digest digest with
      | Some _ => Ok digest
      | None => raise_with ValidationError "runtime continuation predecessor output is invalid"
                  (details1 "task_id" (JStr task_id))
      end
  | _, _ => raise_with ValidationError "runtime continuation predecessor output is invalid"
              (details1 "task_id" (JStr task_id))
  end.

(** A predecessor as [_continuation_rows] selects it. *)
Record continuation_row := ContinuationRow {
  cr_ordinal : Z; cr_task_id : string; cr_status : Status; cr_result_json : option json }.

(** [(resolved_children, ordered_inputs)] after one predecessor. *)
Definition resolve_child (acc : list json * list string) (row : continuation_row)
  : res (list json * list string) :=
  let '(children, inputs) := acc in
  let result := match cr_result_json row with Some r => r | None => JObj [] end in
  raise_if (negb (is_dict result)) AttributeError "object has no attribute 'get'";;
  match jget result "outputs" with
  | JArr outputs =>
      digests ← mapM_res (child_output (cr_task_id row)) outputs;
      Ok (children ++ [JObj [("task_id", JStr (cr_task_id row)); ("ordinal", JInt (cr_ordinal row));
                             ("outputs", JArr outputs)]],
          foldl (fun l d => if str_in d l then l else l ++ [d]) inputs digests)
  | _ => raise_with ValidationError "runtime continuation predecessor result has no outputs"
           (details1 "task_id" (JStr (cr_task_id row)))
  end.

Definition continuation_waiting_reason (rows : list continuation_row) : option string :=
  let statuses := map cr_status rows in
  if status_in Cancelled statuses then Some "dependency_cancelled"
  else if status_in Failed statuses then Some "dependency_failed"
  else if existsb (fun s => negb (bool_decide (s = Completed))) statuses
  then Some "waiting_for_dependencies"
  else None.

(** [spec["spec"]["runtime_dependencies"]["resolved_children"] = children] *)
Definition set_resolved_children (spec : json) (children : list json) : M json :=
  public ← jitem spec "spec";
  dependencies ← jitem public "runtime_dependencies";
  mret (jset spec "spec" (jset public "runtime_dependencies"
    (jset dependencies "resolved_children" (JArr children)))).

Section Continuations.
Context `{World}.

(** ** Input objects *)

Definition project_has_object (project_id digest : string) (t : tables) : bool :=
  existsb (fun o => String.eqb (o_digest o) digest) (objects t) &&
  existsb (fun p => String.eqb (po_project_id p) project_id && String.eqb (po_digest p) digest)
    (project_objects t).

Definition check_input_association (project_id : string) (entry : json * string) : M unit :=
  let '(object_id, digest) := entry in
  associated ← gets (project_has_object project_id digest);
  guard_raise_with (negb associated) ConflictError
    "task input object is not associated with the task project"
    (JObj [("project_id", JStr project_id); ("object_id", object_id)]).

Definition validate_task_inputs (project_id : option string) (spec : json) : M unit :=
  guard_raise (negb (is_dict spec)) ValidationError "task spec must be an object";;
  (if jhas spec "storage_estimate" then
     guard_raise (is_null (jget spec "storage_estimate")) ValidationError "storage_estimate must be an object";;
     lift (validate_storage_estimate (jget spec "storage_estimate"));; mret tt
   else mret tt);;
  match jget_def spec "input_object_ids" (JArr []) with
  | JArr ids =>
      '(_, normalized) ← lift (foldM normalize_input (O, []) ids);
      match project_id with
      | None => guard_raise (negb (nil_or normalized)) ValidationError
                  "project is required when input_object_ids are supplied"
      | Some project => for_each (combine ids normalized) (check_input_association project)
      end
  | _ => raiseM ValidationError "input_object_ids must be a list"
  end.

(** ** Snapshot references *)

(** [self._cas_digest(bare) == bare], with the file errors caught. *)
Definition cas_intact (bare : string) : M bool :=
  n ← tick;
  mret (match stored_object n bare with Some bytes => String.eqb (sha256 bytes) bare | None => false end).

Definition spec_snapshot_refs (spec : json) : list json :=
  let inner := if is_dict (jget spec "spec") then jget spec "spec" else spec in
  let context := dict_at inner "authority_context" in
  List.filter is_dict
    ([jget inner "timeline_snapshot_ref"; jget (dict_at inner "inputs") "timeline_snapshot_ref"] ++
     map (jget context) ["filmstrip_snapshot_ref"; "input_snapshot_ref"; "capture_snapshot_ref"]).

Definition revision_digest_of (id project_id timeline_id : json) (t : tables) : option string :=
  match id, project_id, timeline_id with
  | JStr i, JStr p, JStr l =>
      match find (fun r => String.eqb (pr_id r) i && String.eqb (pr_project_id r) p &&
                           String.eqb (pr_timeline_id r) l) (parent_composition_revisions t) with
      | Some r => Some (pr_content_digest r)
      | None => None
      end
  | _, _, _ => None
  end.

Definition check_working_copy (ref : json) (project_id : option string) (bare : string) : M unit :=
  n ← tick;
  match stored_object n bare with
  | None => raiseM NotFoundError "object not found"
  | Some bytes =>
      guard_raise (negb (String.eqb (sha256 bytes) bare)) ConflictError "CAS object failed hash verification";;
      match json_loads bytes with
      | None => raiseM ValidationError "working-copy snapshot object is malformed"
      | Some snapshot =>
          let binding := if is_dict snapshot then working_copy_binding snapshot (jget ref "revision_id") else None in
          match binding with
          | None => raiseM ValidationError "working-copy snapshot binding differs from CAS content"
          | Some b =>
              guard_raise (negb (py_eq b (jget ref "working_copy")) ||
                           negb (py_eq (jget ref "revision_digest") (jget b "candidate_digest")))
                ValidationError "working-copy snapshot binding differs from CAS content";;
              base ← gets (revision_digest_of (jget b "base_revision_id") (opt_str project_id) (jget ref "timeline_id"));
              guard_raise (match base with
                           | Some d => negb (is_json_str d (jget b "base_revision_digest"))
                           | None => true
                           end) NotFoundError "working-copy base parent revision is missing or changed"
          end
      end
  end.

Definition validate_snapshot_ref (project_id : option string) (acc : list string) (ref : json)
  : M (list string) :=
  let owner := jget ref "project_id" in
  match jget ref "digest" with
  | JStr digest =>
      match object_id_digest digest with
      | None => raiseM ValidationError "timeline snapshot reference has an invalid digest or project"
      | Some bare =>
          guard_raise (negb (is_null owner) && negb (py_eq owner (opt_str project_id))) ValidationError
            "timeline snapshot reference has an invalid digest or project";;
          indexed ← gets (fun t => existsb (fun o => String.eqb (o_digest o) bare) (objects t));
          intact ← (if (indexed : bool) then cas_intact bare else mret false);
          guard_raise (negb intact) NotFoundError "timeline snapshot reference object is missing or corrupt";;
          inside ← gets (fun t => match project_id with
            | None => true
            | Some p => existsb (fun r => String.eqb (po_project_id r) p && String.eqb (po_digest r) bare &&
                                          String.eqb (po_relation r) "managed") (project_objects t)
            end);
          guard_raise (negb inside) ConflictError "timeline snapshot reference is outside the task project";;
          let revision_id := jget ref "revision_id" in
          let source_kind := py_or (jget ref "source_kind")
                               (JStr (if truthy revision_id then "revision" else "cas")) in
          (if is_json_str "working_copy" source_kind then check_working_copy ref project_id bare
           else
             known ← lift (in_set source_kind ["revision"; "cas"]);
             guard_raise (negb known) ValidationError "timeline snapshot reference source kind is invalid";;
             if is_null revision_id then mret tt else
             revision ← gets (revision_digest_of revision_id (opt_str project_id) (jget ref "timeline_id"));
             guard_raise (match revision with
                          | Some d => negb (is_json_str d (jget ref "revision_digest"))
                          | None => true
                          end) NotFoundError
               "timeline snapshot reference parent revision is missing or changed");;
          mret (acc ++ [digest])
      end
  | _ => raiseM ValidationError "timeline snapshot reference has an invalid digest or project"
  end.

Definition validate_spec_snapshot_refs (spec : json) (project_id : option string) : M (list string) :=
  foldS (validate_snapshot_ref project_id) [] (spec_snapshot_refs spec).

(** ** Continuations *)

Definition validate_continuation_predecessors (predecessors : list string) (project_id : option string)
  : M unit :=
  for_each predecessors (fun task_id =>
    row ← gets (fun t => match task_by_id task_id t with
                         | Some x => run_by_id (t_run_id x) t
                         | None => None
                         end);
    match row with
    | None => raiseM_with NotFoundError "runtime continuation predecessor task not found"
                (details1 "task_id" (JStr task_id))
    | Some run =>
        guard_raise_with (negb (opt_str_eqb (r_project_id run) project_id)) ConflictError
          "runtime continuation predecessor is outside the task project"
          (details1 "task_id" (JStr task_id))
    end).

Definition continuation_rows (task_id : string) (t : tables) : list continuation_row :=
  let deps := sort (fun a b => d_ordinal a <=? d_ordinal b)
    (List.filter (fun d => String.eqb (d_continuation_task_id d) task_id) (task_dependencies t)) in
  omap (fun d => match task_by_id (d_predecessor_task_id d) t with
                 | Some x => Some (ContinuationRow (d_ordinal d) (t_id x) (t_status x) (t_result_json x))
                 | None => None
                 end) deps.

Definition is_admitted (task_id : string) (t : tables) : bool :=
  existsb (fun a => String.eqb (ad_continuation_task_id a) task_id) (continuation_admissions t).

Definition admit_continuation (task_id : string) : M (option string) :=
  rows ← gets (continuation_rows task_id);
  if nil_or rows then mret None else
  task ← gets (task_by_id task_id);
  match task with
  | None => mret None
  | Some task =>
      if negb (bool_decide (t_status task = Queued)) then mret None else
      admitted ← gets (is_admitted task_id);
      if (admitted : bool) then mret None else
      match continuation_waiting_reason rows with
      | Some reason => set_waiting_reason task_id (Some reason);; mret None
      | None =>
          '(children, inputs) ← lift (foldM resolve_child ([], []) rows);
          spec ← spec_of task;
          spec ← set_resolved_children (jset spec "input_object_ids" (jstrs inputs)) children;
          run ← gets (run_by_id (t_run_id task));
          match run with
          | None => raiseM TypeError "'NoneType' object is not subscriptable"
          | Some run =>
              validate_task_inputs (r_project_id run) spec;;
              let snapshot := JObj [("children", JArr children); ("input_object_ids", jstrs inputs)] in
              timestamp ← now;
              modify (fun t => t {{ continuation_admissions := continuation_admissions t ++
                [Admission task_id (json_column snapshot) timestamp] }});;
              digest ← store_spec spec;
              update_tasks (fun x => is_task task_id x && bool_decide (t_status x = Queued))
                (fun x => x {{ t_spec_digest := Some digest; t_waiting_reason := None;
                               t_updated_at := timestamp }});;
              event ← append_event (t_run_id task) (Some task_id) "task.continuation_admitted" snapshot None;
              mret (Some event)
          end
      end
  end.

Definition refresh_continuation (acc : list string) (continuation : string) : M (list string) :=
  event ← admit_continuation continuation;
  let acc := match event with Some e => acc ++ [e] | None => acc end in
  admitted ← gets (is_admitted continuation);
  (if (admitted : bool) then mret tt else
   rows ← gets (continuation_rows continuation);
   set_waiting_reason continuation (continuation_waiting_reason rows));;
  mret acc.

Definition refresh_continuations_for_predecessor (predecessor_task_id : string) : M (list string) :=
  continuations ← gets (fun t => sort String.leb (map d_continuation_task_id
    (List.filter (fun d => String.eqb (d_predecessor_task_id d) predecessor_task_id) (task_dependencies t))));
  foldS refresh_continuation [] continuations.
End Continuations.
