(* ===== verification/Snapshots.v ===== *)
(** * Snapshot references

    [runtime_protocol/snapshot_refs.py]: an admitted spec keeps a digest and
    the provenance of each timeline snapshot, and the snapshot itself is
    published once in the content-addressed store.  The dicts the source
    mutates in place ([inner], [inputs] and [context] of the copied spec) are
    written back into the spec that contains them. *)

From Stdlib Require Import ZArith String Ascii List Bool Lia.
From stdpp Require Import base list strings.
From S2P Require Import Prelude Json Errors Facts Sha256 Store Idempotency Ledger Bindings.
From S2P Require Import Executors Continuations.

Open Scope Z_scope.

Definition SNAPSHOT_KEYS : list string := ["filmstrip_snapshot"; "input_snapshot"; "capture_snapshot"].

Definition snapshot_digest (snapshot : json) : string := "sha256:" +:+ sha256 (canonical_json snapshot).

Definition DEFAULT_MAX_OBJECT_BYTES : Z := 5 * 1024 ^ 3.

(** [result["spec"] if isinstance(result.get("spec"), dict) else result] and its
    mutation in place. *)
Definition inner_of (spec : json) : json := if is_dict (jget spec "spec") then jget spec "spec" else spec.
Definition with_inner (spec inner : json) : json :=
  if is_dict (jget spec "spec") then jset spec "spec" inner else inner.

(** The [inputs] dict of [inner]; a missing one is a fresh dict nobody keeps. *)
Definition with_inputs (inner inputs : json) : json :=
  if is_dict (jget inner "inputs") then jset inner "inputs" inputs else inner.

(** The authority context: the one of [inner], or else the one of the spec. *)
Definition context_of (spec : json) : option json :=
  let inner := inner_of spec in
  if is_dict (jget inner "authority_context") then Some (jget inner "authority_context")
  else if is_dict (jget spec "authority_context") then Some (jget spec "authority_context")
  else None.
Definition with_context (spec context : json) : json :=
  let inner := inner_of spec in
  if is_dict (jget inner "authority_context")
  then with_inner spec (jset inner "authority_context" context)
  else jset spec "authority_context" context.

Definition timeline_provenance (authority snapshot : json) : json :=
  JObj [("project_id", py_or (jget authority "project_id") (jget snapshot "project_id"));
        ("timeline_id", py_or (jget authority "timeline_id") (jget snapshot "timeline_id"));
        ("revision_id", jget authority "parent_revision_id");
        ("revision_digest", jget authority "parent_content_digest")].

Definition context_provenance (context snapshot : json) : json :=
  let metadata := dict_at snapshot "metadata" in
  let canonical := dict_at metadata "canonical_timeline" in
  let capture := dict_at metadata "capture_authority" in
  let revision_id := py_or (jget context "revision_id")
                       (py_or (jget canonical "parent_revision_id") (jget capture "parent_revision_id")) in
  let provenance := JObj
    [("project_id", py_or (jget context "project_id")
                      (py_or (jget canonical "project_id") (jget capture "project_id")));
     ("timeline_id", py_or (jget context "timeline_id")
                       (py_or (jget canonical "timeline_id") (jget capture "timeline_id")));
     ("revision_id", revision_id);
     ("revision_digest", py_or (jget canonical "parent_content_digest")
                           (jget capture "parent_content_digest"))] in
  match working_copy_binding snapshot revision_id with
  | None => provenance
  | Some working_copy =>
      jset (jset (jset provenance "source_kind" (JStr "working_copy"))
              "revision_digest" (jget working_copy "candidate_digest"))
        "working_copy" working_copy
  end.

Section Rewrite.
Context (publish : json -> json -> M json).

(** One of the two dicts that may hold an inline timeline snapshot. *)
Definition rewrite_location (authority location : json) : M (json * nat) :=
  let snapshot := jget location "timeline_snapshot" in
  if negb (is_dict snapshot) || negb (is_dict (jget snapshot "config")) then mret (location, O) else
  reference ← publish snapshot (timeline_provenance authority snapshot);
  mret (jdel (jset location "timeline_snapshot_ref" reference) "timeline_snapshot", 1%nat).

Definition rewrite_context_key (acc : json * nat) (key : string) : M (json * nat) :=
  let '(context, count) := acc in
  let snapshot := jget context key in
  if negb (is_dict snapshot) then mret (context, count) else
  reference ← publish snapshot (context_provenance context snapshot);
  mret (jdel (jset context (key +:+ "_ref") reference) key, S count).

(** The copy of the snapshots inside [filmstrip_authority]. *)
Definition rewrite_duplicate_key (context : option json) (duplicate : json) (key : string) : M json :=
  if negb (jhas duplicate key) then mret duplicate else
  match context with
  | None => raiseM ValidationError "filmstrip authority has no matching host-owned snapshot context"
  | Some context =>
      guard_raise (negb (jhas context (key +:+ "_ref"))) ValidationError
        "filmstrip authority has no matching host-owned snapshot context";;
      let mismatch := raiseM ValidationError
        "filmstrip authority snapshot differs from admitted authority context" in
      if negb (is_dict (jget duplicate key)) then mismatch else
      let reference := jget context (key +:+ "_ref") in
      digest ← jitem reference "digest";
      if negb (is_json_str (snapshot_digest (jget duplicate key)) digest) then mismatch else
      mret (jdel (jset duplicate (key +:+ "_ref") reference) key)
  end.

Definition rewrite_filmstrip (context : option json) (inputs : json) : M json :=
  match jget inputs "filmstrip_authority" with
  | JStr text =>
      match json_loads text with
      | Some (JObj kvs) =>
          duplicate ← foldS (rewrite_duplicate_key context) (JObj kvs) SNAPSHOT_KEYS;
          mret (jset inputs "filmstrip_authority" (JStr (canonical_json duplicate)))
      | _ => mret inputs
      end
  | _ => mret inputs
  end.

Definition rewrite_spec_snapshots (spec : json) : M (json * nat) :=
  let authority := dict_at (dict_at (inner_of spec) "inputs") "timeline_authority" in
  '(inner, n) ← rewrite_location authority (inner_of spec);
  '(inputs, m) ← rewrite_location authority (dict_at inner "inputs");
  let result := with_inner spec (with_inputs inner inputs) in
  '(result, count) ← match context_of result with
                     | None => mret (result, (n + m)%nat)
                     | Some context =>
                         '(context, count) ← foldS rewrite_context_key (context, (n + m)%nat) SNAPSHOT_KEYS;
                         mret (with_context result context, count)
                     end;
  let inner := inner_of result in
  inputs ← rewrite_filmstrip (context_of result) (dict_at inner "inputs");
  mret (with_inner result (with_inputs inner inputs), count).
End Rewrite.

Section Publish.
Context `{World}.

(** [ContentAddressedStore.put] of bytes held in memory: the size limit of
    [stage] and the check of an object that is there already. *)
Definition cas_put (payload : string) : M unit :=
  let digest := sha256 payload in
  guard_raise (DEFAULT_MAX_OBJECT_BYTES <? Z.of_nat (String.length payload)) ValidationError
    "object exceeds 5368709120 byte limit";;
  n ← tick;
  match stored_object n digest with
  | Some bytes => guard_raise (negb (String.eqb (sha256 bytes) digest) ||
                               negb (Nat.eqb (String.length bytes) (String.length payload)))
                    ConflictError "CAS collision or corrupt existing object"
  | None => mret tt
  end.

(** [ContentAddressedStore.read] *)
Definition cas_read (digest : string) : M string :=
  n ← tick;
  match stored_object n digest with
  | None => raiseM NotFoundError "object not found"
  | Some bytes =>
      guard_raise (negb (String.eqb (sha256 bytes) digest)) ConflictError
        "CAS object failed hash verification";;
      mret bytes
  end.

(** The provenance check: the revision digest the reference pins. *)
Definition pinned_revision (snapshot provenance source_kind : json) (project_id : option string) : M json :=
  let revision_id := jget provenance "revision_id" in
  let revision_digest := jget provenance "revision_digest" in
  let timeline_id := jget provenance "timeline_id" in
  if is_json_str "working_copy" source_kind then
    match working_copy_binding snapshot revision_id with
    | None => raiseM ValidationError "working-copy snapshot binding is invalid"
    | Some binding =>
        guard_raise (negb (py_eq binding (jget provenance "working_copy")) ||
                     negb (py_eq revision_digest (jget binding "candidate_digest")))
          ValidationError "working-copy snapshot binding is invalid";;
        base ← gets (revision_digest_of (jget binding "base_revision_id") (opt_str project_id) timeline_id);
        guard_raise (match base with
                     | Some d => negb (is_json_str d (jget binding "base_revision_digest"))
                     | None => true
                     end) NotFoundError "working-copy base parent revision is missing or changed";;
        mret revision_digest
    end
  else if negb (is_null revision_id) then
    revision ← gets (revision_digest_of revision_id (opt_str project_id) timeline_id);
    match revision with
    | None => raiseM NotFoundError "snapshot parent revision is missing"
    | Some digest =>
        guard_raise (negb (is_null revision_digest) && negb (is_json_str digest revision_digest))
          ConflictError "snapshot parent revision digest changed";;
        mret (JStr digest)
    end
  else
    guard_raise (negb (is_json_str "cas" source_kind)) ValidationError "snapshot source kind is invalid";;
    mret revision_digest.

Definition publish_snapshot (project_id : option string) (snapshot provenance : json) : M json :=
  let owner := jget provenance "project_id" in
  guard_raise (negb (is_null owner) && negb (py_eq owner (opt_str project_id))) ConflictError
    "snapshot project does not match task project";;
  let revision_id := jget provenance "revision_id" in
  let source_kind := py_or (jget provenance "source_kind")
                       (JStr (if truthy revision_id then "revision" else "cas")) in
  revision_digest ← pinned_revision snapshot provenance source_kind project_id;
  let payload := canonical_json snapshot in
  let digest := sha256 payload in
  existing ← gets (fun t => find (fun o => String.eqb (o_digest o) digest) (objects t));
  (match existing with
   | None => cas_put payload
   | Some row =>
       let corrupt := raiseM ConflictError "existing timeline snapshot CAS object is corrupt" in
       if negb (o_size row =? Z.of_nat (String.length payload)) then corrupt else
       bytes ← cas_read digest;
       if negb (String.eqb (sha256 bytes) digest) then corrupt else mret tt
   end);;
  stamp ← now;
  modify (fun t => t {{ objects := insert_or_ignore (fun o => String.eqb (o_digest o) digest)
    (Object digest (Z.of_nat (String.length payload)) "application/json" (Some "timeline-snapshot.json") stamp)
    (objects t) }});;
  (match project_id with
   | None => mret tt
   | Some p => modify (fun t => t {{ project_objects :=
       insert_or_ignore (fun r => String.eqb (po_project_id r) p && String.eqb (po_digest r) digest &&
                                  String.eqb (po_relation r) "managed")
         (ProjectObject p digest "managed" stamp) (project_objects t) }})
   end);;
  working_copy ← (if is_json_str "working_copy" source_kind
                  then (w ← jitem provenance "working_copy"; mret [("working_copy", w)]) else mret []);
  mret (JObj ([("digest", JStr ("sha256:" +:+ digest)); ("project_id", opt_str project_id);
               ("timeline_id", jget provenance "timeline_id"); ("revision_id", revision_id);
               ("revision_digest", revision_digest); ("source_kind", source_kind)] ++ working_copy)).
End Publish.
