(* ===== verification/Delegation.v ===== *)
(** * Delegation, cancellation and recovery

    Parent authority over delegated children in [runtime_protocol/store.py]:
    [delegated_children] and its accounting, containment of descendants,
    [cancel_task] (mutually recursive with containment), the reconciliation of
    superseded attempts, lease expiry ([_reap_expired_leases]) and the recovery
    of interrupted work at boot ([begin_runtime_session]).

    The recursion between [cancel_task] and [contain_delegated_children] runs
    on fuel, [max_depth] of the environment; running out is Python's
    [RecursionError]. *)

From Stdlib Require Import ZArith String Ascii List Bool Lia.
From stdpp Require Import base list strings.
From S2P Require Import Prelude Json Errors Facts Sha256 Store Idempotency Ledger Bindings.
From S2P Require Import Executors Continuations.

Open Scope Z_scope.

(** The callback that records a command's receipt inside its transaction:
    result, event ids, primary stream, creation time. *)
Definition recorder : Type := json -> list string -> option string -> option stamp -> M unit.

Definition no_record : recorder := fun _ _ _ _ => mret tt.

Section Delegation.
Context `{World}.

(** ** Delegated children *)

(** The parsed body of a task's spec, as the joins with [json_extract] see it. *)
Definition task_body (t : tables) (x : task_row) : option json :=
  match t_spec_digest x with
  | None => None
  | Some d => match spec_by_digest d t with
              | Some r => json_loads (sp_body r)
              | None => None
              end
  end.

Definition delegated_to (parent_task_id : string) (parent_attempt_id : option string) (t : tables)
    (x : task_row) : bool :=
  match run_by_id (t_run_id x) t, task_body t x with
  | Some _, Some body =>
      let lineage := jget body "delegated_parent" in
      is_json_str parent_task_id (jget lineage "parent_task_id") &&
      match parent_attempt_id with
      | Some a => is_json_str a (jget lineage "parent_attempt_id")
      | None => true
      end
  | _, _ => false
  end.

(** [ORDER BY t.created_at, t.id] *)
Definition by_creation (a b : task_row) : bool :=
  if bool_decide (t_created_at a = t_created_at b) then String.leb (t_id a) (t_id b)
  else stamp_leb (t_created_at a) (t_created_at b).

Definition delegated_children (parent_task_id : string) (parent_attempt_id : option string)
    (t : tables) : list task_row :=
  sort by_creation (List.filter (delegated_to parent_task_id parent_attempt_id t) (tasks t)).

Record accounting := Accounting { ac_lifetime : Z; ac_active : Z; ac_replay : bool }.

Definition child_active (x : task_row) : bool :=
  negb (status_in (t_status x) [Completed; Failed; Cancelled]) ||
  opt_str_eqb (t_waiting_reason x) (Some "provider_state_unknown").

Definition delegated_child_accounting (parent_task_id parent_attempt_id : string)
    (idempotency_key : option string) (t : tables) : accounting :=
  let children := List.filter (delegated_to parent_task_id (Some parent_attempt_id) t) (tasks t) in
  Accounting (Z.of_nat (length children)) (Z.of_nat (length (List.filter child_active children)))
    (existsb (fun x => match idempotency_key, run_by_id (t_run_id x) t with
                       | Some k, Some r => opt_str_eqb (r_idempotency_key r) (Some k)
                       | _, _ => false
                       end) children).

Definition epoch_of_task (x : task_row) : Z := default 0 (t_runtime_epoch x).

Definition assert_delegated_retry_capacity (task_id : string) : M unit :=
  task ← gets (task_by_id task_id);
  match task with
  | None => mret tt
  | Some task =>
      own ← spec_of task;
      let lineage := jget own "delegated_parent" in
      if is_null lineage then mret tt else
      parent_id ← jitem lineage "parent_task_id";
      parent ← (id ← bind_text parent_id; gets (task_by_id id));
      match parent with
      | None => raiseM LeaseError "delegated child parent authority has ended"
      | Some parent =>
          spec ← spec_of parent;
          current ← gets current_runtime_epoch;
          live ← andM (mret (bool_decide (t_status parent = Running)))
            (andM (a ← jitem lineage "parent_attempt_id"; mret (py_eq (opt_str (t_attempt_id parent)) a))
            (andM (l ← jitem lineage "parent_lease_id"; mret (py_eq (opt_str (t_lease_token parent)) l))
            (andM (f ← jitem lineage "parent_fence"; mret (py_eq (JInt (t_lease_fence parent)) f))
            (andM (mret (epoch_of_task parent =? current))
                  (a ← jitem lineage "parent_attempt_id";
                   mret (negb (py_eq (jget spec "delegation_closed_attempt_id") a)))))));
          guard_raise (negb live) LeaseError "delegated child parent authority has ended";;
          guard_raise (negb (stamp_truthy (t_lease_expires_at parent))) LeaseError
            "delegated child parent lease has expired";;
          us ← utcnow;
          (match t_lease_expires_at parent with
           | Some deadline =>
               match expired_at deadline us with
               | Some expired => guard_raise expired LeaseError "delegated child parent lease has expired"
               | None => raiseM LeaseError "delegated child parent lease is invalid"
               end
           | None => mret tt
           end);;
          policy ← jitem spec "child_delegation";
          match jget_def (jget_def policy "limits" (JObj [])) "max_active_children" (JInt 64) with
          | JInt limit =>
              attempt ← bind_text (opt_str (t_attempt_id parent));
              count ← gets (delegated_child_accounting (t_id parent) attempt None);
              guard_raise (limit <=? ac_active count) ValidationError
                "parent active child count limit exceeded"
          | _ => raiseM TypeError "'>=' not supported"
          end
      end
  end.

(** ** Containment and cancellation *)

(** [contain_delegated_children], given [cancel_task]. *)
Definition close_delegation (parent_task_id : string) (attempt_id : option string) : M unit :=
  parent ← gets (task_by_id parent_task_id);
  match parent with
  | None => mret tt
  | Some parent =>
      spec ← spec_of parent;
      if jhas spec "child_delegation" &&
         match attempt_id with
         | None => true
         | Some a => opt_str_eqb (t_attempt_id parent) (Some a)
         end
      then
        let closed := if str_truthy attempt_id then attempt_id else t_attempt_id parent in
        digest ← store_spec (jset spec "delegation_closed_attempt_id" (opt_str closed));
        update_tasks (is_task parent_task_id) (fun x => x {{ t_spec_digest := Some digest }})
      else mret tt
  end.

Definition contained_payload (parent_task_id : string) (attempt_id : option string)
    (reason : string) (status : json) : json :=
  JObj [("parent_task_id", JStr parent_task_id); ("parent_attempt_id", opt_str attempt_id);
        ("reason", JStr reason); ("status", status); ("remote_stop_confirmed", JBool false);
        ("billing_stop_confirmed", JBool false)].

Definition contain_child (cancel : string -> M json) (parent_task_id : string)
    (attempt_id : option string) (reason : string) (child : task_row) : M unit :=
  if status_in (t_status child) [Completed; Failed; Cancelled; CancelRequested] then mret tt else
  value ← cancel (t_id child);
  append_event (t_run_id child) (Some (t_id child)) "task.parent_contained"
    (contained_payload parent_task_id attempt_id reason (jget (jget value "task") "status")) None;;
  mret tt.

Definition contain_with (cancel : string -> M json) (parent_task_id : string)
    (attempt_id : option string) (reason : string) : M unit :=
  close_delegation parent_task_id attempt_id;;
  children ← gets (delegated_children parent_task_id attempt_id);
  for_each children (contain_child cancel parent_task_id attempt_id reason).

(** [_reconcile_runtime_attempt], given [cancel_task]. *)
Definition reconcile_with (cancel : string -> M json) (task_id : string) (attempt_id : option string)
  : M (option string) :=
  if negb (str_truthy attempt_id) then mret None else
  match attempt_id with
  | None => mret None
  | Some a =>
      contain_with cancel task_id (Some a) "parent_attempt_reconciled";;
      let mine x := String.eqb (at_id x) a && String.eqb (at_task_id x) task_id in
      changed ← gets (fun t => rowcount (fun x => mine x && negb (at_settled x)) (attempts t));
      update_attempts (fun x => mine x && negb (at_settled x)) (fun x => x {{ at_settled := true }});;
      if Nat.eqb changed 1 then mret (Some a) else
      row ← gets (fun t => find mine (attempts t));
      mret (match row with Some x => Some (at_id x) | None => None end)
  end.

Definition cancel_requested_payload (extra : list (string * json)) (task : task_row)
    (binding : option json) : json :=
  JObj (extra ++ [("cancellation_acknowledged", JBool true);
        ("waiting_reason", JStr "provider_state_unknown"); ("remote_stop_confirmed", JBool false);
        ("billing_stop_confirmed", JBool false); ("attempt_id", opt_str (t_attempt_id task));
        ("execution_binding", match binding with Some b => b | None => JNull end)]).

(** The row updates of a request that must wait for the provider, and of a
    cancellation that takes effect at once. *)
Definition request_cancel (timestamp : stamp) (x : task_row) : task_row :=
  x {{ t_status := CancelRequested; t_waiting_reason := Some "provider_state_unknown";
       t_updated_at := timestamp }}.

Definition mark_cancelled (timestamp : stamp) (x : task_row) : task_row :=
  x {{ t_status := Cancelled; t_lease_token := None; t_executor_id := None; t_attempt_id := None;
       t_lease_expires_at := None; t_waiting_reason := None; t_updated_at := timestamp }}.

Definition set_run_status (run_id : string) (status : Status) (timestamp : stamp) : M unit :=
  update_runs (is_run run_id) (fun r => r {{ r_status := status; r_updated_at := timestamp }}).

Fixpoint cancel_task (fuel : nat) (task_id : string) (record : recorder) {struct fuel} : M json :=
  match fuel with
  | O => raiseM RecursionError "maximum recursion depth exceeded"
  | S fuel' =>
      let cancel id := cancel_task fuel' id no_record in
      row ← gets (task_by_id task_id);
      match row with
      | None => raiseM NotFoundError "task not found"
      | Some task =>
          if status_in (t_status task) [Completed; CancelRequested; Cancelled] then
            value ← get_task task_id;
            record value [] None None;;
            mret value
          else transaction (
            contain_with cancel task_id None "parent_cancelled";;
            binding ← execution_binding task_id;
            if unresolved_external binding then
              timestamp ← now;
              update_tasks (is_task task_id) (request_cancel timestamp);;
              release_execution_attempt task_id Stale;;
              event_id ← append_event (t_run_id task) (Some task_id) "task.cancel_requested"
                (cancel_requested_payload [] task binding) (Some timestamp);
              value ← get_task task_id;
              record value [event_id] (Some (t_run_id task)) None;;
              mret value
            else
              reconcile_with cancel task_id (t_attempt_id task);;
              cancelled_at ← now;
              update_tasks (is_task task_id) (mark_cancelled cancelled_at);;
              run_at ← now;
              set_run_status (t_run_id task) Cancelled run_at;;
              release_reservations task_id (t_lease_token task) None;;
              (match binding with
               | Some _ => release_execution_attempt task_id Released
               | None => mret tt
               end);;
              event_id ← append_event (t_run_id task) (Some task_id) "task.cancelled" (JObj []) None;
              refresh_continuations_for_predecessor task_id;;
              value ← get_task task_id;
              record value [event_id] (Some (t_run_id task)) None;;
              mret value)
      end
  end.

Definition cancel_child (id : string) : M json := cancel_task max_depth id no_record.

Definition contain_delegated_children (parent_task_id : string) (attempt_id : option string)
    (reason : string) : M unit := contain_with cancel_child parent_task_id attempt_id reason.

Definition reconcile_runtime_attempt (task_id : string) (attempt_id : option string) : M (option string) :=
  reconcile_with cancel_child task_id attempt_id.

(** ** Orphaned delegations *)

Definition lineage_equals (value : json) (lineage : json) (key : string) : M bool :=
  expected ← jitem lineage key; mret (py_eq value expected).

(** The conjunction that decides whether the parent still holds authority. *)
Definition parent_authority (parent : task_row) (spec : json) (attempt : option attempt_row)
    (project : option string) (lineage : json) : M bool :=
  current ← gets current_runtime_epoch;
  andM (mret (bool_decide (t_status parent = Running)))
  (andM (lineage_equals (opt_str (t_attempt_id parent)) lineage "parent_attempt_id")
  (andM (lineage_equals (opt_str (t_lease_token parent)) lineage "parent_lease_id")
  (andM (lineage_equals (JInt (t_lease_fence parent)) lineage "parent_fence")
  (andM (mret (epoch_of_task parent =? current))
  (andM (lineage_equals (JInt current) lineage "runtime_epoch")
  (andM (same ← lineage_equals (jget spec "delegation_closed_attempt_id") lineage "parent_attempt_id";
         mret (negb same))
  (andM (lineage_equals (opt_str project) lineage "project_id")
  (andM (lineage_equals (opt_str (t_executor_id parent)) lineage "executor_id")
  match attempt with
  | None => mret false
  | Some a =>
      andM (mret (negb (at_settled a)))
      (andM (lineage_equals (JStr (at_lease_id a)) lineage "parent_lease_id")
      (andM (lineage_equals (JInt (at_fence a)) lineage "parent_fence")
      (andM (lineage_equals (JInt (at_runtime_epoch a)) lineage "runtime_epoch")
      (andM (lineage_equals (JStr (at_executor_id a)) lineage "executor_id")
        (if negb (jhas lineage "policy_digest") then mret true
         else lineage_equals (JStr (sha256 (canonical_json (jget spec "child_delegation"))))
                lineage "policy_digest")))))
  end)))))))).

Definition lease_live (deadline : option stamp) : M bool :=
  if negb (stamp_truthy deadline) then mret false else
  us ← utcnow;
  mret (match deadline with
        | Some d => match expired_at d us with Some expired => negb expired | None => false end
        | None => false
        end).

Definition contain_if_orphaned (child : task_row) : M unit :=
  spec ← spec_of child;
  lineage ← jitem spec "delegated_parent";
  parent_id ← (j ← jitem lineage "parent_task_id"; bind_text j);
  parent ← gets (task_by_id parent_id);
  parent_spec ← match parent with Some p => spec_of p | None => mret (JObj []) end;
  attempt_id ← (j ← jitem lineage "parent_attempt_id";
                if is_null j then mret None else a ← bind_text j; mret (Some a));
  attempt ← match attempt_id with Some a => gets (attempt_by_id a) | None => mret None end;
  project ← match parent with
            | None => mret None
            | Some p =>
                run ← gets (run_by_id (t_run_id p));
                match run with
                | Some r => mret (r_project_id r)
                | None => raiseM TypeError "'NoneType' object is not subscriptable"
                end
            end;
  live ← match parent with
         | None => mret false
         | Some p => andM (parent_authority p parent_spec attempt project lineage)
                          (lease_live (t_lease_expires_at p))
         end;
  if (live : bool) then mret tt
  else contain_delegated_children parent_id attempt_id "parent_authority_ended".

Definition delegated_rows (t : tables) : list task_row :=
  List.filter (fun x => negb (status_in (t_status x) [Completed; Failed; Cancelled]) &&
    match task_body t x with
    | Some body => negb (is_null (jget body "delegated_parent"))
    | None => false
    end) (tasks t).

Definition contain_orphaned_delegations : M unit :=
  rows ← gets delegated_rows;
  for_each rows contain_if_orphaned.

(** ** Lease expiry *)

(** The order of the index [(executor_id, status, rowid)]; NULL sorts first. *)
Definition by_executor_status (a b : task_row) : bool :=
  match t_executor_id a, t_executor_id b with
  | None, Some _ => true
  | Some _, None => false
  | Some x, Some y =>
      if String.eqb x y then String.leb (status_text (t_status a)) (status_text (t_status b))
      else String.leb x y
  | None, None => String.leb (status_text (t_status a)) (status_text (t_status b))
  end.

Definition overdue (us : Z) (x : task_row) : bool :=
  match t_lease_expires_at x with
  | None => false
  | Some deadline => match expired_at deadline us with Some e => e | None => true end
  end.

Definition overdue_lease_rows : M (list task_row) :=
  us ← utcnow;
  gets (fun t => List.filter (overdue us)
    (sort by_executor_status
       (List.filter (fun x => status_in (t_status x) [Running; CancelRequested] &&
                              match t_lease_expires_at x with Some _ => true | None => false end)
          (tasks t)))).

Definition mark_unknown (timestamp : stamp) (x : task_row) : task_row :=
  x {{ t_waiting_reason := Some "provider_state_unknown"; t_updated_at := timestamp }}.

Definition mark_requeued (timestamp : stamp) (x : task_row) : task_row :=
  x {{ t_status := Queued; t_executor_id := None; t_lease_token := None; t_lease_expires_at := None;
       t_waiting_reason := Some "waiting_for_worker"; t_updated_at := timestamp }}.

Definition requeue_run (run_id : string) (timestamp : stamp) : M unit :=
  update_runs (fun r => is_run run_id r && bool_decide (r_status r = Running))
    (fun r => r {{ r_status := Queued; r_updated_at := timestamp }}).

Definition reap_row (row : task_row) : M unit :=
  latest ← gets (task_by_id (t_id row));
  match latest with
  | None => raiseM TypeError "'NoneType' object is not subscriptable"
  | Some latest =>
      if negb (status_in (t_status latest) [Running; CancelRequested]) then mret tt else
      contain_delegated_children (t_id row) (t_attempt_id row) "parent_lease_expired";;
      timestamp ← now;
      binding ← execution_binding (t_id row);
      if unresolved_external binding then
        update_tasks (is_task (t_id row)) (mark_unknown timestamp);;
        append_event (t_run_id row) (Some (t_id row)) "task.provider_state_unknown"
          (JObj [("reason", JStr "attempt_lease_expired"); ("attempt_id", opt_str (t_attempt_id row));
                 ("execution_binding", match binding with Some b => b | None => JNull end)]) None;;
        mret tt
      else
        update_tasks (is_task (t_id row)) (mark_requeued timestamp);;
        reconciled ← reconcile_runtime_attempt (t_id row) (t_attempt_id row);
        requeue_run (t_run_id row) timestamp;;
        release_reservations (t_id row) (t_lease_token row) None;;
        reset_execution_attempt (t_id row) None;;
        append_event (t_run_id row) (Some (t_id row)) "task.lease_expired"
          (JObj [("waiting_reason", JStr "waiting_for_worker"); ("attempt_id", opt_str reconciled);
                 ("recovery_disposition", JStr "runtime_owned_attempt_reconciled")]) None;;
        mret tt
  end.

Definition reap_expired_leases : M unit :=
  contain_orphaned_delegations;;
  rows ← overdue_lease_rows;
  for_each rows reap_row.

(** The read-side entry point, outside any transaction. *)
Definition reap_overdue_leases : M unit :=
  rows ← overdue_lease_rows;
  if nil_or rows then mret tt else transaction reap_expired_leases.

(** ** Boot *)

Definition recovered_payload (previous_epoch epoch : Z) (previous_boot : option string)
    (boot_id : string) (task : task_row) (attempt_id : option string) (rest : list (string * json)) : json :=
  JObj ([("previous_runtime_epoch", if previous_epoch =? 0 then JNull else JInt previous_epoch);
         ("runtime_epoch", JInt epoch); ("previous_boot_id", opt_str previous_boot);
         ("boot_id", JStr boot_id); ("stale_fence", JInt (t_lease_fence task));
         ("attempt", JInt (t_attempt task)); ("attempt_id", opt_str attempt_id)] ++ rest).

Definition mark_unresolved (status : Status) (timestamp : stamp) (x : task_row) : task_row :=
  x {{ t_status := status; t_lease_expires_at := None;
       t_waiting_reason := Some "provider_state_unknown"; t_updated_at := timestamp }}.

Definition mark_recovered (timestamp : stamp) (x : task_row) : task_row :=
  x {{ t_status := Queued; t_executor_id := None; t_lease_token := None; t_lease_expires_at := None;
       t_attempt_id := None; t_waiting_reason := Some "runtime_recovery"; t_updated_at := timestamp }}.

(** A task that is still running or has a pending cancellation. *)
Definition recover_interrupted (previous_epoch epoch : Z) (previous_boot : option string) (boot_id : string)
    (started_at : stamp) (task latest : task_row) (binding : option json) : M unit :=
  if unresolved_external binding then
    let next_status := if bool_decide (t_status latest = CancelRequested) then CancelRequested else Queued in
    update_tasks (is_task (t_id task)) (mark_unresolved next_status started_at);;
    requeue_run (t_run_id task) started_at;;
    release_execution_attempt (t_id task) Stale;;
    append_event (t_run_id task) (Some (t_id task)) "task.runtime_recovered"
      (recovered_payload previous_epoch epoch previous_boot boot_id task (t_attempt_id task)
         [("execution_binding", match binding with Some b => b | None => JNull end);
          ("recovery", JStr "provider_state_unknown")]) None;;
    mret tt
  else
    reconciled ← reconcile_runtime_attempt (t_id task) (t_attempt_id task);
    update_tasks (fun x => is_task (t_id task) x && bool_decide (t_status x = Running))
      (mark_recovered started_at);;
    requeue_run (t_run_id task) started_at;;
    release_reservations (t_id task) (t_lease_token task) None;;
    reset_execution_attempt (t_id task) (Some epoch);;
    append_event (t_run_id task) (Some (t_id task)) "task.runtime_recovered"
      (recovered_payload previous_epoch epoch previous_boot boot_id task reconciled
         [("recovery", JStr "requeued");
          ("recovery_disposition", JStr "runtime_owned_attempt_reconciled")]) None;;
    mret tt.

Definition recover_task (previous_epoch epoch : Z) (previous_boot : option string) (boot_id : string)
    (started_at : stamp) (task : task_row) : M unit :=
  latest ← gets (task_by_id (t_id task));
  match latest with
  | None => raiseM TypeError "'NoneType' object is not subscriptable"
  | Some latest =>
      if negb (status_in (t_status latest) [Running; CancelRequested]) then mret tt else
      contain_delegated_children (t_id task) (t_attempt_id task) "parent_runtime_epoch_ended";;
      binding ← execution_binding (t_id task);
      recover_interrupted previous_epoch epoch previous_boot boot_id started_at task latest binding
  end.

Definition lifecycle_json (l : lifecycle_row) : json :=
  JObj [("id", JInt 1); ("runtime_epoch", JInt (lc_runtime_epoch l)); ("boot_id", JStr (lc_boot_id l));
        ("previous_boot_id", opt_str (lc_previous_boot_id l)); ("started_at", jstamp (lc_started_at l));
        ("recovered_task_count", JInt (lc_recovered_task_count l))].

Definition open_session (boot_id : string) (epoch_floor : option Z) : M unit :=
  row ← gets runtime_lifecycle;
  let previous_epoch := match row with Some l => lc_runtime_epoch l | None => 0 end in
  let previous_boot := match row with Some l => Some (lc_boot_id l) | None => None end in
  guard_raise (match epoch_floor with Some f => f <? 0 | None => false end) ValidationError
    "runtime epoch floor must be non-negative";;
  let epoch := Z.max previous_epoch (default 0 epoch_floor) + 1 in
  started_at ← now;
  modify (fun t => t {{ runtime_lifecycle := Some (Lifecycle epoch boot_id previous_boot started_at 0) }});;
  update_bindings (fun b => bool_decide (b_status b = Prepared)) (fun b => b {{
    b_session_id := boot_id; b_runtime_epoch := epoch; b_updated_at := started_at }});;
  interrupted ← gets (fun t => List.filter (fun x => status_in (t_status x) [Running; CancelRequested]) (tasks t));
  for_each interrupted (recover_task previous_epoch epoch previous_boot boot_id started_at);;
  (if previous_epoch =? 0 then mret tt else
   modify (fun t => t {{ recovery_checkpoints :=
     update_where (fun c => (ck_runtime_epoch c =? previous_epoch) &&
                            bool_decide (ck_state c = Durable \/ ck_state c = RebootRequested))
       (fun c => c {{ ck_state := Recovered; ck_updated_at := started_at }}) (recovery_checkpoints t) }}));;
  modify (fun t => t {{ runtime_lifecycle :=
    match runtime_lifecycle t with
    | Some l => Some (l {{ lc_recovered_task_count := Z.of_nat (length interrupted) }})
    | None => None
    end }}).

Definition begin_runtime_session (boot_id : string) (epoch_floor : option Z) : M json :=
  guard_raise (negb (nonempty boot_id)) ValidationError "boot_id is required";;
  transaction (open_session boot_id epoch_floor);;
  row ← gets runtime_lifecycle;
  match row with
  | Some l => mret (lifecycle_json l)
  | None => raiseM TypeError "'NoneType' object is not iterable"
  end.
End Delegation.
