(* ===== verification/Claim.v ===== *)
(** * Claims

    [RealmStore._claim_task], which turns a queued task into a fenced lease or
    leaves it queued with the reason it waits, and the part of
    [RuntimeService.claim_next] that records the attempt of a claimed task and
    binds its placement. *)

From Stdlib Require Import ZArith String Ascii List Bool Lia.
From stdpp Require Import base list strings.
From S2P Require Import Prelude Json Errors Facts Sha256 Store Idempotency Ledger Bindings.
From S2P Require Import Executors Continuations Delegation.

Open Scope Z_scope.

Section Claim.
Context `{World}.

Definition occupied (executor_id key : string) (t : tables) : bool :=
  existsb (fun r => opt_str_eqb (rv_executor_id r) (Some executor_id) &&
                    String.eqb (rv_resource_key r) key && active r) (reservations t).

Definition running_count (executor_id : string) (t : tables) : Z :=
  Z.of_nat (rowcount (fun x => opt_str_eqb (t_executor_id x) (Some executor_id) &&
                               bool_decide (t_status x = Running)) (tasks t)).

(** The loop over the capability's resource keys: the first key the executor
    lacks, or that another lease of the executor holds. *)
Fixpoint blocked_resource (executor : executor_row) (keys : list string) (t : tables) : option string :=
  match keys with
  | [] => None
  | key :: rest =>
      if negb (str_in key (ex_resource_keys_json executor)) || occupied (ex_id executor) key t
      then Some (waiting_for_resource key)
      else blocked_resource executor rest t
  end.

(** The reason the task cannot run on the executor now, if there is one. *)
Definition claim_waiting_reason (task : task_row) (task_spec : json) (executor : option executor_row)
    (capability : option capability_row) : M (option string) :=
  let waiting_for_worker := mret (Some "waiting_for_worker") in
  let capability_unavailable := mret (Some "capability_unavailable") in
  match executor with
  | None => waiting_for_worker
  | Some executor =>
      if negb (String.eqb (ex_readiness executor) "ready") then waiting_for_worker else
      if match capability, t_capability_digest task with None, Some _ => true | _, _ => false end
      then capability_unavailable else
      if match capability with Some c => negb (String.eqb (cap_status c) "ready") | None => false end
      then capability_unavailable else
      p ← storage_preflight (t_capability task) (jget task_spec "storage_estimate");
      if negb (pf_ok p) then mret (Some "insufficient_storage") else
      ids ← lift (executor_capability_ids executor);
      if negb (existsb (is_json_str (t_capability task)) ids) then waiting_for_worker else
      live ← executor_live executor;
      if negb live then waiting_for_worker else
      if match t_capability_digest task with
         | Some d => match capability with
                     | Some c => negb (String.eqb (cap_definition_digest c) d)
                     | None => true
                     end
         | None => false
         end then capability_unavailable else
      let descriptor := default (JObj []) (executor_capability (ex_capabilities_json executor) (t_capability task)) in
      if negb (is_json_str "ready" (jget_def descriptor "status" (JStr "ready"))) then waiting_for_worker else
      matching ← lift (execution_facts_match (jget_def task_spec "required_facts" empty_facts)
                         (jget_def descriptor "verified_facts" empty_facts));
      if negb matching then mret (Some "waiting_for_executor_facts") else
      busy ← gets (running_count (ex_id executor));
      if ex_max_concurrency executor <=? busy then waiting_for_worker else
      gets (fun t => blocked_resource executor (required_resource_keys (t_capability task) t) t)
  end.

Definition claim_row (executor_id lease_token : string) (fence : Z) (deadline : stamp) (epoch : Z)
    (timestamp : stamp) (x : task_row) : task_row :=
  x {{ t_status := Running; t_executor_id := Some executor_id; t_lease_token := Some lease_token;
       t_lease_fence := fence; t_lease_expires_at := Some deadline; t_waiting_reason := None;
       t_attempt := t_attempt x + 1; t_runtime_epoch := Some epoch; t_updated_at := timestamp }}.

Definition reserve (row : reservation_row) : M unit :=
  modify (fun t => t {{ reservations :=
    upsert (fun r => String.eqb (rv_task_id r) (rv_task_id row) &&
                     String.eqb (rv_resource_key r) (rv_resource_key row))
      (fun _ => row) row (reservations t) }}).

(** The writes of a successful claim. *)
Definition commit_claim (task : task_row) (task_spec : json) (executor : executor_row)
    (lease_token : string) (epoch : Z) (claimable : Status) : M unit :=
  let executor_id := ex_id executor in
  timestamp ← now;
  let fence := t_lease_fence task + 1 in
  deadline ← now_plus LEASE_SECONDS;
  let target x := is_task (t_id task) x && bool_decide (t_status x = claimable) in
  changed ← gets (fun t => rowcount target (tasks t));
  update_tasks target (claim_row executor_id lease_token fence deadline epoch timestamp);;
  guard_raise (negb (Nat.eqb changed 1)) ConflictError "task is no longer claimable";;
  (if String.eqb (t_capability task) "rendering.render" then
     stamped ← store_spec (jset task_spec "_runtime_reuse_toolchain"
                             (opt_str (executor_toolchain_digest executor)));
     update_tasks (is_task (t_id task)) (fun x => x {{ t_spec_digest := Some stamped }});;
     update_runs (is_run (t_run_id task)) (fun r => r {{ r_spec_digest := Some stamped }})
   else mret tt);;
  set_run_status (t_run_id task) Running timestamp;;
  update_executors (fun x => String.eqb (ex_id x) executor_id) (fun x => x {{
    ex_runtime_epoch := epoch; ex_last_seen_at := Some timestamp }});;
  keys ← gets (required_resource_keys (t_capability task));
  for_each keys (fun key => reserve (Reservation (t_id task) key lease_token timestamp None
    (Some executor_id) fence (Some deadline) epoch));;
  append_event (t_run_id task) (Some (t_id task)) "task.claimed"
    (JObj [("executor_id", JStr executor_id); ("attempt", JInt (t_attempt task + 1));
           ("fence", JInt fence); ("resource_keys", jstrs keys)]) None;;
  mret tt.

(** From the claimable row on: wait with a reason, or commit. *)
Definition claim_row_or_wait (task : task_row) (executor_id lease_token : string) (epoch : Z)
    (recovery : bool) : M json :=
  executor ← gets (executor_by_id executor_id);
  capability ← gets (capability_by_id (t_capability task));
  task_spec ← spec_of task;
  run ← gets (run_by_id (t_run_id task));
  match run with
  | None => raiseM TypeError "'NoneType' object is not subscriptable"
  | Some run =>
      validate_spec_snapshot_refs task_spec (r_project_id run);;
      reason ← claim_waiting_reason task task_spec executor capability;
      match reason, executor with
      | None, Some executor =>
          commit_claim task task_spec executor lease_token epoch
            (if recovery then t_status task else Queued);;
          get_task (t_id task)
      | _, _ =>
          set_waiting_reason (t_id task) reason;;
          get_task (t_id task)
      end
  end.

Definition claim_body (task_id executor_id lease_token : string) (epoch : Z)
    (allow_provider_recovery : bool) : M json :=
  reap_expired_leases;;
  row ← gets (task_by_id task_id);
  match row with
  | None => raiseM NotFoundError "task not found"
  | Some task =>
      let unknown := opt_str_eqb (t_waiting_reason task) (Some "provider_state_unknown") in
      let recovery := allow_provider_recovery && unknown &&
                      status_in (t_status task) [Queued; CancelRequested] in
      guard_raise_with (negb (bool_decide (t_status task = Queued)) && negb recovery) ConflictError
        "task is not claimable" (details1 "status" (JStr (status_text (t_status task))));;
      if unknown && negb allow_provider_recovery then get_task task_id else
      dependencies ← gets (continuation_rows task_id);
      admitted ← gets (is_admitted task_id);
      if negb (nil_or dependencies) && negb admitted then
        admit_continuation task_id;;
        admitted ← gets (is_admitted task_id);
        if negb admitted then get_task task_id else
        row ← gets (task_by_id task_id);
        match row with
        | None => raiseM TypeError "'NoneType' object is not subscriptable"
        | Some task => claim_row_or_wait task executor_id lease_token epoch recovery
        end
      else claim_row_or_wait task executor_id lease_token epoch recovery
  end.

(** [_claim_task] *)
Definition claim_task (task_id executor_id lease_token : string) (runtime_epoch : json)
    (transactional allow_provider_recovery : bool) : M json :=
  guard_raise (negb (nonempty executor_id) || negb (nonempty lease_token)) ValidationError
    "executor_id and lease_token are required";;
  epoch ← validate_runtime_epoch runtime_epoch "executor" (Some executor_id) true;
  let body := claim_body task_id executor_id lease_token epoch allow_provider_recovery in
  if transactional then transaction body else body.

(** [claim_next], from the selected task on: the claim under fresh attempt
    and lease ids, the attempt row, and the placement binding.  The result is
    the attempt of a task that runs, [None] for one that waits. *)
Record claimed := ClaimedAttempt {
  cl_attempt_id : string; cl_lease_id : string; cl_fence : Z; cl_binding : option json; cl_value : json }.

Definition insert_attempt (row : attempt_row) : M unit :=
  taken ← gets (fun t => existsb (fun a => String.eqb (at_id a) (at_id row)) (attempts t));
  unique (negb taken);;
  known ← gets (fun t => existsb (is_task (at_task_id row)) (tasks t));
  foreign_key known;;
  modify (fun t => t {{ attempts := attempts t ++ [row] }}).

Definition record_attempt (task : task_row) (executor_id : string) (epoch : Z) (placement : json)
    (attempt_id lease_id : string) (fence : Z) (value : json) : M (option claimed) :=
  let task_id := t_id task in
  expires ← match t_lease_expires_at task with
            | Some s => if stamp_truthy (Some s) then mret s else now
            | None => now
            end;
  insert_attempt (Attempt attempt_id task_id lease_id fence executor_id expires false epoch None None false);;
  update_tasks (is_task task_id) (fun x => x {{ t_attempt_id := Some attempt_id }});;
  binding ← bind_execution_attempt task_id attempt_id lease_id fence executor_id epoch placement;
  (match binding with
   | Some b =>
       append_event (t_run_id task) (Some task_id) "task.execution_bound"
         (JObj [("attempt_id", JStr attempt_id); ("lease_id", JStr lease_id); ("fence", JInt fence);
                ("runtime_epoch", JInt epoch); ("execution_binding", b)]) None;; mret tt
   | None => mret tt
   end);;
  mret (Some (ClaimedAttempt attempt_id lease_id fence binding value)).

Definition fence_attempt (task_id executor_id : string) (epoch : Z) (placement : json)
    (attempt_id lease_id : string) (value : json) : M (option claimed) :=
  row ← gets (task_by_id task_id);
  match row with
  | None => mret None
  | Some task =>
      if negb (bool_decide (t_status task = Running)) then mret None else
      let fence := if t_lease_fence task =? 0
                   then (if t_attempt task =? 0 then 1 else t_attempt task) else t_lease_fence task in
      record_attempt task executor_id epoch placement attempt_id lease_id fence value
  end.

Definition claim_selected (task_id executor_id : string) (epoch : Z) (placement : json)
  : M (option claimed) :=
  attempt_id ← new_id;
  lease_id ← new_id;
  value ← claim_task task_id executor_id lease_id (JInt epoch) false false;
  fence_attempt task_id executor_id epoch placement attempt_id lease_id value.
End Claim.
