(* ===== verification/Outputs.v ===== *)
(** * Managed outputs

    The custody records of settled results in [runtime_protocol/store.py]: the
    manifest check, the association of every output with the task and attempt
    that produced it ([_associate_managed_outputs]), the read model, and the
    versioned lifecycle of an output
    ([update_managed_output_lifecycle]). *)

From Stdlib Require Import ZArith String Ascii List Bool Lia.
From stdpp Require Import base list strings.
From S2P Require Import Prelude Json Errors Facts Sha256 Store Idempotency Ledger Bindings.
From S2P Require Import Executors.

Open Scope Z_scope.

(** [str(x)] of a scalar; other values do not reach a column. *)
Definition py_str (j : json) : M string :=
  match j with
  | JStr s => mret s
  | JInt z => mret (dec_string z)
  | JBool b => mret (if b then "True" else "False")
  | JNull => mret "None"
  | _ => raiseM TypeError "parameter is not a text value"
  end.

Section Outputs.
Context `{World}.

(** ** Manifests *)

(** [next((output for output in outputs if isinstance(output, dict) and ...), None)] *)
Definition first_output (outputs : list json) (key : string) (value : json) : option json :=
  find (fun o => is_dict o && py_eq (jget o key) value) outputs.

Definition outputs_of (result : json) : M (list json) :=
  lift (py_list (jget_def result "outputs" (JArr []))).

Definition validated_manifest_digest (result : json) (project_id : option string) : M (option string) :=
  let reference := jget result "manifest_ref" in
  if is_null reference then mret None else
  guard_raise (negb (is_dict reference)) ValidationError "manifest_ref must be an object";;
  let unknown := unknown_keys reference ["object_id"; "digest"; "size"] in
  guard_raise_with (negb (nil_or unknown)) ValidationError "manifest_ref contains unsupported fields"
    (details1 "fields" (sorted_strings unknown));;
  match jget_def reference "object_id" (jget reference "digest"), jget reference "size" with
  | JStr object_id, size =>
      guard_raise (negb (is_sha256_id object_id)) ValidationError
        "manifest_ref requires a canonical sha256 object_id";;
      let digest := remove_prefix "sha256:" object_id in
      match size with
      | JInt size =>
          guard_raise (size <? 0) ValidationError "manifest_ref size must be a non-negative integer";;
          outputs ← outputs_of result;
          match first_output outputs "digest" (JStr object_id) with
          | Some output =>
              declared ← (j ← jitem output "size"; py_int j);
              guard_raise (negb (declared =? size)) ConflictError "manifest_ref size does not match settled output"
          | None =>
              row ← gets (fun t => find (fun o => String.eqb (o_digest o) digest) (objects t));
              guard_raise (match row with Some o => negb (o_size o =? size) | None => true end) ConflictError
                "manifest_ref is not a verified managed object";;
              inside ← gets (fun t => match project_id with
                | Some p => negb (nonempty p) || existsb (fun r => String.eqb (po_project_id r) p &&
                                        String.eqb (po_digest r) digest) (project_objects t)
                | None => true
                end);
              guard_raise (negb inside) ConflictError "manifest_ref is outside the task project"
          end;;
          mret (Some digest)
      | _ => raiseM ValidationError "manifest_ref size must be a non-negative integer"
      end
  | _, _ => raiseM ValidationError "manifest_ref requires a canonical sha256 object_id"
  end.

(** ** The read model *)

(** A row of [_managed_output_select]: association, lifecycle and run. *)
Definition joined_output (t : tables) (a : association_row) : option (association_row * output_row * string) :=
  match find (fun l => String.eqb (l_association_id l) (mo_association_id a)) (managed_output_lifecycle t),
        task_by_id (mo_task_id a) t with
  | Some l, Some x => Some (a, l, t_run_id x)
  | _, _ => None
  end.

Definition opt_json (j : option json) : json := match j with Some v => v | None => JNull end.

Definition lifecycle_value (l : output_row) : json :=
  JObj [("state", JStr (output_state_text (l_state l))); ("version", JInt (l_version l));
        ("expires_at", opt_stamp (l_expires_at l)); ("pinned_at", opt_stamp (l_pinned_at l));
        ("lease_id", opt_str (l_lease_id l)); ("lease_owner", opt_str (l_lease_owner l));
        ("lease_expires_at", opt_stamp (l_lease_expires_at l)); ("updated_at", jstamp (l_updated_at l))].

Definition managed_output_value (row : association_row * output_row * string) : json :=
  let '(a, l, run_id) := row in
  JObj [("association_id", JStr (mo_association_id a)); ("task_id", JStr (mo_task_id a));
        ("attempt_id", JStr (mo_attempt_id a)); ("project_id", opt_str (mo_project_id a));
        ("output_port", mo_output_port a); ("group_key", mo_group_key a);
        ("generation_id", mo_generation_id a); ("variant_key", mo_variant_key a);
        ("size", JInt (mo_size a)); ("filename", mo_filename a); ("media_type", mo_media_type a);
        ("ordinal", JInt (mo_ordinal a)); ("role", mo_role a); ("durability", mo_durability a);
        ("created_at", jstamp (mo_created_at a)); ("run_id", JStr run_id);
        ("state", JStr (output_state_text (l_state l))); ("version", JInt (l_version l));
        ("expires_at", opt_stamp (l_expires_at l)); ("pinned_at", opt_stamp (l_pinned_at l));
        ("lease_id", opt_str (l_lease_id l)); ("lease_owner", opt_str (l_lease_owner l));
        ("lease_expires_at", opt_stamp (l_lease_expires_at l));
        ("lifecycle_updated_at", jstamp (l_updated_at l));
        ("producer", mo_producer_json a); ("provenance", mo_provenance_json a);
        ("regeneration", opt_json (mo_regeneration_json a)); ("coverage", opt_json (mo_coverage_json a));
        ("object_id", JStr ("sha256:" +:+ mo_object_digest a));
        ("digest", JStr ("sha256:" +:+ mo_object_digest a));
        ("manifest_ref", if str_truthy (mo_manifest_digest a)
                         then JStr ("sha256:" +:+ default EmptyString (mo_manifest_digest a)) else JNull);
        ("selector", JObj [("group_key", mo_group_key a); ("variant_key", mo_variant_key a)]);
        ("lifecycle", lifecycle_value l)].

Definition output_by_id (association_id : string) (t : tables) : option (association_row * output_row * string) :=
  match find (fun a => String.eqb (mo_association_id a) association_id) (managed_output_associations t) with
  | Some a => joined_output t a
  | None => None
  end.

(** [ORDER BY a.created_at, a.association_id] *)
Definition by_association (x y : association_row * output_row * string) : bool :=
  let a := x.1.1 in let b := y.1.1 in
  if bool_decide (mo_created_at a = mo_created_at b)
  then String.leb (mo_association_id a) (mo_association_id b)
  else stamp_leb (mo_created_at a) (mo_created_at b).

Definition task_outputs (task_id : string) (t : tables) : list (association_row * output_row * string) :=
  sort by_association (omap (joined_output t)
    (List.filter (fun a => String.eqb (mo_task_id a) task_id) (managed_output_associations t))).

Definition list_managed_outputs (task_id : string) : M (list json) :=
  rows ← gets (task_outputs task_id);
  mret (map managed_output_value rows).

Definition get_managed_output (association_id : string) : M json :=
  row ← gets (output_by_id association_id);
  match row with
  | None => raiseM NotFoundError "managed output not found"
  | Some r => mret (managed_output_value r)
  end.

Definition recoverable_snapshots (parent_attempt_id attempt_id : option string) (output_port : json)
  : M (list json) :=
  rows ← gets (fun t => omap (joined_output t) (List.filter (fun a =>
    is_json_str "recoverable_snapshot" (mo_role a) &&
    match parent_attempt_id with
    | Some p => is_json_str p (jget (mo_provenance_json a) "parent_attempt_id")
    | None => true
    end &&
    match attempt_id with Some i => String.eqb (mo_attempt_id a) i | None => true end &&
    (is_null output_port || py_eq (mo_output_port a) output_port)) (managed_output_associations t)));
  mret (map managed_output_value rows).

(** ** Association *)

(** The Runtime-owned custody facts a child cannot forge. *)
Definition custody_provenance (provenance : json) (task_id attempt_id : string)
    (task : option task_row) (attempt : option attempt_row) (epoch : Z) : json :=
  let p := jset (jset provenance "task_id" (JStr task_id)) "attempt_id" (JStr attempt_id) in
  let p := match task with Some x => jset p "capability_id" (JStr (t_capability x)) | None => p end in
  match attempt with
  | Some a => jset (jset (jset p "executor_id" (JStr (at_executor_id a))) "fence" (JInt (at_fence a)))
                "runtime_epoch" (JInt (at_runtime_epoch a))
  | None => jset p "runtime_epoch" (JInt epoch)
  end.

Definition association_identity (task_id : string) (output_port group_key generation_id variant_key : json)
    (ordinal : Z) : string :=
  "managed-output-" +:+ sha256 (canonical_json (JObj [
    ("task_id", JStr task_id); ("output_port", output_port); ("group_key", group_key);
    ("generation_id", generation_id); ("variant_key", variant_key); ("ordinal", JInt ordinal)])).

(** The CHECK constraints of the row; INSERT OR IGNORE skips a row that fails
    one of them or repeats a key, but not one with a dangling reference. *)
Definition association_valid (a : association_row) : bool :=
  (0 <=? mo_size a) && (0 <=? mo_ordinal a) && negb (is_null (mo_output_port a)) &&
  negb (is_null (mo_group_key a)) && negb (is_null (mo_variant_key a)) &&
  negb (is_null (mo_filename a)) && negb (is_null (mo_media_type a)) && negb (is_null (mo_role a)) &&
  (is_json_str "durable" (mo_durability a) || is_json_str "temporary" (mo_durability a)).

Definition same_association (a b : association_row) : bool :=
  String.eqb (mo_association_id b) (mo_association_id a) ||
  (String.eqb (mo_task_id b) (mo_task_id a) && py_eq (mo_output_port b) (mo_output_port a) &&
   py_eq (mo_group_key b) (mo_group_key a) && (mo_ordinal b =? mo_ordinal a) &&
   py_eq (mo_variant_key b) (mo_variant_key a)).

Definition association_references (a : association_row) (t : tables) : bool :=
  existsb (fun x => String.eqb (t_id x) (mo_task_id a)) (tasks t) &&
  existsb (fun x => String.eqb (at_id x) (mo_attempt_id a)) (attempts t) &&
  existsb (fun o => String.eqb (o_digest o) (mo_object_digest a)) (objects t) &&
  match mo_manifest_digest a with
  | Some d => existsb (fun o => String.eqb (o_digest o) d) (objects t)
  | None => true
  end &&
  match mo_project_id a with
  | Some p => existsb (fun x => String.eqb (p_id x) p) (projects t)
  | None => true
  end.

Definition insert_association (a : association_row) : M unit :=
  skipped ← gets (fun t => negb (association_valid a) ||
                           existsb (same_association a) (managed_output_associations t));
  if (skipped : bool) then mret tt else
  known ← gets (association_references a);
  foreign_key known;;
  modify (fun t => t {{ managed_output_associations := managed_output_associations t ++ [a] }}).

Definition insert_output_lifecycle (row : output_row) : M unit :=
  known ← gets (fun t => existsb (fun a => String.eqb (mo_association_id a) (l_association_id row))
                           (managed_output_associations t));
  taken ← gets (fun t => existsb (fun l => String.eqb (l_association_id l) (l_association_id row))
                           (managed_output_lifecycle t));
  if (taken : bool) then mret tt else
  foreign_key known;;
  modify (fun t => t {{ managed_output_lifecycle := managed_output_lifecycle t ++ [row] }}).

(** What an applied effect contributes to an association: the generation id
    and a selector for the provenance.  The dictionary of overrides, keyed by
    (port, group, variant, ordinal), is a list of [key, override] pairs. *)
Definition effect_override (applied_effect : json) (key : list json) : json * json :=
  if is_dict applied_effect && is_json_str "generation.publish_v1" (jget applied_effect "effect_type") then
    let entries := match jget applied_effect "_association_overrides" with JArr l => l | _ => [] end in
    match find (fun e => match e with JArr [k; _] => py_eq k (JArr key) | _ => false end) entries with
    | Some (JArr [_; override]) => (jget override "generation_id", jget override "selector")
    | _ => (JNull, JNull)
    end
  else if is_dict applied_effect then (jget applied_effect "generation_id", JNull)
  else (JNull, JNull).

Definition associate_output (task_id attempt_id : string) (project_id : option string)
    (applied_effect : json) (manifest_digest : option string) (timestamp : stamp)
    (acc : list json) (output : json) : M (list json) :=
  if negb (is_dict output) || negb (is_json_str "object" (jget output "kind")) then mret acc else
  digest ← (j ← jitem output "digest"; d ← py_str j; mret (remove_prefix "sha256:" d));
  let output_port := jget_def output "output_port" (jget_def output "name" (JStr "output")) in
  let group_key := jget_def output "group_key" (JStr "default") in
  ordinal_text ← py_str (jget_def output "ordinal" (JInt 0));
  let variant_key := jget_def output "variant_key" (JStr ordinal_text) in
  ordinal ← py_int (jget_def output "ordinal" (JInt 0));
  let '(generation_id, selector) :=
    effect_override applied_effect [output_port; group_key; variant_key; JInt ordinal] in
  let role := py_or (jget output "role") (JStr "output") in
  let durability := jget_def output "durability" (JStr "durable") in
  let producer := py_or (jget output "producer") (JObj []) in
  let provenance := py_or (jget output "provenance") (JObj []) in
  let provenance := if is_null selector then provenance else jset provenance "selector" selector in
  task ← gets (task_by_id task_id);
  attempt ← gets (attempt_by_id attempt_id);
  epoch ← gets current_runtime_epoch;
  let producer := match task with
                  | Some x => if jhas producer "capability_id" then producer
                              else jset producer "capability_id" (JStr (t_capability x))
                  | None => producer
                  end in
  let provenance := custody_provenance provenance task_id attempt_id task attempt epoch in
  let association_id := association_identity task_id output_port group_key generation_id variant_key ordinal in
  size ← (j ← jitem output "size"; py_int j);
  insert_association (Association association_id task_id attempt_id project_id output_port group_key
    generation_id variant_key digest manifest_digest size
    (jget_def output "filename" (jget_def output "name" (JStr "output")))
    (jget_def output "media_type" (JStr "application/octet-stream")) ordinal role
    (json_column producer) (json_column provenance) durability
    (not_null (json_column (jget output "regeneration"))) (not_null (json_column (jget output "coverage")))
    timestamp);;
  let state := if is_json_str "temporary" durability then Temporary else Available in
  insert_output_lifecycle (Output association_id state 1 None None None None None timestamp timestamp);;
  row ← gets (output_by_id association_id);
  match row with
  | None => raiseM TypeError "'NoneType' object is not iterable"
  | Some r => mret (acc ++ [managed_output_value r])
  end.

Definition associate_managed_outputs (result : json) (task_id attempt_id : string)
    (project_id : option string) (applied_effect : json) (created_at : option stamp) : M (list json) :=
  timestamp ← match created_at with
              | Some s => if stamp_truthy (Some s) then mret s else now
              | None => now
              end;
  declared ← validated_manifest_digest result project_id;
  outputs ← outputs_of result;
  manifest ← match declared with
             | Some d => mret (Some d)
             | None => match first_output outputs "role" (JStr "manifest") with
                       | Some o => j ← jitem o "digest"; d ← py_str j; mret (Some (remove_prefix "sha256:" d))
                       | None => mret None
                       end
             end;
  foldS (associate_output task_id attempt_id project_id applied_effect manifest timestamp) [] outputs.

(** ** Lifecycle *)

Definition lifecycle_operations : list string :=
  ["lease"; "release"; "pin"; "unpin"; "expire"; "reclaim"; "promote"].

(** The columns an operation decides. *)
Record output_change := OutputChange {
  oc_state : OutputState; oc_expires : option stamp; oc_pinned : option stamp;
  oc_lease_id : option string; oc_lease_owner : option string; oc_lease_expires : option stamp }.

Definition active_lease (l : output_row) (timestamp : stamp) : bool :=
  str_truthy (l_lease_id l) &&
  match l_lease_expires_at l with
  | Some e => stamp_truthy (Some e) && stamp_ltb timestamp e
  | None => false
  end.

Definition state_details (s : OutputState) : json := details1 "state" (JStr (output_state_text s)).

Definition first_text (a b : option string) : option string := if str_truthy a then a else b.

Definition output_transition (operation : string) (a : association_row) (l : output_row)
    (lease_id lease_owner : option string) (lease_seconds : json) (timestamp : stamp) : M output_change :=
  let state := l_state l in
  let leased := active_lease l timestamp in
  let foreign := leased && str_truthy lease_id && negb (opt_str_eqb lease_id (l_lease_id l)) in
  let protected := stamp_truthy (l_pinned_at l) || leased in
  let keep := OutputChange state (l_expires_at l) (l_pinned_at l) (l_lease_id l) (l_lease_owner l)
                (l_lease_expires_at l) in
  let gone := bool_decide (state = Expired) || bool_decide (state = Reclaimed) in
  if String.eqb operation "lease" then
    guard_raise_with gone ConflictError "managed output is not leaseable" (state_details state);;
    guard_raise foreign ConflictError "managed output lease is held by another owner";;
    guard_raise (is_null lease_seconds) ValidationError "managed output lease_seconds is required";;
    match lease_seconds with
    | JInt seconds =>
        guard_raise (seconds <=? 0) ValidationError "managed output lease_seconds must be a positive integer";;
        id ← match first_text lease_id (l_lease_id l) with
             | Some i => if nonempty i then mret i else n ← new_id; mret ("managed-lease-" +:+ n)
             | None => n ← new_id; mret ("managed-lease-" +:+ n)
             end;
        let owner := match first_text lease_owner (l_lease_owner l) with
                     | Some o => if nonempty o then o else "managed-output-client"
                     | None => "managed-output-client"
                     end in
        expires ← now_plus seconds;
        mret (OutputChange state (l_expires_at l) (l_pinned_at l) (Some id) (Some owner) (Some expires))
    | _ => raiseM ValidationError "managed output lease_seconds must be a positive integer"
    end
  else if String.eqb operation "release" then
    guard_raise foreign ConflictError "managed output lease does not belong to caller";;
    mret (OutputChange state (l_expires_at l) (l_pinned_at l) None None None)
  else if String.eqb operation "pin" then
    guard_raise_with gone ConflictError "managed output cannot be pinned" (state_details state);;
    mret (OutputChange state (l_expires_at l)
            (if stamp_truthy (l_pinned_at l) then l_pinned_at l else Some timestamp)
            (l_lease_id l) (l_lease_owner l) (l_lease_expires_at l))
  else if String.eqb operation "unpin" then
    mret (OutputChange state (l_expires_at l) None (l_lease_id l) (l_lease_owner l) (l_lease_expires_at l))
  else if String.eqb operation "expire" then
    guard_raise_with (negb (bool_decide (state = Temporary))) ConflictError
      "only temporary managed outputs can expire" (state_details state);;
    guard_raise protected ConflictError "managed output is protected from expiry";;
    mret (OutputChange Expired (if stamp_truthy (l_expires_at l) then l_expires_at l else Some timestamp)
            (l_pinned_at l) (l_lease_id l) (l_lease_owner l) (l_lease_expires_at l))
  else if String.eqb operation "reclaim" then
    guard_raise_with (negb (bool_decide (state = Expired))) ConflictError
      "only expired managed outputs can be reclaimed" (state_details state);;
    guard_raise protected ConflictError "managed output is protected from reclaim";;
    mret (OutputChange Reclaimed (l_expires_at l) (l_pinned_at l) None None None)
  else if String.eqb operation "promote" then
    guard_raise_with (negb (bool_decide (state = Available) || bool_decide (state = Temporary))) ConflictError
      "managed output cannot be promoted" (state_details state);;
    match mo_project_id a with
    | None => raiseM ConflictError "managed output promotion requires a project association"
    | Some project =>
        modify (fun t => t {{ project_objects :=
          insert_or_ignore (fun r => String.eqb (po_project_id r) project &&
                                     String.eqb (po_digest r) (mo_object_digest a) &&
                                     String.eqb (po_relation r) "promoted")
            (ProjectObject project (mo_object_digest a) "promoted" timestamp) (project_objects t) }});;
        mret (OutputChange Promoted None (l_pinned_at l) None None None)
    end
  else mret keep.

Definition apply_change (c : output_change) (timestamp : stamp) (l : output_row) : output_row :=
  Output (l_association_id l) (oc_state c) (l_version l + 1) (oc_expires c) (oc_pinned c)
    (oc_lease_id c) (oc_lease_owner c) (oc_lease_expires c) timestamp (l_created_at l).

Definition update_managed_output_lifecycle (association_id operation : string) (expected_version : json)
    (lease_id lease_owner : option string) (lease_seconds : json) : M json :=
  row ← gets (output_by_id association_id);
  match row with
  | None => raiseM NotFoundError "managed output not found"
  | Some (a, l, _) =>
      match epoch_number expected_version with
      | None => raiseM ValidationError "managed output expected_version must be a positive integer"
      | Some expected =>
          guard_raise (expected <? 1) ValidationError
            "managed output expected_version must be a positive integer";;
          let actual := l_version l in
          guard_raise_with (negb (expected =? actual)) ConflictError
            "managed output lifecycle version conflict"
            (JObj [("expected", JInt expected); ("actual", JInt actual)]);;
          guard_raise (negb (str_in operation lifecycle_operations)) ValidationError
            "unsupported managed output lifecycle operation";;
          timestamp ← now;
          change ← output_transition operation a l lease_id lease_owner lease_seconds timestamp;
          let mine x := String.eqb (l_association_id x) association_id && (l_version x =? actual) in
          changed ← gets (fun t => rowcount mine (managed_output_lifecycle t));
          modify (fun t => t {{ managed_output_lifecycle :=
            update_where mine (apply_change change timestamp) (managed_output_lifecycle t) }});;
          guard_raise (negb (Nat.eqb changed 1)) ConflictError "managed output lifecycle changed during update";;
          get_managed_output association_id
      end
  end.
End Outputs.
