(* ===== verification/Settle.v ===== *)
(** * Settlement, failure and heartbeats

    How a lease holder reports back in [runtime_protocol/store.py]:
    [_settle_attempt], [fail_task] and [heartbeat_task], each behind the same
    lease fence.  The typed settlement effects (generation publication and its
    relatives) and the CAS publication are callbacks of the settlement. *)

From Stdlib Require Import ZArith String Ascii List Bool Lia.
From stdpp Require Import base list strings.
From S2P Require Import Prelude Json Errors Facts Sha256 Store Idempotency Ledger Bindings.
From S2P Require Import Executors Continuations Delegation Outputs.

Open Scope Z_scope.

(** What [_settle_attempt] calls back into: the publication of staged bytes,
    the validation of a typed effect, and its application, which returns the
    facts it wrote ([JNull] for none). *)
Record settlement := Settlement {
  st_publish : option (M unit);
  st_validate_effect : json -> option string -> json -> json -> M unit;
  st_apply_effect : json -> option string -> json -> string -> json -> stamp -> string -> M json }.

Section Settle.
Context `{World}.

(** ** The lease fence *)

(** The checks [_settle_attempt], [fail_task] and [heartbeat_task] share: the
    caller holds the current lease and fence, and the lease has not expired. *)
Definition check_lease (task : task_row) (lease_token : string) (fence : option Z) : M unit :=
  guard_raise (negb (bool_decide (t_status task = Running)) ||
               negb (opt_str_eqb (t_lease_token task) (Some lease_token))) LeaseError
    "attempt lease is stale or already settled";;
  (match fence with
   | Some f => guard_raise_with (negb (f =? t_lease_fence task)) LeaseError "attempt fence is stale"
                 (JObj [("expected", JInt (t_lease_fence task)); ("actual", JInt f)])
   | None => mret tt
   end);;
  if negb (stamp_truthy (t_lease_expires_at task)) then mret tt else
  us ← utcnow;
  match t_lease_expires_at task with
  | Some deadline =>
      match expired_at deadline us with
      | Some expired => guard_raise expired LeaseError "attempt lease has expired"
      | None => raiseM LeaseError "attempt lease deadline is invalid"
      end
  | None => mret tt
  end.

Definition leased_task (task_id lease_token : string) (fence : option Z) : M task_row :=
  row ← gets (task_by_id task_id);
  match row with
  | None => raiseM NotFoundError "task not found"
  | Some task => check_lease task lease_token fence;; mret task
  end.

(** ** Heartbeats *)

Definition heartbeat_task (task_id lease_token : string) (fence : option Z) (lease_seconds : Z)
    (record : recorder) : M json :=
  guard_raise (lease_seconds <=? 0) ValidationError "lease_seconds must be positive";;
  task ← leased_task task_id lease_token fence;
  deadline ← now_plus lease_seconds;
  transaction (
    timestamp ← now;
    update_tasks (is_task task_id) (fun x => x {{
      t_lease_expires_at := Some deadline; t_updated_at := timestamp }});;
    update_reservations (fun r => String.eqb (rv_task_id r) task_id &&
                                  String.eqb (rv_lease_token r) lease_token && active r)
      (fun r => r {{ rv_lease_expires_at := Some deadline }});;
    seen ← now;
    update_executors (fun x => opt_str_eqb (Some (ex_id x)) (t_executor_id task))
      (fun x => x {{ ex_last_seen_at := Some seen }});;
    value ← get_task task_id;
    record value [] None None;;
    mret value).

(** ** Failure *)

Definition mark_failed (result : json) (timestamp : stamp) (x : task_row) : task_row :=
  x {{ t_status := Failed; t_result_json := Some (json_column result); t_lease_expires_at := None;
       t_waiting_reason := None; t_updated_at := timestamp }}.

Definition settle_attempt_row (attempt_id : string) : M unit :=
  update_attempts (fun a => String.eqb (at_id a) attempt_id && negb (at_settled a))
    (fun a => a {{ at_settled := true }}).

Definition fail_task (task_id lease_token : string) (failure : json) (fence : option Z)
    (attempt_id : option string) (record : recorder) : M json :=
  task ← leased_task task_id lease_token fence;
  transaction (
    contain_delegated_children task_id attempt_id "parent_failed";;
    timestamp ← now;
    update_tasks (is_task task_id) (mark_failed (JObj [("error", failure)]) timestamp);;
    set_run_status (t_run_id task) Failed timestamp;;
    (match attempt_id with Some a => settle_attempt_row a | None => mret tt end);;
    release_reservations task_id (Some lease_token) None;;
    release_execution_attempt task_id Released;;
    event_id ← append_event (t_run_id task) (Some task_id) "task.failed" (JObj [("error", failure)]) None;
    refresh_continuations_for_predecessor task_id;;
    value ← get_task task_id;
    record value [event_id] (Some (t_run_id task)) None;;
    mret value).

(** ** Settlement *)

Definition output_mismatch (output : json) (a : json) : bool :=
  negb (is_json_str "durable" (jget a "durability")) ||
  negb (existsb (fun s => is_json_str s (jget (jget a "lifecycle") "state")) ["available"; "promoted"]) ||
  negb (py_eq (jget a "size") (jget output "size")) ||
  negb (py_eq (jget a "media_type") (jget output "media_type")).

(** One output of an accepted child. *)
Definition check_child_output (child : task_row) (associations : list json) (output : json) : M unit :=
  if negb (is_json_str "object" (jget_def output "kind" (JStr "object"))) then mret tt else
  let port := jget_def output "output_port" (jget_def output "name" (JStr "output")) in
  let matches := List.filter (fun a => py_eq (jget a "object_id") (jget output "digest") &&
                                       py_eq (jget a "output_port") port &&
                                       py_eq (jget a "attempt_id") (opt_str (t_attempt_id child))) associations in
  guard_raise (nil_or matches || existsb (output_mismatch output) matches) ConflictError
    "accepted child output is not a verified durable managed output".

Definition check_child_completed (child : task_row) : M unit :=
  guard_raise_with (negb (bool_decide (t_status child = Completed))) ConflictError
    "parent success requires every accepted child to complete"
    (JObj [("child_task_id", JStr (t_id child)); ("status", JStr (status_text (t_status child)))]);;
  settled ← gets (fun t => existsb (fun a => opt_str_eqb (Some (at_id a)) (t_attempt_id child) &&
                                             String.eqb (at_task_id a) (t_id child) && at_settled a) (attempts t));
  guard_raise (negb settled) ConflictError "accepted child attempt is not settled";;
  outputs ← outputs_of (default (JObj []) (t_result_json child));
  listed ← list_managed_outputs (t_id child);
  let associations := List.filter (fun a => negb (is_json_str "recoverable_snapshot" (jget a "role"))) listed in
  for_each outputs (check_child_output child associations).

Definition assert_delegated_children_completed (task_id attempt_id : string) : M unit :=
  children ← gets (delegated_children task_id (Some attempt_id));
  for_each children check_child_completed.

Definition append_effects : list string :=
  ["generation.variant.append"; "generation.create_with_variant"; "generation.publish_v1";
   "generation.thumbnail.attach"].

Definition effect_type (effect : json) : json := jget effect "effect_type".

Definition public_items (value : json) : json :=
  JObj (List.filter (fun kv => negb (String.prefix "_" kv.1)) (jfields value)).

(** The result with what the applied effect adds to it. *)
Definition effect_result (effect result applied : json) : json :=
  if is_null applied then result
  else if is_json_str "generation.publish_v1" (effect_type effect)
  then jset result "generation_publish_v1" (public_items applied)
  else if is_json_str "generation.thumbnail.attach" (effect_type effect)
  then jset result "generation_thumbnail" applied
  else jset result "generation_variant" applied.

Definition mark_completed (result : json) (timestamp : stamp) (x : task_row) : task_row :=
  x {{ t_status := Completed; t_result_json := Some (json_column result); t_lease_expires_at := None;
       t_waiting_reason := None; t_updated_at := timestamp }}.

Definition run_publish (publish : option (M unit)) : M unit :=
  match publish with Some p => p | None => mret tt end.

(** The effect and publication steps: what is applied, in the order the kind
    of effect requires. *)
Definition settle_effects (calls : settlement) (task_id attempt_id : string) (project : option string)
    (input_ids effect result : json) (timestamp : stamp) : M json :=
  (if is_null effect then mret tt else st_validate_effect calls effect project result input_ids);;
  validated_manifest_digest result project;;
  append_effect ← (if is_null effect then mret false else lift (in_set (effect_type effect) append_effects));
  (if (append_effect : bool) then run_publish (st_publish calls) else mret tt);;
  applied ← (if is_null effect then mret JNull
             else st_apply_effect calls effect project result task_id input_ids timestamp attempt_id);
  (if (append_effect : bool) then mret tt else run_publish (st_publish calls));;
  mret applied.

(** The writes of the settlement proper. *)
Definition commit_settlement (task : task_row) (lease_token attempt_id : string) (effect result : json)
    (timestamp : stamp) (record : recorder) : M json :=
  let task_id := t_id task in
  update_tasks (is_task task_id) (mark_completed result timestamp);;
  set_run_status (t_run_id task) Completed timestamp;;
  settle_attempt_row attempt_id;;
  release_reservations task_id (Some lease_token) (Some timestamp);;
  release_execution_attempt task_id Released;;
  event_id ← append_event (t_run_id task) (Some task_id) "task.completed"
    (JObj [("result", result); ("effect", effect); ("objects", jget_def result "outputs" (JArr []))])
    (Some timestamp);
  continuation_event_ids ← refresh_continuations_for_predecessor task_id;
  value ← get_task task_id;
  record value (event_id :: continuation_event_ids) (Some (t_run_id task)) (Some timestamp);;
  mret value.

(** The rest of the settlement, for the row that passed the lease check. *)
Definition settle_leased (calls : settlement) (task : task_row) (lease_token : string) (result effect : json)
    (attempt_id : string) (record : recorder) : M json :=
  let task_id := t_id task in
  let declared := default JNull (t_expected_effect_json task) in
  task_spec ← spec_of task;
  let input_ids := jget_def task_spec "input_object_ids" (JArr []) in
  guard_raise_with (negb (is_null effect) && negb (py_eq declared effect)) ValidationError
    "settlement effect was not predeclared" (details1 "declared" declared);;
  guard_raise (negb (is_null declared) && is_null effect) ValidationError
    "declared settlement effect is required";;
  run ← gets (run_by_id (t_run_id task));
  let project := match run with Some r => r_project_id r | None => None end in
  guard_raise (is_json_str "generation.publish_v1" (effect_type effect) && negb (str_truthy project))
    ConflictError "generation.publish_v1 requires a project-scoped task";;
  transaction (
    timestamp ← now;
    assert_delegated_children_completed task_id attempt_id;;
    applied ← settle_effects calls task_id attempt_id project input_ids effect result timestamp;
    let result := effect_result effect result applied in
    associate_managed_outputs result task_id attempt_id project applied (Some timestamp);;
    commit_settlement task lease_token attempt_id effect result timestamp record).

Definition settle_attempt (calls : settlement) (task_id lease_token : string) (result effect : json)
    (fence : option Z) (attempt_id : string) (record : recorder) : M json :=
  task ← leased_task task_id lease_token fence;
  settle_leased calls task lease_token result effect attempt_id record.
End Settle.
