(* ===== verification/Runs.v ===== *)
(** * Runs and retention

    [cancel_run] and [retry_run] of [runtime_protocol/store.py], the commands
    over all tasks of a run with their own replay receipts, and the retirement
    of terminal specs ([retire_terminal_specs]). *)

From Stdlib Require Import ZArith String Ascii List Bool Lia.
From stdpp Require Import base list strings.
From S2P Require Import Prelude Json Errors Facts Sha256 Store Idempotency Ledger Bindings.
From S2P Require Import Executors Continuations Delegation.

Open Scope Z_scope.

Definition SPEC_RETENTION_DAYS : Z := 30.
Definition terminal : list Status := [Completed; Failed; Cancelled].
Definition DAY_SECONDS : Z := 86400.

Section Runs.
Context `{World}.

Definition run_tasks (run_id : string) (t : tables) : list task_row :=
  sort by_creation (List.filter (fun x => String.eqb (t_run_id x) run_id) (tasks t)).

(** The receipt of a run command: no project sequence, the plain result. *)
Definition record_run_command (kind run_id : string) (idempotency_key : option string)
    (request_hash : string) (result : json) : M unit :=
  if negb (str_truthy idempotency_key) then mret tt else
  timestamp ← now;
  insert_receipt (Receipt kind run_id (default EmptyString idempotency_key) request_hash
    (canonical_json result) timestamp None None None None None None).

(** The replay of a run command: [None] when the key is new. *)
Definition replay_run_command (kind run_id : string) (idempotency_key : option string)
    (request_hash : string) : M (option json) :=
  if negb (str_truthy idempotency_key) then mret None else
  prior ← gets (receipt_of kind run_id (default EmptyString idempotency_key));
  match prior with
  | None => mret None
  | Some receipt =>
      guard_raise (negb (String.eqb (rc_request_hash receipt) request_hash)) ConflictError
        "idempotency key was already used with different input";;
      value ← command_result (rc_result_json receipt) (Some (rc_created_at receipt));
      mret (Some value)
  end.

Definition run_result (run_id : string) : M json :=
  row ← gets (run_by_id run_id);
  match row with
  | Some r => mret (run_json r)
  | None => raiseM TypeError "'NoneType' object is not iterable"
  end.

(** ** Cancellation *)

Definition cancel_run_task (run_id : string) (timestamp : stamp) (acc : list string * list string)
    (task : task_row) : M (list string * list string) :=
  let '(cancelled, requested) := acc in
  if status_in (t_status task) terminal then mret acc else
  contain_delegated_children (t_id task) None "parent_run_cancelled";;
  binding ← execution_binding (t_id task);
  if unresolved_external binding then
    update_tasks (is_task (t_id task)) (request_cancel timestamp);;
    release_execution_attempt (t_id task) Stale;;
    append_event run_id (Some (t_id task)) "task.cancel_requested"
      (cancel_requested_payload [("reason", JStr "run.cancelled")] task binding) None;;
    mret (cancelled, requested ++ [t_id task])
  else
    reconcile_runtime_attempt (t_id task) (t_attempt_id task);;
    update_tasks (is_task (t_id task)) (mark_cancelled timestamp);;
    release_reservations (t_id task) (t_lease_token task) None;;
    (match binding with
     | Some _ => release_execution_attempt (t_id task) Released
     | None => mret tt
     end);;
    append_event run_id (Some (t_id task)) "task.cancelled" (JObj [("reason", JStr "run.cancelled")]) None;;
    refresh_continuations_for_predecessor (t_id task);;
    mret (cancelled ++ [t_id task], requested).

Definition cancel_run (run_id : string) (idempotency_key : option string) : M json :=
  row ← gets (run_by_id run_id);
  match row with
  | None => raiseM NotFoundError "run not found"
  | Some run =>
      let request_hash := sha256 "{}" in
      replay ← replay_run_command "run.cancel" run_id idempotency_key request_hash;
      match replay with
      | Some value => mret value
      | None =>
          guard_raise_with (negb (status_in (r_status run) [Queued; Running])) ConflictError
            "run is not cancellable" (details1 "status" (JStr (status_text (r_status run))));;
          transaction (
            timestamp ← now;
            children ← gets (run_tasks run_id);
            '(cancelled, requested) ← foldS (cancel_run_task run_id timestamp) ([], []) children;
            set_run_status run_id Cancelled timestamp;;
            append_event run_id None "run.cancelled"
              (JObj [("task_ids", jstrs cancelled); ("cancel_requested_task_ids", jstrs requested)]) None;;
            result ← run_result run_id;
            record_run_command "run.cancel" run_id idempotency_key request_hash result;;
            mret result)
      end
  end.

(** ** Retention *)

Definition configured_spec_retention_days : M Z :=
  days ← match getenv "ASTRID_RUNTIME_SPEC_RETENTION_DAYS" with
         | None => mret SPEC_RETENTION_DAYS
         | Some text => match int_of_text text with
                        | Some z => mret z
                        | None => raiseM ValidationError "ASTRID_RUNTIME_SPEC_RETENTION_DAYS must be an integer"
                        end
         end;
  guard_raise (days <? 2) ValidationError "ASTRID_RUNTIME_SPEC_RETENTION_DAYS must be at least 2";;
  mret days.

(** The WHERE clauses of [retire_terminal_specs]. *)
Definition replay_window_open (replay_cutoff : stamp) (t : tables) (r : run_row) : bool :=
  match r_idempotency_key r with
  | None => false
  | Some key =>
      existsb (fun c => String.eqb (rc_command_kind c) "task.create" &&
                        String.eqb (rc_aggregate_id c) (default "unscoped" (r_project_id r)) &&
                        String.eqb (rc_idempotency_key c) key &&
                        negb (stamp_ltb (rc_created_at c) replay_cutoff)) (command_idempotency t)
  end.

Definition feeds_live_continuation (t : tables) (task_id : string) : bool :=
  existsb (fun d => String.eqb (d_predecessor_task_id d) task_id &&
                    existsb (fun x => is_task (d_continuation_task_id d) x &&
                                      negb (status_in (t_status x) terminal)) (tasks t)) (task_dependencies t).

Definition has_spec (d : option string) : bool := match d with Some _ => true | None => false end.

Definition retirable_task (cutoff replay_cutoff : stamp) (t : tables) (x : task_row) : bool :=
  has_spec (t_spec_digest x) && status_in (t_status x) terminal && stamp_ltb (t_updated_at x) cutoff &&
  existsb (fun r => is_run (t_run_id x) r && status_in (r_status r) terminal &&
                    stamp_ltb (r_updated_at r) cutoff && negb (replay_window_open replay_cutoff t r)) (runs t) &&
  negb (feeds_live_continuation t (t_id x)).

Definition retire_task_row (x : task_row) : task_row :=
  x {{ t_spec_digest := None; t_expected_effect_json := None; t_execution_request_json := None }}.

Definition retirable_run (cutoff : stamp) (t : tables) (r : run_row) : bool :=
  has_spec (r_spec_digest r) && status_in (r_status r) terminal && stamp_ltb (r_updated_at r) cutoff &&
  negb (existsb (fun x => String.eqb (t_run_id x) (r_id r) && has_spec (t_spec_digest x)) (tasks t)).

Definition referenced_spec (t : tables) (s : spec_row) : bool :=
  existsb (fun x => opt_str_eqb (t_spec_digest x) (Some (sp_digest s))) (tasks t) ||
  existsb (fun r => opt_str_eqb (r_spec_digest r) (Some (sp_digest s))) (runs t).

Definition retire_terminal_specs (retention_days : option Z) : M json :=
  days ← match retention_days with Some d => mret d | None => configured_spec_retention_days end;
  guard_raise (days <? 2) ValidationError "retention_days must be an integer of at least 2";;
  cutoff ← now_plus (- (days * DAY_SECONDS));
  replay_cutoff ← now_plus (- IDEMPOTENCY_RESULT_WINDOW_SECONDS);
  retired_tasks ← gets (fun t => rowcount (retirable_task cutoff replay_cutoff t) (tasks t));
  modify (fun t => t {{ tasks := update_where (retirable_task cutoff replay_cutoff t) retire_task_row (tasks t) }});;
  retired_runs ← gets (fun t => rowcount (retirable_run cutoff t) (runs t));
  modify (fun t => t {{ runs := update_where (retirable_run cutoff t) (fun r => r {{ r_spec_digest := None }}) (runs t) }});;
  removed_specs ← gets (fun t => rowcount (fun s => negb (referenced_spec t s)) (task_specs t));
  modify (fun t => t {{ task_specs := List.filter (referenced_spec t) (task_specs t) }});;
  mret (JObj [("retired_tasks", JInt (Z.of_nat retired_tasks)); ("retired_runs", JInt (Z.of_nat retired_runs));
              ("removed_specs", JInt (Z.of_nat removed_specs)); ("retention_days", JInt days)]).

(** ** Retry *)

Definition selected_ids (selected_task_ids : json) : res (option (list string)) :=
  if is_null selected_task_ids then Ok None else
  match selected_task_ids with
  | JArr items =>
      raise_if_with (existsb (fun v => negb (nonempty_str v)) items) InvalidRequestError
        "selected_task_ids must be an array of non-empty strings" (details1 "field" (JStr "selected_task_ids"));;
      let ids := omap as_str items in
      raise_if_with (has_dup ids) InvalidRequestError
        "selected_task_ids must not contain duplicates" (details1 "field" (JStr "selected_task_ids"));;
      Ok (Some (sort String.leb ids))
  | _ => raise_with InvalidRequestError "selected_task_ids must be an array of non-empty strings"
           (details1 "field" (JStr "selected_task_ids"))
  end.

Definition selected_json (selected : option (list string)) : json :=
  match selected with Some l => jstrs l | None => JNull end.

Definition retry_row (timestamp : stamp) (x : task_row) : task_row :=
  x {{ t_status := Queued; t_lease_token := None; t_executor_id := None; t_lease_expires_at := None;
       t_waiting_reason := None; t_result_json := None; t_attempt_id := None; t_updated_at := timestamp }}.

Definition retry_task (run_id : string) (timestamp : stamp) (retried : list string) (task : task_row)
  : M (list string) :=
  assert_delegated_retry_capacity (t_id task);;
  release_reservations (t_id task) (t_lease_token task) None;;
  reset_execution_attempt (t_id task) None;;
  update_tasks (is_task (t_id task)) (retry_row timestamp);;
  append_event run_id (Some (t_id task)) "task.retried"
    (JObj [("from_status", JStr "failed"); ("attempt", JInt (t_attempt task + 1)); ("reason", JStr "run.retry")]) None;;
  refresh_continuations_for_predecessor (t_id task);;
  mret (retried ++ [t_id task]).

Definition is_selected (selected : option (list string)) (x : task_row) : bool :=
  match selected with Some l => str_in (t_id x) l | None => true end.

Definition retry_run (run_id : string) (selected_task_ids : json) (idempotency_key : option string) : M json :=
  row ← gets (run_by_id run_id);
  match row with
  | None => raiseM NotFoundError "run not found"
  | Some run =>
      selected ← lift (selected_ids selected_task_ids);
      let request_hash := sha256 (canonical_json (JObj [("selected_task_ids", selected_json selected)])) in
      replay ← replay_run_command "run.retry" run_id idempotency_key request_hash;
      match replay with
      | Some value => mret value
      | None =>
          guard_raise_with (negb (bool_decide (r_status run = Failed))) ConflictError
            "run is not retryable" (details1 "status" (JStr (status_text (r_status run))));;
          updated ← match r_updated_at run with
                    | At ms => mret ms
                    | Malformed _ => raiseM ValidationError "run update timestamp is invalid"
                    end;
          us ← utcnow;
          days ← configured_spec_retention_days;
          guard_raise (updated * 1000 <? us - days * DAY_SECONDS * 1000000) ConflictError
            "run retry is unavailable after the task spec retention window";;
          transaction (
            timestamp ← now;
            children ← gets (run_tasks run_id);
            let eligible := List.filter (fun x => bool_decide (t_status x = Failed) && is_selected selected x) children in
            guard_raise (existsb (fun x => negb (has_spec (t_spec_digest x))) eligible) ConflictError
              "run retry is unavailable after the task spec retention window";;
            let unknown := match selected with
                           | Some l => List.filter (fun id => negb (existsb (is_task id) children)) l
                           | None => []
                           end in
            guard_raise_with (negb (nil_or unknown)) NotFoundError "run child task not found"
              (details1 "task_ids" (jstrs unknown));;
            guard_raise_with (nil_or eligible) ConflictError "run has no eligible failed children"
              (details1 "selected_task_ids" (jstrs (default [] selected)));;
            retried ← foldS (retry_task run_id timestamp) [] eligible;
            set_run_status run_id Queued timestamp;;
            append_event run_id None "run.retried" (JObj [("task_ids", jstrs retried)]) None;;
            result ← run_result run_id;
            record_run_command "run.retry" run_id idempotency_key request_hash result;;
            mret result)
      end
  end.
End Runs.
