(* ===== verification/Admission.v ===== *)
(** * Task admission

    [RealmStore.create_task]: how a request becomes a durable run and task, is
    answered from an earlier admission under the same key, or is attached to an
    equivalent render.  The freezing of a managed render's inputs and the
    validation of typed settlement effects are callbacks of the admission. *)

From Stdlib Require Import ZArith String Ascii List Bool Lia.
From stdpp Require Import base list strings.
From S2P Require Import Prelude Json Errors Facts Sha256 Store Idempotency Ledger Bindings.
From S2P Require Import Executors Continuations Snapshots Delegation Claim Outputs Settle Runs.

Open Scope Z_scope.

(** What [create_task] calls: the freezing of a managed render (the spec with
    frozen inputs, storage estimate and snapshot reference), and
    [_validate_settlement_effect]. *)
Record admission_calls := AdmissionCalls {
  ac_freeze : option string -> json -> M json;
  ac_validate_effect : json -> option string -> json -> M unit }.

(** [shlex.quote] *)
Definition shell_safe (c : ascii) : bool :=
  is_alnum c || existsb (Ascii.eqb c)
    ["@"; "%"; "+"; "="; ":"; ","; "."; "/"; "-"; "_"]%char.
Definition single_quote : ascii := ascii_of_nat 39.
Fixpoint escape_quotes (s : string) : string :=
  match s with
  | EmptyString => EmptyString
  | String c r =>
      if Ascii.eqb c single_quote
      then String single_quote (String quote_char (String single_quote (String quote_char
             (String single_quote (escape_quotes r)))))
      else String c (escape_quotes r)
  end.
Definition shell_quote (s : string) : string :=
  if nonempty s && all_chars shell_safe s then s
  else String single_quote (escape_quotes s +:+ String single_quote EmptyString).

(** ** The request *)

Definition nested_key (spec : json) (key : string) : bool :=
  jhas spec key || (is_dict (jget spec "spec") && jhas (jget spec "spec") key).

(** The checks before any table is read: the spec and the normalised request. *)
Definition admitted_request (capability : string) (spec execution_request : json) : res (json * json) :=
  raise_if (negb (nonempty capability)) ValidationError "capability is required";;
  raise_if (negb (is_dict spec)) ValidationError "task spec must be an object";;
  raise_if (nested_key spec "execution_binding") ValidationError
    "caller-supplied execution_binding is not accepted";;
  request ← (if is_null execution_request then Ok JNull
             else normalize_execution_request execution_request (jget_def spec "input_object_ids" (JArr [])));
  raise_if (nested_key spec "execution_request") ValidationError
    "execution_request must be supplied through the first-class admission field";;
  spec ← (if jhas spec "required_facts"
          then facts ← normalize_execution_facts (jget spec "required_facts") "required_facts";
               Ok (jset spec "required_facts" facts)
          else Ok spec);
  Ok (spec, request).

(** [list(dict.fromkeys([*ids, *more]))] *)
Definition merge_ids (ids : json) (more : list string) : res json :=
  items ← py_list ids;
  let all := items ++ map JStr more in
  raise_if (existsb (fun x => negb (hashable x)) all) TypeError "unhashable type";;
  Ok (JArr (foldl (fun l x => if existsb (py_eq x) l then l else l ++ [x]) [] all)).

Definition admission_hash (capability : string) (spec request : json) (project_id : option string)
    (expected_effect : json) (capability_digest : option string) : string :=
  sha256 (canonical_json (JObj
    [("capability", JStr capability); ("spec", task_spec_for_request_hash spec);
     ("execution_request", request); ("project_id", opt_str project_id);
     ("expected_effect", expected_effect); ("capability_digest", opt_str capability_digest)])).

Definition same_json (a b : json) : bool := String.eqb (canonical_json a) (canonical_json b).

(** Whether the digests of an earlier admission contradict the request. *)
Definition digest_conflict (stored spec_digest : json) (capability_digest : option string) : bool :=
  let malformed v := negb (is_null v) && negb (nonempty_str v) in
  let admitted := if is_null stored then spec_digest else stored in
  malformed stored || malformed spec_digest ||
  (negb (is_null stored) && negb (is_null spec_digest) && negb (py_eq stored spec_digest)) ||
  match capability_digest with
  | Some d => negb (nonempty_str admitted) || negb (is_json_str d admitted)
  | None => false
  end.

Definition open_statuses : list Status := [Queued; Running; CancelRequested].

Section Admission.
Context `{World}.

Definition project_of (selector : string) : M project_row :=
  row ← gets (fun t => find (fun p => String.eqb (p_id p) selector || String.eqb (p_slug p) selector)
                         (projects t));
  match row with
  | Some p => mret p
  | None => raiseM_with NotFoundError "project not found" (details1 "project" (JStr selector))
  end.

Definition task_of_run (run_id : string) (t : tables) : option task_row :=
  find (fun x => String.eqb (t_run_id x) run_id) (tasks t).

Definition event_count (run_id : string) (t : tables) : Z :=
  Z.of_nat (length (run_events run_id (events t))).

(** ** Replays *)

(** The run admitted under the same key, with its task, when the persisted
    evidence proves that the request is the same. *)
Definition prior_admission (capability : string) (spec request : json) (project_id : option string)
    (key : string) (expected_effect : json) (capability_digest : option string)
  : M (option (run_row * task_row)) :=
  old ← gets (fun t => find (fun r => opt_str_eqb (r_project_id r) project_id &&
                                      opt_str_eqb (r_idempotency_key r) (Some key)) (runs t));
  match old with
  | None => mret None
  | Some old =>
      old_task ← gets (task_of_run (r_id old));
      match old_task with
      | None => raiseM ConflictError "persisted task admission identity is unavailable"
      | Some old_task =>
          guard_raise (negb (has_spec (r_spec_digest old)) || negb (has_spec (t_spec_digest old_task)))
            IdempotencyWindowExpired
            "task admission is outside its replay and spec retention windows; the command was not executed again";;
          old_spec ← load_spec (r_spec_digest old);
          old_request ← execution_request_from_row (t_execution_request_json old_task) (t_spec_digest old_task) None;
          let effect := default JNull (t_expected_effect_json old_task) in
          guard_raise (
            negb (same_json (canonical_task_spec_for_compare old_spec) (canonical_task_spec_for_compare spec)) ||
            negb (String.eqb (r_capability old) capability) ||
            negb (String.eqb (t_capability old_task) capability) ||
            negb (same_json (default JNull old_request) request) ||
            negb (same_json (py_or effect JNull) (py_or expected_effect JNull)) ||
            digest_conflict (opt_str (t_capability_digest old_task)) (jget old_spec "capability_digest")
              capability_digest) ConflictError
            "idempotency key was already used with different input";;
          mret (Some (old, old_task))
      end
  end.

Definition current_result (run : run_row) (task : task_row) : M json := task_result (Some run) task None None.

(** A complete receipt answers the request, or is refreshed. *)
Definition answer_receipt (aggregate_id key request_hash : string) (receipt : receipt_row)
    (old : option (run_row * task_row)) : M json :=
  if String.eqb (rc_request_hash receipt) request_hash then
    attached ← match old with
               | Some (run, task) =>
                   mret (if status_in (t_status task) open_statuses then Some (run, task) else None)
               | None =>
                   if str_truthy (rc_primary_stream_id receipt) then
                     let stream := default EmptyString (rc_primary_stream_id receipt) in
                     run ← gets (run_by_id stream);
                     task ← gets (task_of_run stream);
                     mret (match run, task with
                           | Some r, Some x => if status_in (t_status x) open_statuses then Some (r, x) else None
                           | _, _ => None
                           end)
                   else mret None
               end;
    match attached with
    | Some (run, task) => current_result run task
    | None => command_result (rc_result_json receipt) (Some (rc_created_at receipt))
    end
  else
    match old with
    | None => raiseM ConflictError "idempotency key was already used with different input"
    | Some (run, task) =>
        result ← current_result run task;
        modify (fun t => t {{ command_idempotency :=
          update_where (same_receipt "task.create" aggregate_id key)
            (fun r => r {{ rc_request_hash := request_hash; rc_result_json := canonical_json result }})
            (command_idempotency t) }});;
        mret result
    end.

(** The receipt of a request answered by the task of an existing run. *)
Definition record_existing (aggregate_id key request_hash : string)
    (run : run_row) (task : task_row) : M json :=
  result ← current_result run task;
  stream_seq ← gets (event_count (r_id run));
  record_command_receipt "task.create" aggregate_id key request_hash result aggregate_id []
    (Some (r_id run)) (Some stream_seq) None;;
  mret result.

Definition rebuild_receipt (aggregate_id key request_hash : string)
    (receipt : option receipt_row) (old : run_row * task_row) : M json :=
  result ← current_result old.1 old.2;
  (match receipt with
   | Some _ => modify (fun t => t {{ command_idempotency :=
       List.filter (fun r => negb (same_receipt "task.create" aggregate_id key r)) (command_idempotency t) }})
   | None => mret tt
   end);;
  stream_seq ← gets (event_count (r_id old.1));
  record_command_receipt "task.create" aggregate_id key request_hash result aggregate_id []
    (Some (r_id old.1)) (Some stream_seq) None;;
  mret result.

(** ** Reuse of an equivalent render *)

(** [_cas_size(digest) != size or _cas_digest(digest) != digest], file errors
    counting as a mismatch. *)
Definition output_intact (row : association_row * output_row) : M bool :=
  let '(a, l) := row in
  if bool_decide (l_state l = Expired) || bool_decide (l_state l = Reclaimed) then mret false else
  n ← tick;
  m ← tick;
  mret (match stored_object n (mo_object_digest a), stored_object m (mo_object_digest a) with
        | Some sized, Some bytes => (Z.of_nat (String.length sized) =? mo_size a) &&
                                    String.eqb (sha256 bytes) (mo_object_digest a)
        | _, _ => false
        end).

Fixpoint all_intact (rows : list (association_row * output_row)) : M bool :=
  match rows with
  | [] => mret true
  | row :: rest => ok ← output_intact row; if (ok : bool) then all_intact rest else mret false
  end.

Definition render_outputs (task_id : string) (t : tables) : list (association_row * output_row) :=
  omap (fun a => match find (fun l => String.eqb (l_association_id l) (mo_association_id a))
                         (managed_output_lifecycle t) with
                 | Some l => Some (a, l)
                 | None => None
                 end)
    (List.filter (fun a => String.eqb (mo_task_id a) task_id &&
                           negb (is_json_str "recoverable_snapshot" (mo_role a)))
       (managed_output_associations t)).

Definition is_video (a : association_row) : bool :=
  match mo_media_type a with JStr s => String.prefix "video/" s | _ => false end.

Definition reusable_render_output (task_id : string) (render_spec : json) : M bool :=
  outputs ← gets (render_outputs task_id);
  if nil_or outputs then mret false else
  let output_name := py_or (jget (dict_at render_spec "params") "output_name")
                       (jget (dict_at render_spec "inputs") "output_name") in
  if negb (existsb (fun r => is_video r.1 && (negb (truthy output_name) || py_eq (mo_filename r.1) output_name))
             outputs) then mret false else
  all_intact outputs.

(** The join of runs and tasks, newest run first; ties keep the row order. *)
Definition reuse_candidates (project_id : option string) (capability : string) (t : tables)
  : list (run_row * task_row) :=
  sort (fun a b => stamp_leb (r_created_at b.1) (r_created_at a.1))
    (omap (fun x => match run_by_id (t_run_id x) t with
                    | Some r => if opt_str_eqb (r_project_id r) project_id &&
                                   String.eqb (r_capability r) capability &&
                                   status_in (t_status x) [Queued; Running; CancelRequested; Completed]
                                then Some (r, x) else None
                    | None => None
                    end) (tasks t)).

Definition equivalent_candidate (prior_spec spec request expected_effect : json)
    (capability_digest : option string) (task : task_row) : bool :=
  opt_str_eqb (t_capability_digest task) capability_digest &&
  same_json (canonical_task_spec_for_compare prior_spec) (canonical_task_spec_for_compare spec) &&
  same_json (default JNull (t_expected_effect_json task)) (py_or expected_effect JNull) &&
  same_json (default JNull (t_execution_request_json task)) request.

Fixpoint reuse_candidate (capability : string) (spec request expected_effect : json)
    (capability_digest toolchain : option string) (candidates : list (run_row * task_row))
  : M (option (run_row * task_row)) :=
  match candidates with
  | [] => mret None
  | (run, task) :: rest =>
      let next := reuse_candidate capability spec request expected_effect capability_digest toolchain rest in
      prior_spec ← load_spec (t_spec_digest task);
      if negb (equivalent_candidate prior_spec spec request expected_effect capability_digest task)
      then next else
      if opt_str_eqb (t_waiting_reason task) (Some "provider_state_unknown") then
        raiseM_with ConflictError
          "provider/executor state must be reconciled by authorized checkpoint resume before retry"
          (JObj [("task_id", JStr (t_id task)); ("run_id", JStr (r_id run));
                 ("next_action", JStr "resume the original SDK invocation with recovery_path=<original-receipt> and resume=True");
                 ("inspect_command", JStr ("astrid-tools tasks show " +:+ t_id task +:+ " --json"))])
      else
      let render := String.eqb capability "rendering.render" in
      if render && status_in (t_status task) [Queued; Running] then mret (Some (run, task)) else
      if bool_decide (t_status task = Completed) && render &&
         match toolchain with
         | Some d => is_json_str d (jget prior_spec "_runtime_reuse_toolchain")
         | None => false
         end then
        reusable ← reusable_render_output (t_id task) (dict_at spec "spec");
        if (reusable : bool) then mret (Some (run, task)) else next
      else next
  end.

(** The toolchain identity a keyed render is admitted under. *)
Definition admission_toolchain (capability : string) (spec : json) (capability_digest : option string)
  : M (option string) :=
  toolchain ← (if String.eqb capability "rendering.render"
               then render_toolchain_digest capability capability_digest (jget spec "required_facts")
               else mret None);
  let source_digest := jget (dict_at (dict_at spec "spec") "authority_context") "render_toolchain_digest" in
  mret (if is_sha256_json source_digest then toolchain else None).

(** ** Readiness *)

(** The capability digest to record and the reason to wait. *)
Definition capability_readiness (capability : string) (capability_digest : option string)
    (enforce_readiness : bool) : M (option string * option string) :=
  registered ← gets (capability_by_id capability);
  match registered with
  | None => mret (capability_digest,
                  match capability_digest with Some _ => Some "capability_unavailable" | None => None end)
  | Some row =>
      let digest := cap_definition_digest row in
      guard_raise_with (match capability_digest with Some d => negb (String.eqb d digest) | None => false end)
        ConflictError "capability definition digest does not match registered capability"
        (JObj [("expected", JStr digest); ("actual", opt_str capability_digest)]);;
      if String.eqb (cap_status row) "ready" then mret (Some digest, None) else
      let reason := if str_truthy (cap_unavailable_reason row)
                    then default EmptyString (cap_unavailable_reason row)
                    else "capability_status_" +:+ cap_status row in
      let fix_text := if nonempty (str_strip reason) then str_strip reason else "capability is not ready" in
      guard_raise_with enforce_readiness CapabilityUnavailableError "capability is not ready for admission"
        (JObj [("capability_id", JStr capability); ("status", JStr (cap_status row)); ("reason", JStr reason);
               ("next_action", JStr ("fix: " +:+ fix_text +:+ "; run `astrid doctor --json`, then retry"))]);;
      mret (Some digest, Some "capability_unavailable")
  end.

Definition executor_readiness (capability : string) (capability_digest : option string) (spec : json)
    (enforce_readiness : bool) (waiting_reason : option string) : M (option string) :=
  if enforce_readiness && match waiting_reason with None => true | Some _ => false end then
    let facts := jget spec "required_facts" in
    live ← matching_live_executor capability capability_digest false facts;
    if (live : bool) then mret None else
    capable ← (if truthy facts then matching_live_executor capability capability_digest false JNull
               else mret false);
    mret (Some (if (capable : bool) then "waiting_for_executor_facts" else "capability_unavailable"))
  else mret waiting_reason.

Definition check_admission_storage (capability : string) (storage_estimate : json) : M unit :=
  p ← storage_preflight capability storage_estimate;
  let command := "astrid-runtime-protocol compact --root " +:+ shell_quote realm_root +:+ " --confirm " +:+
                 shell_quote ("COMPACT IDEMPOTENCY " +:+ realm_id) in
  guard_raise_with (negb (pf_ok p)) ConflictError
    ("task admission refused: storage estimate would cross the free-space floor; run " +:+ command +:+
     " offline to reclaim space")
    (jset (preflight_json p) "reclaim_command" (JStr command)).

(** Terminal specs past their retention are retired on the way. *)
Definition retire_when_due : M unit :=
  days ← configured_spec_retention_days;
  cutoff ← now_plus (- (days * DAY_SECONDS));
  due ← gets (fun t => existsb (fun x => has_spec (t_spec_digest x) && status_in (t_status x) terminal &&
                                         stamp_ltb (t_updated_at x) cutoff) (tasks t));
  if (due : bool) then retire_terminal_specs (Some days);; mret tt else mret tt.

(** ** The durable rows *)

Definition insert_run (row : run_row) : M unit :=
  clash ← gets (fun t => existsb (fun r =>
    String.eqb (r_id r) (r_id row) ||
    match r_project_id row, r_idempotency_key row with
    | Some p, Some k => opt_str_eqb (r_project_id r) (Some p) && opt_str_eqb (r_idempotency_key r) (Some k)
    | _, _ => false
    end) (runs t));
  unique (negb clash);;
  modify (fun t => t {{ runs := runs t ++ [row] }}).

Definition insert_task (row : task_row) : M unit :=
  taken ← gets (fun t => existsb (is_task (t_id row)) (tasks t));
  unique (negb taken);;
  known ← gets (fun t => existsb (is_run (t_run_id row)) (runs t));
  foreign_key known;;
  modify (fun t => t {{ tasks := tasks t ++ [row] }}).

Definition insert_binding (row : binding_row) : M unit :=
  taken ← gets (fun t => existsb (fun b => String.eqb (b_binding_id b) (b_binding_id row) ||
                                           String.eqb (b_task_id b) (b_task_id row)) (execution_bindings t));
  unique (negb taken);;
  modify (fun t => t {{ execution_bindings := execution_bindings t ++ [row] }}).

Definition new_task_row (task_id run_id capability digest : string) (capability_digest waiting_reason : option string)
    (expected_effect request : json) (timestamp : stamp) : task_row :=
  Task task_id run_id capability (Some digest) Queued None None 0
    (if truthy expected_effect then Some (json_column expected_effect) else None)
    None timestamp timestamp capability_digest waiting_reason None 0 None None
    (if is_null request then None else Some (json_column request)).

(** [canonical_json(target[key]) if target.get(key) is not None else None] *)
Definition target_column (target : json) (key : string) : option json :=
  option_map json_column (not_null (jget target key)).

Definition prepare_binding (task_id run_id capability : string) (request : json) (timestamp : stamp) : M unit :=
  target ← jitem request "target";
  let target_id := py_or (jget target "id") (py_or (jget target "profile_alias")
                     (py_or (jget target "machine_id") (jget target "pod_id"))) in
  session ← gets runtime_lifecycle;
  match session with
  | None => raiseM TypeError "'NoneType' object is not subscriptable"
  | Some lifecycle =>
      binding_id ← new_id;
      epoch ← gets current_runtime_epoch;
      kind ← jitem target "kind";
      insert_binding (Binding binding_id task_id run_id None None 0 None (lc_boot_id lifecycle) epoch capability
        (jget target "profile_revision") (jget target "profile_digest") (jget target "release_digest")
        kind target_id (jget target "provider_account_ref") (jget target "pod_id")
        (target_column target "storage") (target_column target "mounts")
        (json_column (JObj [("selected", target)])) Prepared timestamp timestamp)
  end.

Definition insert_dependencies (task_id : string) (predecessors : list string) : M unit :=
  for_each (imap (fun i p => Dependency task_id p (Z.of_nat i)) predecessors)
    (fun row => modify (fun t => t {{ task_dependencies := task_dependencies t ++ [row] }})).

(** The rows, events and receipt of a new admission. *)
Definition insert_admission (capability : string) (spec request : json) (project_id key : option string)
    (aggregate_id request_hash : string) (expected_effect : json) (capability_digest waiting_reason : option string)
    (predecessors : list string) : M json :=
  timestamp ← now;
  run_id ← new_id;
  task_id ← new_id;
  digest ← store_spec spec;
  insert_run (Run run_id project_id capability (Some digest) Queued key timestamp timestamp);;
  insert_task (new_task_row task_id run_id capability digest capability_digest waiting_reason
                 expected_effect request timestamp);;
  (if is_null request then mret tt else prepare_binding task_id run_id capability request timestamp);;
  admitted_event_id ← append_event run_id (Some task_id) "task.admitted" (details1 "capability" (JStr capability)) None;
  event_ids ← (if nil_or predecessors then mret [admitted_event_id] else
               insert_dependencies task_id predecessors;;
               continuation_event ← admit_continuation task_id;
               mret (admitted_event_id :: match continuation_event with Some e => [e] | None => [] end));
  run ← gets (run_by_id run_id);
  task ← gets (task_by_id task_id);
  match task with
  | None => raiseM TypeError "'NoneType' object is not iterable"
  | Some task =>
      result ← task_result run task None None;
      (match key with
       | Some k => if nonempty k then
           record_command_receipt "task.create" aggregate_id k request_hash result aggregate_id event_ids
             (Some run_id) (Some (Z.of_nat (length event_ids))) (Some timestamp);; mret tt
           else mret tt
       | None => mret tt
       end);;
      mret result
  end.

(** The admission of a request that no receipt and no earlier run answers. *)
Definition admit_new (capability : string) (spec request : json) (project_id key : option string)
    (aggregate_id request_hash : string) (expected_effect : json) (capability_digest : option string)
    (enforce_readiness : bool) (predecessors : list string) (toolchain : option string) : M json :=
  '(digest, waiting_reason) ← capability_readiness capability capability_digest enforce_readiness;
  waiting_reason ← executor_readiness capability digest spec enforce_readiness waiting_reason;
  check_admission_storage capability (jget spec "storage_estimate");;
  waiting_reason ← (if nil_or predecessors then mret waiting_reason else
                    validate_continuation_predecessors predecessors project_id;;
                    mret (Some "waiting_for_dependencies"));
  retire_when_due;;
  let spec := if String.eqb capability "rendering.render"
              then jset spec "_runtime_reuse_toolchain" (opt_str toolchain) else spec in
  insert_admission capability spec request project_id key aggregate_id request_hash expected_effect digest
    waiting_reason predecessors.

(** The admission transaction. *)
Definition admit_task (capability : string) (spec request : json) (project_id key : option string)
    (expected_effect : json) (capability_digest : option string) (enforce_readiness : bool)
    (predecessors : list string) : M json :=
  let request_hash := admission_hash capability spec request project_id expected_effect capability_digest in
  let aggregate_id := if str_truthy project_id then default EmptyString project_id else "unscoped" in
  let fresh_admission :=
    admit_new capability spec request project_id key aggregate_id request_hash expected_effect
      capability_digest enforce_readiness predecessors in
  match key with
  | None => fresh_admission None
  | Some k =>
      if negb (nonempty k) then fresh_admission None else
      old ← prior_admission capability spec request project_id k expected_effect capability_digest;
      receipt ← gets (receipt_of "task.create" aggregate_id k);
      match receipt, old with
      | Some r, _ =>
          if has_spec (rc_txn_id r) then answer_receipt aggregate_id k request_hash r old else
          match old with
          | Some prior => rebuild_receipt aggregate_id k request_hash receipt prior
          | None => raiseM ConflictError "persisted task admission identity is unavailable"
          end
      | None, Some prior => rebuild_receipt aggregate_id k request_hash None prior
      | None, None =>
          toolchain ← admission_toolchain capability spec capability_digest;
          candidates ← gets (reuse_candidates project_id capability);
          reused ← reuse_candidate capability spec request expected_effect capability_digest toolchain candidates;
          match reused with
          | Some (run, task) => record_existing aggregate_id k request_hash run task
          | None => fresh_admission toolchain
          end
      end
  end.

(** The body of [create_task] under the store mutex. *)
Definition create_task_body (calls : admission_calls) (capability : string) (spec request : json)
    (project idempotency_key : option string) (expected_effect : json) (capability_digest : option string)
    (enforce_readiness : bool) : M json :=
  project_id ← (if str_truthy project
                then p ← project_of (default EmptyString project); mret (Some (p_id p)) else mret None);
  spec ← (if String.eqb capability "rendering.render" then ac_freeze calls project_id spec else mret spec);
  '(spec, _) ← rewrite_spec_snapshots (publish_snapshot project_id) spec;
  snapshot_ids ← validate_spec_snapshot_refs spec project_id;
  spec ← (if nil_or snapshot_ids then mret spec else
          ids ← lift (merge_ids (jget_def spec "input_object_ids" (JArr [])) snapshot_ids);
          mret (jset spec "input_object_ids" ids));
  predecessors ← lift (continuation_predecessors spec);
  let effect_kind := jget expected_effect "effect_type" in
  (if is_json_str "generation.publish_v1" effect_kind then
     ac_validate_effect calls expected_effect project_id JNull;;
     guard_raise (match project_id with None => true | Some _ => false end) ConflictError
       "generation.publish_v1 requires a project-scoped task"
   else mret tt);;
  (if is_json_str "generation.thumbnail.attach" effect_kind then
     ac_validate_effect calls expected_effect project_id (jget_def spec "input_object_ids" (JArr []))
   else mret tt);;
  validate_task_inputs project_id spec;;
  transaction (admit_task capability spec request project_id idempotency_key expected_effect
                 capability_digest enforce_readiness predecessors).

Definition create_task (calls : admission_calls) (capability : string) (spec : json)
    (project idempotency_key : option string) (expected_effect : json) (capability_digest : option string)
    (enforce_readiness : bool) (execution_request : json) : M json :=
  '(spec, request) ← lift (admitted_request capability spec execution_request);
  let body := create_task_body calls capability spec request project idempotency_key expected_effect
                capability_digest enforce_readiness in
  if String.eqb capability "rendering.render" then transaction body else body.
End Admission.
