(* ===== verification/Effects.v ===== *)
(** * Typed settlement effects: validation

    What a settlement may declare besides its outputs, and the checks that
    bind it to the task's project, inputs and outputs:
    [RealmStore._validate_settlement_effect] with the publication of several
    groups ([generation.publish_v1]), a new generation with its first variant,
    an appended variant and an attached thumbnail.  [result] is [JNull] where
    the source passes [None]: at admission only the declaration is checked. *)

From Stdlib Require Import ZArith String Ascii List Bool Lia.
From stdpp Require Import base list strings.
From S2P Require Import Prelude Json Errors Facts Sha256 Store Idempotency Ledger Bindings.
From S2P Require Import Executors Continuations Snapshots Delegation Claim Outputs Settle Runs.
From S2P Require Import Admission.

Open Scope Z_scope.

Definition THUMBNAIL_RECIPE_VERSION : Z := 1.

(** ** Shared checks *)

Definition is_object_id (j : json) : bool := match j with JStr s => is_sha256_id s | _ => false end.

(** OBJECT_ID_RE.fullmatch of a text *)
Definition is_object_ref (j : json) : bool :=
  match j with JStr s => match object_id_digest s with Some _ => true | None => false end | _ => false end.

Definition text_of (j : json) : string := match j with JStr s => s | _ => EmptyString end.

(** [isinstance(v, str) and v and len(v) <= n] *)
Definition text_upto (n : Z) (j : json) : bool :=
  match j with JStr s => nonempty s && (py_len s <=? n) | _ => false end.

Definition in_texts (l : list string) (j : json) : bool := match j with JStr s => str_in s l | _ => false end.

(** [isinstance(v, bool) or v != n] *)
Definition not_number (n : Z) (j : json) : bool := is_bool j || negb (py_eq j (JInt n)).

(** [isinstance(v, bool) or not isinstance(v, int) or v < n] *)
Definition int_below (n : Z) (j : json) : bool := match j with JInt z => z <? n | _ => true end.

Fixpoint json_distinct (l : list json) : bool :=
  match l with
  | [] => true
  | x :: r => negb (existsb (py_eq x) r) && json_distinct r
  end.

Definition wrong_fields (value : json) (required : list string) : json :=
  JObj [("missing", sorted_strings (List.filter (fun k => negb (jhas value k)) required));
        ("unexpected", sorted_strings (unknown_keys value required))].

Definition validate_generation_metadata_input (metadata : json) (effect_type : string) : res unit :=
  raise_if (negb (is_dict metadata)) ValidationError (effect_type +:+ " metadata must be an object");;
  raise_if_with (jhas metadata "thumbnail") ValidationError
    (effect_type +:+ " metadata.thumbnail is Runtime-owned") (details1 "field" (JStr "metadata.thumbnail")).

(** ** Thumbnails *)

Record thumbnail := Thumbnail { th_output : json; th_sources : list string; th_recipe : json }.

Definition thumbnail_output_descriptor (output : json) (effect_type : string) : res (option thumbnail) :=
  if negb (is_dict output) || negb (is_json_str "thumbnail" (jget output "role")) then Ok None else
  raise_if (negb (is_json_str "object" (jget output "kind"))) ValidationError
    (effect_type +:+ " thumbnail output must be an object");;
  raise_if (negb (is_json_str "thumbnail" (jget output "output_port"))) ValidationError
    (effect_type +:+ " thumbnail output_port must be thumbnail");;
  raise_if (negb (is_json_str "image/jpeg" (jget output "media_type"))) ValidationError
    (effect_type +:+ " thumbnail output must use image/jpeg");;
  raise_if (negb (is_json_str "durable" (jget_def output "durability" (JStr "durable")))) ValidationError
    (effect_type +:+ " thumbnail output must be durable");;
  raise_if (jhas output "is_primary") ValidationError
    (effect_type +:+ " thumbnail output must not declare is_primary");;
  let provenance := jget output "provenance" in
  raise_if (negb (is_dict provenance)) ValidationError
    (effect_type +:+ " thumbnail output provenance must be an object");;
  let description := jget provenance "thumbnail" in
  raise_if (negb (is_dict description) || negb (keys_are description ["source_object_ids"; "recipe_version"]))
    ValidationError (effect_type +:+ " thumbnail provenance requires source_object_ids and recipe_version");;
  match jget description "source_object_ids" with
  | JArr ((_ :: _) as sources) =>
      raise_if (existsb (fun x => negb (hashable x)) sources) TypeError "unhashable type";;
      raise_if (negb (json_distinct sources)) ValidationError
        (effect_type +:+ " thumbnail source_object_ids must be unique");;
      raise_if (existsb (fun x => negb (is_object_id x)) sources) ValidationError
        (effect_type +:+ " thumbnail source_object_ids must be canonical sha256 object ids");;
      let recipe := jget description "recipe_version" in
      raise_if_with (not_number THUMBNAIL_RECIPE_VERSION recipe) ValidationError
        (effect_type +:+ " thumbnail recipe_version is unsupported")
        (details1 "supported" (JArr [JInt THUMBNAIL_RECIPE_VERSION]));;
      Ok (Some (Thumbnail output (map text_of sources) recipe))
  | _ => raise ValidationError (effect_type +:+ " thumbnail source_object_ids must be a non-empty list")
  end.

(** The thumbnails by source, in the order they are found. *)
Definition thumbnail_of (source : json) (l : list (string * thumbnail)) : option thumbnail :=
  match source with JStr s => alookup s l | _ => None end.

Definition add_thumbnail (effect_type : string) (t : thumbnail) (acc : list (string * thumbnail)) (source : string)
  : res (list (string * thumbnail)) :=
  match alookup source acc with
  | Some _ => raise_with ValidationError (effect_type +:+ " has ambiguous thumbnail outputs for one source")
                (details1 "source_object_id" (JStr source))
  | None => Ok (acc ++ [(source, t)])
  end.

Definition collect_thumbnail (effect_type : string) (allowed : list json) (acc : list (string * thumbnail))
    (output : json) : res (list (string * thumbnail)) :=
  descriptor ← thumbnail_output_descriptor output effect_type;
  match descriptor with
  | None => Ok acc
  | Some t =>
      let unknown := List.filter (fun s => negb (existsb (py_eq (JStr s)) allowed)) (th_sources t) in
      raise_if_with (negb (nil_or unknown)) ConflictError
        (effect_type +:+ " thumbnail source is not an admitted creative object")
        (details1 "source_object_ids" (sorted_strings unknown));;
      foldM (add_thumbnail effect_type t) acc (th_sources t)
  end.

Definition validate_thumbnail_outputs (outputs : list json) (allowed : list json) (effect_type : string)
  : res (list (string * thumbnail)) := foldM (collect_thumbnail effect_type allowed) [] outputs.

Definition thumbnail_metadata_descriptor (t : thumbnail) (source : json) : json :=
  JObj [("object_id", jget (th_output t) "digest"); ("source_object_id", source); ("recipe_version", th_recipe t)].

Definition validate_existing_generation_thumbnail (value : json) (generation_id : string) : res unit :=
  if is_null value then Ok tt else
  raise_if_with (negb (is_dict value) ||
                 negb (keys_are value ["object_id"; "source_object_id"; "recipe_version"]) ||
                 negb (is_object_id (jget value "object_id")) ||
                 negb (is_object_id (jget value "source_object_id")) ||
                 negb (py_eq (jget value "recipe_version") (JInt THUMBNAIL_RECIPE_VERSION))) ConflictError
    "generation metadata.thumbnail conflicts with the reserved Runtime descriptor"
    (details1 "generation_id" (JStr generation_id)).

(** ** Media families *)

Fixpoint before_slash (s : string) : option string :=
  match s with
  | EmptyString => None
  | String c r => if Ascii.eqb c "/" then Some EmptyString
                  else match before_slash r with Some p => Some (String c p) | None => None end
  end.

Definition media_family (media_type : json) : option string :=
  match media_type with
  | JStr s =>
      match before_slash s with
      | Some p => let family := str_lower (str_strip p) in
                  if str_in family ["image"; "video"; "audio"] then Some family else None
      | None => None
      end
  | _ => None
  end.

(** ** generation.publish_v1: the declaration *)

Record declaration := Declaration {
  dc_selector : string; dc_ordinal : Z; dc_variant_key : string; dc_output_port : string; dc_required : bool }.

(** [(output_port, group_key, variant_key, ordinal)] *)
Definition declared_key (group_key : string) (d : declaration) : json :=
  JArr [JStr (dc_output_port d); JStr group_key; JStr (dc_variant_key d); JInt (dc_ordinal d)].

Definition PUBLISH : string := "generation.publish_v1".

Definition same_slot (a b : declaration) : bool :=
  (dc_ordinal a =? dc_ordinal b) && String.eqb (dc_variant_key a) (dc_variant_key b).

Definition selector_fields : list string := ["selector"; "ordinal"; "variant_key"; "output_port"].

(** One selector of a group: [seen] are the keys of the whole effect, [acc]
    the declarations of the group so far. *)
Definition declare_selector (policy : string) (group_key : string) (acc : list json * list declaration)
    (selector : json) : res (list json * list declaration) :=
  let '(seen, declared) := acc in
  raise_if (negb (is_dict selector) || existsb (fun k => negb (jhas selector k)) selector_fields ||
            negb (nil_or (unknown_keys selector (selector_fields ++ ["required"])))) ValidationError
    "generation.publish_v1 selector requires selector, ordinal, variant_key, output_port, and optional required";;
  raise_if (negb (text_upto 255 (jget selector "selector"))) ValidationError
    "generation.publish_v1 selector must be a non-empty string";;
  raise_if (negb (text_upto 255 (jget selector "output_port"))) ValidationError
    "generation.publish_v1 output_port must be a non-empty string";;
  raise_if (negb (text_upto 255 (jget selector "variant_key"))) ValidationError
    "generation.publish_v1 variant_key must be a non-empty string";;
  raise_if (int_below 0 (jget selector "ordinal")) ValidationError
    "generation.publish_v1 ordinal must be a non-negative integer";;
  raise_if (String.eqb policy "reject" && bool_decide (jget selector "required" = JBool false)) ValidationError
    "generation.publish_v1 reject policy cannot declare an optional selector";;
  match jget_def selector "required" (JBool (String.eqb policy "reject")) with
  | JBool required =>
      let d := Declaration (text_of (jget selector "selector")) (default 0 (as_int (jget selector "ordinal")))
                 (text_of (jget selector "variant_key")) (text_of (jget selector "output_port")) required in
      raise_if (existsb (py_eq (declared_key group_key d)) seen) ValidationError
        "generation.publish_v1 selectors must not contain duplicates";;
      raise_if (existsb (same_slot d) declared) ValidationError
        "generation.publish_v1 group selectors must not duplicate ordinal and variant_key";;
      Ok (seen ++ [declared_key group_key d], declared ++ [d])
  | _ => raise ValidationError "generation.publish_v1 required must be a boolean"
  end.

Definition declare_group (policy : string) (acc : list json * list (string * list declaration)) (group : json)
  : res (list json * list (string * list declaration)) :=
  let '(seen, groups) := acc in
  raise_if (negb (is_dict group) || negb (keys_are group ["group_key"; "selectors"])) ValidationError
    "generation.publish_v1 group requires exactly group_key and selectors";;
  raise_if (negb (text_upto 255 (jget group "group_key"))) ValidationError
    "generation.publish_v1 group_key must be a non-empty string";;
  let group_key := text_of (jget group "group_key") in
  raise_if (str_in group_key (map fst groups)) ValidationError
    "generation.publish_v1 groups must not contain duplicate group_key";;
  match jget group "selectors" with
  | JArr ((_ :: _) as selectors) =>
      '(seen, declared) ← foldM (declare_selector policy group_key) (seen, []) selectors;
      Ok (seen, groups ++ [(group_key, declared)])
  | _ => raise ValidationError "generation.publish_v1 selectors must be a non-empty list"
  end.

Definition publish_fields : list string := ["effect_type"; "target_id"; "payload"].
Definition publish_payload_fields : list string :=
  ["version"; "modality"; "generation_type"; "metadata"; "partial_success_policy"; "groups"].

(** The declared groups of a well-formed effect. *)
Definition publish_declaration (effect : json) : res (list (string * list declaration)) :=
  raise_if_with (negb (keys_are effect publish_fields)) ValidationError
    "generation.publish_v1 effect has the wrong fields"
    (JObj [("required", JArr (map JStr publish_fields));
           ("unexpected", sorted_strings (unknown_keys effect publish_fields))]);;
  raise_if (negb (is_json_str PUBLISH (jget effect "effect_type"))) ValidationError
    "generation.publish_v1 effect_type is invalid";;
  raise_if (negb (nonempty_str (jget effect "target_id"))) ValidationError
    "generation.publish_v1 target_id must be a non-empty string";;
  let payload := jget effect "payload" in
  raise_if (negb (is_dict payload)) ValidationError "generation.publish_v1 payload must be an object";;
  raise_if_with (negb (keys_are payload publish_payload_fields)) ValidationError
    "generation.publish_v1 payload has the wrong fields"
    (JObj [("required", sorted_strings publish_payload_fields);
           ("unexpected", sorted_strings (unknown_keys payload publish_payload_fields))]);;
  raise_if (not_number 1 (jget payload "version")) ValidationError
    "generation.publish_v1 payload.version must be 1";;
  raise_if (negb (in_texts ["image"; "video"; "audio"] (jget payload "modality"))) ValidationError
    "generation.publish_v1 payload.modality is invalid";;
  raise_if (negb (text_upto 128 (jget payload "generation_type"))) ValidationError
    "generation.publish_v1 generation_type must be a non-empty string of at most 128 characters";;
  validate_generation_metadata_input (jget payload "metadata") PUBLISH;;
  raise_if (negb (in_texts ["reject"; "allow"] (jget payload "partial_success_policy"))) ValidationError
    "generation.publish_v1 partial_success_policy is invalid";;
  match jget payload "groups" with
  | JArr ((_ :: _) as groups) =>
      '(_, declared) ← foldM (declare_group (text_of (jget payload "partial_success_policy"))) ([], []) groups;
      Ok declared
  | _ => raise ValidationError "generation.publish_v1 groups must be a non-empty list"
  end.

(** ** generation.publish_v1: the plan *)

Record selected_output := SelectedOutput { so_declaration : declaration; so_output : json }.

Record group_plan := GroupPlan {
  gp_group_key : string; gp_selected : list selected_output; gp_missing : list declaration;
  gp_primary : option nat; gp_thumbnail : option thumbnail; gp_thumbnails : list (string * thumbnail) }.

Definition missing_json (d : declaration) : json :=
  JObj [("selector", JStr (dc_selector d)); ("ordinal", JInt (dc_ordinal d));
        ("variant_key", JStr (dc_variant_key d)); ("output_port", JStr (dc_output_port d))].

Section Effects.
Context `{World}.

Definition generation_publish_output_key (output : json) : M json :=
  ordinal_text ← py_str (jget_def output "ordinal" (JInt 0));
  ordinal ← py_int (jget_def output "ordinal" (JInt 0));
  mret (JArr [jget_def output "output_port" (jget_def output "name" (JStr "output"));
              jget_def output "group_key" (JStr "default");
              jget_def output "variant_key" (JStr ordinal_text); JInt ordinal]).

(** The outputs with a declared key, with their keys. *)
Definition match_output (declared : list (string * list declaration)) (acc : list (json * json)) (output : json)
  : M (list (json * json)) :=
  if negb (is_dict output) || is_json_str "thumbnail" (jget output "role") then mret acc else
  key ← generation_publish_output_key output;
  if existsb (fun g => existsb (fun d => py_eq key (declared_key g.1 d)) g.2) declared
  then mret (acc ++ [(key, output)]) else mret acc.

Definition select_output (group_key : string) (matches : list (json * json))
    (acc : list selected_output * list declaration) (d : declaration)
  : res (list selected_output * list declaration) :=
  let '(selected, missing) := acc in
  match List.filter (fun m => py_eq m.1 (declared_key group_key d)) matches with
  | [] => Ok (selected, missing ++ [d])
  | [(_, output)] =>
      raise_if (negb (is_json_str "object" (jget output "kind"))) ValidationError
        "generation.publish_v1 selectors must resolve verified object outputs";;
      Ok (selected ++ [SelectedOutput d output], missing)
  | _ => raise_with ValidationError "generation.publish_v1 selector matched duplicate outputs"
           (JObj [("selector", JStr (dc_selector d)); ("output_port", JStr (dc_output_port d));
                  ("ordinal", JInt (dc_ordinal d))])
  end.

Definition plan_group (policy : string) (matches : list (json * json)) (group : string * list declaration)
  : res group_plan :=
  let '(group_key, declared) := group in
  '(selected, missing) ← foldM (select_output group_key matches) ([], []) declared;
  let required_missing := List.filter dc_required missing in
  raise_if_with (negb (nil_or required_missing)) ValidationError
    (if String.eqb policy "reject" then "generation.publish_v1 reject policy requires every declared selector"
     else "generation.publish_v1 required selectors are missing")
    (JObj [("group_key", JStr group_key); ("missing", JArr (map missing_json required_missing))]);;
  Ok (GroupPlan group_key selected missing None None []).

(** [next(i for i, x in enumerate(l) if p(x))] *)
Fixpoint index_of {A} (p : A -> bool) (l : list A) : option nat :=
  match l with
  | [] => None
  | x :: r => if p x then Some O else option_map S (index_of p r)
  end.

(** The position of the primary output among the selected ones. *)
Definition selected_primary (selected : list selected_output) : res nat :=
  let explicit s := bool_decide (jget (so_output s) "is_primary" = JBool true) in
  raise_if (1 <? Z.of_nat (length (List.filter explicit selected))) ValidationError
    (PUBLISH +:+ " group has multiple primary outputs");;
  match index_of explicit selected with
  | Some i => Ok i
  | None => Ok (default O (index_of (fun s => String.eqb (dc_variant_key (so_declaration s)) "original") selected))
  end.

Definition output_digest (output : json) : M json := jitem output "digest".

Definition plan_digests (plan : list group_plan) : M (list json) :=
  digests ← mapS (fun s => output_digest (so_output s)) (flat_map gp_selected plan);
  guard_raise (existsb (fun d => negb (hashable d)) digests) TypeError "unhashable type";;
  mret digests.

(** The thumbnails of a group and of its primary output. *)
Definition group_thumbnails (thumbnails : list (string * thumbnail)) (g : group_plan) : res group_plan :=
  match gp_selected g with
  | [] => Ok g
  | selected =>
      primary ← selected_primary selected;
      let digest s := jget (so_output s) "digest" in
      let own := List.filter (fun kv => existsb (fun s => is_json_str kv.1 (digest s)) selected) thumbnails in
      Ok (GroupPlan (gp_group_key g) selected (gp_missing g) (Some primary)
            (match nth_error selected primary with
             | Some s => thumbnail_of (digest s) thumbnails
             | None => None
             end) own)
  end.

Definition publish_project (effect : json) (project_id : option string) : M unit :=
  match project_id with
  | None => mret tt
  | Some p =>
      let target := text_of (jget effect "target_id") in
      let mismatch := JObj [("target_id", JStr target); ("project_id", JStr p)] in
      guard_raise (negb (nonempty p)) ConflictError "generation.publish_v1 requires a project-scoped task";;
      guard_raise_with (negb (String.eqb target p)) ConflictError
        "generation.publish_v1 target project does not match the task project" mismatch;;
      project ← project_of target;
      guard_raise_with (negb (String.eqb (p_id project) p)) ConflictError
        "generation.publish_v1 target project does not match the task project" mismatch
  end.

(** [result.get("outputs") if isinstance(result, dict) else None] as a list *)
Definition settled_outputs (result : json) (message : string) : res (list json) :=
  match jget result "outputs" with JArr l => Ok l | _ => raise ValidationError message end.

Definition validate_generation_publish (effect : json) (project_id : option string) (result : json)
  : M (list group_plan) :=
  declared ← lift (publish_declaration effect);
  publish_project effect project_id;;
  if is_null result then mret [] else
  outputs ← lift (settled_outputs result "generation.publish_v1 settlement requires an outputs list");
  matches ← foldS (match_output declared) [] outputs;
  let policy := text_of (jget (jget effect "payload") "partial_success_policy") in
  plan ← lift (mapM_res (plan_group policy matches) declared);
  guard_raise (nil_or (flat_map gp_selected plan)) ValidationError
    "generation.publish_v1 requires at least one successful declared output";;
  digests ← plan_digests plan;
  thumbnails ← lift (validate_thumbnail_outputs outputs digests PUBLISH);
  lift (mapM_res (group_thumbnails thumbnails) plan).

(** ** Generations *)

Definition generation_by_id (id : string) (t : tables) : option generation_row :=
  find (fun g => String.eqb (g_id g) id) (generations t).

Definition variant_by_id (id : string) (t : tables) : option variant_row :=
  find (fun v => String.eqb (v_id v) id) (generation_variants t).

Definition object_by_digest (digest : string) (t : tables) : option object_row :=
  find (fun o => String.eqb (o_digest o) digest) (objects t).

Definition in_project (project digest : string) (t : tables) : bool :=
  existsb (fun r => String.eqb (po_project_id r) project && String.eqb (po_digest r) digest) (project_objects t).

Definition by_variant (a b : variant_row) : bool :=
  if bool_decide (v_created_at a = v_created_at b) then String.leb (v_id a) (v_id b)
  else stamp_leb (v_created_at a) (v_created_at b).

Definition variants_of (generation_id : string) (t : tables) : list variant_row :=
  sort by_variant (List.filter (fun v => String.eqb (v_generation_id v) generation_id) (generation_variants t)).

Definition marked_primary (v : variant_row) : bool :=
  bool_decide (jget (v_metadata_json v) "is_primary" = JBool true).

Definition generation_primary_variant (generation_id : string) : M variant_row :=
  rows ← gets (variants_of generation_id);
  match rows with
  | [] => raiseM_with ConflictError "generation has no primary media variant"
            (details1 "generation_id" (JStr generation_id))
  | first :: _ =>
      guard_raise_with (1 <? Z.of_nat (length (List.filter marked_primary rows))) ConflictError
        "generation has multiple explicit primary variants" (details1 "generation_id" (JStr generation_id));;
      match find marked_primary rows with
      | Some v => mret v
      | None => mret (default first (find (fun v => String.eqb (v_variant_type v) "original") rows))
      end
  end.

(** ["sha256:" + row["object_id"]] *)
Definition variant_object (v : variant_row) : M json :=
  match v_object_id v with
  | Some d => mret (JStr ("sha256:" +:+ d))
  | None => raiseM TypeError "can only concatenate str (not NoneType) to str"
  end.

(** ** A single creative output *)

Definition creative_outputs (outputs : list json) : list json :=
  List.filter (fun o => is_dict o && negb (is_json_str "thumbnail" (jget o "role"))) outputs.

(** The one output that is not a thumbnail, if the selector resolves to it. *)
Definition creative_output (effect_type : string) (outputs : list json) (output_name : json) : res json :=
  match creative_outputs outputs with
  | [selected] =>
      raise_if_with (negb (py_eq (jget selected "name") output_name) ||
                     negb (py_eq (jget_def selected "ordinal" (JInt 0)) (JInt 0)) ||
                     negb (is_json_str "object" (jget selected "kind")) ||
                     negb (is_object_ref (jget selected "digest"))) ValidationError
        (effect_type +:+ " output selector did not resolve exactly one object")
        (JObj [("output_name", output_name); ("output_ordinal", JInt 0)]);;
      Ok selected
  | _ => raise ValidationError
           (effect_type +:+ " requires exactly one settlement output plus optional thumbnail outputs")
  end.

(** ** generation.create_with_variant *)

Definition CREATE : string := "generation.create_with_variant".

Record create_plan := CreatePlan { cp_output : json; cp_thumbnail : option thumbnail }.

Definition create_fields : list string :=
  ["generation_type"; "metadata"; "variant_type"; "output_name"; "output_ordinal"; "primary_policy"].

Definition check_create_declaration (effect : json) : res unit :=
  raise_if (negb (nonempty_str (jget effect "target_id"))) ValidationError
    "generation.create_with_variant target_id must be a non-empty string";;
  let payload := jget effect "payload" in
  raise_if (negb (is_dict payload)) ValidationError "generation.create_with_variant payload must be an object";;
  raise_if_with (negb (keys_are payload create_fields)) ValidationError
    "generation.create_with_variant payload has the wrong fields" (wrong_fields payload create_fields);;
  raise_if (negb (text_upto 128 (jget payload "generation_type"))) ValidationError
    "generation_type must be a non-empty string of at most 128 characters";;
  let metadata := jget payload "metadata" in
  validate_generation_metadata_input metadata CREATE;;
  raise_if (jhas metadata "params" && negb (is_dict (jget metadata "params"))) ValidationError
    "generation.create_with_variant metadata.params must be an object";;
  raise_if (negb (text_upto 128 (jget payload "variant_type"))) ValidationError
    "variant_type must be a non-empty string of at most 128 characters";;
  raise_if (negb (text_upto 512 (jget payload "output_name"))) ValidationError
    "output_name must be a non-empty string of at most 512 characters";;
  raise_if (not_number 0 (jget payload "output_ordinal")) ValidationError
    "output_ordinal must be zero for generation.create_with_variant";;
  raise_if (negb (is_json_str "preserve" (jget payload "primary_policy"))) ValidationError
    "primary_policy must be preserve".

Definition validate_generation_create (effect : json) (project_id : option string) (result input_object_ids : json)
  : M (option create_plan) :=
  lift (check_create_declaration effect);;
  match project_id with
  | None => if is_null result then mret None else
      raiseM ConflictError "generation.create_with_variant requires a project-scoped task"
  | Some p =>
      let target := jget effect "target_id" in
      guard_raise (negb (nonempty p)) ConflictError
        "generation.create_with_variant requires a project-scoped task";;
      project ← project_of (text_of target);
      guard_raise_with (negb (String.eqb (p_id project) p)) ConflictError
        "generation.create_with_variant target project does not match the task project"
        (JObj [("target_id", target); ("project_id", JStr p)]);;
      guard_raise (match input_object_ids with JArr (_ :: _) => false | _ => true end) ConflictError
        "generation.create_with_variant requires admitted task inputs";;
      if is_null result then mret None else
      outputs ← lift (settled_outputs result "generation.create_with_variant settlement requires an outputs list");
      selected ← lift (creative_output CREATE outputs (jget (jget effect "payload") "output_name"));
      let digest := jget selected "digest" in
      thumbnails ← lift (validate_thumbnail_outputs outputs [digest] CREATE);
      mret (Some (CreatePlan selected (thumbnail_of digest thumbnails)))
  end.

(** ** generation.variant.append *)

Definition APPEND : string := "generation.variant.append".

Record append_plan := AppendPlan {
  ap_output : json; ap_primary : variant_row; ap_primary_source : json;
  ap_thumbnail : option thumbnail; ap_variant_thumbnail : option thumbnail }.

Definition append_fields : list string :=
  ["source_variant_id"; "source_object_id"; "variant_type"; "output_name"; "output_ordinal"; "primary_policy"].

Definition check_append_declaration (effect : json) : res unit :=
  raise_if (negb (nonempty_str (jget effect "target_id"))) ValidationError
    "generation.variant.append target_id must be a non-empty string";;
  raise_if (int_below 1 (jget effect "expected_version")) ValidationError
    "generation.variant.append expected_version must be a positive integer";;
  let payload := jget effect "payload" in
  raise_if (negb (is_dict payload)) ValidationError "generation.variant.append payload must be an object";;
  raise_if_with (negb (keys_are payload append_fields)) ValidationError
    "generation.variant.append payload has the wrong fields" (wrong_fields payload append_fields);;
  raise_if (negb (nonempty_str (jget payload "source_variant_id"))) ValidationError
    "source_variant_id must be a non-empty string";;
  raise_if (negb (is_object_ref (jget payload "source_object_id"))) ValidationError
    "source_object_id must be a canonical sha256 object id";;
  raise_if (negb (String.prefix "sha256:" (text_of (jget payload "source_object_id")))) ValidationError
    "source_object_id must include the sha256 prefix";;
  raise_if (negb (text_upto 128 (jget payload "variant_type"))) ValidationError
    "variant_type must be a non-empty string of at most 128 characters";;
  raise_if (negb (text_upto 512 (jget payload "output_name"))) ValidationError
    "output_name must be a non-empty string of at most 512 characters";;
  raise_if (negb (bool_decide (jget payload "output_ordinal" = JInt 0))) ValidationError
    "output_ordinal must be zero for generation.variant.append";;
  policy ← in_set (jget payload "primary_policy") ["preserve"; "promote"];
  raise_if (negb policy) ValidationError "primary_policy must be preserve or promote".

(** The target generation, if it is the task project's at the expected version. *)
Definition bound_generation (target p : string) (expected : Z) (missing outside stale : string) : M generation_row :=
  row ← gets (generation_by_id target);
  match row with
  | None => raiseM_with NotFoundError missing (details1 "target_id" (JStr target))
  | Some g =>
      guard_raise_with (negb (String.eqb (g_project_id g) p)) ConflictError outside
        (JObj [("target_id", JStr target); ("project_id", JStr p)]);;
      guard_raise_with (negb (g_version g =? expected)) ConflictError stale
        (JObj [("target", JStr target); ("expected", JInt expected); ("actual", JInt (g_version g))]);;
      mret g
  end.

(** The source variant and object belong to the generation, the project and
    the inputs of the task. *)
Definition check_append_source (p : string) (g : generation_row) (payload input_object_ids : json) : M unit :=
  let source_variant_id := text_of (jget payload "source_variant_id") in
  let source_object_id := jget payload "source_object_id" in
  let source_digest := remove_prefix "sha256:" (text_of source_object_id) in
  source ← gets (variant_by_id source_variant_id);
  match source with
  | Some v =>
      guard_raise_with (negb (String.eqb (v_generation_id v) (g_id g))) ConflictError
        "source variant does not belong to the target generation"
        (JObj [("source_variant_id", JStr source_variant_id); ("target_id", JStr (g_id g))]);;
      guard_raise_with (negb (opt_str_eqb (v_object_id v) (Some source_digest))) ConflictError
        "source variant object does not match source_object_id"
        (JObj [("source_variant_id", JStr source_variant_id); ("expected", opt_str (v_object_id v));
               ("actual", JStr source_digest)])
  | None => raiseM_with ConflictError "source variant does not belong to the target generation"
              (JObj [("source_variant_id", JStr source_variant_id); ("target_id", JStr (g_id g))])
  end;;
  present ← gets (object_by_digest source_digest);
  guard_raise_with (match present with None => true | Some _ => false end) ConflictError
    "source object is not present in Runtime CAS" (details1 "source_object_id" source_object_id);;
  owned ← gets (in_project p source_digest);
  guard_raise_with (negb owned) ConflictError "source object is outside the task project"
    (JObj [("project_id", JStr p); ("source_object_id", source_object_id)]);;
  guard_raise_with (match input_object_ids with JArr l => negb (existsb (py_eq source_object_id) l) | _ => true end)
    ConflictError "source object is not an admitted task input" (details1 "source_object_id" source_object_id).

Definition validate_generation_append (effect : json) (project_id : option string) (result input_object_ids : json)
  : M (option append_plan) :=
  lift (check_append_declaration effect);;
  match project_id with
  | None => if is_null result then mret None else
      raiseM ConflictError "generation.variant.append requires a project-scoped task"
  | Some p =>
      guard_raise (negb (nonempty p)) ConflictError "generation.variant.append requires a project-scoped task";;
      let payload := jget effect "payload" in
      g ← bound_generation (text_of (jget effect "target_id")) p (default 0 (as_int (jget effect "expected_version")))
            "settlement effect target generation not found"
            "settlement effect generation is outside the task project"
            "stale settlement effect target generation version";
      check_append_source p g payload input_object_ids;;
      if is_null result then mret None else
      outputs ← lift (settled_outputs result "generation.variant.append settlement requires an outputs list");
      selected ← lift (creative_output APPEND outputs (jget payload "output_name"));
      source ← gets (object_by_digest (remove_prefix "sha256:" (text_of (jget payload "source_object_id"))));
      let source_type := match source with Some o => JStr (o_media_type o) | None => JNull end in
      let source_family := media_family source_type in
      let output_family := media_family (jget selected "media_type") in
      guard_raise_with (match source_family with
                        | None => true
                        | Some f => negb (opt_str_eqb output_family (Some f))
                        end) ConflictError
        "generation variant source and output media families must match"
        (JObj [("source_media_type", source_type); ("output_media_type", jget selected "media_type");
               ("source_family", opt_str source_family); ("output_family", opt_str output_family)]);;
      primary ← generation_primary_variant (g_id g);
      primary_source ← variant_object primary;
      thumbnails ← lift (validate_thumbnail_outputs outputs [jget selected "digest"; primary_source] APPEND);
      mret (Some (AppendPlan selected primary primary_source (thumbnail_of primary_source thumbnails)
                    (thumbnail_of (jget selected "digest") thumbnails)))
  end.

(** ** generation.thumbnail.attach *)

Definition ATTACH : string := "generation.thumbnail.attach".

Record attach_plan := AttachPlan { tp_generation : generation_row; tp_source : json; tp_thumbnail : thumbnail }.

Definition attach_fields : list string := ["effect_type"; "target_id"; "expected_version"; "payload"].
Definition attach_payload_fields : list string :=
  ["source_object_id"; "output_name"; "output_ordinal"; "recipe_version"].

Definition check_attach_declaration (effect : json) : res unit :=
  raise_if_with (negb (keys_are effect attach_fields)) ValidationError
    "generation.thumbnail.attach effect has the wrong fields" (wrong_fields effect attach_fields);;
  raise_if (negb (is_json_str ATTACH (jget effect "effect_type"))) ValidationError
    "generation.thumbnail.attach effect_type is invalid";;
  raise_if (negb (nonempty_str (jget effect "target_id"))) ValidationError
    "generation.thumbnail.attach target_id must be a non-empty string";;
  raise_if (int_below 1 (jget effect "expected_version")) ValidationError
    "generation.thumbnail.attach expected_version must be a positive integer";;
  let payload := jget effect "payload" in
  raise_if_with (negb (is_dict payload) || negb (keys_are payload attach_payload_fields)) ValidationError
    "generation.thumbnail.attach payload has the wrong fields" (wrong_fields payload attach_payload_fields);;
  raise_if (negb (is_object_id (jget payload "source_object_id"))) ValidationError
    "generation.thumbnail.attach source_object_id must be a canonical sha256 object id";;
  raise_if (negb (text_upto 512 (jget payload "output_name"))) ValidationError
    "generation.thumbnail.attach output_name must be a non-empty string of at most 512 characters";;
  raise_if (not_number 0 (jget payload "output_ordinal")) ValidationError
    "generation.thumbnail.attach output_ordinal must be zero";;
  raise_if_with (not_number THUMBNAIL_RECIPE_VERSION (jget payload "recipe_version")) ValidationError
    "generation.thumbnail.attach recipe_version is unsupported"
    (details1 "supported" (JArr [JInt THUMBNAIL_RECIPE_VERSION])).

(** The one thumbnail output of the settlement. *)
Definition attached_thumbnail (payload result source : json) : res thumbnail :=
  match jget result "outputs" with
  | JArr [selected] =>
      raise_if (negb (is_dict selected)) AttributeError "object has no attribute 'get'";;
      raise_if_with (negb (py_eq (jget selected "name") (jget payload "output_name")) ||
                     negb (py_eq (jget_def selected "ordinal" (JInt 0)) (JInt 0))) ValidationError
        "generation.thumbnail.attach output selector did not resolve exactly one thumbnail"
        (JObj [("output_name", jget payload "output_name"); ("output_ordinal", JInt 0)]);;
      thumbnails ← validate_thumbnail_outputs [selected] [source] ATTACH;
      match thumbnail_of source thumbnails with
      | None => raise ValidationError "generation.thumbnail.attach selected output must be a thumbnail"
      | Some t =>
          raise_if (negb (py_eq (th_recipe t) (jget payload "recipe_version"))) ConflictError
            "generation.thumbnail.attach payload and output recipe_version differ";;
          Ok t
      end
  | _ => raise ValidationError "generation.thumbnail.attach requires exactly one thumbnail settlement output"
  end.

Definition validate_generation_attach (effect : json) (project_id : option string) (result input_object_ids : json)
  : M (option attach_plan) :=
  lift (check_attach_declaration effect);;
  match project_id with
  | None => if is_null result then mret None else
      raiseM ConflictError "generation.thumbnail.attach requires a project-scoped task"
  | Some p =>
      guard_raise (negb (nonempty p)) ConflictError "generation.thumbnail.attach requires a project-scoped task";;
      let payload := jget effect "payload" in
      let source := jget payload "source_object_id" in
      g ← bound_generation (text_of (jget effect "target_id")) p (default 0 (as_int (jget effect "expected_version")))
            "thumbnail attachment target generation not found"
            "thumbnail attachment generation is outside the task project"
            "stale thumbnail attachment target generation version";
      primary ← generation_primary_variant (g_id g);
      primary_source ← variant_object primary;
      guard_raise_with (negb (py_eq primary_source source)) ConflictError
        "thumbnail source is not the generation primary object"
        (JObj [("expected", primary_source); ("actual", source)]);;
      let digest := remove_prefix "sha256:" (text_of source) in
      present ← gets (object_by_digest digest);
      guard_raise (match present with None => true | Some _ => false end) ConflictError
        "thumbnail source object is not present in Runtime CAS";;
      owned ← gets (in_project p digest);
      guard_raise (negb owned) ConflictError "thumbnail source object is outside the task project";;
      guard_raise (match input_object_ids with JArr l => negb (existsb (py_eq source) l) | _ => true end)
        ConflictError "thumbnail source object is not an admitted task input";;
      if is_null result then mret None else
      t ← lift (attached_thumbnail payload result source);
      mret (Some (AttachPlan g primary_source t))
  end.

(** ** The dispatcher *)

(** The target and version every other effect declares. *)
Definition check_effect_target (effect : json) : M Z :=
  match epoch_number (jget effect "expected_version") with
  | None => raiseM ValidationError "settlement effect expected_version must be a positive integer"
  | Some v =>
      guard_raise (negb (truthy (jget effect "target_id")) || (v <? 1)) ValidationError
        "settlement effect requires target_id and positive expected_version";;
      mret v
  end.

(** [self._project(str(target))] *)
Definition target_project (target : json) : M project_row :=
  let not_found := raiseM_with NotFoundError "settlement effect target project not found"
                     (details1 "target_id" target) in
  match target with
  | JArr _ | JObj _ => not_found
  | _ =>
      name ← py_str target;
      row ← gets (fun t => find (fun p => String.eqb (p_id p) name || String.eqb (p_slug p) name) (projects t));
      match row with Some p => mret p | None => not_found end
  end.

Definition validate_project_update (effect : json) (expected : Z) : M unit :=
  let target := jget effect "target_id" in
  current ← target_project target;
  guard_raise_with (negb (p_version current =? expected)) ConflictError "stale settlement effect target version"
    (JObj [("target", target); ("expected", JInt expected); ("actual", JInt (p_version current))]).

Definition validate_settlement_effect (effect : json) (project_id : option string) (result input_object_ids : json)
  : M unit :=
  guard_raise (negb (is_dict effect)) ValidationError "settlement effect must be an object";;
  let kind := effect_type effect in
  if is_json_str PUBLISH kind then validate_generation_publish effect project_id result;; mret tt else
  if is_json_str CREATE kind then validate_generation_create effect project_id result input_object_ids;; mret tt else
  expected ← check_effect_target effect;
  if is_json_str APPEND kind then validate_generation_append effect project_id result input_object_ids;; mret tt else
  if is_json_str ATTACH kind then validate_generation_attach effect project_id result input_object_ids;; mret tt else
  guard_raise (negb (is_json_str "project.update" kind)) ValidationError "unsupported settlement effect_type";;
  validate_project_update effect expected.
End Effects.
