(* ===== verification/Generations.v ===== *)
(** * Typed settlement effects: application

    [RealmStore._apply_settlement_effect]: the generations, variants and
    project changes a settlement makes inside its transaction, and the
    callbacks of admission and settlement that the runtime passes. *)

From Stdlib Require Import ZArith String Ascii List Bool Lia.
From stdpp Require Import base list strings.
From S2P Require Import Prelude Json Errors Facts Sha256 Store Idempotency Ledger Bindings.
From S2P Require Import Executors Continuations Snapshots Delegation Claim Outputs Settle Runs.
From S2P Require Import Admission Effects.

Open Scope Z_scope.

(** [needle in text] *)
Fixpoint str_contains (needle text : string) : bool :=
  String.prefix needle text ||
  match text with EmptyString => false | String _ r => str_contains needle r end.

(** [dict(value or {})]; a list of pairs is not taken for a dictionary. *)
Definition dict_or_empty (value : json) : res json :=
  if truthy value then
    if is_dict value then Ok value else raise TypeError "cannot convert to a dictionary"
  else Ok (JObj []).

(** [list(value or [])] *)
Definition list_or_empty (value : json) : json := match value with JArr l => JArr l | _ => JArr [] end.

(** The dictionary of association overrides, as [key, override] pairs. *)
Definition get_override (key : json) (l : list json) : option json :=
  match find (fun e => match e with JArr [k; _] => py_eq k key | _ => false end) l with
  | Some (JArr [_; v]) => Some v
  | _ => None
  end.

Fixpoint set_override (key value : json) (l : list json) : list json :=
  match l with
  | [] => [JArr [key; value]]
  | JArr [k; v] :: r => if py_eq k key then JArr [k; value] :: r else JArr [k; v] :: set_override key value r
  | e :: r => e :: set_override key value r
  end.

Definition override_json (generation_id variant_id selector : json) : json :=
  JObj [("generation_id", generation_id); ("variant_id", variant_id); ("selector", selector)].

Section Generations.
Context `{World}.

(** ** Rows *)

Definition insert_generation (g : generation_row) : M unit :=
  taken ← gets (fun t => existsb (fun x => String.eqb (g_id x) (g_id g)) (generations t));
  unique (negb taken);;
  known ← gets (fun t => existsb (fun p => String.eqb (p_id p) (g_project_id g)) (projects t) &&
                         match g_source_task_id g with
                         | Some x => existsb (is_task x) (tasks t)
                         | None => true
                         end);
  foreign_key known;;
  modify (fun t => t {{ generations := generations t ++ [g] }}).

Definition known_object (digest : option string) (t : tables) : bool :=
  match digest with
  | Some d => existsb (fun o => String.eqb (o_digest o) d) (objects t)
  | None => true
  end.

Definition insert_variant (v : variant_row) : M unit :=
  taken ← gets (fun t => existsb (fun x => String.eqb (v_id x) (v_id v)) (generation_variants t));
  unique (negb taken);;
  known ← gets (fun t => existsb (fun g => String.eqb (g_id g) (v_generation_id v)) (generations t) &&
                         known_object (v_object_id v) t && known_object (v_thumbnail_object_id v) t &&
                         known_object (v_thumbnail_source_object_id v) t);
  foreign_key known;;
  modify (fun t => t {{ generation_variants := generation_variants t ++ [v] }}).

(** [except sqlite3.IntegrityError] *)
Definition on_integrity {A} (m : M A) (handler : M A) : M A := fun s =>
  match m s with
  | (Err e, s') => if bool_decide (exn_class e = IntegrityError) then handler s' else (Err e, s')
  | r => r
  end.

Definition update_generation (id project_id : string) (version : Z) (metadata : json) (timestamp : stamp)
    (stale : string) : M unit :=
  let target g := String.eqb (g_id g) id && String.eqb (g_project_id g) project_id && (g_version g =? version) in
  changed ← gets (fun t => rowcount target (generations t));
  modify (fun t => t {{ generations := update_where target (fun g => g {{
    g_metadata_json := json_column metadata; g_version := g_version g + 1; g_updated_at := timestamp }})
    (generations t) }});;
  guard_raise (negb (Nat.eqb changed 1)) ConflictError stale.

(** [_variant_thumbnail_columns] of the descriptor of a thumbnail *)
Definition variant_thumbnail_columns (descriptor : option json) : M (option string * option string * option Z) :=
  match descriptor with
  | None => mret (None, None, None)
  | Some d =>
      match jget d "object_id", jget d "source_object_id" with
      | JStr a, JStr b => mret (Some (remove_prefix "sha256:" a), Some (remove_prefix "sha256:" b),
                                as_int (jget d "recipe_version"))
      | _, _ => raiseM AttributeError "object has no attribute 'removeprefix'"
      end
  end.

Definition descriptor_of (t : option thumbnail) (source : json) : option json :=
  option_map (fun x => thumbnail_metadata_descriptor x source) t.

Definition text_digest (digest : json) : M string :=
  match digest with
  | JStr d => mret (remove_prefix "sha256:" d)
  | _ => raiseM AttributeError "object has no attribute 'removeprefix'"
  end.

(** ** generation.publish_v1 *)

Definition runtime_provenance (output : json) (task_id attempt_id : string) : M json :=
  base ← lift (dict_or_empty (jget output "provenance"));
  let p := jset (jset base "task_id" (JStr task_id)) "attempt_id" (JStr attempt_id) in
  task ← gets (task_by_id task_id);
  let p := match task with Some x => jset p "capability_id" (JStr (t_capability x)) | None => p end in
  attempt ← gets (attempt_by_id attempt_id);
  mret (match attempt with
        | Some a => jset (jset (jset p "executor_id" (JStr (at_executor_id a))) "fence" (JInt (at_fence a)))
                      "runtime_epoch" (JInt (at_runtime_epoch a))
        | None => p
        end).

Definition publish_variant_id (generation_id : string) (d : declaration) : string :=
  "variant-" +:+ sha256 (canonical_json (JObj [("generation_id", JStr generation_id);
    ("ordinal", JInt (dc_ordinal d)); ("variant_key", JStr (dc_variant_key d))])).

(** One selected output becomes a variant; [i] is its position in the group. *)
Definition publish_variant (g : group_plan) (generation_id task_id attempt_id : string) (timestamp : stamp)
    (acc : list json * list json) (entry : nat * selected_output) : M (list json * list json) :=
  let '(overrides, variants) := acc in
  let '(i, s) := entry in
  let d := so_declaration s in
  let output := so_output s in
  let variant_id := publish_variant_id generation_id d in
  digest ← text_digest (jget output "digest");
  provenance ← runtime_provenance output task_id attempt_id;
  size ← (j ← jitem output "size"; py_int j);
  producer ← lift (dict_or_empty (jget output "producer"));
  let metadata := JObj
    [("is_primary", JBool (bool_decide (gp_primary g = Some i))); ("selector", JStr (dc_selector d));
     ("output_port", JStr (dc_output_port d)); ("group_key", JStr (gp_group_key g));
     ("variant_key", JStr (dc_variant_key d)); ("ordinal", JInt (dc_ordinal d));
     ("filename", jget_def output "filename" (jget_def output "name" (JStr "output")));
     ("media_type", jget_def output "media_type" (JStr "application/octet-stream")); ("size", JInt size);
     ("role", py_or (jget output "role") (JStr "output")); ("producer", producer); ("provenance", provenance);
     ("durability", jget_def output "durability" (JStr "durable")); ("regeneration", jget output "regeneration");
     ("coverage", jget output "coverage")] in
  let thumbnail := descriptor_of (thumbnail_of (jget output "digest") (gp_thumbnails g)) (jget output "digest") in
  '(thumb, thumb_source, recipe) ← variant_thumbnail_columns thumbnail;
  insert_variant (Variant variant_id generation_id (Some digest) (dc_variant_key d) (json_column metadata)
                    thumb thumb_source recipe None timestamp);;
  mret (set_override (declared_key (gp_group_key g) d)
          (override_json (JStr generation_id) (JStr variant_id) (JStr (dc_selector d))) overrides,
        variants ++ [JObj [("variant_id", JStr variant_id); ("generation_id", JStr generation_id);
                           ("object_id", jget output "digest"); ("variant_key", JStr (dc_variant_key d));
                           ("ordinal", JInt (dc_ordinal d)); ("output_port", JStr (dc_output_port d))]]).

Definition publish_generation_id (task_id group_key : string) : string :=
  "generation-" +:+ sha256 (canonical_json (JObj [("task_id", JStr task_id); ("group_key", JStr group_key)])).

(** The association of the group's thumbnail: of one generation, or of none
    when several groups share it. *)
Definition thumbnail_override (generation_id : string) (t : option thumbnail) (overrides : list json) : M (list json) :=
  match t with
  | None => mret overrides
  | Some t =>
      key ← generation_publish_output_key (th_output t);
      mret (match get_override key overrides with
            | None => set_override key (override_json (JStr generation_id) JNull (JStr "thumbnail")) overrides
            | Some prior =>
                if py_eq (jget prior "generation_id") (JStr generation_id) then overrides
                else set_override key (override_json JNull JNull (JStr "thumbnail")) overrides
            end)
  end.

Definition publish_group (project_id : option string) (payload : json) (task_id attempt_id : string) (timestamp : stamp)
    (acc : list json * list json) (g : group_plan) : M (list json * list json) :=
  let '(overrides, publications) := acc in
  let missing := JArr (map missing_json (gp_missing g)) in
  match gp_selected g, gp_primary g with
  | [], _ => mret (overrides, publications ++ [JObj [("group_key", JStr (gp_group_key g)); ("published", JArr []);
                                                      ("missing_selectors", missing)]])
  | selected, primary =>
      let generation_id := publish_generation_id task_id (gp_group_key g) in
      let primary_digest := match primary with
                            | Some i => match nth_error selected i with
                                        | Some s => jget (so_output s) "digest"
                                        | None => JNull
                                        end
                            | None => JNull
                            end in
      let metadata := match descriptor_of (gp_thumbnail g) primary_digest with
                      | Some d => jset (jget payload "metadata") "thumbnail" d
                      | None => jget payload "metadata"
                      end in
      insert_generation (Generation generation_id (default "None" project_id) (Some task_id)
        (text_of (jget payload "generation_type")) "completed" (json_column metadata) 1 timestamp timestamp);;
      '(overrides, variants) ← foldS (publish_variant g generation_id task_id attempt_id timestamp) (overrides, [])
                                 (imap pair selected);
      overrides ← thumbnail_override generation_id (gp_thumbnail g) overrides;
      mret (overrides, publications ++ [JObj [("group_key", JStr (gp_group_key g));
        ("generation_id", JStr generation_id); ("variants", JArr variants); ("missing_selectors", missing)]])
  end.

Definition apply_generation_publish (effect : json) (project_id : option string) (result : json)
    (task_id attempt_id : string) (timestamp : stamp) : M json :=
  plan ← validate_generation_publish effect project_id result;
  '(overrides, publications) ← foldS (publish_group project_id (jget effect "payload") task_id attempt_id timestamp)
                                 ([], []) plan;
  mret (JObj [("effect_type", JStr PUBLISH); ("publications", JArr publications);
              ("_association_overrides", JArr overrides)]).

(** ** generation.create_with_variant *)

Definition create_generation_id (task_id : string) : string := "generation-task-" +:+ task_id.

Definition initial_variant_id (payload output : json) (task_id : string) : string :=
  "initial-" +:+ sha256 (canonical_json (JObj
    [("generation_id", JStr (create_generation_id task_id)); ("variant_type", jget payload "variant_type");
     ("output_name", jget payload "output_name"); ("output_ordinal", jget payload "output_ordinal");
     ("output_digest", jget output "digest"); ("task_id", JStr task_id)])).

(** The generation metadata: the declared one with what the runtime knows. *)
Definition created_metadata (payload input_object_ids : json) (task_id : string) : json :=
  let inputs := list_or_empty input_object_ids in
  let metadata := jget payload "metadata" in
  let params := jget_def metadata "params" (JObj []) in
  let params := jset params "source_task_id" (JStr task_id) in
  let params := jset params "input_object_ids" inputs in
  let params := jset params "output_name" (jget payload "output_name") in
  let params := if jhas params "content_type" then params
                else jset params "content_type"
                  (JStr (if str_contains "video" (str_lower (text_of (jget payload "generation_type")))
                         then "video" else "image")) in
  let metadata := jset metadata "params" params in
  let metadata := jset metadata "source_task_id" (JStr task_id) in
  let metadata := jset metadata "input_object_ids" inputs in
  let metadata := jset metadata "output_name" (jget payload "output_name") in
  let metadata := jset metadata "output_ordinal" (jget payload "output_ordinal") in
  jset metadata "primary_policy" (jget payload "primary_policy").

Definition apply_generation_create (effect : json) (project_id : option string) (result input_object_ids : json)
    (task_id : string) (timestamp : stamp) : M json :=
  plan ← validate_generation_create effect project_id result input_object_ids;
  match plan with
  | None => raiseM TypeError "'NoneType' object is not subscriptable"
  | Some plan =>
      let payload := jget effect "payload" in
      let output := cp_output plan in
      let digest := jget output "digest" in
      output_digest ← text_digest digest;
      let generation_id := create_generation_id task_id in
      let variant_id := initial_variant_id payload output task_id in
      let thumbnail := descriptor_of (cp_thumbnail plan) digest in
      let metadata := created_metadata payload input_object_ids task_id in
      let metadata := match thumbnail with Some d => jset metadata "thumbnail" d | None => metadata end in
      insert_generation (Generation generation_id (default "None" project_id) (Some task_id)
        (text_of (jget payload "generation_type")) "completed" (json_column metadata) 1 timestamp timestamp);;
      let variant_metadata := JObj
        [("is_primary", JBool true); ("source_task_id", JStr task_id);
         ("input_object_ids", list_or_empty input_object_ids); ("output_name", jget payload "output_name");
         ("output_ordinal", jget payload "output_ordinal"); ("primary_policy", jget payload "primary_policy");
         ("media_type", jget output "media_type"); ("size", jget output "size")] in
      '(thumb, thumb_source, recipe) ← variant_thumbnail_columns thumbnail;
      insert_variant (Variant variant_id generation_id (Some output_digest) (text_of (jget payload "variant_type"))
        (json_column variant_metadata) thumb thumb_source recipe None timestamp);;
      mret (JObj [("variant_id", JStr variant_id); ("generation_id", JStr generation_id); ("object_id", digest);
                  ("variant_type", jget payload "variant_type"); ("metadata", variant_metadata);
                  ("created_at", jstamp timestamp)])
  end.

(** ** generation.thumbnail.attach *)

Definition apply_generation_attach (effect : json) (project_id : option string) (result input_object_ids : json)
    (timestamp : stamp) : M json :=
  check_effect_target effect;;
  plan ← validate_generation_attach effect project_id result input_object_ids;
  match plan with
  | None => raiseM TypeError "'NoneType' object is not subscriptable"
  | Some plan =>
      let g := tp_generation plan in
      let descriptor := thumbnail_metadata_descriptor (tp_thumbnail plan) (tp_source plan) in
      let existing := jget (g_metadata_json g) "thumbnail" in
      lift (validate_existing_generation_thumbnail existing (g_id g));;
      let changed := negb (py_eq existing descriptor) in
      (if changed then
         update_generation (g_id g) (default "None" project_id) (default 0 (as_int (jget effect "expected_version")))
           (jset (g_metadata_json g) "thumbnail" descriptor) timestamp
           "stale thumbnail attachment target generation version"
       else mret tt);;
      mret (JObj [("effect_type", JStr ATTACH); ("generation_id", JStr (g_id g)); ("thumbnail", descriptor);
                  ("changed", JBool changed); ("version", JInt (g_version g + if changed then 1 else 0))])
  end.

(** ** generation.variant.append *)

Definition append_variant_id (effect output : json) (task_id : string) : string :=
  let payload := jget effect "payload" in
  "append-" +:+ sha256 (canonical_json (JObj
    [("generation_id", jget effect "target_id"); ("source_variant_id", jget payload "source_variant_id");
     ("source_object_id", jget payload "source_object_id"); ("variant_type", jget payload "variant_type");
     ("output_name", jget payload "output_name"); ("output_ordinal", jget payload "output_ordinal");
     ("output_digest", jget output "digest"); ("task_id", JStr task_id)])).

(** Clear every explicit primary marker of the generation. *)
Definition clear_primary (v : variant_row) : variant_row :=
  v {{ v_metadata_json := json_column (jset (v_metadata_json v) "is_primary" (JBool false)) }}.

Definition clear_primaries (generation_id : string) : M unit :=
  modify (fun t => t {{ generation_variants :=
    update_where (fun v => String.eqb (v_generation_id v) generation_id && marked_primary v) clear_primary
      (generation_variants t) }}).

(** The metadata of the generation, with a thumbnail of its primary object. *)
Definition appended_metadata (target : string) (plan : append_plan) : M json :=
  row ← gets (generation_by_id target);
  match row with
  | None => raiseM TypeError "'NoneType' object is not subscriptable"
  | Some g =>
      match descriptor_of (ap_thumbnail plan) (ap_primary_source plan) with
      | None => mret (g_metadata_json g)
      | Some d =>
          lift (validate_existing_generation_thumbnail (jget (g_metadata_json g) "thumbnail") target);;
          mret (jset (g_metadata_json g) "thumbnail" d)
      end
  end.

Definition apply_generation_append (effect : json) (project_id : option string) (result input_object_ids : json)
    (task_id : string) (timestamp : stamp) : M json :=
  check_effect_target effect;;
  plan ← validate_generation_append effect project_id result input_object_ids;
  match plan with
  | None => raiseM TypeError "'NoneType' object is not subscriptable"
  | Some plan =>
      let payload := jget effect "payload" in
      let target := text_of (jget effect "target_id") in
      let output := ap_output plan in
      output_digest ← text_digest (jget output "digest");
      let variant_id := append_variant_id effect output task_id in
      generation_metadata ← appended_metadata target plan;
      previous_object ← variant_object (ap_primary plan);
      let promote := is_json_str "promote" (jget payload "primary_policy") in
      update_generation target (default "None" project_id) (default 0 (as_int (jget effect "expected_version")))
        generation_metadata timestamp "stale settlement effect target generation version";;
      let metadata := JObj ([("source_task_id", JStr task_id); ("source_variant_id", jget payload "source_variant_id");
        ("source_object_id", jget payload "source_object_id"); ("output_name", jget payload "output_name");
        ("output_ordinal", jget payload "output_ordinal"); ("primary_policy", jget payload "primary_policy")] ++
        if promote then [("is_primary", JBool true)] else []) in
      (if promote then clear_primaries target else mret tt);;
      '(thumb, thumb_source, recipe) ← variant_thumbnail_columns
                                         (descriptor_of (ap_variant_thumbnail plan) (jget output "digest"));
      on_integrity
        (insert_variant (Variant variant_id target (Some output_digest) (text_of (jget payload "variant_type"))
           (json_column metadata) thumb thumb_source recipe None timestamp))
        (raiseM_with ConflictError "generation variant append conflicts with an existing variant"
           (details1 "variant_id" (JStr variant_id)));;
      mret (JObj [("variant_id", JStr variant_id); ("generation_id", JStr target);
                  ("object_id", jget output "digest"); ("variant_type", jget payload "variant_type");
                  ("metadata", metadata); ("created_at", jstamp timestamp);
                  ("previous_primary_variant_id", JStr (v_id (ap_primary plan)));
                  ("new_primary_variant_id", JStr (if promote then variant_id else v_id (ap_primary plan)));
                  ("previous_primary_object_id", previous_object);
                  ("new_primary_object_id", if promote then jget output "digest" else previous_object)])
  end.

(** ** project.update *)

(** A JSON value bound to a TEXT column: numbers take its affinity. *)
Definition text_column (j : json) : M string :=
  match j with
  | JStr s => mret s
  | JInt z => mret (dec_string z)
  | JBool b => mret (if b then "1" else "0")
  | _ => raiseM TypeError "parameter is not a text value"
  end.

Definition apply_project_update (effect : json) : M json :=
  current ← target_project (jget effect "target_id");
  let payload := py_or (jget effect "payload") (JObj []) in
  guard_raise (negb (is_dict payload)) ValidationError "project.update payload must be an object";;
  let name := jget_def payload "name" (JStr (p_name current)) in
  let metadata := jget_def payload "metadata" (p_metadata_json current) in
  guard_raise (negb (truthy name)) ValidationError "project name is required";;
  timestamp ← now;
  version ← py_int (jget effect "expected_version");
  text ← text_column name;
  let target p := String.eqb (p_id p) (p_id current) && (p_version p =? version) in
  changed ← gets (fun t => rowcount target (projects t));
  modify (fun t => t {{ projects := update_where target (fun p => p {{
    p_name := text; p_metadata_json := json_column metadata; p_version := p_version p + 1;
    p_updated_at := timestamp }}) (projects t) }});;
  guard_raise (negb (Nat.eqb changed 1)) ConflictError "stale settlement effect target version";;
  mret JNull.

(** ** The dispatcher *)

Definition apply_settlement_effect (effect : json) (project_id : option string) (result : json) (task_id : string)
    (input_object_ids : json) (settled_at : stamp) (attempt_id : string) : M json :=
  let kind := effect_type effect in
  if is_json_str PUBLISH kind then apply_generation_publish effect project_id result task_id attempt_id settled_at else
  if is_json_str CREATE kind then apply_generation_create effect project_id result input_object_ids task_id settled_at else
  if is_json_str ATTACH kind then apply_generation_attach effect project_id result input_object_ids settled_at else
  if is_json_str APPEND kind then apply_generation_append effect project_id result input_object_ids task_id settled_at else
  guard_raise (negb (is_json_str "project.update" kind)) ValidationError "unsupported settlement effect_type";;
  apply_project_update effect.

(** The callbacks the store passes: only the publication of staged files and
    the freezing of a managed render are left open. *)
Definition store_settlement (publish : option (M unit)) : settlement := {|
  st_publish := publish;
  st_validate_effect := validate_settlement_effect;
  st_apply_effect := apply_settlement_effect |}.

Definition store_admission (freeze : option string -> json -> M json) : admission_calls := {|
  ac_freeze := freeze;
  ac_validate_effect := fun effect project_id input_object_ids =>
    validate_settlement_effect effect project_id JNull input_object_ids |}.
End Generations.
