(* ===== verification/Wire.v ===== *)
(** * Wire values

    The checks [runtime_protocol/service.py] makes of request bodies before
    anything durable is looked at: idempotency keys, typed fields, file names,
    rationals, regeneration declarations and progress reports.  JSON numbers
    are integers; [Path] is the POSIX one. *)

From Stdlib Require Import ZArith String Ascii List Bool Lia.
From stdpp Require Import base list strings.
From S2P Require Import Prelude Json Errors Facts.

Open Scope Z_scope.

(** ** Idempotency keys *)

Definition key_char (c : ascii) : bool := is_alnum c || Ascii.eqb c "."%char || Ascii.eqb c "_"%char ||
  Ascii.eqb c "~"%char || Ascii.eqb c "-"%char.

(** [[A-Za-z0-9][A-Za-z0-9._~-]{0,255}] *)
Definition is_idempotency_key (s : string) : bool :=
  match s with
  | String c r => is_alnum c && all_chars key_char r && (Z.of_nat (String.length r) <=? 255)
  | EmptyString => false
  end.

Definition validate_idempotency_key (value : json) : res string :=
  match value with
  | JStr s => if is_idempotency_key s then Ok s else
      raise InvalidRequestError
        "Idempotency-Key must start with an alphanumeric character and contain at most 256 ASCII characters"
  | _ => raise InvalidRequestError
           "Idempotency-Key must start with an alphanumeric character and contain at most 256 ASCII characters"
  end.

Definition require_idempotency_key (value : json) : res string :=
  raise_if (is_null value) InvalidRequestError "Idempotency-Key is required for state mutations";;
  validate_idempotency_key value.

(** ** Typed fields *)

Definition wire_string (body : json) (field : string) : res string :=
  match jget body field with
  | JStr s => if nonempty s then Ok s else raise ValidationError (field +:+ " is required")
  | _ => raise ValidationError (field +:+ " is required")
  end.

Definition wire_integer (body : json) (field : string) (positive : bool) : res Z :=
  let bad := raise ValidationError (field +:+ " must be " +:+ (if positive then "positive integer" else "an integer")) in
  match jget body field with
  | JInt z => if positive && (z <? 1) then bad else Ok z
  | _ => bad
  end.

Definition missing_fields (body : json) (required : list string) : list string :=
  List.filter (fun f => negb (jhas body f)) required.

Definition wire_object (body : json) (required allowed : list string) : res json :=
  raise_if (negb (is_dict body)) InvalidRequestError "request body must be a JSON object";;
  raise_if_with (negb (nil_or (missing_fields body required))) ValidationError
    "request body is missing required fields" (details1 "fields" (sorted_strings (missing_fields body required)));;
  raise_if_with (negb (nil_or (unknown_keys body allowed))) ValidationError
    "request body contains unsupported fields" (details1 "fields" (sorted_strings (unknown_keys body allowed)));;
  Ok body.

Definition require_runtime_epoch_for_lease (body : json) : res unit :=
  raise_if_with (is_dict body && negb (jhas body "runtime_epoch")) ValidationError
    "request body is missing required fields" (details1 "fields" (JArr [JStr "runtime_epoch"])).

(** ** File names *)

Fixpoint split_on (c : ascii) (s : string) : list string :=
  match s with
  | EmptyString => [EmptyString]
  | String x r =>
      if Ascii.eqb x c then EmptyString :: split_on c r
      else match split_on c r with
           | h :: t => String x h :: t
           | [] => [String x EmptyString]
           end
  end.

Definition slash : ascii := "/"%char.
Definition backslash : ascii := "\"%char.

(** [Path(value)]: its parts without the anchor, and its last one. *)
Definition path_parts (s : string) : list string :=
  List.filter (fun p => nonempty p && negb (String.eqb p ".")) (split_on slash s).
Definition path_name (s : string) : string := default EmptyString (last (path_parts s)).
Definition is_absolute (s : string) : bool := match s with String c _ => Ascii.eqb c slash | EmptyString => false end.

Fixpoint contains_char (c : ascii) (s : string) : bool :=
  match s with EmptyString => false | String x r => Ascii.eqb x c || contains_char c r end.

Definition safe_text (value : json) : option string :=
  match value with
  | JStr s => if nonempty s && (py_len s <=? 512) && all_chars (fun c => negb (is_control c)) s then Some s else None
  | _ => None
  end.

Definition canonical_execution_input_filename (value : json) (field : string) : res string :=
  match safe_text value with
  | Some s => if is_absolute s || negb (String.eqb (path_name s) s) || str_in ".." (path_parts s)
              then raise ValidationError (field +:+ " must be a non-empty safe basename") else Ok s
  | None => raise ValidationError (field +:+ " must be a non-empty safe basename")
  end.

Definition LEGACY_MANAGED_OUTPUT_PREFIXES : list string := ["images"; "videos"; "audio"].

(** [value.partition("/")] *)
Fixpoint partition_on (c : ascii) (s : string) : string * option string :=
  match s with
  | EmptyString => (EmptyString, None)
  | String x r => if Ascii.eqb x c then (EmptyString, Some r)
                  else let '(h, t) := partition_on c r in (String x h, t)
  end.

Definition direct_name (s : string) : bool :=
  negb (str_in s ["."; ".."]) && negb (contains_char slash s) && negb (contains_char backslash s).

Definition canonical_managed_output_filename (value : json) : res string :=
  match safe_text value with
  | None => raise ValidationError "output filename is invalid"
  | Some s =>
      if direct_name s then Ok s else
      match partition_on slash s with
      | (prefix, Some leaf) =>
          if str_in prefix LEGACY_MANAGED_OUTPUT_PREFIXES && nonempty leaf && direct_name leaf then Ok leaf else
          raise ValidationError "output filename must be a direct safe file name or a known producer namespace/<direct safe file name>"
      | _ => raise ValidationError "output filename must be a direct safe file name or a known producer namespace/<direct safe file name>"
      end
  end.

(** ** Rationals and regeneration declarations *)

Definition is_digits (s : string) : bool := nonempty s && all_chars is_digit s.

Definition rational_text (s : string) : bool :=
  match partition_on slash s with
  | (n, Some d) => is_digits n && is_digits d && match d with String c _ => negb (Ascii.eqb c "0"%char) | _ => false end
  | _ => false
  end.

Definition validate_rational (value : json) (field : string) : res json :=
  let bad := raise ValidationError (field +:+ " must be a non-negative rational") in
  match value with
  | JStr s => if rational_text s then Ok value else bad
  | JObj _ =>
      if keys_are value ["numerator"; "denominator"] then
        match jget value "numerator", jget value "denominator" with
        | JInt n, JInt d => if (0 <=? n) && (0 <? d) then Ok (JObj [("numerator", JInt n); ("denominator", JInt d)]) else bad
        | _, _ => bad
        end
      else bad
  | _ => bad
  end.

Fixpoint contains_latest (value : json) : bool :=
  match value with
  | JStr s => String.eqb (str_lower s) "latest"
  | JObj kvs => existsb (fun kv => String.eqb (str_lower kv.1) "latest" || contains_latest kv.2) kvs
  | JArr l => existsb contains_latest l
  | _ => false
  end.

Definition prefixed_object_id (j : json) : bool := match j with JStr s => is_sha256_id s | _ => false end.

Definition regeneration_fields : list string :=
  ["available"; "capability_id"; "source_refs"; "recipe_digest"; "exact_inputs"].

Definition validate_regeneration (value : json) : res json :=
  raise_if (negb (is_dict value) || negb (keys_are value regeneration_fields)) ValidationError
    "output regeneration requires exactly available, capability_id, source_refs, recipe_digest, and exact_inputs";;
  raise_if (negb (is_bool (jget value "available"))) ValidationError "output regeneration.available must be a boolean";;
  let capability_id := jget value "capability_id" in
  raise_if (negb (is_null capability_id) && negb (is_str capability_id && truthy capability_id)) ValidationError
    "output regeneration.capability_id must be a non-empty string or null";;
  raise_if (truthy (jget value "available") && is_null capability_id) ValidationError
    "available regeneration requires capability_id";;
  raise_if (match jget value "source_refs" with JArr l => existsb (fun r => negb (prefixed_object_id r)) l | _ => true end)
    ValidationError "output regeneration.source_refs must contain canonical sha256 object IDs";;
  raise_if (negb (prefixed_object_id (jget value "recipe_digest"))) ValidationError
    "output regeneration.recipe_digest must be a canonical sha256 digest";;
  let exact_inputs := jget value "exact_inputs" in
  raise_if (negb (is_dict exact_inputs || is_list exact_inputs)) ValidationError
    "output regeneration.exact_inputs must be an object or list";;
  raise_if (contains_latest exact_inputs) ValidationError "output regeneration.exact_inputs must never use latest";;
  Ok value.

(** ** Progress *)

(** Integers that [float()] refuses: those that round to 2^1024 or more. *)
Definition float_limit : Z := 2 ^ 1024 - 2 ^ 970.

Definition progress_number (key : string) (value : json) : res json :=
  match value with
  | JInt z =>
      raise_if (float_limit <=? Z.abs z) OverflowError "int too large to convert to float";;
      raise_if (String.eqb key "percent" && negb ((0 <=? z) && (z <=? 100))) ValidationError
        "progress.percent must be between 0 and 100";;
      raise_if (String.eqb key "total" && (z <? 1)) ValidationError "progress.total must be at least 1";;
      raise_if (String.eqb key "current" && (z <? 0)) ValidationError "progress.current must be non-negative";;
      Ok value
  | _ => raise ValidationError ("progress." +:+ key +:+ " must be a finite number")
  end.

Definition progress_fields : list string := ["phase"; "percent"; "current"; "total"].

Definition add_progress (progress : json) (acc : json) (key : string) : res json :=
  if jhas progress key then value ← progress_number key (jget progress key); Ok (jset acc key value) else Ok acc.

Definition progress_phase (progress : json) : res json :=
  if negb (jhas progress "phase") then Ok (JObj []) else
  match jget progress "phase" with
  | JStr s => if nonempty (str_strip s) && (py_len s <=? 128) then Ok (JObj [("phase", JStr (str_strip s))]) else
      raise ValidationError "progress.phase must be a non-empty string of at most 128 characters"
  | _ => raise ValidationError "progress.phase must be a non-empty string of at most 128 characters"
  end.

Definition normalize_progress (progress : json) : res json :=
  raise_if (negb (is_dict progress)) ValidationError "progress must be an object";;
  raise_if_with (negb (nil_or (unknown_keys progress progress_fields))) ValidationError
    "progress contains unsupported fields" (details1 "fields" (sorted_strings (unknown_keys progress progress_fields)));;
  phase ← progress_phase progress;
  normalized ← foldM (add_progress progress) phase ["percent"; "current"; "total"];
  raise_if (negb (truthy normalized)) ValidationError "progress must contain phase, percent, current, or total";;
  Ok normalized.

(** ** Accepted file names are safe *)

Lemma split_on_none c s : contains_char c s = false -> split_on c s = [s].
Proof.
  induction s as [|x r IH]; simpl; [done|]. intros H. apply orb_false_iff in H as [Hx Hr].
  by rewrite Hx, (IH Hr).
Qed.

Lemma partition_on_some c s h t : partition_on c s = (h, Some t) -> s = h +:+ String c t.
Proof.
  revert h. induction s as [|x r IH]; intros h; simpl; [done|].
  destruct (Ascii.eqb_spec x c) as [->|_]; [by intros [= <- <-]|].
  destruct (partition_on c r) as [h' t'] eqn:E. intros [= <- ->]. by rewrite (IH h' eq_refl).
Qed.

Lemma py_len_app a b : py_len (a +:+ b) = py_len a + py_len b.
Proof.
  induction a as [|x a IH]; [done|]. change (String x a +:+ b) with (String x (a +:+ b)). simpl. rewrite IH. lia.
Qed.

Lemma py_len_nonneg s : 0 <= py_len s.
Proof. induction s as [|x s IH]; simpl; [lia|]. destruct (is_continuation x); lia. Qed.

(** A name that can only denote an entry of the directory it is used in. *)
Record safe_name (name : string) : Prop := SafeName {
  sn_nonempty : nonempty name = true; sn_direct : direct_name name = true;
  sn_printable : all_chars (fun c => negb (is_control c)) name = true; sn_short : py_len name <= 512 }.

Lemma safe_text_name value s : safe_text value = Some s -> direct_name s = true -> safe_name s.
Proof.
  destruct value; try done. simpl. destruct (_ && _) eqn:E; [|done]. intros [= ->] Hd.
  apply andb_true_iff in E as [E Hc]. apply andb_true_iff in E as [Hn Hl]. split; try done. by apply Z.leb_le.
Qed.

Lemma safe_text_leaf value s prefix leaf :
  safe_text value = Some s -> partition_on slash s = (prefix, Some leaf) -> nonempty leaf = true ->
  direct_name leaf = true -> safe_name leaf.
Proof.
  destruct value; try done. simpl. destruct (_ && _) eqn:E; [|done]. intros [= ->] Hp Hn Hd.
  apply andb_true_iff in E as [E Hc]. apply andb_true_iff in E as [_ Hl]. apply Z.leb_le in Hl.
  apply partition_on_some in Hp. subst s. change (String slash leaf) with ("/" +:+ leaf) in *.
  rewrite !all_chars_app in Hc. rewrite !py_len_app in Hl. apply andb_true_iff in Hc as [_ Hc].
  apply andb_true_iff in Hc as [_ Hc]. split; try done. pose proof (py_len_nonneg prefix). simpl in Hl. lia.
Qed.

Lemma safe_name_text name : safe_name name -> safe_text (JStr name) = Some name.
Proof. intros [Hn _ Hc Hl]. simpl. rewrite Hn, Hc. by apply Z.leb_le in Hl as ->. Qed.

Lemma safe_name_path name : safe_name name -> path_parts name = [name].
Proof.
  intros [Hn Hd _ _]. unfold direct_name in Hd. apply andb_true_iff in Hd as [Hd _].
  apply andb_true_iff in Hd as [Hdot Hs]. apply negb_true_iff in Hs, Hdot. unfold path_parts.
  rewrite split_on_none by done. simpl. rewrite Hn. apply str_in_false in Hdot.
  destruct (String.eqb_spec name "."); [|done]. subst. destruct Hdot. by left.
Qed.

Lemma safe_name_relative name : safe_name name -> is_absolute name = false.
Proof.
  intros [_ Hd _ _]. unfold direct_name in Hd. destruct name as [|c r]; [done|]. simpl.
  apply andb_true_iff in Hd as [Hd _]. apply andb_true_iff in Hd as [_ Hs]. apply negb_true_iff in Hs.
  simpl in Hs. by apply orb_false_iff in Hs as [? _].
Qed.

Lemma canonical_name_safe value name : canonical_managed_output_filename value = Ok name -> safe_name name.
Proof.
  intros Hok. unfold canonical_managed_output_filename in Hok. destruct (safe_text value) as [s|] eqn:E; [|done].
  destruct (direct_name s) eqn:Ed; [injection Hok as <-; by eapply safe_text_name|].
  destruct (partition_on slash s) as [prefix [leaf|]] eqn:Ep; [|done].
  destruct (_ && _) eqn:Eb; [|done]. injection Hok as <-.
  apply andb_true_iff in Eb as [Eb ?]. apply andb_true_iff in Eb as [_ ?]. by eapply safe_text_leaf.
Qed.

(** An accepted output file name stays in its directory.  It is not
    empty, has no separator, is neither [.] nor [..], holds no control
    character and at most 512 characters; accepting it again changes nothing,
    and it is also an acceptable name of an execution input. *)
Theorem output_filename_safe value name :
  canonical_managed_output_filename value = Ok name ->
  safe_name name /\ canonical_managed_output_filename (JStr name) = Ok name /\
  forall field, canonical_execution_input_filename (JStr name) field = Ok name.
Proof.
  intros Hok. pose proof (canonical_name_safe _ _ Hok) as Hs.
  split; [done|]. split.
  - unfold canonical_managed_output_filename. rewrite safe_name_text by done. by destruct Hs as [_ -> _ _].
  - intros field. unfold canonical_execution_input_filename. rewrite safe_name_text, safe_name_relative by done.
    unfold path_name. rewrite safe_name_path by done. simpl. rewrite String.eqb_refl. simpl.
    destruct Hs as [_ Hd _ _]. unfold direct_name in Hd. apply andb_true_iff in Hd as [Hd _].
    apply andb_true_iff in Hd as [Hdot _]. apply negb_true_iff, str_in_false in Hdot.
    destruct (str_in ".." [name]) eqn:E; [|done]. apply str_in_spec in E as [->|[]]. destruct Hdot. by right; left.
Qed.

(** A name in a producer's namespace. *)
Lemma output_filename_safe_witness :
  canonical_managed_output_filename (JStr "images/cat.png") = Ok "cat.png" /\ safe_name "cat.png".
Proof.
  split; [reflexivity|]. apply (output_filename_safe (JStr "images/cat.png") "cat.png"). reflexivity.
Defined.
