(* ===== verification/Commands.v ===== *)
(** * The command layer of the service

    [runtime_protocol/service.py] answers a repeated command from its receipt
    and records the receipt of a new one: durable receipts in the ledger of
    the realm, receipts of claims and registrations in a table of the
    session.  Also the public form of a task. *)

From Stdlib Require Import ZArith String Ascii List Bool Lia.
From stdpp Require Import base list strings.
From S2P Require Import Prelude Json Errors Facts Sha256 Store Idempotency Ledger Bindings.
From S2P Require Import Executors Continuations Snapshots Delegation Claim Outputs Settle Runs.
From S2P Require Import Admission Effects Wire.

Open Scope Z_scope.

(** What a running service holds beside its store: whether the realm was
    admitted, the id of its session, the actor whose claims the local fence
    governs with the fence as it was last read, the check of the fence's
    credential generation, and how a compacted publication is rebuilt. *)
Record service := Service {
  sv_verified : bool; sv_session_id : string; sv_local_claim_actor : string;
  sv_fence_unknown : bool; sv_fence : option json; sv_generation_verifier : option (json -> json -> json);
  sv_publication_replay : receipt_row -> M json }.

(** [_verified_mutation] and [_durable_mutation].  The recovery of CAS
    journals at the end of the latter touches files only. *)
Definition assert_mutation_admitted (svc : service) : M unit :=
  guard_raise (negb (sv_verified svc)) RealmAdmissionError "realm is not admitted for mutations".
Definition verified_mutation {A} (svc : service) (m : M A) : M A := assert_mutation_admitted svc;; m.
Definition durable_mutation {A} (svc : service) (m : M A) : M A := assert_mutation_admitted svc;; transaction m.

Definition require_object_body (body : json) : M unit :=
  guard_raise (negb (is_dict body)) InvalidRequestError "request body must be a JSON object".

Section Commands.
Context `{World} (svc : service).

(** ** The public form of a task *)

(** [dict(value)]; a list would have to hold pairs. *)
Definition py_dict (value : json) : M json :=
  match value with
  | JObj _ => mret value
  | _ => raiseM TypeError "cannot convert to a dictionary"
  end.

Definition set_present (resource : json) (key : string) (value : json) : json :=
  if is_null value then resource else jset resource key value.
Definition set_truthy (resource : json) (key : string) (value : json) : json :=
  if truthy value then jset resource key value else resource.

Definition copy_field (source : json) (key : string) (resource : json) : M json :=
  if jhas source key then d ← py_dict (jget source key); mret (jset resource key d) else mret resource.

Definition public_state (status : json) : json :=
  if is_json_str "completed" status then JStr "succeeded" else status.

Definition default_capability_digest (capability : json) : json :=
  match capability with JStr c => JStr ("sha256:" +:+ sha256 c) | _ => JNull end.

Definition task_resource (value : json) : M json :=
  task ← jitem value "task";
  run ← jitem value "run";
  let '(spec, intent) := public_task_spec (jget_def task "spec" (JObj [])) in
  let intent := if is_null (jget task "generation_intent") then intent else jget task "generation_intent" in
  attempt ← py_int (jget_def task "attempt" (JInt 0));
  epoch ← (if truthy (jget task "runtime_epoch") then py_int (jget task "runtime_epoch")
           else gets current_runtime_epoch);
  let resource := JObj [
    ("task_id", jget task "id"); ("run_id", jget run "id"); ("project_id", jget run "project_id");
    ("state", public_state (jget task "status")); ("version", JInt (attempt + 1));
    ("capability_id", jget task "capability");
    ("capability_digest", py_or (jget task "capability_digest")
       (jget_def spec "capability_digest" (default_capability_digest (jget task "capability"))));
    ("schema_version", jget_def spec "schema_version" (JStr "1"));
    ("input_object_ids", jget_def spec "input_object_ids" (JArr [])); ("spec", spec);
    ("idempotency_key", py_or (jget run "idempotency_key") (jget task "id"));
    ("created_at", jget task "created_at"); ("updated_at", jget task "updated_at");
    ("attempt_id", jget task "attempt_id"); ("runtime_epoch", JInt epoch)] in
  resource ← (if is_null (jget task "execution_request") then mret resource
              else copy_field task "execution_request" resource);
  binding ← (if is_null (jget value "execution_binding")
             then b ← execution_binding (text_of (jget task "id")); mret (default JNull b)
             else mret (jget value "execution_binding"));
  let resource := set_present (set_present resource "execution_binding" binding) "generation_intent" intent in
  resource ← (if is_null (jget task "expected_effect") then mret resource
              else copy_field task "expected_effect" resource);
  resource ← copy_field spec "required_facts" resource;
  resource ← copy_field spec "storage_estimate" resource;
  let resource := set_truthy resource "waiting_reason" (jget task "waiting_reason") in
  let resource := set_truthy resource "lease_fence" (jget task "lease_fence") in
  let resource := set_truthy resource "lease_expires_at" (jget task "lease_expires_at") in
  let resource := set_present resource "result" (jget task "result") in
  progress ← gets (latest_payload (text_of (jget task "id")) "task.progress");
  mret (match progress with
        | Some p => if is_dict p then jset resource "progress" p else resource
        | None => resource
        end).

(** ** Receipts *)

Definition session_kind (kind : string) : bool := str_in kind ["task.claim"; "executor.register"].
Definition SESSION_IDEMPOTENCY_WINDOW_SECONDS : Z := 60 * 60.

Definition replay_time (kind : string) (created_at : stamp) : option stamp :=
  if str_in kind ["object.ingest"; "media.import"] then None else Some created_at.

(** [_active_task_admission_result]: a task.create receipt whose task is still
    open stands for the task as it is now.  Only the query of
    [committed_receipt] selects the stream. *)
Definition active_task_admission_result (row : receipt_row) (with_stream : bool) : M (option json) :=
  if negb (String.eqb (rc_command_kind row) "task.create") || negb with_stream ||
     negb (str_truthy (rc_primary_stream_id row)) then mret None else
  let stream := default EmptyString (rc_primary_stream_id row) in
  run ← gets (run_by_id stream);
  task ← gets (task_of_run stream);
  match run, task with
  | Some r, Some x =>
      if status_in (t_status x) open_statuses then v ← task_result (Some r) x None None; mret (Some v)
      else mret None
  | _, _ => mret None
  end.

Definition seq_number (z : option Z) : M json :=
  match z with
  | Some z => mret (JInt z)
  | None => raiseM TypeError "int() argument must be a string or a real number, not 'NoneType'"
  end.

Definition receipt_payload (row : receipt_row) (with_stream : bool) (project_id : json) : M json :=
  match rc_txn_id row with
  | None => mret JNull
  | Some txn =>
      active ← active_task_admission_result row with_stream;
      result ← match active with
               | Some v => mret v
               | None =>
                   if String.eqb (rc_command_kind row) "parent_composition.publish" then sv_publication_replay svc row
                   else command_result (rc_result_json row) (replay_time (rc_command_kind row) (rc_created_at row))
               end;
      first ← seq_number (rc_first_project_seq row);
      latest ← seq_number (rc_last_project_seq row);
      ids ← match rc_event_ids_json row with
            | Some v => mret v
            | None => raiseM TypeError "the JSON object must be str, bytes or bytearray, not NoneType"
            end;
      mret (JObj [("receipt_id", JStr txn); ("command_kind", JStr (rc_command_kind row));
                  ("idempotency_key", JStr (rc_idempotency_key row)); ("request_hash", JStr (rc_request_hash row));
                  ("project_id", project_id); ("project_seq", JArr [first; latest]); ("event_ids", ids);
                  ("result", result); ("created_at", jstamp (rc_created_at row))])
  end.

Definition committed_receipt (command_kind aggregate_id : string) (key : option string) (project_id : json) : M json :=
  if negb (str_truthy key) then mret JNull else
  row ← gets (receipt_of command_kind aggregate_id (default EmptyString key));
  match row with
  | Some r => receipt_payload r true project_id
  | None => mret JNull
  end.

(** ** Replay *)

Definition same_session (kind aggregate key : string) (r : session_row) : bool :=
  String.eqb (ss_command_kind r) kind && String.eqb (ss_aggregate_id r) aggregate &&
  String.eqb (ss_idempotency_key r) key.

Definition session_receipt_of (kind aggregate key : string) (t : tables) : option session_row :=
  find (same_session kind aggregate key) (session_command_replay t).

(** A row of the session with NULL for the columns it does not have. *)
Definition session_receipt (r : session_row) : receipt_row :=
  Receipt (ss_command_kind r) (ss_aggregate_id r) (ss_idempotency_key r) (ss_request_hash r) (ss_result_json r)
    (ss_created_at r) None None None None None None.

Definition prior_receipt (kind aggregate key : string) (t : tables) : option receipt_row :=
  if session_kind kind then option_map session_receipt (session_receipt_of kind aggregate key t)
  else receipt_of kind aggregate key t.

Definition replay_window (kind : string) : Z :=
  if session_kind kind then SESSION_IDEMPOTENCY_WINDOW_SECONDS else IDEMPOTENCY_RESULT_WINDOW_SECONDS.

(** [(True, value)] is [Some value], so that a recorded null is replayed. *)
Definition command_replay_state (kind aggregate_id : string) (key : json) (request_hash : string)
    (project_id : option string) (with_receipt : bool) : M (option json) :=
  if is_null key then mret None else
  key ← lift (validate_idempotency_key key);
  prior ← gets (prior_receipt kind aggregate_id key);
  match prior with
  | None => mret None
  | Some row =>
      guard_raise (negb (String.eqb (rc_request_hash row) request_hash)) ConflictError
        "idempotency key was already used with different input";;
      result ← (if String.eqb kind "parent_composition.publish" then sv_publication_replay svc row
                else command_result_within (replay_window kind) (rc_result_json row)
                       (replay_time kind (rc_created_at row)));
      match project_id with
      | Some p => if with_receipt then
                    receipt ← receipt_payload row false (JStr p);
                    mret (Some (JObj [("data", result); ("receipt", receipt)]))
                  else mret (Some result)
      | None => mret (Some result)
      end
  end.

(** [_command_replay]: a recorded null counts as no replay. *)
Definition command_replay (kind aggregate_id : string) (key : json) (request_hash : string)
    (project_id : option string) : M (option json) :=
  found ← command_replay_state kind aggregate_id key request_hash project_id true;
  mret (match found with Some v => if is_null v then None else Some v | None => None end).

(** ** Recording *)

Definition insert_session (row : session_row) : M unit :=
  known ← gets (session_receipt_of (ss_command_kind row) (ss_aggregate_id row) (ss_idempotency_key row));
  unique (match known with Some _ => false | None => true end);;
  modify (fun t => t {{ session_command_replay := session_command_replay t ++ [row] }}).

Definition expire_session (old : session_row) : M unit :=
  modify (fun t => t {{ session_command_replay :=
    update_where (same_session (ss_command_kind old) (ss_aggregate_id old) (ss_idempotency_key old))
      (fun r => r {{ ss_result_json := expired_command_result (ss_result_json old); ss_is_expired := true }})
      (session_command_replay t) }}).

Definition session_candidates (cutoff : stamp) (t : tables) : list session_row :=
  firstn 100 (List.filter (fun r => negb (ss_is_expired r) && stamp_ltb (ss_created_at r) cutoff)
    (session_command_replay t)).

Definition record_session (kind aggregate_id key request_hash : string) (result : json) : M json :=
  timestamp ← now;
  insert_session (Session kind aggregate_id key request_hash (canonical_json result) timestamp false);;
  cutoff ← now_plus (- SESSION_IDEMPOTENCY_WINDOW_SECONDS);
  rows ← gets (session_candidates cutoff);
  for_each rows expire_session;;
  mret result.

Definition record_durable (kind aggregate_id key request_hash : string) (result : json) (project_id : string)
    (event_ids : list string) (stream : option string) (seq : option Z) (with_receipt : bool)
    (created_at : option stamp) : M json :=
  record_command_receipt kind aggregate_id key request_hash result project_id event_ids stream seq created_at;;
  if negb with_receipt then mret result else
  row ← gets (receipt_of kind aggregate_id key);
  receipt ← match row with Some r => receipt_payload r false (JStr project_id) | None => mret JNull end;
  mret (JObj [("data", result); ("receipt", receipt)]).

Definition command_record (kind aggregate_id : string) (key : json) (request_hash : string) (result : json)
    (project_id : option string) (event_ids : list string) (stream : option string) (seq : option Z)
    (with_receipt : bool) (created_at : option stamp) : M json :=
  if is_null key then mret result else
  key ← lift (validate_idempotency_key key);
  if session_kind kind then record_session kind aggregate_id key request_hash result else
  match project_id with
  | Some p => record_durable kind aggregate_id key request_hash result p event_ids stream seq with_receipt created_at
  | None =>
      timestamp ← now;
      insert_receipt (Receipt kind aggregate_id key request_hash (compact_result kind result) timestamp
                        None None None None None None);;
      mret result
  end.
End Commands.
