(* ===== verification/Deployments.v ===== *)
(** * Deployment bindings

    The part of [runtime_protocol/remote_worker_deployment.py] that projects a
    task read into the immutable deployment binding: the identity classes with
    the checks of their constructors, [deployment_binding_from_task] and the
    digest.  [DeploymentReferenceError] is a [ValueError]. *)

From Stdlib Require Import ZArith String Ascii List Bool Lia.
From stdpp Require Import base list strings.
From S2P Require Import Prelude Json Errors Facts Sha256 Wire.

Open Scope Z_scope.

Definition refused {A} (m : string) : res A := raise ValueError m.
Definition refuse_if (b : bool) (m : string) : res unit := raise_if b ValueError m.

(** ** Field checks *)

Definition line_break (c : ascii) : bool :=
  let n := N_of_ascii c in (n =? 0)%N || (n =? 13)%N || (n =? 10)%N.

Definition text_field (value : json) (field : string) : res string :=
  match value with
  | JStr s =>
      refuse_if (negb (nonempty (str_strip s))) (field +:+ " is required");;
      refuse_if (negb (all_chars (fun c => negb (line_break c)) (str_strip s))) (field +:+ " contains a control character");;
      Ok (str_strip s)
  | _ => refused (field +:+ " is required")
  end.

Definition reference_char (c : ascii) : bool := is_alnum c || Ascii.eqb c "."%char || Ascii.eqb c "_"%char ||
  Ascii.eqb c ":"%char || Ascii.eqb c "/"%char || Ascii.eqb c "-"%char.

(** [[A-Za-z0-9][A-Za-z0-9._:/-]*] *)
Definition is_reference (s : string) : bool :=
  match s with String c r => is_alnum c && all_chars reference_char r | EmptyString => false end.

Definition identifier (value : json) (field : string) : res string :=
  s ← text_field value field;
  refuse_if (negb (is_reference s)) (field +:+ " is not a valid reference");;
  Ok s.

Definition digest_field (value : json) (field : string) : res string :=
  s ← text_field value field;
  refuse_if (negb (is_sha256_id (str_lower s))) (field +:+ " must be a sha256 digest");;
  Ok (str_lower s).

Definition target_field (value : json) (field : string) : res json :=
  refuse_if (negb (is_dict value) || negb (truthy value)) (field +:+ " must be a non-empty object");;
  Ok (json_column value).

Definition object_id (value : json) (field : string) : res string :=
  match value with
  | JStr s => match object_id_digest s with
              | Some d => Ok ("sha256:" +:+ d)
              | None => refused (field +:+ " must be a sha256 object ID")
              end
  | _ => refused (field +:+ " must be a sha256 object ID")
  end.

Definition sha256_of (value : json) : string := "sha256:" +:+ sha256 (canonical_json value).

(** ** Identities *)

Record admission_identity := AdmissionIdentity {
  ai_task_id : string; ai_run_id : string; ai_project_id : option string; ai_idempotency_key : string;
  ai_admission_digest : string; ai_spec_digest : string; ai_request_digest : string }.

Record capability_identity := CapabilityIdentity { ci_capability_id : string; ci_capability_digest : string }.

Record input_binding := InputBinding { ib_name : string; ib_object_id : string; ib_digest : string }.

Record placement_identity := PlacementIdentity {
  pi_original_target : json; pi_effective_target : json; pi_placement_version : Z;
  pi_recovery_decision_digest : option string }.

Record deployment_binding := DeploymentBinding {
  db_admission : admission_identity; db_capability : capability_identity;
  db_inputs : list input_binding; db_placement : placement_identity }.

Definition make_admission (task_id run_id project_id : json) (key admission spec request : string)
  : res admission_identity :=
  task_id ← identifier task_id "admission.task_id";
  run_id ← identifier run_id "admission.run_id";
  key ← text_field (JStr key) "admission.idempotency_key";
  refuse_if (negb (is_idempotency_key key)) "admission.idempotency_key is not a valid Runtime key";;
  project_id ← (if is_null project_id then Ok None else
                p ← identifier project_id "admission.project_id"; Ok (Some p));
  admission ← digest_field (JStr admission) "admission.admission_digest";
  spec ← digest_field (JStr spec) "admission.spec_digest";
  request ← digest_field (JStr request) "admission.request_digest";
  Ok (AdmissionIdentity task_id run_id project_id key admission spec request).

Definition make_capability (id digest : json) : res capability_identity :=
  id ← identifier id "capability.id";
  digest ← digest_field digest "capability.digest";
  Ok (CapabilityIdentity id digest).

Definition make_input (name : json) (id : string) (digest : json) : res input_binding :=
  name ← text_field name "input.name";
  id ← object_id (JStr id) "input.object_id";
  digest ← object_id digest "input.digest";
  refuse_if (negb (String.eqb id digest)) "input digest conflicts with object_id";;
  Ok (InputBinding name id digest).

Definition make_placement (original effective : json) (version : Z) (digest : option string) : res placement_identity :=
  original ← target_field original "placement.original_target";
  effective ← target_field effective "placement.effective_target";
  refuse_if (version <? 0) "placement.placement_version must be a non-negative integer";;
  digest ← match digest with
           | Some d => if nonempty d then d ← digest_field (JStr d) "placement.recovery_decision_digest"; Ok (Some d)
                       else Ok None
           | None => Ok None
           end;
  refuse_if ((version =? 0) && match digest with Some _ => true | None => false end)
    "initial placement cannot carry a recovery decision digest";;
  refuse_if ((0 <? version) && match digest with Some _ => false | None => true end)
    "recovered placement requires a recovery decision digest";;
  Ok (PlacementIdentity original effective version digest).

Definition make_binding (a : admission_identity) (c : capability_identity) (inputs : list input_binding)
    (p : placement_identity) : res deployment_binding :=
  refuse_if (has_dup (map ib_name inputs) || has_dup (map ib_object_id inputs))
    "deployment input bindings must be unique";;
  Ok (DeploymentBinding a c inputs p).

Definition opt_text (s : option string) : json := match s with Some s => JStr s | None => JNull end.

Definition input_json (i : input_binding) : json :=
  JObj [("name", JStr (ib_name i)); ("object_id", JStr (ib_object_id i)); ("digest", JStr (ib_digest i))].

Definition binding_json (b : deployment_binding) : json :=
  let a := db_admission b in
  let p := db_placement b in
  JObj [("admission", JObj [("task_id", JStr (ai_task_id a)); ("run_id", JStr (ai_run_id a));
           ("project_id", opt_text (ai_project_id a)); ("idempotency_key", JStr (ai_idempotency_key a));
           ("admission_digest", JStr (ai_admission_digest a)); ("spec_digest", JStr (ai_spec_digest a));
           ("request_digest", JStr (ai_request_digest a))]);
        ("capability", JObj [("capability_id", JStr (ci_capability_id (db_capability b)));
           ("capability_digest", JStr (ci_capability_digest (db_capability b)))]);
        ("inputs", JArr (map input_json (db_inputs b)));
        ("placement", JObj [("original_target", pi_original_target p); ("effective_target", pi_effective_target p);
           ("placement_version", JInt (pi_placement_version p));
           ("recovery_decision_digest", opt_text (pi_recovery_decision_digest p))])].

Definition binding_digest (b : deployment_binding) : string := sha256_of (binding_json b).

(** ** Admitted inputs *)

Definition conflicting_value (value : json) (names : list string) (field : string) : res json :=
  match List.filter (jhas value) names with
  | [] => refused (field +:+ " is required")
  | first :: rest =>
      refuse_if (existsb (fun n => negb (py_eq (jget value n) (jget value first))) rest)
        (field +:+ " has conflicting identity values");;
      Ok (jget value first)
  end.

(** [dict(decision)] without [decision_digest] must hash to it. *)
Definition recovery_digest (decision : json) : res string :=
  let supplied := jget decision "decision_digest" in
  refuse_if (is_null supplied) "placement recovery decision_digest is required";;
  let expected := sha256_of (jdel decision "decision_digest") in
  d ← digest_field supplied "placement recovery decision_digest";
  refuse_if (negb (String.eqb d expected)) "placement recovery decision_digest is stale or foreign";;
  Ok expected.

(** The object a named descriptor stands for, if it is a CAS descriptor. *)
Definition descriptor_object (location name : string) (descriptor : json) : res (option string) :=
  let here := location +:+ ".inputs[" +:+ name +:+ "]" in
  match descriptor with
  | JObj _ =>
      if jhas descriptor "object_id" || jhas descriptor "digest" then
        let raw_id := jget descriptor "object_id" in
        let raw_digest := jget descriptor "digest" in
        id ← object_id (if is_null raw_id then raw_digest else raw_id) here;
        (if is_null raw_digest then Ok tt else
         d ← object_id raw_digest (here +:+ ".digest");
         refuse_if (negb (String.eqb d id)) (here +:+ " has conflicting digest"));;
        Ok (Some id)
      else Ok None
  | JStr s => match object_id_digest s with
              | Some d => Ok (Some ("sha256:" +:+ d))
              | None => Ok None
              end
  | _ => Ok None
  end.

Definition name_descriptor (location : string) (acc : list (string * string)) (kv : string * json)
  : res (list (string * string)) :=
  refuse_if (negb (nonempty (str_strip kv.1))) (location +:+ ".inputs contains an invalid name");;
  id ← descriptor_object location kv.1 kv.2;
  Ok (match id with Some id => aset kv.1 id acc | None => acc end).

Definition numbered {A} (l : list A) : list (Z * A) := combine (map Z.of_nat (seq 0 (length l))) l.
Definition at_index (place : string) (i : Z) : string := place +:+ "[" +:+ dec_string i +:+ "]".

Definition name_digest (location : string) (acc : list (string * string)) (row : Z * json)
  : res (list (string * string)) :=
  let here := at_index (location +:+ ".input_digests") row.1 in
  refuse_if (negb (is_dict row.2)) (here +:+ " is invalid");;
  name ← text_field (jget row.2 "name") (here +:+ ".name");
  refuse_if (str_in name (akeys acc)) (location +:+ ".input_digests contains duplicate names");;
  d ← object_id (jget row.2 "digest") (here +:+ ".digest");
  Ok (aset name d acc).

(** The named descriptors and the digest rows of one section of the spec. *)
Definition section_inputs (location : string) (section : json)
  : res (list (list (string * string)) * list (list (string * string))) :=
  if negb (is_dict section) then Ok ([], []) else
  named ← (let d := jget section "inputs" in
           if is_null d then Ok [] else
           refuse_if (negb (is_dict d)) (location +:+ ".inputs must be a named input manifest");;
           n ← foldM (name_descriptor location) [] (jfields d); Ok [n]);
  digests ← (let d := jget section "input_digests" in
             if is_null d then Ok [] else
             match d with
             | JArr rows => n ← foldM (name_digest location) [] (numbered rows); Ok [n]
             | _ => refused (location +:+ ".input_digests must be a list")
             end);
  Ok (named, digests).

(** Equality of two dictionaries of texts. *)
Definition same_dict (a b : list (string * string)) : bool :=
  Nat.eqb (length a) (length b) &&
  forallb (fun kv => bool_decide (alookup kv.1 b = Some kv.2)) a.

Definition same_set (a b : list string) : bool :=
  forallb (fun x => str_in x b) a && forallb (fun x => str_in x a) b.

Definition bind_input (named : list (string * string)) (id : string) : res input_binding :=
  match find (fun kv => String.eqb kv.2 id) (rev named) with
  | Some kv => make_input (JStr kv.1) id (JStr id)
  | None => raise KeyError id
  end.

Definition spec_input_bindings (spec : json) (supplied : list string) : res (list input_binding) :=
  '(a, wa) ← section_inputs "spec" spec;
  '(b, wb) ← section_inputs "spec.spec" (jget spec "spec");
  let candidates := a ++ b in
  let named := match candidates with n :: _ => n | [] => [] end in
  refuse_if (existsb (fun c => negb (same_dict c named)) (tl candidates)) "admitted spec has ambiguous input descriptors";;
  refuse_if (has_dup (map snd named)) "admitted spec has ambiguous input descriptors";;
  refuse_if (existsb (fun w => negb (same_dict w named)) (wa ++ wb))
    "input_digests conflicts with admitted input descriptors";;
  refuse_if (negb (same_set (map snd named) supplied)) "admitted input descriptors do not match input_object_ids";;
  mapM_res (bind_input named) supplied.

Definition request_input (item : Z * json) : res input_binding :=
  let here := at_index "execution_request.inputs" item.1 in
  refuse_if (negb (is_dict item.2)) (here +:+ " is invalid");;
  id ← object_id (jget item.2 "object_id") (here +:+ ".object_id");
  make_input (jget item.2 "name") id (jget_def item.2 "digest" (JStr id)).

Definition bound_inputs (request spec : json) (supplied : list string) : res (list input_binding) :=
  if negb (jhas request "inputs") then spec_input_bindings spec supplied else
  match jget request "inputs" with
  | JArr inputs =>
      refuse_if (negb (Nat.eqb (length inputs) (length supplied)))
        "input_object_ids does not mirror execution_request.inputs";;
      bindings ← mapM_res request_input (numbered inputs);
      refuse_if (negb (bool_decide (supplied = map ib_object_id bindings)))
        "input_object_ids does not exactly mirror execution_request.inputs in order";;
      Ok bindings
  | _ => refused "execution_request.inputs must be a list"
  end.

(** ** The binding of a task *)

Definition one_value (a b : json) (message : string) : res json :=
  refuse_if (negb (is_null a) && negb (is_null b) && negb (py_eq a b)) message;;
  Ok (if is_null a then b else a).

(** The execution request of the task, or the one nested in its spec. *)
Definition admitted_request (task spec : json) : res json :=
  let request := jget task "execution_request" in
  let nested := jget spec "execution_request" in
  refuse_if (negb (is_null request) && negb (is_null nested) && negb (py_eq request nested))
    "execution_request has conflicting identity values";;
  let request := if is_null request then nested else request in
  refuse_if (negb (is_dict request)) "admitted execution_request is required";;
  Ok (json_column request).

Definition supplied_inputs (task spec : json) : res (list string) :=
  match jget task "input_object_ids" with
  | JArr ids =>
      let spec_ids := jget spec "input_object_ids" in
      (if is_null spec_ids then Ok tt else
       l ← py_list spec_ids;
       refuse_if (negb (py_eq (JArr l) (JArr ids))) "input_object_ids has conflicting identity values");;
      supplied ← mapM_res (fun p => object_id p.2 (at_index "input_object_ids" p.1)) (numbered ids);
      refuse_if (has_dup supplied) "input_object_ids contains duplicate object IDs";;
      Ok supplied
  | _ => refused "input_object_ids is required"
  end.

(** The effective target, the placement version and the recovery decision. *)
Definition recovered_placement (recovery task_id run_id original : json) : res (json * Z * option string) :=
  refuse_if (negb (py_eq (jget recovery "task_id") task_id) || negb (py_eq (jget recovery "run_id") run_id))
    "placement recovery is foreign to the admitted task";;
  o ← target_field (jget recovery "original_target") "placement recovery original_target";
  refuse_if (negb (py_eq o original)) "placement recovery changes the immutable original target";;
  effective ← target_field (jget recovery "replacement_target") "placement recovery replacement_target";
  match jget recovery "placement_version" with
  | JInt version =>
      refuse_if (version <=? 0) "placement recovery has a stale or invalid placement version";;
      refuse_if (py_eq effective original) "placement recovery does not authorize a replacement target";;
      d ← recovery_digest recovery;
      Ok (effective, version, Some d)
  | _ => refused "placement recovery has a stale or invalid placement version"
  end.

Definition current_placement (projection recovery task_id run_id original : json) : res (json * Z * option string) :=
  if truthy recovery then recovered_placement recovery task_id run_id original else
  effective ← target_field (jget_def projection "effective_target" (jget_def projection "resolved_target" original))
                "effective_target";
  Ok (effective, 0, None).

(** The binding row agrees with the placement. *)
Definition check_projection (projection original : json) (placement : json * Z * option string) : res unit :=
  let '(effective, version, decision) := placement in
  o ← target_field (jget_def projection "original_target" original) "binding.original_target";
  refuse_if (negb (py_eq o original)) "execution binding changes the immutable original target";;
  let bound := jget_def projection "effective_target" (jget projection "resolved_target") in
  (if is_null bound then Ok tt else
   e ← target_field bound "binding.effective_target";
   refuse_if (negb (py_eq e effective)) "execution binding effective target drifted from Runtime recovery");;
  (match jget projection "placement_version" with
   | JNull => Ok tt
   | JInt v => refuse_if ((v <? 0) || negb (v =? version)) "placement version is stale or conflicting"
   | _ => refused "placement version is stale or conflicting"
   end);;
  let recorded := jget projection "recovery_decision_digest" in
  refuse_if (negb (is_null recorded) && negb (py_eq recorded (opt_text decision)))
    "recovery decision digest is stale or conflicting".

(** The spec without what Runtime stamps on it after admission. *)
Definition spec_for_hash (spec : json) : json := jdel (task_spec_for_request_hash spec) "delegation_closed_attempt_id".

Definition check_digest (task : json) (field expected : string) : res unit :=
  let supplied := jget task field in
  if is_null supplied then Ok tt else
  d ← digest_field supplied field;
  refuse_if (negb (String.eqb d expected)) (field +:+ " is stale or conflicting").

Definition deployment_binding_from_task (value : json) : res deployment_binding :=
  refuse_if (negb (is_dict value)) "Runtime task projection must be an object";;
  let task := if is_dict (jget value "task") then jget value "task" else value in
  let run := if is_dict (jget value "run") then jget value "run" else JObj [] in
  task_id ← conflicting_value task ["task_id"; "id"] "task_id";
  run_id ← conflicting_value task ["run_id"] "run_id";
  refuse_if (negb (is_null (jget run "id")) && negb (py_eq (jget run "id") run_id)) "task/run identity conflict";;
  project_id ← one_value (jget task "project_id") (jget run "project_id") "project identity conflict";
  refuse_if (negb (is_null (jget task "idempotency_key")) && negb (is_null (jget run "idempotency_key")) &&
             negb (py_eq (jget task "idempotency_key") (jget run "idempotency_key"))) "idempotency identity conflict";;
  key ← text_field (py_or (jget task "idempotency_key") (jget run "idempotency_key")) "idempotency_key";
  capability_id ← conflicting_value task ["capability_id"; "capability"] "capability_id";
  let capability_digest := jget task "capability_digest" in
  refuse_if (is_null capability_digest) "capability_digest is required";;
  let spec := jget task "spec" in
  refuse_if (negb (is_dict spec)) "admitted spec is required";;
  refuse_if (negb (is_null (jget spec "capability_digest")) &&
             negb (py_eq (jget spec "capability_digest") capability_digest))
    "capability identity has conflicting digests";;
  request ← admitted_request task spec;
  original ← target_field (jget request "target") "execution_request.target";
  (if is_null (jget task "target") then Ok tt else
   t ← target_field (jget task "target") "task.target";
   refuse_if (negb (py_eq t original)) "task target drifted from immutable admission");;
  supplied ← supplied_inputs task spec;
  inputs ← bound_inputs request spec supplied;
  let projection := if is_dict (jget value "execution_binding") then jget value "execution_binding"
                    else jget task "execution_binding" in
  refuse_if (negb (is_dict projection)) "Runtime execution binding is required";;
  let recovery := py_or (jget projection "placement_recovery") (jget value "placement_recovery") in
  refuse_if (negb (is_null recovery) && negb (is_dict recovery)) "placement recovery projection is invalid";;
  placement ← current_placement projection recovery task_id run_id original;
  check_projection projection original placement;;
  let hashed := spec_for_hash spec in
  let spec_digest := sha256_of hashed in
  let request_digest := sha256_of request in
  let admission_digest := sha256_of (JObj [("capability", capability_id); ("spec", hashed);
    ("execution_request", request); ("project_id", project_id); ("expected_effect", jget task "expected_effect");
    ("capability_digest", capability_digest)]) in
  check_digest task "admission_digest" admission_digest;;
  check_digest task "spec_digest" spec_digest;;
  check_digest task "request_digest" request_digest;;
  admission ← make_admission task_id run_id project_id key admission_digest spec_digest request_digest;
  capability ← make_capability capability_id capability_digest;
  let '(effective, version, decision) := placement in
  p ← make_placement original effective version decision;
  make_binding admission capability inputs p.

(** ** What a binding is *)

Record well_formed (b : deployment_binding) : Prop := WellFormed {
  wf_task : is_reference (ai_task_id (db_admission b)) = true;
  wf_run : is_reference (ai_run_id (db_admission b)) = true;
  wf_project : forall p, ai_project_id (db_admission b) = Some p -> is_reference p = true;
  wf_key : is_idempotency_key (ai_idempotency_key (db_admission b)) = true;
  wf_digests : Forall (fun d => is_sha256_id d = true)
    [ai_admission_digest (db_admission b); ai_spec_digest (db_admission b); ai_request_digest (db_admission b);
     ci_capability_digest (db_capability b)];
  wf_capability : is_reference (ci_capability_id (db_capability b)) = true;
  wf_inputs : Forall (fun i => is_sha256_id (ib_object_id i) = true /\ ib_digest i = ib_object_id i) (db_inputs b);
  wf_names : List.NoDup (map ib_name (db_inputs b));
  wf_objects : List.NoDup (map ib_object_id (db_inputs b));
  wf_version : 0 <= pi_placement_version (db_placement b);
  wf_decision : pi_placement_version (db_placement b) = 0 <-> pi_recovery_decision_digest (db_placement b) = None;
  wf_targets : Forall (fun t => is_dict t = true /\ truthy t = true /\ json_column t = t)
    [pi_original_target (db_placement b); pi_effective_target (db_placement b)] }.

Lemma refuse_if_Ok b m u : refuse_if b m = Ok u <-> b = false.
Proof. apply raise_if_Ok. Qed.

Ltac refuse_inv :=
  repeat (res_inv; match goal with H : refuse_if _ _ = Ok _ |- _ => apply refuse_if_Ok in H end); res_inv.

Lemma identifier_reference v f s : identifier v f = Ok s -> is_reference s = true.
Proof. unfold identifier. intros H. refuse_inv. by apply negb_false_iff. Qed.

Lemma digest_field_id v f s : digest_field v f = Ok s -> is_sha256_id s = true.
Proof. unfold digest_field. intros H. refuse_inv. by apply negb_false_iff. Qed.

Lemma target_field_normal v f t : target_field v f = Ok t -> is_dict t = true /\ truthy t = true /\ json_column t = t.
Proof.
  unfold target_field. intros H. refuse_inv. apply orb_false_iff in E as [Hd Ht]. apply negb_false_iff in Hd, Ht.
  unfold json_column. rewrite jnorm_truthy, jnorm_idem. split; [|done]. by destruct v.
Qed.

Lemma prefixed_hex_id d : is_hex64 d = true -> is_sha256_id ("sha256:" +:+ d) = true.
Proof. intros Hd. unfold is_sha256_id. rewrite prefix_app. exact Hd. Qed.

Lemma object_id_canonical v f s : object_id v f = Ok s -> is_sha256_id s = true.
Proof.
  unfold object_id. destruct v; try done. destruct (object_id_digest s0) as [d|] eqn:E; [|done]. intros [= <-].
  apply prefixed_hex_id. unfold object_id_digest in E. destruct (is_sha256_id s0) eqn:Ei.
  - injection E as <-. by apply andb_true_iff in Ei as [_ ?].
  - destruct (is_hex64 s0) eqn:Eh; [|done]. by injection E as <-.
Qed.

Lemma make_input_ok n i d b : make_input n i d = Ok b -> is_sha256_id (ib_object_id b) = true /\ ib_digest b = ib_object_id b.
Proof.
  unfold make_input. intros H. refuse_inv. simpl. apply negb_false_iff, String.eqb_eq in E2.
  split; [by eapply object_id_canonical|done].
Qed.

Lemma mapM_res_all {A B} (f : A -> res B) (P : B -> Prop) l ys :
  (forall x y, f x = Ok y -> P y) -> mapM_res f l = Ok ys -> Forall P ys.
Proof. intros Hf H. apply mapM_res_Forall2 in H. induction H; constructor; eauto. Qed.

Lemma bound_inputs_ok r s ids l :
  bound_inputs r s ids = Ok l -> Forall (fun i => is_sha256_id (ib_object_id i) = true /\ ib_digest i = ib_object_id i) l.
Proof.
  unfold bound_inputs. intros H. destruct (negb (jhas r "inputs")).
  - unfold spec_input_bindings in H. res_inv. destruct x as [a wa]. res_inv. destruct x as [b wb]. refuse_inv.
    eapply mapM_res_all; [|exact H]. intros id i. unfold bind_input.
    destruct (find _ _); [apply make_input_ok|done].
  - destruct (jget r "inputs"); try done. refuse_inv. eapply mapM_res_all; [|exact E0].
    intros item i. unfold request_input. intros Hi. refuse_inv. by eapply make_input_ok.
Qed.

Lemma make_placement_ok o e v d p :
  make_placement o e v d = Ok p ->
  0 <= pi_placement_version p /\ (pi_placement_version p = 0 <-> pi_recovery_decision_digest p = None) /\
  Forall (fun t => is_dict t = true /\ truthy t = true /\ json_column t = t) [pi_original_target p; pi_effective_target p].
Proof.
  unfold make_placement. intros H. refuse_inv. simpl. apply Z.ltb_ge in E1. split; [done|]. split.
  - destruct x2 as [d'|].
    + rewrite andb_true_r in E3. apply Z.eqb_neq in E3. split; [lia|done].
    + rewrite andb_true_r in E4. apply Z.ltb_ge in E4. split; [done|lia].
  - repeat constructor; by eapply target_field_normal.
Qed.

Lemma make_binding_ok a c i p b :
  make_binding a c i p = Ok b ->
  db_admission b = a /\ db_capability b = c /\ db_inputs b = i /\ db_placement b = p /\
  List.NoDup (map ib_name i) /\ List.NoDup (map ib_object_id i).
Proof.
  unfold make_binding. intros H. refuse_inv. apply orb_false_iff in E as [Hn Ho].
  by apply has_dup_false in Hn, Ho.
Qed.

Lemma make_admission_ok t r p k a s q i :
  make_admission t r p k a s q = Ok i ->
  is_reference (ai_task_id i) = true /\ is_reference (ai_run_id i) = true /\
  (forall x, ai_project_id i = Some x -> is_reference x = true) /\ is_idempotency_key (ai_idempotency_key i) = true /\
  Forall (fun d => is_sha256_id d = true) [ai_admission_digest i; ai_spec_digest i; ai_request_digest i].
Proof.
  unfold make_admission. intros H. refuse_inv. simpl. split; [by eapply identifier_reference|].
  split; [by eapply identifier_reference|]. split; [|split].
  - intros y ->. destruct (is_null p); [done|]. res_inv. by eapply identifier_reference.
  - by apply negb_false_iff.
  - repeat constructor; by eapply digest_field_id.
Qed.

(** C35: a deployment binding is well formed.  Whatever task projection it is
    taken from, its ids are references, its key is a Runtime key, its digests
    are SHA-256 digests, every input is one object under one name, and a
    recovery decision is there exactly when the placement was recovered. *)
Theorem deployment_binding_well_formed value b : deployment_binding_from_task value = Ok b -> well_formed b.
Proof.
  unfold deployment_binding_from_task. intros H. refuse_inv.
  repeat match goal with x : _ * _ |- _ => destruct x end. refuse_inv. apply make_binding_ok in H as (Ha & Hc & Hi & Hp & Hn & Ho).
  match goal with Hb : bound_inputs _ _ _ = Ok _ |- _ => apply bound_inputs_ok in Hb as Hin end.
  match goal with Hmp : make_placement _ _ _ _ = Ok _ |- _ => apply make_placement_ok in Hmp as (Hv & Hd & Ht) end.
  match goal with Hma : make_admission _ _ _ _ _ _ _ = Ok _ |- _ =>
    apply make_admission_ok in Hma as (Hta & Hru & Hpr & Hk & Hdi) end.
  match goal with Hmc : make_capability _ _ = Ok _ |- _ => unfold make_capability in Hmc; res_inv end.
  split; rewrite ?Ha, ?Hc, ?Hi, ?Hp; simpl; try done.
  - repeat (apply Forall_cons in Hdi as [? Hdi]). repeat constructor; try done. by eapply digest_field_id.
  - by eapply identifier_reference.
Qed.

(** ** Lifecycle stamps do not move the binding *)

Definition CLOSED : string := "delegation_closed_attempt_id".

(** The task projection after Runtime closed the delegation of an attempt. *)
Definition stamped (value attempt : json) : json := jset value "spec" (jset (jget value "spec") CLOSED attempt).

Lemma res_bind_ext {A B} (m : res A) (f g : A -> res B) : (forall a, f a = g a) -> (m ≫= f) = (m ≫= g).
Proof. intros Hfg. destruct m; [apply Hfg|done]. Qed.

Lemma adel_aset_ne {A} k k' (v : A) l : k <> k' -> adel k (aset k' v l) = aset k' v (adel k l).
Proof.
  intros Hne. unfold adel. induction l as [|[x y] l IH]; simpl.
  { by apply String.eqb_neq in Hne as ->. }
  destruct (String.eqb_spec k' x) as [<-|Hx]; simpl.
  - apply String.eqb_neq in Hne as ->. simpl. by rewrite String.eqb_refl.
  - destruct (String.eqb k x); simpl; [done|]. apply String.eqb_neq in Hx as ->. by rewrite IH.
Qed.

Lemma public_task_spec_dict spec :
  is_dict spec = true -> JObj (if truthy spec then jfields spec else []) = spec.
Proof. by destruct spec as [| | | | |[|]]. Qed.

Lemma public_stamped spec v k :
  is_dict spec = true -> k <> CLOSED ->
  jget (JObj (if truthy (jset spec CLOSED v) then jfields (jset spec CLOSED v) else [])) k = jget spec k.
Proof. intros Hd Hk. rewrite public_task_spec_dict by done. by rewrite jget_set_ne. Qed.

Lemma spec_for_hash_stamped spec v : is_dict spec = true -> spec_for_hash (jset spec CLOSED v) = spec_for_hash spec.
Proof.
  intros Hd. unfold spec_for_hash, task_spec_for_request_hash, public_task_spec.
  rewrite !public_task_spec_dict by done. cbv zeta beta iota.
  assert (forall j k, k <> CLOSED -> jdel (jset j CLOSED v) k = jset (jdel j k) CLOSED v) as Hdel
    by (intros j k Hk; unfold jdel, jset; cbn [jfields]; by rewrite adel_aset_ne).
  rewrite !Hdel by done. rewrite !jget_set_ne, !jhas_set_ne by done.
  set (p := jdel (jdel spec "execution_request") "_runtime_reuse_toolchain").
  set (intent := if is_null _ && jhas _ _ then _ else _).
  set (q := jdel (jdel p GENERATION_INTENT_STORAGE_KEY) LEGACY_GENERATION_INTENT_STORAGE_KEY).
  assert (forall j, jdel (jset j CLOSED v) CLOSED = jdel j CLOSED) as Hgone
    by (intros j; unfold jdel, jset; cbn [jfields]; by rewrite adel_aset).
  destruct (is_null intent); [apply Hgone|].
  assert (forall j x, jdel (jset j LEGACY_GENERATION_INTENT_STORAGE_KEY x) CLOSED =
    jset (jdel j CLOSED) LEGACY_GENERATION_INTENT_STORAGE_KEY x) as Hswap
    by (intros j x; unfold jdel, jset; cbn [jfields]; by rewrite adel_aset_ne).
  by rewrite !Hswap, Hgone.
Qed.

Lemma section_inputs_stamped l spec v : section_inputs l (jset spec CLOSED v) = section_inputs l spec \/ is_dict spec = false.
Proof.
  destruct (is_dict spec) eqn:Hd; [left|by right]. unfold section_inputs. rewrite Hd. cbn [is_dict negb jset].
  by rewrite !jget_set_ne.
Qed.

Lemma bound_inputs_stamped r spec v ids : is_dict spec = true -> bound_inputs r (jset spec CLOSED v) ids = bound_inputs r spec ids.
Proof.
  intros Hd. unfold bound_inputs. destruct (negb (jhas r "inputs")); [|done]. unfold spec_input_bindings.
  destruct (section_inputs_stamped "spec" spec v) as [->|]; [|congruence]. by rewrite jget_set_ne.
Qed.

Lemma conflicting_value_set v k x names f :
  ~ In k names -> conflicting_value (jset v k x) names f = conflicting_value v names f.
Proof.
  intros Hk. unfold conflicting_value.
  assert (List.filter (jhas (jset v k x)) names = List.filter (jhas v) names) as ->.
  { apply filter_ext_in. intros n Hn. apply jhas_set_ne. by intros ->. }
  destruct (List.filter (jhas v) names) as [|first rest] eqn:E; [done|].
  assert (forall n, In n (first :: rest) -> jget (jset v k x) n = jget v n) as Hg.
  { intros n Hn. apply jget_set_ne. intros ->. apply Hk. rewrite <- E in Hn. by apply filter_In in Hn as [? _]. }
  rewrite (Hg first) by (by left).
  assert (existsb (fun n => negb (py_eq (jget (jset v k x) n) (jget v first))) rest =
          existsb (fun n => negb (py_eq (jget v n) (jget v first))) rest) as ->; [|done].
  clear E. induction rest as [|n rest IH]; simpl; [done|]. rewrite (Hg n) by (by right; left). f_equal. apply IH.
  intros m [->|Hm]; apply Hg; [by left|by right; right].
Qed.

(** C36: closing the delegation of an attempt does not move the binding.  The
    stamp Runtime leaves on the spec of a settled parent is no part of the
    admitted identity: the projection gives the same binding, and hence the
    same digest, with and without it. *)
Theorem binding_ignores_closed_delegation value attempt :
  is_dict (jget value "task") = false -> is_dict (jget value "spec") = true -> is_dict value = true ->
  deployment_binding_from_task (stamped value attempt) = deployment_binding_from_task value.
Proof.
  intros Ht Hs Hd. unfold deployment_binding_from_task, stamped.
  set (spec := jget value "spec") in *. set (spec' := jset spec CLOSED attempt).
  assert (forall k, k <> "spec" -> jget (jset value "spec" spec') k = jget value k) as Hg
    by (intros k Hk; by rewrite jget_set_ne).
  rewrite !Hg by done. rewrite Ht. rewrite !Hg by done. rewrite jget_set_eq. fold spec.
  rewrite !conflicting_value_set by (simpl; intuition congruence). rewrite Hd, Hs. cbn [is_dict jset negb].
  unfold admitted_request, supplied_inputs, check_digest. rewrite !Hg by done.
  assert (forall k, k <> CLOSED -> jget spec' k = jget spec k) as Hsp by (intros k Hk; unfold spec'; by rewrite jget_set_ne).
  rewrite !Hsp by done.
  assert (forall r ids, bound_inputs r spec' ids = bound_inputs r spec ids) as Hb
    by (intros r ids; by apply bound_inputs_stamped).
  assert (spec_for_hash spec' = spec_for_hash spec) as Hh by (by apply spec_for_hash_stamped).
  rewrite Hh. repeat first [rewrite Hb; reflexivity | apply res_bind_ext; intros ?].
Qed.

(** ** The digest identifies the binding *)

Lemma jnorm_field k v w : jnorm v = jnorm w -> jnorm (jget v k) = jnorm (jget w k).
Proof. intros Hn. by rewrite <- !jget_jnorm, Hn. Qed.

Lemma jnorm_text a b : jnorm (JStr a) = jnorm (JStr b) -> a = b.
Proof. by intros [=]. Qed.

Lemma jnorm_opt_text a b : jnorm (opt_text a) = jnorm (opt_text b) -> a = b.
Proof. destruct a, b; simpl; congruence. Qed.

Lemma jnorm_inputs l m : map (fun i => jnorm (input_json i)) l = map (fun i => jnorm (input_json i)) m -> l = m.
Proof.
  revert m. induction l as [|[n i d] l IH]; intros [|[n' i' d'] m]; try done. intros [= <- <- <- Hl].
  f_equal. by apply IH.
Qed.


(** ** A deployed task *)

Definition sample_hex (c : ascii) : string := "sha256:" +:+ string_of_list_ascii (List.repeat c 64).

Definition sample_target : json := JObj [("kind", JStr "runpod"); ("pod_id", JStr "pod-1")].

Definition sample_task : json :=
  JObj [("task_id", JStr "task-1"); ("run_id", JStr "run-1"); ("project_id", JStr "project-1");
        ("capability_id", JStr "image.make"); ("capability_digest", JStr (sample_hex "c"));
        ("idempotency_key", JStr "key-1"); ("input_object_ids", JArr [JStr (sample_hex "a")]);
        ("spec", JObj [("inputs", JObj [("plate", JStr (sample_hex "a"))]); ("prompt", JStr "cat")]);
        ("execution_request", JObj [("target", sample_target)]);
        ("execution_binding", JObj [("resolved_target", sample_target); ("placement_version", JInt 0)])].

Definition sample_binding : deployment_binding := Eval vm_compute in
  match deployment_binding_from_task sample_task with
  | Ok b => b
  | Err _ => DeploymentBinding (AdmissionIdentity "" "" None "" "" "" "") (CapabilityIdentity "" "") []
               (PlacementIdentity JNull JNull 0 None)
  end.

(** C35: the binding of the sample task. *)
Lemma deployment_binding_well_formed_witness :
  deployment_binding_from_task sample_task = Ok sample_binding /\ well_formed sample_binding.
Proof.
  assert (deployment_binding_from_task sample_task = Ok sample_binding) as E by (vm_compute; reflexivity).
  split; [exact E|]. exact (deployment_binding_well_formed sample_task sample_binding E).
Defined.

(** C36: the sample task before and after its delegation is closed. *)
Lemma binding_ignores_closed_delegation_witness :
  deployment_binding_from_task (stamped sample_task (JStr "attempt-7")) = Ok sample_binding.
Proof.
  rewrite (binding_ignores_closed_delegation sample_task (JStr "attempt-7")); [|reflexivity|reflexivity|reflexivity].
  vm_compute. reflexivity.
Defined.

