(* ===== verification/Activation.v ===== *)
(** * Remote activations, drains and placement recovery

    The part of [runtime_protocol/service.py] that qualifies a remote worker
    for one task: activations and their revocation as events of the task, the
    drain of a generation, the checks a worker's credential passes before it
    acts, and the recovery of a lost placement.

    [fromisoformat] stands for [datetime.fromisoformat] of a
    text with Z read as +00:00: microseconds, and whether the text had a
    timezone. *)

From Stdlib Require Import ZArith String Ascii List Bool Lia.
From stdpp Require Import base list strings.
From S2P Require Import Prelude Json Errors Facts Sha256 Store Idempotency Ledger Bindings.
From S2P Require Import Executors Continuations Snapshots Delegation Claim Outputs Settle Runs.
From S2P Require Import Admission Effects Wire Commands Deployments.

Open Scope Z_scope.

Definition QUALIFIED_REMOTE_CAPABILITY : string := "h3_av.transform".
Definition PLACEMENT_RECOVERY_SCHEMA_VERSION : Z := 1.
Definition PLACEMENT_LOSS_EVIDENCE_MAX_AGE_SECONDS : Z := 15 * 60.

Definition QUALIFIED : string := "task.remote_activation_qualified".
Definition ACCEPTED : string := "task.remote_activation_accepted".
Definition REVOKED : string := "task.remote_activation_revoked".
Definition DRAINING : string := "task.remote_activation_draining".

(** [except (...)]: no rollback by itself. *)
Definition catch {A} (classes : list ExnClass) (m handler : M A) : M A := fun s =>
  match m s with
  | (Err e, s') => if existsb (fun c => bool_decide (exn_class e = c)) classes then handler s' else (Err e, s')
  | r => r
  end.

(** Short-circuit conjunction of a list. *)
Definition allM (l : list (M bool)) : M bool := foldr andM (mret true) l.

Definition dict_get (value : json) (key : string) : M json :=
  if is_dict value then mret (jget value key) else raiseM AttributeError "object has no attribute 'get'".

(** [int(x or 0)] *)
Definition int_or_zero (value : json) : M Z := py_int (py_or value (JInt 0)).

(** ["admin" in set(identity.get("scopes", []))] *)
Definition has_admin (identity : json) : M bool :=
  match jget_def identity "scopes" (JArr []) with
  | JArr l => guard_raise (existsb (fun x => negb (hashable x)) l) TypeError "unhashable type";;
              mret (existsb (is_json_str "admin") l)
  | JObj kvs => mret (str_in "admin" (akeys kvs))
  | JStr _ => mret false
  | _ => raiseM TypeError "object is not iterable"
  end.

Definition require_placement_recovery_owner (identity : json) : M string :=
  admin ← (if is_dict identity then has_admin identity else mret false);
  match jget identity "actor" with
  | JStr actor => guard_raise (negb (nonempty actor) || negb admin) AuthorizationError
                    "placement recovery requires owner authority";; mret actor
  | _ => raiseM AuthorizationError "placement recovery requires owner authority"
  end.

Definition placement_evidence_digest (value : json) (field : string) : M json :=
  guard_raise (negb (prefixed_object_id value)) ValidationError (field +:+ " must be a sha256 digest");;
  mret value.

(** ** The credential of a worker *)

Definition assert_executor_identity (identity : json) (executor_id : string) : M unit :=
  if is_null identity then mret tt else
  guard_raise (negb (nonempty executor_id)) AuthorizationError "executor identity is required";;
  let actor := jget identity "actor" in
  admin ← (if is_json_str executor_id actor then mret true else has_admin identity);
  guard_raise_with (negb admin) AuthorizationError "worker credential is not bound to executor"
    (JObj [("executor_id", JStr executor_id); ("actor_id", actor)]).

Definition trusted_execution_placement (identity : json) : M json :=
  if is_null (jget identity "execution_binding") then mret JNull else
  catch [ValidationError] (lift (normalize_verified_execution_placement (jget identity "execution_binding")))
    (raiseM AuthorizationError "worker credential carries invalid execution placement").

Section Activation.
Context `{World} (svc : service) (fromisoformat : string -> option (Z * bool)).

Definition placement_recovery_qualification_matches (task_id : string) (placement : json) : M bool :=
  recovery ← placement_recovery task_id;
  mret (match recovery with
        | None => true
        | Some r =>
            let qualification := jget r "qualification" in
            negb (is_null placement) && is_dict qualification &&
            py_eq (jget placement "actual") (jget r "replacement_target") &&
            py_eq (jget (jget placement "verification") "evidence_digest") (jget qualification "evidence_digest") &&
            py_eq (jget placement "executor_incarnation") (jget qualification "executor_incarnation")
        end).

(** ** The activation events of a task *)

Definition task_events (task_id : string) (kinds : list string) (t : tables) : list event_row :=
  List.filter (fun e => opt_str_eqb (e_task_id e) (Some task_id) && str_in (e_kind e) kinds) (events t).

(** The history of the task, or of one activation when an id is given. *)
Definition remote_activation_history (task_id : string) (activation_id : json) (t : tables) : list (string * json) :=
  List.filter (fun h => is_dict h.2 && (is_null activation_id || py_eq (jget h.2 "activation_id") activation_id))
    (map (fun e => (e_kind e, e_payload_json e)) (task_events task_id [QUALIFIED; ACCEPTED; REVOKED] t)).

Definition latest_remote_activation (task_id : string) (t : tables) : json :=
  match last (task_events task_id [QUALIFIED; REVOKED] t) with
  | Some e => if String.eqb (e_kind e) QUALIFIED then e_payload_json e else JNull
  | None => JNull
  end.

Definition has_kind (kind : string) (history : list (string * json)) : bool :=
  existsb (fun h => String.eqb h.1 kind) history.

Definition remote_drain (task_id : string) (activation_id : json) (t : tables) : json :=
  let markers := rev (map e_payload_json (task_events task_id [DRAINING] t)) in
  if is_null activation_id then
    match markers with
    | [] => JNull
    | marker :: _ =>
        let latest := latest_remote_activation task_id t in
        if is_null latest || py_eq latest (jget marker "qualification") then marker else JNull
    end
  else default JNull (find (fun m => py_eq (jget (jget m "qualification") "activation_id") activation_id) markers).

(** The lineage of the row, if its spec has one. *)
Definition lineage_of (row : task_row) : M json := spec ← spec_of row; dict_get spec "delegated_parent".

Definition task_drain (task_id : string) : M json :=
  row ← gets (task_by_id task_id);
  lineage ← match row with Some r => lineage_of r | None => mret JNull end;
  let owner := if is_dict lineage then py_text (jget lineage "parent_task_id") else task_id in
  gets (remote_drain owner JNull).

Definition drain_continuation_matches (task_id : string) (marker : json) : M bool :=
  let cutoff := jget marker "parent_attempt" in
  if is_null cutoff || is_json_str task_id (jget (jget marker "qualification") "task_id") then mret false else
  row ← gets (task_by_id task_id);
  match row with
  | None => mret false
  | Some r =>
      lineage ← lineage_of r;
      mret (is_dict lineage && forallb (fun kv => py_eq (jget lineage kv.1) kv.2) (jfields cutoff))
  end.

(** The deployment binding of a task as Runtime reads it. *)
Definition binding_of_task (task_id : string) : M deployment_binding :=
  value ← get_task task_id;
  resource ← task_resource value;
  lift (deployment_binding_from_task resource).

Definition task_requires_remote_activation (task_id : string) : M bool :=
  own ← gets (fun t => has_kind QUALIFIED (remote_activation_history task_id JNull t));
  if (own : bool) then mret true else
  row ← gets (task_by_id task_id);
  match row with
  | None => mret false
  | Some r =>
      request ← execution_request_from_row (t_execution_request_json r) (t_spec_digest r) None;
      target ← effective_execution_target task_id;
      let request := default JNull request in
      if is_true (jget request "remote_activation_required") && is_json_str "runpod" (jget target "kind") then mret true else
      let kind := jget (jget request "target") "kind" in
      if String.eqb (t_capability r) QUALIFIED_REMOTE_CAPABILITY && (is_json_str "runpod" kind || is_json_str "machine" kind)
      then mret true else
      spec ← catch [TypeError; ValueError] (s ← spec_of r; mret (Some s)) (mret None);
      match spec with
      | None => mret false
      | Some spec =>
          let parent := jget (jget spec "delegated_parent") "parent_task_id" in
          if negb (truthy parent) then mret false else
          gets (fun t => has_kind QUALIFIED (remote_activation_history (py_text parent) JNull t))
      end
  end.

(** ** Which tasks an activation covers *)

Definition same_int (value : Z) (other : json) : M bool := z ← int_or_zero other; mret (value =? z).

Definition opt_eq (value : option string) (other : json) : bool := py_eq (opt_str value) other.

Definition attempt_of (attempt_id task_id : json) (t : tables) : option attempt_row :=
  find (fun a => py_eq (JStr (at_id a)) attempt_id && py_eq (JStr (at_task_id a)) task_id) (attempts t).

(** The delegated child acts under the live attempt of its parent. *)
Definition child_scope_matches (parent : task_row) (attempt : option attempt_row) (lineage activation authorized
    placement : json) (binding : deployment_binding) : M bool :=
  let effective := pi_effective_target (db_placement binding) in
  allM [
    mret (bool_decide (t_status parent = Running));
    mret (opt_eq (t_attempt_id parent) (jget lineage "parent_attempt_id"));
    mret (opt_eq (t_lease_token parent) (jget lineage "parent_lease_id"));
    same_int (t_lease_fence parent) (jget lineage "parent_fence");
    same_int (default 0 (t_runtime_epoch parent)) (jget lineage "runtime_epoch");
    mret (opt_eq (t_executor_id parent) (jget lineage "executor_id"));
    match attempt with
    | None => mret false
    | Some a => allM [
        mret (negb (at_settled a)); mret (py_eq (JStr (at_lease_id a)) (jget lineage "parent_lease_id"));
        same_int (at_fence a) (jget lineage "parent_fence");
        same_int (at_runtime_epoch a) (jget lineage "runtime_epoch");
        mret (py_eq (JStr (at_executor_id a)) (jget lineage "executor_id"))]
    end;
    mret (py_eq (jget lineage "executor_id") (jget activation "credential_actor") &&
          py_eq (jget lineage "parent_placement") placement &&
          py_eq (jget lineage "parent_effective_target") (jget activation "effective_target") &&
          py_eq (jget lineage "parent_effective_target") effective &&
          py_eq (jget lineage "parent_placement_version") (jget authorized "placement_version") &&
          py_eq (jget lineage "parent_placement_version") (JInt (pi_placement_version (db_placement binding))) &&
          py_eq (jget authorized "effective_target") (jget placement "actual") &&
          py_eq (jget authorized "effective_target") effective &&
          py_eq (jget lineage "parent_task_id") (jget authorized "parent_task_id"))].

Definition activation_scope_matches (task_id : string) (activation placement : json) : M bool :=
  task ← gets (task_by_id task_id);
  let owner_id := py_text (py_or (jget activation "task_id") (JStr EmptyString)) in
  let run_id := jget activation "run_id" in
  owner ← gets (task_by_id owner_id);
  match task, owner with
  | Some task, Some owner =>
      if negb (nonempty owner_id) || is_null run_id || negb (py_eq (JStr (t_run_id owner)) run_id) then mret false else
      if String.eqb (t_id task) owner_id then mret (py_eq (JStr (t_run_id task)) run_id) else
      spec ← catch [TypeError; ValueError] (s ← spec_of task; mret (Some s)) (mret None);
      match spec with
      | None => mret false
      | Some spec =>
          lineage ← dict_get spec "delegated_parent";
          let authorized := jget activation "authorized_child_lineage" in
          if negb (is_dict lineage) || negb (is_dict authorized) then mret false else
          parent ← gets (fun t => match jget lineage "parent_task_id" with
                                  | JStr p => task_by_id p t | _ => None end);
          match parent with
          | None => mret false
          | Some parent =>
              if negb (is_json_str owner_id (jget authorized "parent_task_id")) ||
                 negb (py_eq (jget authorized "parent_run_id") run_id) ||
                 negb (py_eq (jget authorized "max_depth") (JInt 1)) ||
                 negb (is_json_str owner_id (jget lineage "parent_task_id")) ||
                 negb (py_eq (JStr (t_run_id parent)) run_id) then mret false else
              binding ← catch [TypeError; ValueError; KeyError] (b ← binding_of_task owner_id; mret (Some b)) (mret None);
              match binding with
              | None => mret false
              | Some binding =>
                  attempt ← gets (attempt_of (jget lineage "parent_attempt_id") (JStr owner_id));
                  child_scope_matches parent attempt lineage activation authorized placement binding
              end
          end
      end
  | _, _ => mret false
  end.

(** ** The check of a qualified credential *)

(** [datetime.fromisoformat(recorded["expires_at"]...)]; [None] where the
    exception is caught. *)
Definition expiry_of (activation : json) : M (option (Z * bool)) :=
  match jget activation "expires_at" with
  | JStr text => mret (fromisoformat text)
  | JNull => if jhas activation "expires_at" then raiseM AttributeError "object has no attribute 'replace'" else mret None
  | _ => raiseM AttributeError "object has no attribute 'replace'"
  end.

Definition drain_allows (task_id owner_id : string) (marker recorded : json) : M bool :=
  if is_null marker then mret true else
  if negb (py_eq (jget marker "qualification") recorded) then mret false else
  if String.eqb task_id owner_id then mret true else drain_continuation_matches task_id marker.

Definition still_fresh (task_id : string) (marker : json) (expiry : Z * bool) : M bool :=
  if is_null marker then
    if negb expiry.2 then mret false else us ← utcnow; mret (us <? expiry.1)
  else drain_continuation_matches task_id marker.

Definition remote_activation_matches (task_id : string) (identity placement : json) (require_fresh : bool) : M bool :=
  if negb (is_dict identity) || negb (is_dict placement) then mret false else
  let supplied := jget identity "qualified_activation" in
  let owner_id := if is_dict supplied then py_text (py_or (jget supplied "task_id") (JStr EmptyString)) else EmptyString in
  recorded ← (if nonempty owner_id then gets (latest_remote_activation owner_id) else mret JNull);
  if negb (is_dict supplied) || negb (is_dict recorded) then mret false else
  if negb (py_eq supplied recorded) || negb (py_eq (jget identity "actor") (jget recorded "credential_actor"))
  then mret false else
  accepted ← gets (fun t => has_kind ACCEPTED (remote_activation_history owner_id (jget recorded "activation_id") t));
  if negb accepted then mret false else
  if negb (py_eq (jget recorded "runtime_session_id") (JStr (sv_session_id svc))) then mret false else
  epoch ← gets current_runtime_epoch;
  if negb (py_eq (jget recorded "runtime_epoch") (JInt epoch)) then mret false else
  expiry ← expiry_of recorded;
  match expiry with
  | None => mret false
  | Some expiry =>
      marker ← gets (remote_drain owner_id (jget recorded "activation_id"));
      allM [
        drain_allows task_id owner_id marker recorded;
        if (require_fresh : bool) then still_fresh task_id marker expiry else mret true;
        mret (is_json_str owner_id (jget recorded "task_id") &&
              py_eq (jget recorded "executor_incarnation") (jget placement "executor_incarnation") &&
              py_eq (jget recorded "evidence_digest") (jget (jget placement "verification") "evidence_digest") &&
              py_eq (jget recorded "effective_target") (jget placement "actual"));
        activation_scope_matches task_id recorded placement;
        catch [TypeError; ValueError; KeyError]
          (b ← binding_of_task owner_id; mret (py_eq (jget recorded "binding_digest") (JStr (binding_digest b))))
          (mret false)]
  end.

(** ** Quiescence *)

(** [_delegated_children] of the service, in rowid order. *)
Definition service_children (parent_task_id : string) : M (list (task_row * json)) :=
  rows ← gets tasks;
  foldS (fun acc row =>
    lineage ← catch [TypeError; ValueError] (lineage_of row) (mret JNull);
    mret (if is_dict lineage && is_json_str parent_task_id (jget lineage "parent_task_id")
          then acc ++ [(row, lineage)] else acc)) [] rows.

Definition unsettled (task_id : string) (t : tables) : list attempt_row :=
  List.filter (fun a => String.eqb (at_task_id a) task_id && negb (at_settled a)) (attempts t).

Definition holds_reservation (task_id : string) (t : tables) : bool :=
  existsb (fun r => String.eqb (rv_task_id r) task_id && active r) (reservations t).

Definition binding_claimed (binding : option json) : bool :=
  match binding with Some b => is_json_str "claimed" (jget b "status") | None => false end.

Definition assert_placement_recovery_quiescent (task : task_row) (children : list (task_row * json)) : M json :=
  guard_raise_with (negb (status_in (t_status task) [Failed; Cancelled])) ConflictError
    "task must be terminal before placement recovery" (details1 "status" (JStr (status_text (t_status task))));;
  guard_raise (opt_str_eqb (t_waiting_reason task) (Some "provider_state_unknown")) ConflictError
    "old placement has unknown active work";;
  open ← gets (unsettled (t_id task));
  guard_raise_with (negb (nil_or open)) ConflictError "old placement has unknown active work"
    (details1 "attempt_ids" (jstrs (map at_id open)));;
  reserved ← gets (holds_reservation (t_id task));
  guard_raise reserved ConflictError "old placement still owns an active reservation";;
  binding ← execution_binding (t_id task);
  match binding with
  | None => raiseM ConflictError "task has no targeted execution binding"
  | Some b =>
      guard_raise (binding_claimed (Some b)) ConflictError "old placement still has a claimed execution binding";;
      for_each children (fun child =>
        let id := t_id child.1 in
        child_open ← gets (unsettled id);
        child_binding ← execution_binding id;
        child_reserved ← gets (holds_reservation id);
        guard_raise_with (status_in (t_status child.1) [Running; CancelRequested] ||
                          opt_str_eqb (t_waiting_reason child.1) (Some "provider_state_unknown") ||
                          negb (nil_or child_open) || binding_claimed child_binding || child_reserved) ConflictError
          "delegated child has unknown active work" (details1 "child_task_id" (JStr id)));;
      mret b
  end.

(** ** Qualification *)

(** A queued task, or the exact recovered placement of a stopped one. *)
Definition assert_remote_activation_admissible (task_id : string) (qualification : json) : M unit :=
  value ← get_task task_id;
  task ← task_resource value;
  binding ← lift (deployment_binding_from_task task);
  let placement := db_placement binding in
  guard_raise (negb (is_json_str task_id (jget qualification "task_id")) ||
               negb (is_json_str (ai_run_id (db_admission binding)) (jget qualification "run_id")) ||
               negb (is_json_str (binding_digest binding) (jget qualification "binding_digest")) ||
               negb (py_eq (jget qualification "effective_target") (pi_effective_target placement))) ConflictError
    "remote activation is foreign to the current binding";;
  if is_json_str "queued" (jget task "state") then mret tt else
  recovery ← placement_recovery task_id;
  let r := default JNull recovery in
  let replacement := jget r "qualification" in
  let supplied := JObj [("actual", jget qualification "effective_target");
                        ("verification", JObj [("evidence_digest", jget qualification "evidence_digest")]);
                        ("executor_incarnation", jget qualification "executor_incarnation")] in
  qualified ← placement_recovery_qualification_matches task_id supplied;
  guard_raise (negb (is_json_str "failed" (jget task "state") || is_json_str "cancelled" (jget task "state")) ||
               negb (is_dict r) || negb (is_dict replacement) ||
               negb (is_json_str "runpod" (jget (pi_effective_target placement) "kind")) ||
               (pi_placement_version placement <=? 0) ||
               negb (is_json_str task_id (jget r "task_id")) || negb (py_eq (jget r "run_id") (jget task "run_id")) ||
               negb (py_eq (jget r "task_version") (jget task "version")) ||
               negb (py_eq (jget r "placement_version") (JInt (pi_placement_version placement))) ||
               negb (py_eq (jget r "decision_digest") (opt_text (pi_recovery_decision_digest placement))) ||
               negb (py_eq (jget r "original_target") (pi_original_target placement)) ||
               negb (py_eq (jget r "replacement_target") (pi_effective_target placement)) ||
               negb (is_true (jget replacement "verified")) ||
               negb (py_eq (jget replacement "target") (pi_effective_target placement)) ||
               negb (py_eq (jget (jget qualification "authorized_child_lineage") "placement_version")
                       (JInt (pi_placement_version placement))) ||
               negb qualified) ConflictError
    "remote activation requires a queued task or exact recovered placement";;
  row ← gets (task_by_id task_id);
  match row with
  | None => raiseM TypeError "'NoneType' object is not subscriptable"
  | Some row =>
      children ← service_children task_id;
      current ← assert_placement_recovery_quiescent row children;
      guard_raise (negb (is_json_str "prepared" (jget current "status"))) ConflictError
        "recovered activation has no prepared replacement binding"
  end.

Definition qualification_fields : list string :=
  ["activation_id"; "task_id"; "run_id"; "credential_actor"; "binding_digest"; "deployment_digest"; "evidence_digest";
   "effective_target"; "executor_incarnation"; "runtime_session_id"; "runtime_epoch"; "expires_at";
   "observation_digest"; "authorized_child_lineage"].

Definition expected_lineage (b : deployment_binding) : json :=
  JObj [("parent_task_id", JStr (ai_task_id (db_admission b))); ("parent_run_id", JStr (ai_run_id (db_admission b)));
        ("max_depth", JInt 1); ("placement_version", JInt (pi_placement_version (db_placement b)));
        ("effective_target", pi_effective_target (db_placement b))].

Definition require_owner (identity : json) (message : string) : M unit :=
  actor ← require_placement_recovery_owner identity;
  guard_raise (negb (String.eqb actor "owner")) AuthorizationError message.

(** The shape of a qualification and its agreement with the admitted task;
    the result is its expiry. *)
Definition check_qualification (task_id : string) (qualification task : json) (binding : deployment_binding) : M Z :=
  epoch ← gets current_runtime_epoch;
  guard_raise (negb (is_json_str (ai_run_id (db_admission binding)) (jget qualification "run_id")) ||
               negb (is_json_str (binding_digest binding) (jget qualification "binding_digest")) ||
               negb (py_eq (jget qualification "effective_target") (pi_effective_target (db_placement binding))) ||
               negb (is_json_str (sv_session_id svc) (jget qualification "runtime_session_id")) ||
               negb (py_eq (jget qualification "runtime_epoch") (JInt epoch))) ConflictError
    "remote activation is stale or foreign to the admitted task";;
  guard_raise (negb (py_eq (jget qualification "authorized_child_lineage") (expected_lineage binding))) ConflictError
    "remote activation child lineage is not explicitly authorized";;
  for_each ["binding_digest"; "deployment_digest"; "evidence_digest"; "observation_digest"]
    (fun field => placement_evidence_digest (jget qualification field) field;; mret tt);;
  match jget qualification "expires_at" with
  | JStr text =>
      match fromisoformat text with
      | None => raiseM ValidationError "remote activation expiry is invalid"
      | Some (expiry, aware) =>
          guard_raise (negb aware) ConflictError "remote activation has expired";;
          guard_raise (existsb (fun f => negb (is_str (jget qualification f) && truthy (jget qualification f)))
                         ["activation_id"; "credential_actor"; "executor_incarnation"]) ValidationError
            "remote activation identity is incomplete";;
          mret expiry
      end
  | _ => raiseM ValidationError "remote activation expiry is invalid"
  end.

(** The exact qualification was recorded and accepted before. *)
Definition accepted_replay (qualification : json) (history : list (string * json)) : bool :=
  existsb (fun h => String.eqb h.1 QUALIFIED && py_eq h.2 qualification) history && has_kind ACCEPTED history.

Definition record_body (task_id : string) (qualification identity : json) : M json :=
  require_owner identity "remote activation requires the Runtime owner actor";;
  guard_raise (negb (is_dict qualification)) ValidationError "remote activation qualification is required";;
  guard_raise (negb (keys_are qualification qualification_fields) ||
               negb (is_json_str task_id (jget qualification "task_id"))) ValidationError
    "remote activation qualification has an invalid shape";;
  value ← get_task task_id;
  task ← task_resource value;
  binding ← lift (deployment_binding_from_task task);
  expiry ← check_qualification task_id qualification task binding;
  latest ← gets (latest_remote_activation task_id);
  history ← gets (remote_activation_history task_id (jget qualification "activation_id"));
  if negb (nil_or history) then
    guard_raise (has_kind REVOKED history) ConflictError "remote activation generation is permanently revoked";;
    guard_raise (negb (accepted_replay qualification history)) ConflictError
      "remote activation generation was already used";;
    mret qualification
  else
    us ← utcnow;
    guard_raise (expiry <=? us) ConflictError "remote activation has expired";;
    guard_raise (negb (is_null latest)) ConflictError "another remote activation is already qualified";;
    assert_remote_activation_admissible task_id qualification;;
    let run_id := text_of (jget task "run_id") in
    append_event run_id (Some task_id) QUALIFIED qualification None;;
    append_event run_id (Some task_id) ACCEPTED (JObj [("activation_id", jget qualification "activation_id")]) None;;
    mret qualification.

Definition record_remote_activation (task_id : string) (qualification identity : json) : M json :=
  durable_mutation svc (record_body task_id qualification identity).

Definition revoke_body (task_id : string) (activation_id identity qualification : json) : M unit :=
  require_owner identity "remote activation revocation requires the Runtime owner actor";;
  latest ← gets (latest_remote_activation task_id);
  history ← gets (remote_activation_history task_id activation_id);
  let unaccepted := is_null latest && is_dict qualification && is_json_str task_id (jget qualification "task_id") &&
                    py_eq (jget qualification "activation_id") activation_id && nil_or history in
  guard_raise (negb unaccepted && (is_null latest || negb (py_eq (jget latest "activation_id") activation_id)))
    ConflictError "remote activation is no longer current";;
  value ← get_task task_id;
  revoked_at ← now;
  append_event (text_of (jget (jget value "run") "id")) (Some task_id) REVOKED
    (JObj [("activation_id", activation_id); ("revoked_at", jstamp revoked_at)]) None;;
  contain_delegated_children task_id None "parent_authority_revoked".

Definition revoke_remote_activation (task_id : string) (activation_id identity qualification : json) : M unit :=
  durable_mutation svc (revoke_body task_id activation_id identity qualification).

(** ** Drains *)

Definition assert_exact_drain_generation (task_id : string) (qualification identity : json) (allow_revoked : bool)
  : M (json * bool) :=
  require_owner identity "remote drain requires the Runtime owner actor";;
  guard_raise (negb (is_dict qualification) || negb (is_json_str task_id (jget qualification "task_id"))) ConflictError
    "remote drain generation is missing or foreign";;
  let activation_id := jget qualification "activation_id" in
  latest ← gets (latest_remote_activation task_id);
  marker ← gets (remote_drain task_id activation_id);
  revoked ← gets (fun t => has_kind REVOKED (remote_activation_history task_id activation_id t));
  let exact := negb (is_null marker) && py_eq (jget marker "qualification") qualification in
  guard_raise (negb (py_eq latest qualification) && negb (allow_revoked && revoked && exact)) ConflictError
    "remote drain generation changed";;
  binding ← binding_of_task task_id;
  epoch ← gets current_runtime_epoch;
  let stale_runtime := negb (py_eq (jget qualification "runtime_session_id") (JStr (sv_session_id svc))) ||
                       negb (py_eq (jget qualification "runtime_epoch") (JInt epoch)) in
  guard_raise ((stale_runtime && negb (allow_revoked && exact)) ||
               negb (py_eq (jget qualification "binding_digest") (JStr (binding_digest binding))) ||
               negb (py_eq (jget qualification "effective_target") (pi_effective_target (db_placement binding))))
    ConflictError "remote drain generation is stale or binding changed";;
  mret (marker, revoked).

(** The running attempt of the parent when the drain began. *)
Definition drain_cutoff (task_id : string) (parent : task_row) (qualification : json) : M json :=
  if negb (status_in (t_status parent) [Running; CancelRequested]) then mret JNull else
  attempt ← gets (fun t => match t_attempt_id parent with Some a => attempt_by_id a t | None => None end);
  match attempt with
  | None => raiseM ConflictError "running parent attempt cannot be captured for drain"
  | Some a =>
      guard_raise (at_settled a || negb (py_eq (JStr (at_executor_id a)) (jget qualification "credential_actor")) ||
                   negb (opt_str_eqb (t_lease_token parent) (Some (at_lease_id a))) ||
                   negb (at_fence a =? t_lease_fence parent) ||
                   negb (py_eq (JInt (at_runtime_epoch a)) (jget qualification "runtime_epoch"))) ConflictError
        "running parent attempt cannot be captured for drain";;
      mret (JObj [("parent_task_id", JStr task_id); ("parent_attempt_id", JStr (at_id a));
                  ("parent_lease_id", JStr (at_lease_id a)); ("parent_fence", JInt (at_fence a));
                  ("executor_id", JStr (at_executor_id a)); ("runtime_epoch", JInt (at_runtime_epoch a))])
  end.

Definition pending_json (qualification : json) (more : list (string * json)) : json :=
  JObj ([("state", JStr "pending"); ("activation_id", jget qualification "activation_id")] ++ more).

Definition begin_remote_drain (task_id : string) (qualification identity : json) : M json :=
  durable_mutation svc (
    '(marker, _) ← assert_exact_drain_generation task_id qualification identity false;
    if negb (is_null marker) then mret (pending_json qualification []) else
    parent ← gets (task_by_id task_id);
    match parent with
    | None => raiseM TypeError "'NoneType' object is not subscriptable"
    | Some parent =>
        cutoff ← drain_cutoff task_id parent qualification;
        begun ← now;
        append_event (t_run_id parent) (Some task_id) DRAINING
          (JObj [("qualification", qualification); ("parent_attempt", cutoff); ("begun_at", jstamp begun)]) None;;
        mret (pending_json qualification [])
    end).

(** A task that still has work, or may have. *)
Definition drain_pending (task_id : string) : M bool :=
  row ← gets (task_by_id task_id);
  binding ← execution_binding task_id;
  match row with
  | None => raiseM TypeError "'NoneType' object is not subscriptable"
  | Some task =>
      open ← gets (unsettled task_id);
      reserved ← gets (holds_reservation task_id);
      mret (negb (status_in (t_status task) [Completed; Failed; Cancelled]) ||
            opt_str_eqb (t_waiting_reason task) (Some "provider_state_unknown") ||
            negb (nil_or open) || reserved || binding_claimed binding)
  end.

Definition finish_remote_drain (task_id : string) (qualification identity : json) : M json :=
  durable_mutation svc (
    '(marker, revoked) ← assert_exact_drain_generation task_id qualification identity true;
    guard_raise (is_null marker || negb (py_eq (jget marker "qualification") qualification)) ConflictError
      "remote drain has not begun for this exact generation";;
    children ← service_children task_id;
    pending ← foldS (fun acc id => p ← drain_pending id; mret (if (p : bool) then acc ++ [id] else acc)) []
                (task_id :: map (fun c => t_id c.1) children);
    if negb (nil_or pending) then mret (pending_json qualification [("task_ids", jstrs pending)]) else
    (if (revoked : bool) then mret tt
     else revoke_remote_activation task_id (jget qualification "activation_id") identity JNull);;
    mret (JObj [("state", JStr "drained"); ("activation_id", jget qualification "activation_id")])).

(** ** The credential behind an attempt *)

(** What the checks read of an attempt or checkpoint row; a checkpoint row is
    not held to the cutoff of a drain. *)
Record lease_holder := LeaseHolder {
  lh_task_id : string; lh_executor_id : string; lh_attempt : option attempt_row }.

Definition attempt_json (a : attempt_row) : json :=
  JObj [("parent_attempt_id", JStr (at_id a)); ("parent_lease_id", JStr (at_lease_id a));
        ("parent_fence", JInt (at_fence a)); ("executor_id", JStr (at_executor_id a));
        ("runtime_epoch", JInt (at_runtime_epoch a))].

Definition outside_cutoff (holder : lease_holder) (activation marker : json) : bool :=
  let cutoff := jget marker "parent_attempt" in
  match lh_attempt holder with
  | Some a => negb (is_null cutoff) && is_json_str (lh_task_id holder) (jget activation "task_id") &&
              negb (at_settled a) &&
              existsb (fun kv => negb (py_eq kv.2 (jget cutoff kv.1))) (jfields (attempt_json a))
  | None => false
  end.

Definition assert_attempt_identity (holder : option lease_holder) (identity : json) : M unit :=
  match holder with
  | None => mret tt
  | Some h =>
      assert_executor_identity identity (lh_executor_id h);;
      if is_null identity then mret tt else
      let activation := jget identity "qualified_activation" in
      marker ← (if is_dict activation
                then gets (remote_drain (py_text (jget activation "task_id")) (jget activation "activation_id"))
                else mret JNull);
      guard_raise (is_dict activation && outside_cutoff h activation marker) AuthorizationError
        "attempt is outside remote drain cutoff";;
      let qualified := is_dict activation in
      binding ← execution_binding (lh_task_id h);
      match binding with
      | Some b =>
          if negb (truthy (jget b "actual_target")) then
            guard_raise qualified AuthorizationError "qualified credential is not bound to this admitted task"
          else
            placement ← trusted_execution_placement identity;
            guard_raise (is_null placement) AuthorizationError "worker credential has no execution placement";;
            required ← task_requires_remote_activation (lh_task_id h);
            matching ← (if required || qualified then remote_activation_matches (lh_task_id h) identity placement false
                        else mret true);
            guard_raise (negb matching) AuthorizationError "remote activation is missing, revoked, or stale";;
            target ← jitem b "resolved_target";
            placed ← lift (execution_placement_matches target placement);
            recovered ← (if negb placed || negb (py_eq (jget b "actual_target") (jget placement "actual")) ||
                            negb (py_eq (jget b "verification") (jget placement "verification")) ||
                            negb (py_eq (jget b "executor_incarnation") (jget placement "executor_incarnation"))
                         then mret false
                         else placement_recovery_qualification_matches (lh_task_id h) placement);
            guard_raise (negb recovered) AuthorizationError
              "worker credential does not match the fenced execution binding"
      | None => guard_raise qualified AuthorizationError "qualified credential is not bound to this admitted task"
      end
  end.
End Activation.
