(* ===== verification/Recovery.v ===== *)
(** * Recovery of a lost placement, and the task commands

    [recover_task_placement], [cancel_task_canonical] and [retry_task] of
    [runtime_protocol/service.py]: the owner replaces the placement of a
    stopped task by a signed decision, and the idempotent forms of cancel and
    retry.  Task ids are strings, so [str] leaves them alone.

    [fromisoformat] stands for [datetime.fromisoformat] of a text with Z read
    as +00:00: microseconds, and whether the text had a timezone. *)

From Stdlib Require Import ZArith String Ascii List Bool Lia.
From stdpp Require Import base list strings.
From S2P Require Import Prelude Json Errors Facts Sha256 Store Idempotency Ledger Bindings.
From S2P Require Import Executors Continuations Snapshots Delegation Claim Outputs Settle Runs.
From S2P Require Import Admission Effects Wire Commands Deployments Activation.

Open Scope Z_scope.

Definition loss_fields : list string :=
  ["source"; "status"; "target"; "observed_at"; "evidence_digest"; "no_active_work"].

Definition replacement_fields : list string := ["target"; "verified"; "evidence_digest"; "executor_incarnation"].

Definition recovery_fields : list string :=
  ["schema_version"; "expected_task_version"; "expected_placement_version"; "expected_original_target";
   "expected_current_target"; "replacement_target"; "reason"; "loss_evidence"; "qualification"].

(** A text that is not blank, of at most the given length, without the blanks
    around it. *)
Definition bounded_text (limit : Z) (value : json) : option string :=
  match value with
  | JStr s => if nonempty (str_strip s) && (py_len s <=? limit) then Some (str_strip s) else None
  | _ => None
  end.

Definition target_mismatch (expected actual : json) : json := JObj [("expected", expected); ("actual", actual)].

(** The hash of a command body. *)
Definition body_hash (task_id : string) (body : json) : string :=
  sha256 (canonical_json (JObj [("task_id", JStr task_id); ("body", body)])).

(** A nullable text column of a view. *)
Definition opt_text_of (value : json) : option string := match value with JStr s => Some s | _ => None end.

Definition or_unscoped (project_id : json) : string := text_of (py_or project_id (JStr "unscoped")).

Section Recovery.
Context `{World} (svc : service) (fromisoformat : string -> option (Z * bool)).

(** The observation is at most fifteen minutes old and at most one minute
    ahead. *)
Definition check_observed_at (value : json) : M string :=
  match value with
  | JStr text =>
      guard_raise (negb (nonempty text)) ValidationError "loss_evidence.observed_at is required";;
      match fromisoformat text with
      | None => raiseM ValidationError "loss_evidence.observed_at is invalid"
      | Some (observed, aware) =>
          guard_raise (negb aware) ValidationError "loss_evidence.observed_at must include a timezone";;
          us ← utcnow;
          let age := us - observed in
          guard_raise_with ((age <? -60 * 1000000) || (PLACEMENT_LOSS_EVIDENCE_MAX_AGE_SECONDS * 1000000 <? age))
            ConflictError "loss evidence is stale"
            (details1 "maximum_age_seconds" (JInt PLACEMENT_LOSS_EVIDENCE_MAX_AGE_SECONDS));;
          mret text
      end
  | _ => raiseM ValidationError "loss_evidence.observed_at is required"
  end.

Definition validate_placement_loss_evidence (value current_target : json) : M json :=
  value ← lift (wire_object value loss_fields loss_fields);
  match jget value "source" with
  | JStr source =>
      guard_raise (negb (nonempty (str_strip source))) ValidationError "loss_evidence.source is required";;
      guard_raise (negb (is_json_str "absent" (jget value "status"))) ConflictError
        "old placement loss is not established";;
      guard_raise (negb (is_true (jget value "no_active_work"))) ConflictError
        "old placement has unknown active work";;
      target ← lift (normalize_execution_target (jget value "target"));
      guard_raise_with (negb (py_eq target current_target)) ConflictError
        "loss evidence does not match the current effective placement" (target_mismatch current_target target);;
      observed_at ← check_observed_at (jget value "observed_at");
      digest ← placement_evidence_digest (jget value "evidence_digest") "loss_evidence.evidence_digest";
      mret (JObj [("source", JStr (str_strip source)); ("status", JStr "absent"); ("target", target);
                  ("observed_at", JStr observed_at); ("evidence_digest", digest); ("no_active_work", JBool true)])
  | _ => raiseM ValidationError "loss_evidence.source is required"
  end.

Definition validate_replacement_qualification (value replacement_target : json) : M json :=
  value ← lift (wire_object value replacement_fields replacement_fields);
  target ← lift (normalize_execution_target (jget value "target"));
  guard_raise_with (negb (py_eq target replacement_target)) ConflictError
    "replacement qualification targets a different placement" (target_mismatch replacement_target target);;
  guard_raise (negb (is_true (jget value "verified"))) AuthorizationError "replacement placement is not qualified";;
  match bounded_text 256 (jget value "executor_incarnation") with
  | None => raiseM ValidationError "qualification.executor_incarnation is invalid"
  | Some incarnation =>
      digest ← placement_evidence_digest (jget value "evidence_digest") "qualification.evidence_digest";
      mret (JObj [("target", target); ("verified", JBool true); ("evidence_digest", digest);
                  ("executor_incarnation", JStr incarnation)])
  end.

(** [decision["decision_digest"] = sha256 of the decision so far] *)
Definition sign_decision (decision : json) : json := jset decision "decision_digest" (JStr (sha256_of decision)).

(** What the body claims about the task must be what the ledger says; the
    result is the request of the task, its version, the placement version and
    the current and the replacement target. *)
Definition check_recovery_body (task_id : string) (task : task_row) (body : json)
  : M (json * Z * Z * json * json) :=
  request ← execution_request_from_row (t_execution_request_json task) (t_spec_digest task) None;
  match request with
  | None => raiseM ConflictError "placement recovery requires a targeted task"
  | Some request =>
      original ← lift (normalize_execution_target (jget body "expected_original_target"));
      admitted ← jitem request "target";
      guard_raise (negb (py_eq original admitted)) ConflictError
        "original immutable placement does not match admission";;
      latest ← placement_recovery task_id;
      placement_version ← match latest with
                          | Some r => if truthy r then py_int (jget_def r "placement_version" (JInt 0)) else mret 0
                          | None => mret 0
                          end;
      current_target ← effective_execution_target task_id;
      expected_current ← lift (normalize_execution_target (jget body "expected_current_target"));
      guard_raise_with (negb (py_eq expected_current current_target)) ConflictError
        "current effective placement changed" (target_mismatch expected_current current_target);;
      guard_raise_with (negb (py_eq (jget body "expected_placement_version") (JInt placement_version))) ConflictError
        "stale placement version" (target_mismatch (jget body "expected_placement_version") (JInt placement_version));;
      let task_version := t_attempt task + 1 in
      guard_raise_with (negb (py_eq (jget body "expected_task_version") (JInt task_version))) ConflictError
        "stale task version" (target_mismatch (jget body "expected_task_version") (JInt task_version));;
      replacement ← lift (normalize_execution_target (jget body "replacement_target"));
      guard_raise (negb (is_json_str "runpod" (jget current_target "kind")) ||
                   negb (is_json_str "runpod" (jget replacement "kind"))) ValidationError
        "placement recovery currently supports exact RunPod targets";;
      account ← jitem replacement "provider_account_ref";
      current_account ← jitem current_target "provider_account_ref";
      guard_raise (negb (py_eq account current_account)) AuthorizationError
        "replacement target belongs to a different provider account";;
      guard_raise (py_eq replacement current_target) ConflictError
        "replacement target must differ from the lost placement";;
      mret (admitted, placement_version, task_version, current_target, replacement)
  end.

(** A queued child of the lost placement is cancelled; every child is told. *)
Definition fence_child (task_id : string) (version : Z) (replacement : json) (timestamp : stamp)
    (child : task_row * json) : M string :=
  let id := t_id child.1 in
  (if bool_decide (t_status child.1 = Queued) then
     update_tasks (is_task id) (fun x => x {{
       t_status := Cancelled; t_waiting_reason := Some "parent_placement_recovered"; t_lease_token := None;
       t_executor_id := None; t_lease_expires_at := None; t_updated_at := timestamp }});;
     set_run_status (t_run_id child.1) Cancelled timestamp;;
     update_bindings (fun b => is_binding id b && bool_decide (b_status b = Prepared))
       (fun b => b {{ b_status := Stale; b_updated_at := timestamp }})
   else mret tt);;
  append_event (t_run_id child.1) (Some id) "task.parent_placement_fenced"
    (JObj [("parent_task_id", JStr task_id); ("parent_attempt_id", jget child.2 "parent_attempt_id");
           ("placement_version", JInt version); ("replacement_target", replacement)]) None.

(** The binding of the task is prepared again, for the replacement. *)
Definition rebind (task_id : string) (replacement : json) (timestamp : stamp) : M unit :=
  epoch ← gets current_runtime_epoch;
  let closed b := is_binding task_id b &&
    (bool_decide (b_status b = Prepared) || bool_decide (b_status b = Released) || bool_decide (b_status b = Stale)) in
  changed ← gets (fun t => rowcount closed (execution_bindings t));
  boot ← gets (fun t => option_map lc_boot_id (runtime_lifecycle t));
  (match boot with
   | None => guard_raise (negb (Nat.eqb changed 0)) IntegrityError
               "NOT NULL constraint failed: execution_bindings.session_id"
   | Some session =>
       update_bindings closed (fun b => b {{
         b_attempt_id := None; b_lease_id := None; b_fence := 0; b_executor_id := None; b_session_id := session;
         b_runtime_epoch := epoch; b_resolved_target_json := json_column (JObj [("selected", replacement)]);
         b_status := Prepared; b_updated_at := timestamp }})
   end);;
  guard_raise (negb (Nat.eqb changed 1)) ConflictError "execution binding changed during placement recovery".

(** The activation of the lost placement is revoked, if one is current. *)
Definition revoke_previous (run_id task_id : string) (timestamp : stamp) : M (list string) :=
  previous ← gets (latest_remote_activation task_id);
  if is_null previous then mret [] else
  activation_id ← jitem previous "activation_id";
  event ← append_event run_id (Some task_id) REVOKED
    (JObj [("activation_id", activation_id); ("reason", JStr "placement_recovered");
           ("revoked_at", jstamp timestamp)]) None;
  mret [event].

Definition superseded_binding (binding : json) : M json :=
  id ← jitem binding "binding_id";
  fence ← int_or_zero (jget binding "fence");
  mret (JObj [("binding_id", id); ("attempt_id", jget binding "attempt_id"); ("lease_id", jget binding "lease_id");
              ("fence", JInt fence); ("executor_id", jget binding "executor_id");
              ("executor_incarnation", jget binding "executor_incarnation")]).

Definition recovery_decision (task_id run_id actor reason : string) (task_version placement_version : Z)
    (original current replacement loss qualification superseded : json) (timestamp : stamp) : json :=
  JObj [("schema_version", JInt PLACEMENT_RECOVERY_SCHEMA_VERSION); ("placement_version", JInt (placement_version + 1));
        ("task_id", JStr task_id); ("run_id", JStr run_id); ("task_version", JInt task_version);
        ("original_target", original); ("previous_effective_target", current); ("replacement_target", replacement);
        ("reason", JStr reason); ("owner_actor", JStr actor); ("loss_evidence", loss);
        ("qualification", qualification); ("superseded_binding", superseded); ("created_at", jstamp timestamp)].

Definition commit_recovery (task_id run_id : string) (version : Z) (replacement decision : json)
    (children : list (task_row * json)) (timestamp : stamp) : M (list string) :=
  fenced ← mapS (fence_child task_id version replacement timestamp) children;
  rebind task_id replacement timestamp;;
  update_tasks (is_task task_id) (fun x => x {{ t_updated_at := timestamp }});;
  parent_event ← append_event run_id (Some task_id) "task.placement_recovered" decision None;
  revoked ← revoke_previous run_id task_id timestamp;
  mret (fenced ++ [parent_event] ++ revoked).

Definition check_versions (body : json) : M unit :=
  for_each ["expected_task_version"; "expected_placement_version"] (fun field =>
    match jget body field with
    | JInt z => guard_raise (z <? 0) ValidationError (field +:+ " must be a non-negative integer")
    | _ => raiseM ValidationError (field +:+ " must be a non-negative integer")
    end).

(** The recovery of a task that has no receipt for the key. *)
Definition recover_fresh (task_id actor reason : string) (current body : json) : M (json * list string * stamp) :=
  row ← gets (task_by_id task_id);
  match row with
  | None => raiseM TypeError "'NoneType' object is not subscriptable"
  | Some task =>
      '(admitted, placement_version, task_version, current_target, replacement) ← check_recovery_body task_id task body;
      loss ← validate_placement_loss_evidence (jget body "loss_evidence") current_target;
      qualification ← validate_replacement_qualification (jget body "qualification") replacement;
      children ← service_children task_id;
      binding ← assert_placement_recovery_quiescent task children;
      timestamp ← now;
      superseded ← superseded_binding binding;
      let run_id := text_of (jget (jget current "run") "id") in
      let decision := sign_decision (recovery_decision task_id run_id actor reason task_version placement_version
        admitted current_target replacement loss qualification superseded timestamp) in
      event_ids ← commit_recovery task_id run_id (placement_version + 1) replacement decision children timestamp;
      mret (decision, event_ids, timestamp)
  end.

Definition recover_body (task_id : string) (body key identity : json) : M json :=
  actor ← require_placement_recovery_owner identity;
  key ← lift (require_idempotency_key key);
  body ← lift (wire_object body recovery_fields recovery_fields);
  guard_raise (negb (py_eq (jget body "schema_version") (JInt PLACEMENT_RECOVERY_SCHEMA_VERSION))) ValidationError
    "placement recovery schema_version is unsupported";;
  check_versions body;;
  match bounded_text 1024 (jget body "reason") with
  | None => raiseM ValidationError "placement recovery reason is invalid"
  | Some reason =>
      let request_hash := body_hash task_id body in
      current ← get_task task_id;
      let project_id := or_unscoped (jget (jget current "run") "project_id") in
      replay ← command_replay svc "task.placement_recover" task_id (JStr key) request_hash (Some project_id);
      match replay with
      | Some v => mret v
      | None =>
          '(decision, event_ids, timestamp) ← recover_fresh task_id actor reason current body;
          value ← get_task task_id;
          resource ← task_resource value;
          let run_id := text_of (jget (jget current "run") "id") in
          seq ← gets (event_count run_id);
          command_record svc "task.placement_recover" task_id (JStr key) request_hash
            (JObj [("task", resource); ("placement_recovery", decision)]) (Some project_id) event_ids
            (Some run_id) (Some seq) true (Some timestamp)
      end
  end.

Definition recover_task_placement (task_id : string) (body key identity : json) : M json :=
  durable_mutation svc (recover_body task_id body key identity).

(** ** Cancel and retry *)

(** [expected is not None and int(expected) != version] *)
Definition check_expected_version (body : json) (attempt : Z) : M unit :=
  let expected := jget body "expected_version" in
  if is_null expected then mret tt else
  z ← py_int expected;
  guard_raise_with (negb (z =? attempt + 1)) ConflictError "stale task version"
    (target_mismatch expected (JInt (attempt + 1))).

Definition empty_if_null (body : json) : json := if is_null body then JObj [] else body.

(** The callback that keeps its answer in [recorded]. *)
Definition recording (kind aggregate_id key request_hash project_id : string) (view : json -> M json) : recorder :=
  fun value event_ids stream created_at =>
    result ← view value;
    r ← command_record svc kind aggregate_id (JStr key) request_hash result (Some project_id) event_ids stream
          None true created_at;
    set_recorded r.

Definition cancel_task_canonical (task_id : string) (body key : json) : M json :=
  verified_mutation svc (
    key ← lift (require_idempotency_key key);
    let body := empty_if_null body in
    require_object_body body;;
    current ← get_task task_id;
    let project_id := or_unscoped (jget (jget current "run") "project_id") in
    let request_hash := body_hash task_id body in
    replay ← command_replay svc "task.cancel" task_id (JStr key) request_hash (Some project_id);
    match replay with
    | Some v => mret v
    | None =>
        attempt ← py_int (jget_def (jget current "task") "attempt" (JInt 0));
        check_expected_version body attempt;;
        transaction (
          set_recorded JNull;;
          cancel_task max_depth task_id
            (recording "task.cancel" task_id key request_hash project_id task_resource);;
          get_recorded)
    end).

Definition service_retry_row (timestamp : stamp) (x : task_row) : task_row :=
  x {{ t_status := Queued; t_lease_token := None; t_executor_id := None; t_lease_expires_at := None;
       t_waiting_reason := None; t_result_json := None; t_attempt_id := None;
       t_created_at := timestamp; t_updated_at := timestamp }}.

Definition requeue_task (task_id key request_hash project_id run_id : string) (current : json) (version : Z) : M json :=
  let task := jget current "task" in
  timestamp ← now;
  assert_delegated_retry_capacity task_id;;
  release_reservations task_id (opt_text_of (jget task "lease_token")) None;;
  update_tasks (is_task task_id) (service_retry_row timestamp);;
  reset_execution_attempt task_id None;;
  set_run_status run_id Queued timestamp;;
  event_id ← append_event run_id (Some task_id) "task.retried"
    (JObj [("from_status", jget task "status"); ("attempt", JInt version)]) None;
  refresh_continuations_for_predecessor task_id;;
  value ← get_task task_id;
  result ← task_resource value;
  seq ← gets (event_count run_id);
  command_record svc "task.retry" task_id (JStr key) request_hash result (Some project_id) [event_id]
    (Some run_id) (Some seq) true None.

Definition retry_task_canonical (task_id : string) (body key : json) : M json :=
  verified_mutation svc (
    key ← lift (require_idempotency_key key);
    let body := empty_if_null body in
    require_object_body body;;
    current ← get_task task_id;
    let run := jget current "run" in
    let project_id := or_unscoped (jget run "project_id") in
    let request_hash := body_hash task_id body in
    replay ← command_replay svc "task.retry" task_id (JStr key) request_hash (Some project_id);
    match replay with
    | Some v => mret v
    | None =>
        drain ← task_drain task_id;
        guard_raise (negb (is_null drain)) ConflictError "remote drain blocks fresh task retries";;
        let task := jget current "task" in
        let status := jget task "status" in
        guard_raise_with (is_json_str "provider_state_unknown" (jget task "waiting_reason")) ConflictError
          "provider/executor state must be reconciled by authorized checkpoint resume before retry"
          (JObj [("status", status); ("attempt_id", jget task "attempt_id")]);;
        guard_raise_with (negb (existsb (fun s => is_json_str s status) ["completed"; "cancelled"; "failed"]))
          ConflictError "task is not retryable" (details1 "status" status);;
        attempt ← py_int (jget_def task "attempt" (JInt 0));
        check_expected_version body attempt;;
        transaction (requeue_task task_id key request_hash project_id (text_of (jget run "id")) current (attempt + 1))
    end).
End Recovery.
