(* ===== verification/Dispatch.v ===== *)
(** * Claims and attempts

    [claim_next], [heartbeat_attempt] and [fail_attempt] of
    [runtime_protocol/service.py]: how a worker gets a task, keeps its lease
    and reports a failure. *)

From Stdlib Require Import ZArith String Ascii List Bool Lia.
From stdpp Require Import base list strings.
From S2P Require Import Prelude Json Errors Facts Sha256 Store Idempotency Ledger Bindings.
From S2P Require Import Executors Continuations Snapshots Delegation Claim Outputs Settle Runs.
From S2P Require Import Admission Effects Wire Commands Deployments Activation Recovery.

Open Scope Z_scope.

Section Dispatch.
Context `{World} (svc : service) (fromisoformat : string -> option (Z * bool)).

(** ** The local claim fence *)

(** [_assert_local_claim_admission], with the fence as [_load_local_claim_fence]
    reads it from its protected file. *)
Definition assert_local_claim_admission (executor_id : string) (identity : json) (registration : bool) : M unit :=
  if negb (String.eqb executor_id (sv_local_claim_actor svc)) then mret tt else
  guard_raise (sv_fence_unknown svc) ConflictError "local execution claim fence is unresolved";;
  match sv_fence svc with
  | None => mret tt
  | Some fence =>
      guard_raise (match sv_generation_verifier svc with
                   | None => true
                   | Some verifier => negb (py_eq (verifier fence identity) (jget fence "credential_generation_digest"))
                   end) ConflictError "local execution credential generation is unresolved";;
      if negb (is_json_str "held" (jget fence "state")) then mret tt else
      guard_raise (negb registration) ConflictError "local execution claims are fenced";;
      let binding := if is_dict identity then jget identity "execution_binding" else JNull in
      guard_raise (negb (is_dict binding) ||
                   negb (py_eq (jget binding "executor_incarnation") (jget fence "executor_incarnation")))
        ConflictError "registration differs from fenced incarnation"
  end.

(** ** Claims *)

(** [capability_ids]: unique non-empty strings. *)
Definition capability_list (value : json) : option (list string) :=
  match value with
  | JArr l => if forallb nonempty_str l && bool_decide (NoDup (map text_of l)) then Some (map text_of l) else None
  | _ => None
  end.

Definition claim_hash (executor_id : string) (capability_ids runtime_epoch target placement : json) : string :=
  sha256 (canonical_json (JObj [
    ("executor_id", JStr executor_id); ("capability_ids", capability_ids); ("runtime_epoch", runtime_epoch);
    ("target", target); ("trusted_execution_placement", placement)])).

Definition qualified_identity (identity : json) : bool :=
  is_dict identity && is_dict (jget identity "qualified_activation").

(** A replayed lease is answered only to a credential that is still good. *)
Definition check_replayed_claim (identity placement replay : json) : M unit :=
  if negb (is_dict replay && truthy (jget replay "task_id")) then mret tt else
  let task_id := text_of (jget replay "task_id") in
  row ← gets (task_by_id task_id);
  match row with
  | None => mret tt
  | Some _ =>
      required ← task_requires_remote_activation task_id;
      matching ← (if required || qualified_identity identity
                  then remote_activation_matches svc fromisoformat task_id identity placement
                         (negb (truthy (jget replay "attempt_id")))
                  else mret true);
      guard_raise (negb matching) AuthorizationError "remote activation is missing, revoked, or stale"
  end.

(** The first queued task the worker may run: of its capabilities, and when
    the task is targeted, on exactly the target it asked for. *)
Fixpoint select_claim (caps : list string) (requested : json) (rows : list task_row)
  : M (option (task_row * option json)) :=
  match rows with
  | [] => mret None
  | item :: rest =>
      if negb (nil_or caps) && negb (str_in (t_capability item) caps) then select_claim caps requested rest else
      binding ← execution_binding (t_id item);
      request ← execution_request_from_row (t_execution_request_json item) (t_spec_digest item) None;
      match request with
      | None => mret (Some (item, None))
      | Some _ =>
          match binding with
          | None => select_claim caps requested rest
          | Some b =>
              if is_null requested then select_claim caps requested rest else
              target ← jitem b "resolved_target";
              if String.eqb (canonical_json target) (canonical_json requested)
              then mret (Some (item, Some b)) else select_claim caps requested rest
          end
      end
  end.

(** Why the credential may not run the selected task. *)
Definition placement_reason (task_id : string) (binding : option json) (identity placement : json)
  : M (option string) :=
  match binding with
  | None => mret (Some "execution_binding_missing")
  | Some b =>
      if is_null placement then mret (Some "execution_binding_missing") else
      target ← jitem b "resolved_target";
      placed ← lift (execution_placement_matches target placement);
      if negb placed then mret (Some "execution_binding_mismatch") else
      qualified ← placement_recovery_qualification_matches task_id placement;
      if negb qualified then mret (Some "execution_qualification_mismatch") else
      required ← task_requires_remote_activation task_id;
      matching ← (if required || qualified_identity identity
                  then remote_activation_matches svc fromisoformat task_id identity placement true else mret true);
      mret (if (matching : bool) then None else Some "remote_activation_missing")
  end.

Definition set_dict (source : json) (key : string) (result : json) : M json :=
  if is_null (jget source key) then mret result else d ← py_dict (jget source key); mret (jset result key d).

(** The lease a worker is given, with the admitted spec, whose input ids
    admission requires to be a list. *)
Definition claim_answer (task_id : string) (epoch : Z) (c : claimed) : M json :=
  let task := jget (cl_value c) "task" in
  let run := jget (cl_value c) "run" in
  row ← gets (attempt_by_id (cl_attempt_id c));
  let expires := match row with Some a => jstamp (at_lease_expires_at a) | None => JNull end in
  let '(spec, intent) := public_task_spec (py_or (jget task "spec") (JObj [])) in
  let intent := if is_null (jget task "generation_intent") then intent else jget task "generation_intent" in
  inputs ← match py_or (jget spec "input_object_ids") (JArr []) with
           | JArr l => mret (JArr l)
           | _ => raiseM TypeError "object is not iterable"
           end;
  let result := JObj [
    ("attempt_id", JStr (cl_attempt_id c)); ("task_id", JStr task_id); ("run_id", jget run "id");
    ("project_id", jget run "project_id"); ("lease_id", JStr (cl_lease_id c)); ("fence", JInt (cl_fence c));
    ("lease_expires_at", expires); ("runtime_epoch", JInt epoch); ("input_object_ids", inputs); ("spec", spec)] in
  result ← set_dict task "execution_request" result;
  let result := match cl_binding c with Some b => jset result "execution_binding" b | None => result end in
  let result := set_present result "generation_intent" intent in
  result ← set_dict task "expected_effect" result;
  result ← copy_field spec "required_facts" result;
  copy_field spec "storage_estimate" result.

(** The answer for a task that cannot start yet. *)
Definition waiting_answer (value reason : json) : M json :=
  resource ← task_resource value;
  mret (JObj [("task", resource); ("waiting_reason", reason)]).

(** The claim of the selected task. *)
Definition claim_selected_answer (task_id executor_id : string) (epoch : Z) (placement : json) : M json :=
  attempt_id ← new_id;
  lease_id ← new_id;
  value ← claim_task task_id executor_id lease_id (JInt epoch) false false;
  claimed ← fence_attempt task_id executor_id epoch placement attempt_id lease_id value;
  match claimed with
  | None => waiting_answer value (py_or (jget (jget value "task") "waiting_reason") (JStr "waiting_for_worker"))
  | Some c => claim_answer task_id epoch c
  end.

(** What a claim without a receipt does: the recorded answer. *)
Definition claim_fresh (executor_id : string) (caps : list string) (requested identity placement : json) (epoch : Z)
  : M json :=
  reap_expired_leases;;
  rows ← gets (fun t => List.filter (fun x => bool_decide (t_status x = Queued)) (tasks t));
  selected ← select_claim caps requested rows;
  match selected with
  | None => mret JNull
  | Some (row, binding) =>
      let task_id := t_id row in
      if opt_str_eqb (t_waiting_reason row) (Some "provider_state_unknown") then
        value ← get_task task_id;
        waiting_answer value (JStr "provider_state_unknown")
      else
        reason ← (if match binding with Some _ => true | None => false end || qualified_identity identity
                  then placement_reason task_id binding identity placement else mret None);
        match reason with
        | Some r =>
            set_waiting_reason task_id (Some r);;
            value ← get_task task_id;
            waiting_answer value (JStr r)
        | None => claim_selected_answer task_id executor_id epoch placement
        end
  end.

Definition claim_body (body key identity : json) : M json :=
  lift (require_runtime_epoch_for_lease body);;
  body ← lift (wire_object body ["executor_id"; "capability_ids"; "runtime_epoch"]
                 ["executor_id"; "capability_ids"; "runtime_epoch"; "target"]);
  executor_id ← lift (wire_string body "executor_id");
  assert_executor_identity identity executor_id;;
  assert_local_claim_admission executor_id identity false;;
  match capability_list (jget body "capability_ids") with
  | None => raiseM ValidationError "capability_ids must be a list of unique non-empty strings"
  | Some caps =>
      lift (wire_integer body "runtime_epoch" true);;
      requested ← (if is_null (jget body "target") then mret JNull
                   else lift (normalize_execution_target (jget body "target")));
      placement ← trusted_execution_placement identity;
      let request_hash := claim_hash executor_id (jget body "capability_ids") (jget body "runtime_epoch")
                            requested placement in
      epoch ← validate_runtime_epoch (jget body "runtime_epoch") "executor" (Some executor_id) true;
      found ← command_replay_state svc "task.claim" "claim" key request_hash None false;
      match found with
      | Some replay => check_replayed_claim identity placement replay;; mret replay
      | None =>
          result ← claim_fresh executor_id caps requested identity placement epoch;
          command_record svc "task.claim" "claim" key request_hash result (Some "unscoped") [] None None false None
      end
  end.

Definition claim_next (body key identity : json) : M json := durable_mutation svc (claim_body body key identity).

(** ** The lease of an attempt *)

Definition validate_attempt_lease (row : option attempt_row) (body : json) (current : Z)
    (require_epoch allow_expired : bool) : M unit :=
  (if require_epoch then
     validate_runtime_epoch (jget body "runtime_epoch") "executor" (option_map at_executor_id row) true;; mret tt
   else mret tt);;
  match row with
  | None => raiseM LeaseError "attempt lease is stale or already settled"
  | Some a =>
      guard_raise (at_settled a || negb (at_runtime_epoch a =? current)) LeaseError
        "attempt lease is stale or already settled";;
      fence ← catch [TypeError; ValueError] (py_int (jget_def body "fence" (JInt 0)))
                (raiseM LeaseError "attempt fence is invalid");
      guard_raise (negb (is_json_str (at_lease_id a) (jget body "lease_id")) || negb (at_fence a =? fence)) LeaseError
        "attempt lease is stale or already settled";;
      if allow_expired || negb (stamp_truthy (Some (at_lease_expires_at a))) then mret tt else
      us ← utcnow;
      match expired_at (at_lease_expires_at a) us with
      | Some true => raiseM LeaseError "attempt lease has expired"
      | Some false => mret tt
      | None => raiseM LeaseError "attempt lease deadline is invalid"
      end
  end.

Definition holder_of (row : option attempt_row) : option lease_holder :=
  option_map (fun a => LeaseHolder (at_task_id a) (at_executor_id a) (Some a)) row.

(** The project of the attempt's run, for the receipt. *)
Definition attempt_project (task : option task_row) : M string :=
  match task with
  | None => mret "unscoped"
  | Some x =>
      run ← gets (run_by_id (t_run_id x));
      match run with
      | Some r => mret (or_unscoped (opt_str (r_project_id r)))
      | None => raiseM TypeError "'NoneType' object is not subscriptable"
      end
  end.

Definition attempt_hash (attempt_id : string) (body : json) : string :=
  sha256 (canonical_json (JObj [("attempt_id", JStr attempt_id); ("body", body)])).

Definition wire_lease (body : json) (allowed : list string) : M json :=
  lift (require_runtime_epoch_for_lease body);;
  body ← lift (wire_object body ["lease_id"; "fence"; "runtime_epoch"] allowed);
  lift (wire_string body "lease_id");;
  lift (wire_integer body "fence" false);;
  lift (wire_integer body "runtime_epoch" true);;
  mret body.

(** [record] of a heartbeat: the deadline of the attempt, the progress as it
    came, and the receipt. *)
Definition heartbeat_record (a : attempt_row) (task : task_row) (progress : json)
    (key request_hash project_id : string) : recorder :=
  fun value _ _ _ =>
    deadline ← gets (fun t => match task_by_id (at_task_id a) t with Some x => t_lease_expires_at x | None => None end);
    match deadline with
    | None => raiseM IntegrityError "NOT NULL constraint failed: attempts.lease_expires_at"
    | Some d =>
        update_attempts (fun x => String.eqb (at_id x) (at_id a)) (fun x => x {{ at_lease_expires_at := d }});;
        (if is_null progress then mret tt else
         append_event (t_run_id task) (Some (at_task_id a)) "task.progress" progress None;; mret tt);;
        epoch ← gets current_runtime_epoch;
        let result := JObj [
          ("attempt_id", JStr (at_id a)); ("task_id", JStr (at_task_id a)); ("lease_id", JStr (at_lease_id a));
          ("fence", JInt (at_fence a)); ("lease_expires_at", jstamp d); ("runtime_epoch", JInt epoch)] in
        r ← command_record svc "attempt.heartbeat" (at_id a) (JStr key) request_hash result (Some project_id) []
              None None true None;
        set_recorded r
    end.

Definition lease_seconds (body : json) : M Z :=
  if negb (jhas body "lease_seconds") then mret 30 else
  match jget body "lease_seconds" with
  | JInt z => guard_raise (z <=? 0) ValidationError "lease_seconds must be a positive integer";; mret z
  | _ => raiseM ValidationError "lease_seconds must be a positive integer"
  end.

Definition heartbeat_attempt (attempt_id : string) (body key identity : json) : M json :=
  verified_mutation svc (
    key ← lift (require_idempotency_key key);
    body ← wire_lease body ["lease_id"; "fence"; "runtime_epoch"; "lease_seconds"; "progress"];
    seconds ← lease_seconds body;
    let progress := jget body "progress" in
    body ← (if is_null progress then mret body
            else p ← lift (normalize_progress progress); mret (jset body "progress" p));
    row ← gets (attempt_by_id attempt_id);
    assert_attempt_identity svc fromisoformat (holder_of row) identity;;
    current ← gets current_runtime_epoch;
    validate_runtime_epoch (jget body "runtime_epoch") "executor" (option_map at_executor_id row) true;;
    task ← match row with Some a => gets (task_by_id (at_task_id a)) | None => mret None end;
    project_id ← attempt_project task;
    let request_hash := attempt_hash attempt_id body in
    replay ← command_replay svc "attempt.heartbeat" attempt_id (JStr key) request_hash (Some project_id);
    match replay with
    | Some v => mret v
    | None =>
        validate_attempt_lease row body current true false;;
        match row, task with
        | Some a, Some x =>
            set_recorded JNull;;
            heartbeat_task (at_task_id a) (at_lease_id a) (Some (at_fence a)) seconds
              (heartbeat_record a x progress key request_hash project_id);;
            get_recorded
        | _, _ => raiseM NotFoundError "task not found"
        end
    end).

Definition fail_attempt (attempt_id : string) (body key identity : json) : M json :=
  verified_mutation svc (
    key ← lift (require_idempotency_key key);
    body ← wire_lease body ["lease_id"; "fence"; "runtime_epoch"; "error"; "reason"];
    row ← gets (attempt_by_id attempt_id);
    assert_attempt_identity svc fromisoformat (holder_of row) identity;;
    match row with
    | None => raiseM LeaseError "attempt lease is stale or already settled"
    | Some a =>
        current ← gets current_runtime_epoch;
        validate_runtime_epoch (jget body "runtime_epoch") "executor" (Some (at_executor_id a)) true;;
        task ← gets (task_by_id (at_task_id a));
        project_id ← attempt_project task;
        let request_hash := attempt_hash attempt_id body in
        replay ← command_replay svc "attempt.fail" attempt_id (JStr key) request_hash (Some project_id);
        match replay with
        | Some v => mret v
        | None =>
            validate_attempt_lease (Some a) body current true false;;
            guard_raise (jhas body "reason") ValidationError "reason is not supported; use error";;
            let failure := py_or (jget body "error") (JObj [("code", JStr "executor_failed")]) in
            set_recorded JNull;;
            fail_task (at_task_id a) (at_lease_id a) failure (Some (at_fence a)) (Some attempt_id)
              (recording svc "attempt.fail" attempt_id key request_hash project_id task_resource);;
            get_recorded
        end
    end).
End Dispatch.
