(* ===== verification/Reboot.v ===== *)
(** * Reboots and checkpoints

    The recovery handshake of [runtime_protocol/service.py]: a worker whose
    host has to restart asks for a one-shot nonce ([prepare_reboot]), stores a
    checkpoint ([checkpoint_attempt]), has the host rebooted
    ([request_reboot]) and takes the task up again from the checkpoint
    ([resume_attempt]).  [request_reboot] runs the executor outside the mutex,
    so it is also given as the two transactions it is made of,
    [reserve_reboot] and [report_reboot].  The checkpoint files and the
    executor of the host are parameters. *)

From Stdlib Require Import ZArith String Ascii List Bool Lia.
From stdpp Require Import base list strings.
From S2P Require Import Prelude Json Errors Facts Sha256 Store Idempotency Ledger Bindings.
From S2P Require Import Executors Continuations Snapshots Delegation Claim Outputs Settle Runs.
From S2P Require Import Admission Effects Wire Durable Commands Deployments Activation Recovery Dispatch.

Open Scope Z_scope.

Definition CHECKPOINT_MAX_BYTES : Z := 1024 * 1024.
Definition REBOOT_COMMAND_ALLOWLIST : list string := ["reboot"; "resume"].

(** The callable the host injects: whether it takes a command and a
    checkpoint, and its outcome at a reading of the environment. *)
Record executor := RebootExecutor {
  re_accepts : bool;
  re_call : nat -> string -> json -> res json }.

(** [type(exc).__name__] *)
Definition exn_name (c : ExnClass) : string :=
  match c with
  | RuntimeErrorBase => "RuntimeErrorBase"
  | AuthorizationError => "AuthorizationError"
  | ConflictError => "ConflictError"
  | ValidationError => "ValidationError"
  | ForbiddenError => "ForbiddenError"
  | CapabilityUnavailableError => "CapabilityUnavailableError"
  | NotFoundError => "NotFoundError"
  | RetiredRouteError => "RetiredRouteError"
  | OwnerBusyError => "OwnerBusyError"
  | RealmAdmissionError => "RealmAdmissionError"
  | LeaseError => "LeaseError"
  | ProtocolError => "ProtocolError"
  | BodyTooLargeError => "BodyTooLargeError"
  | InvalidRequestError => "InvalidRequestError"
  | IdempotencyWindowExpired => "IdempotencyWindowExpired"
  | IntegrityError => "IntegrityError"
  | TypeError => "TypeError"
  | KeyError => "KeyError"
  | ValueError => "ValueError"
  | AttributeError => "AttributeError"
  | OverflowError => "OverflowError"
  | RecursionError => "RecursionError"
  | IndexError => "IndexError"
  | StopIteration => "StopIteration"
  | OSError => "OSError"
  end.

Section Reboot.
Context `{World} (svc : service) (fromisoformat : string -> option (Z * bool)).
(** Whether a checkpoint file could be written, and what the service was
    configured with. *)
Context (written : nat -> string -> string -> bool) (reboot_allowlist : list string) (reboot_executor : option executor).

(** ** Rows *)

Definition checkpoint_by_id (id : string) (t : tables) : option checkpoint_row :=
  find (fun c => String.eqb (ck_id c) id) (recovery_checkpoints t).

(** [ORDER BY created_at DESC LIMIT 1], the later row on a tie. *)
Definition later_checkpoint (best : option checkpoint_row) (c : checkpoint_row) : option checkpoint_row :=
  match best with
  | Some b => if stamp_ltb (ck_created_at c) (ck_created_at b) then best else Some c
  | None => Some c
  end.

Definition latest_checkpoint (p : checkpoint_row -> bool) (t : tables) : option checkpoint_row :=
  foldl later_checkpoint None (List.filter p (recovery_checkpoints t)).

Definition holds_checkpoint (c : checkpoint_row) (a : attempt_row) : bool :=
  String.eqb (at_task_id a) (ck_task_id c) && String.eqb (at_executor_id a) (ck_executor_id c) &&
  String.eqb (at_lease_id a) (ck_lease_id c) && (at_fence a =? ck_fence c).

(** [_checkpoint_row] *)
Definition find_checkpoint (checkpoint_id attempt_id : json) : M checkpoint_row :=
  row ← (if truthy checkpoint_id then
           row ← gets (checkpoint_by_id (text_of checkpoint_id));
           match row with
           | Some c => guard_raise (negb (is_null attempt_id) && negb (is_json_str (ck_attempt_id c) attempt_id)) LeaseError
                         "checkpoint is bound to a different attempt"
           | None => mret tt
           end;;
           mret row
         else gets (latest_checkpoint (fun c => is_json_str (ck_attempt_id c) attempt_id)));
  match row with
  | None => raiseM NotFoundError "recovery checkpoint not found"
  | Some c =>
      attempt ← gets (attempt_by_id (ck_attempt_id c));
      guard_raise (negb (match attempt with Some a => holds_checkpoint c a | None => false end)) ConflictError
        "recovery checkpoint identity is inconsistent";;
      mret c
  end.

Definition checkpoint_holder (c : checkpoint_row) : option lease_holder :=
  Some (LeaseHolder (ck_task_id c) (ck_executor_id c) None).

(** [Path(row["checkpoint_path"]).read_bytes()] *)
Definition read_checkpoint (path : string) : M string :=
  n ← tick;
  match checkpoint_file n path with
  | Some bytes => mret bytes
  | None => raiseM OSError "checkpoint file is unreadable"
  end.

(** [json.loads(checkpoint_bytes.decode("utf-8"))] *)
Definition load_checkpoint (bytes : string) : M json :=
  match durable_loads bytes with
  | Some v => mret v
  | None => raiseM ValueError "Expecting value"
  end.

(** The bytes of a checkpoint, as they were recorded. *)
Definition checked_checkpoint (c : checkpoint_row) : M json :=
  bytes ← read_checkpoint (ck_checkpoint_path c);
  guard_raise (negb (String.eqb (sha256 bytes) (ck_checkpoint_digest c))) ConflictError
    "recovery checkpoint digest mismatch";;
  load_checkpoint bytes.

(** ** Authorization *)

Definition supplies (value : json) (nonce : string) : bool := truthy value && String.eqb (py_text value) nonce.

Definition nonce_expired (a : attempt_row) : M bool :=
  match at_recovery_nonce_expires_at a with
  | Some s => if stamp_truthy (Some s) then timestamp ← now; mret (stamp_leb s timestamp) else mret false
  | None => mret false
  end.

(** [_reboot_authorized] *)
Definition reboot_authorized (body : json) (attempt_id : string) (expected : option string) (allow_consumed : bool)
  : M string :=
  attempt ← gets (attempt_by_id attempt_id);
  guard_raise (jhas body "authorization_nonce") ValidationError
    "authorization_nonce is not supported; use authorization";;
  match attempt with
  | Some a =>
      match at_recovery_nonce a with
      | Some nonce =>
          guard_raise (negb (nonempty nonce)) ValidationError "prepare_reboot is required before recovery";;
          guard_raise (at_recovery_nonce_used a && negb allow_consumed) ConflictError
            "recovery authorization has already been consumed";;
          late ← nonce_expired a;
          guard_raise late ValidationError "recovery authorization has expired";;
          guard_raise (negb (supplies (jget body "nonce") nonce) || negb (supplies (jget body "authorization") nonce) ||
                       match expected with Some e => negb (String.eqb e nonce) | None => false end) ValidationError
            "recovery nonce authorization is required";;
          mret nonce
      | None => raiseM ValidationError "prepare_reboot is required before recovery"
      end
  | None => raiseM ValidationError "prepare_reboot is required before recovery"
  end.

(** ** prepare_reboot *)

Definition prepare_fields : list string := ["attempt_id"; "lease_id"; "fence"; "runtime_epoch"].

(** The nonce that may be handed out again. *)
Definition reusable_nonce (a : attempt_row) : M (option (string * option stamp)) :=
  match at_recovery_nonce a with
  | Some nonce =>
      if negb (nonempty nonce) || at_recovery_nonce_used a then mret None else
      late ← nonce_expired a;
      mret (if (late : bool) then None else Some (nonce, at_recovery_nonce_expires_at a))
  | None => mret None
  end.

Definition issue_nonce (a : attempt_row) : M (string * option stamp) :=
  transaction (
    reusable ← reusable_nonce a;
    match reusable with
    | Some r => mret r
    | None =>
        first ← new_id;
        second ← new_id;
        expires_at ← now_plus 300;
        let nonce := first +:+ second in
        update_attempts (fun x => String.eqb (at_id x) (at_id a) && negb (at_settled x)) (fun x => x {{
          at_recovery_nonce := Some nonce; at_recovery_nonce_expires_at := Some expires_at;
          at_recovery_nonce_used := false }});;
        mret (nonce, Some expires_at)
    end).

Definition seconds_left (expires_at : option stamp) : M Z :=
  match expires_at with
  | None => raiseM TypeError "fromisoformat: argument must be str"
  | Some (Malformed _) => raiseM ValueError "Invalid isoformat string"
  | Some (At ms) => us ← utcnow; mret (Z.max 0 ((ms * 1000 - us) / 1000000))
  end.

Definition prepare_reboot (body identity : json) : M json :=
  verified_mutation svc (
    let raw := if is_null body then JObj [] else body in
    lift (require_runtime_epoch_for_lease raw);;
    body ← lift (wire_object raw prepare_fields prepare_fields);
    attempt_id ← lift (wire_string body "attempt_id");
    lift (wire_string body "lease_id");;
    lift (wire_integer body "fence" false);;
    lift (wire_integer body "runtime_epoch" true);;
    row ← gets (attempt_by_id attempt_id);
    assert_attempt_identity svc fromisoformat (holder_of row) identity;;
    match row with
    | None => raiseM LeaseError "attempt lease is stale or already settled"
    | Some a =>
        guard_raise (at_settled a) LeaseError "attempt lease is stale or already settled";;
        current ← gets current_runtime_epoch;
        validate_attempt_lease row body current true false;;
        '(nonce, expires_at) ← issue_nonce a;
        left ← seconds_left expires_at;
        mret (JObj [("attempt_id", JStr attempt_id); ("task_id", JStr (at_task_id a));
                    ("executor_id", JStr (at_executor_id a)); ("runtime_epoch", JInt current); ("nonce", JStr nonce);
                    ("expires_in_seconds", JInt left)])
    end).

(** ** checkpoint_attempt *)

Definition checkpoint_json (c : checkpoint_row) (nonce : string) : json :=
  JObj [("checkpoint_id", JStr (ck_id c)); ("attempt_id", JStr (ck_attempt_id c)); ("task_id", JStr (ck_task_id c));
        ("runtime_epoch", JInt (ck_runtime_epoch c)); ("nonce", JStr nonce);
        ("digest", JStr ("sha256:" +:+ ck_checkpoint_digest c)); ("size", JInt (ck_checkpoint_size c));
        ("state", JStr (checkpoint_state_text (ck_state c))); ("path", JStr (ck_checkpoint_path c))].

Definition checkpoint_fields : list string := ["lease_id"; "fence"; "nonce"; "authorization"; "runtime_epoch"].

(** The earlier checkpoint of the nonce, which must hold the same value. *)
Definition same_checkpoint_bytes (existing : checkpoint_row) (payload : json) (nonce : string) : M json :=
  bytes ← read_checkpoint (ck_checkpoint_path existing);
  same ← (if negb (String.eqb (sha256 bytes) (ck_checkpoint_digest existing)) then mret false
          else value ← load_checkpoint bytes; mret (py_eq value payload));
  guard_raise (negb same) ConflictError "recovery checkpoint authorization already binds different bytes";;
  mret (checkpoint_json existing nonce).

Definition checkpoint_path (id : string) : string := realm_root +:+ "/checkpoints/" +:+ id +:+ ".json".

Definition insert_checkpoint (c : checkpoint_row) : M unit :=
  taken ← gets (fun t => existsb (fun x => String.eqb (ck_id x) (ck_id c) || String.eqb (ck_nonce x) (ck_nonce c))
                           (recovery_checkpoints t));
  unique (negb taken);;
  known ← gets (fun t => existsb (fun a => String.eqb (at_id a) (ck_attempt_id c)) (attempts t) &&
                         existsb (is_task (ck_task_id c)) (tasks t));
  foreign_key known;;
  modify (fun t => t {{ recovery_checkpoints := recovery_checkpoints t ++ [c] }}).

(** The file first, then the row that makes it a checkpoint. *)
Definition store_checkpoint (a : attempt_row) (current : Z) (nonce bytes : string) : M json :=
  checkpoint_id ← new_id;
  n ← tick;
  guard_raise (negb (written n (checkpoint_path checkpoint_id) bytes)) OSError "checkpoint file could not be written";;
  timestamp ← now;
  let row := Checkpoint checkpoint_id (at_id a) (at_task_id a) (at_executor_id a) current (at_lease_id a) (at_fence a)
               nonce (checkpoint_path checkpoint_id) (sha256 bytes) (Z.of_nat (String.length bytes)) Durable None
               timestamp timestamp in
  transaction (insert_checkpoint row);;
  mret (checkpoint_json row nonce).

Definition checkpoint_attempt (attempt_id : string) (body identity : json) : M json :=
  verified_mutation svc (
    body ← lift (wire_object body checkpoint_fields (checkpoint_fields ++ ["checkpoint"; "state"]));
    guard_raise (negb (nonempty attempt_id)) ValidationError "attempt_id is required";;
    lift (wire_string body "lease_id");;
    lift (wire_integer body "fence" false);;
    lift (wire_string body "nonce");;
    lift (wire_string body "authorization");;
    lift (wire_integer body "runtime_epoch" true);;
    row ← gets (attempt_by_id attempt_id);
    assert_attempt_identity svc fromisoformat (holder_of row) identity;;
    current ← gets current_runtime_epoch;
    validate_attempt_lease row body current true false;;
    nonce ← reboot_authorized body attempt_id None false;
    let payload := jget_def body "checkpoint" (jget_def body "state" (JObj [])) in
    guard_raise (negb (is_dict payload) && negb (is_list payload)) ValidationError
      "checkpoint must be an object or array";;
    let bytes := durable_json_bytes payload in
    guard_raise (CHECKPOINT_MAX_BYTES <? Z.of_nat (String.length bytes)) ValidationError
      "recovery checkpoint exceeds 1 MiB bound";;
    existing ← gets (latest_checkpoint (fun c => String.eqb (ck_attempt_id c) attempt_id && String.eqb (ck_nonce c) nonce));
    match existing, row with
    | Some c, _ => same_checkpoint_bytes c payload nonce
    | None, Some a => store_checkpoint a current nonce bytes
    | None, None => raiseM LeaseError "attempt lease is stale or already settled"
    end).

(** ** request_reboot *)

Definition handshake_fields : list string := ["nonce"; "authorization"; "runtime_epoch"].

(** The fields [request_reboot] and [resume_attempt] share. *)
Definition wire_recovery (body : json) (optional : list string) : M json :=
  body ← lift (wire_object body handshake_fields (["checkpoint_id"; "attempt_id"] ++ handshake_fields ++ optional));
  lift (wire_string body "nonce");;
  lift (wire_string body "authorization");;
  lift (wire_integer body "runtime_epoch" true);;
  for_each (["checkpoint_id"; "attempt_id"] ++ optional)
    (fun field => if is_null (jget body field) then mret tt else lift (wire_string body field);; mret tt);;
  mret body.

(** What a reserved reboot goes on with. *)
Record reboot_reservation := Reserved {
  rs_checkpoint : checkpoint_row; rs_command : string; rs_value : json; rs_epoch : Z }.

(** [json.loads(row["recovery_receipt_json"])] *)
Definition stored_receipt (c : checkpoint_row) : option string :=
  match ck_recovery_receipt_json c with
  | Some text => if nonempty text then Some text else None
  | None => None
  end.

Definition is_durable (id : string) (c : checkpoint_row) : bool := String.eqb (ck_id c) id && bool_decide (ck_state c = Durable).

(** The nonce is spent and the checkpoint taken in one transaction. *)
Definition take_checkpoint (c : checkpoint_row) (timestamp : stamp) : M unit :=
  transaction (
    let fresh_attempt a := String.eqb (at_id a) (ck_attempt_id c) && negb (at_recovery_nonce_used a) in
    consumed ← gets (fun t => rowcount fresh_attempt (attempts t));
    update_attempts fresh_attempt (fun a => a {{ at_recovery_nonce_used := true }});;
    guard_raise (negb (Nat.eqb consumed 1)) ConflictError "recovery authorization has already been consumed";;
    claimed ← gets (fun t => rowcount (is_durable (ck_id c)) (recovery_checkpoints t));
    modify (fun t => t {{ recovery_checkpoints := update_where (is_durable (ck_id c))
      (fun x => x {{ ck_state := RebootRequested; ck_updated_at := timestamp }}) (recovery_checkpoints t) }});;
    guard_raise_with (negb (Nat.eqb claimed 1)) ConflictError "reboot has already been requested"
      (details1 "state" (JStr (checkpoint_state_text (ck_state c))))).

(** The first half: a replayed receipt, or a reserved reboot. *)
Definition reserve_reboot (body identity : json) : M (json + reboot_reservation) :=
  body ← wire_recovery body ["command"];
  assert_mutation_admitted svc;;
  current ← validate_runtime_epoch (jget body "runtime_epoch") "executor" None true;
  row ← find_checkpoint (jget body "checkpoint_id") (jget body "attempt_id");
  assert_attempt_identity svc fromisoformat (checkpoint_holder row) identity;;
  match (if bool_decide (ck_state row = Executed \/ ck_state row = Resumed) then stored_receipt row else None) with
  | Some text =>
      reboot_authorized body (ck_attempt_id row) (Some (ck_nonce row)) true;;
      receipt ← loads text;
      mret (inl receipt)
  | None =>
      reboot_authorized body (ck_attempt_id row) (Some (ck_nonce row)) false;;
      let command := py_text (py_or (jget body "command") (JStr "reboot")) in
      guard_raise_with (negb (str_in command reboot_allowlist)) ValidationError "reboot command is not allowlisted"
        (JObj [("command", JStr command); ("allowlist", sorted_strings reboot_allowlist)]);;
      epoch ← gets current_runtime_epoch;
      guard_raise (negb (ck_runtime_epoch row =? epoch)) LeaseError "reboot checkpoint belongs to a stale runtime epoch";;
      attempt ← gets (attempt_by_id (ck_attempt_id row));
      validate_attempt_lease attempt (jset (jset body "lease_id" (JStr (ck_lease_id row))) "fence" (JInt (ck_fence row)))
        current true false;;
      checkpoint ← checked_checkpoint row;
      guard_raise_with (negb (bool_decide (ck_state row = Durable))) ConflictError "reboot has already been requested"
        (details1 "state" (JStr (checkpoint_state_text (ck_state row))));;
      guard_raise (match reboot_executor with Some _ => false | None => true end) ConflictError
        "reboot executor is unavailable; tests must inject a safe executor";;
      timestamp ← now;
      take_checkpoint row timestamp;;
      mret (inr (Reserved row command checkpoint current))
  end.

Definition reboot_receipt (r : reboot_reservation) (epoch : Z) (status : string) (outcome : string * json) : json :=
  let c := rs_checkpoint r in
  JObj [("type", JStr "runtime.recovery.receipt"); ("version", JInt 1); ("checkpoint_id", JStr (ck_id c));
        ("attempt_id", JStr (ck_attempt_id c)); ("task_id", JStr (ck_task_id c)); ("runtime_epoch", JInt epoch);
        ("command", JStr (rs_command r)); ("status", JStr status); outcome].

Definition is_requested (id : string) (c : checkpoint_row) : bool :=
  String.eqb (ck_id c) id && bool_decide (ck_state c = RebootRequested).

Definition finish_checkpoint (id : string) (state : CheckpointState) (receipt : json) : M unit :=
  transaction (
    timestamp ← now;
    modify (fun t => t {{ recovery_checkpoints := update_where (is_requested id)
      (fun x => x {{ ck_state := state; ck_recovery_receipt_json := Some (canonical_json receipt);
                     ck_updated_at := timestamp }}) (recovery_checkpoints t) }})).

(** The second half: what the executor answered goes on record. *)
Definition report_reboot (r : reboot_reservation) (outcome : res json) : M json :=
  match outcome with
  | Err e =>
      finish_checkpoint (ck_id (rs_checkpoint r)) ExecutorFailed (reboot_receipt r (rs_epoch r) "failed"
        ("error", JObj [("type", JStr (exn_name (exn_class e))); ("message", JStr (exn_message e))]));;
      lift (Err e)
  | Ok value =>
      epoch ← gets current_runtime_epoch;
      let receipt := reboot_receipt r epoch "executed" ("executor_result", value) in
      finish_checkpoint (ck_id (rs_checkpoint r)) Executed receipt;;
      mret receipt
  end.

Definition request_reboot (body identity : json) : M json :=
  reserved ← reserve_reboot body identity;
  match reserved, reboot_executor with
  | inl receipt, _ => mret receipt
  | inr r, Some e =>
      guard_raise (negb (re_accepts e)) TypeError "missing a required argument";;
      n ← tick;
      report_reboot r (re_call e n (rs_command r) (rs_value r))
  | inr _, None => raiseM TypeError "None is not a callable object"
  end.

(** ** resume_attempt *)

(** The attempt as [claim_next] would answer it. *)
Definition attempt_resource (a : attempt_row) : M json :=
  value ← get_task (at_task_id a);
  let task := jget value "task" in
  let '(spec, intent) := public_task_spec (py_or (jget task "spec") (JObj [])) in
  let intent := if is_null (jget task "generation_intent") then intent else jget task "generation_intent" in
  inputs ← match py_or (jget spec "input_object_ids") (JArr []) with
           | JArr l => mret (JArr l)
           | _ => raiseM TypeError "object is not iterable"
           end;
  let run := jget value "run" in
  let resource := JObj [
    ("attempt_id", JStr (at_id a)); ("task_id", JStr (at_task_id a)); ("run_id", jget run "id");
    ("project_id", jget run "project_id"); ("lease_id", JStr (at_lease_id a)); ("fence", JInt (at_fence a));
    ("lease_expires_at", jstamp (at_lease_expires_at a)); ("runtime_epoch", JInt (at_runtime_epoch a));
    ("input_object_ids", inputs); ("spec", spec)] in
  binding ← execution_binding (at_task_id a);
  let resource := set_present resource "generation_intent" intent in
  mret (match binding with Some b => jset resource "execution_binding" b | None => resource end).

(** The receipt and the attempt of a checkpoint that was resumed before. *)
Definition resumed_before (c : checkpoint_row) : M (option json) :=
  match (if bool_decide (ck_state c = Resumed) then stored_receipt c else None) with
  | None => mret None
  | Some text =>
      receipt ← loads text;
      id ← jitem receipt "attempt_id";
      attempt ← gets (attempt_by_id (text_of id));
      match attempt with
      | None => mret None
      | Some a => resource ← attempt_resource a; mret (Some (JObj [("receipt", receipt); ("attempt", resource)]))
      end
  end.

(** The placement of the credential fits the task, and its binding is free
    for a new attempt. *)
Definition rebind_placement (task_id : string) (binding : option json) (placement : json) (current : Z) : M unit :=
  match binding with
  | None => mret tt
  | Some b =>
      guard_raise (is_null placement) AuthorizationError "worker credential has no execution placement";;
      target ← jitem b "resolved_target";
      placed ← lift (execution_placement_matches target placement);
      guard_raise (negb placed) AuthorizationError "worker credential placement cannot resume this task";;
      qualified ← placement_recovery_qualification_matches task_id placement;
      guard_raise (negb qualified) AuthorizationError "worker credential qualification cannot resume this task";;
      reset_execution_attempt task_id (Some current)
  end.

(** The attempt row of the claimed task, in one transaction. *)
Definition resume_row (c : checkpoint_row) (task : task_row) (attempt_id lease_id : string) (current : Z)
    (bound : bool) (placement : json) : M unit :=
  transaction (
    match t_lease_expires_at task with
    | None => raiseM IntegrityError "NOT NULL constraint failed: attempts.lease_expires_at"
    | Some expires =>
        insert_attempt (Attempt attempt_id (ck_task_id c) lease_id (t_lease_fence task) (ck_executor_id c) expires false
                          current None None false);;
        update_tasks (fun x => is_task (ck_task_id c) x && bool_decide (t_status x = Running))
          (fun x => x {{ t_attempt_id := Some attempt_id }});;
        binding ← (if bound then bind_execution_attempt (ck_task_id c) attempt_id lease_id (t_lease_fence task)
                                   (ck_executor_id c) current placement
                   else mret None);
        match binding with
        | None => mret tt
        | Some b =>
            append_event (t_run_id task) (Some (ck_task_id c)) "task.execution_bound"
              (JObj [("attempt_id", JStr attempt_id); ("lease_id", JStr lease_id); ("fence", JInt (t_lease_fence task));
                     ("runtime_epoch", JInt current); ("execution_binding", b);
                     ("recovery", JStr "checkpoint_authorized_resume")]) None;;
            mret tt
        end
    end).

Definition resume_receipt (c : checkpoint_row) (attempt_id : string) (current : Z) (checkpoint : json) : json :=
  JObj [("type", JStr "runtime.recovery.receipt"); ("version", JInt 1); ("checkpoint_id", JStr (ck_id c));
        ("attempt_id", JStr attempt_id); ("task_id", JStr (ck_task_id c)); ("runtime_epoch", JInt current);
        ("command", JStr "resume"); ("status", JStr "resumed");
        ("checkpoint_digest", JStr ("sha256:" +:+ ck_checkpoint_digest c)); ("checkpoint", checkpoint)].

Definition ready_to_resume (s : CheckpointState) : bool :=
  bool_decide (s = Recovered \/ s = RebootRequested \/ s = Executed).

Definition is_ready (id : string) (c : checkpoint_row) : bool := String.eqb (ck_id c) id && ready_to_resume (ck_state c).

Definition resume_checkpoint (c : checkpoint_row) (receipt : json) : M unit :=
  transaction (
    timestamp ← now;
    modify (fun t => t {{ recovery_checkpoints := update_where (is_ready (ck_id c))
      (fun x => x {{ ck_state := Resumed; ck_recovery_receipt_json := Some (canonical_json receipt);
                     ck_updated_at := timestamp }}) (recovery_checkpoints t) }})).

(** The claim of the task of the checkpoint, its new attempt and the receipt. *)
Definition take_up (c : checkpoint_row) (identity : json) (current : Z) : M json :=
  checkpoint ← checked_checkpoint c;
  binding ← execution_binding (ck_task_id c);
  placement ← trusted_execution_placement identity;
  rebind_placement (ck_task_id c) binding placement current;;
  lease_id ← new_id;
  claim ← claim_task (ck_task_id c) (ck_executor_id c) lease_id (JInt current) true true;
  row ← gets (task_by_id (ck_task_id c));
  match row with
  | None => raiseM ConflictError "checkpoint task is not queued for resume"
  | Some task =>
      guard_raise (negb (is_json_str "running" (jget (jget claim "task") "status")) ||
                   negb (is_json_str (ck_task_id c) (jget (jget claim "task") "id"))) ConflictError
        "checkpoint task is not queued for resume";;
      attempt_id ← new_id;
      resume_row c task attempt_id lease_id current (match binding with Some _ => true | None => false end) placement;;
      resumed ← gets (attempt_by_id attempt_id);
      match resumed with
      | None => raiseM TypeError "'NoneType' object is not subscriptable"
      | Some a =>
          let receipt := resume_receipt c (at_id a) current checkpoint in
          resume_checkpoint c receipt;;
          resource ← attempt_resource a;
          mret (JObj [("receipt", receipt); ("attempt", resource)])
      end
  end.

Definition resume_attempt (body identity : json) : M json :=
  verified_mutation svc (
    (if is_dict identity then assert_local_claim_admission svc (text_of (jget identity "actor")) identity false else mret tt);;
    body ← wire_recovery body [];
    current ← validate_runtime_epoch (jget body "runtime_epoch") "executor" None true;
    row ← find_checkpoint (jget body "checkpoint_id") (jget body "attempt_id");
    assert_attempt_identity svc fromisoformat (checkpoint_holder row) identity;;
    owner ← gets (attempt_by_id (ck_attempt_id row));
    match owner with
    | None => raiseM ConflictError "resume executor is unresolved"
    | Some a =>
        assert_local_claim_admission svc (at_executor_id a) identity false;;
        reboot_authorized body (ck_attempt_id row) (Some (ck_nonce row)) true;;
        replay ← resumed_before row;
        match replay with
        | Some v => mret v
        | None =>
            let activation := if is_dict identity then jget identity "qualified_activation" else JNull in
            let owner_id := if is_dict activation then py_text (jget activation "task_id") else ck_task_id row in
            drain ← task_drain owner_id;
            guard_raise (negb (is_null drain)) ConflictError "remote drain blocks fresh checkpoint resume";;
            guard_raise_with (negb (ready_to_resume (ck_state row))) ConflictError "checkpoint is not ready for resume"
              (details1 "state" (JStr (checkpoint_state_text (ck_state row))));;
            take_up row identity current
        end
    end).
End Reboot.
