(* ===== verification/Staging.v ===== *)
(** * Staging of settlement outputs

    What [runtime_protocol/service.py] does with the outputs of a settlement
    before and while the store commits it: [_stage_outputs] checks and
    normalises every output and establishes its bytes, and
    [_publish_staged_outputs] makes the objects known.  The bytes of an object
    are the reading [stored_object]; the staging directory, the publication
    journal and the copying of bytes are file operations and are left out, so
    a staged file is the bytes that were decoded for it.  JSON numbers are
    integers.

    [file_identity] stands for the identity (device, inode, size, times) of
    the file of an object, which a host import has already verified. *)

From Stdlib Require Import ZArith String Ascii List Bool Lia.
From stdpp Require Import base list strings.
From S2P Require Import Prelude Json Errors Facts Sha256 Base64 Store Idempotency Ledger Bindings.
From S2P Require Import Executors Continuations Snapshots Delegation Claim Outputs Settle Runs.
From S2P Require Import Admission Effects Wire Commands Deployments Activation.

Open Scope Z_scope.

(** ** Coverage *)

Definition MANAGED_COVERAGE_MODES : list string := ["interval"; "clips"; "cuts"; "shots"].
Definition MANAGED_COVERAGE_REASONS : list string :=
  ["interval"; "before_cut"; "after_cut"; "clip_first"; "shot_midpoint"].
Definition MANAGED_DURABILITIES : list string := ["durable"; "temporary"].

(** [any(reason not in names for reason in reasons)] *)
Fixpoint any_outside (reasons : list json) (names : list string) : res bool :=
  match reasons with
  | [] => Ok false
  | x :: rest => known ← in_set x names; if (known : bool) then any_outside rest names else Ok true
  end.

(** A number that [float()] accepts, at least [low]. *)
Definition finite_at_least (low : Z) (value : json) (message : string) : res unit :=
  match value with
  | JInt z =>
      raise_if (float_limit <=? Z.abs z) OverflowError "int too large to convert to float";;
      raise_if (z <? low) ValidationError message
  | _ => raise ValidationError message
  end.

Definition int_at_least (low : Z) (value : json) : bool :=
  match value with JInt z => low <=? z | _ => false end.

Definition card_fields : list string := ["frame"; "time_seconds"; "time_rational"; "sample_reasons"].

Definition validate_card (card : json) : res unit :=
  raise_if (negb (is_dict card) || negb (keys_are card card_fields)) ValidationError
    "each coverage card requires frame, time_seconds, time_rational, and sample_reasons";;
  raise_if (negb (int_at_least 0 (jget card "frame"))) ValidationError
    "coverage card frame must be a non-negative integer";;
  finite_at_least 0 (jget card "time_seconds") "coverage card time_seconds must be a non-negative finite number";;
  validate_rational (jget card "time_rational") "coverage card time_rational";;
  let bad := raise ValidationError "coverage card sample_reasons contains an invalid reason" in
  match jget card "sample_reasons" with
  | JArr [] => bad
  | JArr reasons => outside ← any_outside reasons MANAGED_COVERAGE_REASONS; if (outside : bool) then bad else Ok tt
  | _ => bad
  end.

Definition sampling_fields : list string := ["mode"; "range"; "step_frames_rational"; "every"; "every_frames"; "cards"].

Definition validate_range (value : json) : res unit :=
  raise_if (negb (is_dict value) || negb (keys_are value ["start"; "end"])) ValidationError
    "output coverage.sampling.range must be a half-open object";;
  match jget value "start", jget value "end" with
  | JInt a, JInt b => raise_if ((a <? 0) || (b <=? a)) ValidationError
                        "output coverage.sampling.range must satisfy 0 <= start < end"
  | _, _ => raise ValidationError "output coverage.sampling.range must satisfy 0 <= start < end"
  end.

Definition validate_coverage (value : json) : res json :=
  raise_if_with (negb (is_dict value) || negb (keys_are value ["sampling"])) ValidationError
    "output coverage must contain only V1 sampling evidence"
    (JObj [("required", JStr "sampling"); ("modes", sorted_strings MANAGED_COVERAGE_MODES)]);;
  let sampling := jget value "sampling" in
  raise_if (negb (is_dict sampling)) ValidationError "output coverage.sampling must be an object";;
  raise_if_with (negb (nil_or (unknown_keys sampling sampling_fields))) ValidationError
    "output coverage.sampling contains unsupported fields"
    (details1 "fields" (sorted_strings (unknown_keys sampling sampling_fields)));;
  known ← in_set (jget sampling "mode") MANAGED_COVERAGE_MODES;
  raise_if_with (negb known) ValidationError "output coverage.sampling.mode is invalid"
    (details1 "modes" (sorted_strings MANAGED_COVERAGE_MODES));;
  validate_range (jget sampling "range");;
  (if jhas sampling "step_frames_rational"
   then validate_rational (jget sampling "step_frames_rational") "output coverage.sampling.step_frames_rational";; Ok tt
   else Ok tt);;
  raise_if (jhas sampling "every" && jhas sampling "every_frames") ValidationError
    "output coverage.sampling.every and every_frames are mutually exclusive";;
  raise_if ((jhas sampling "every" || jhas sampling "every_frames") &&
            negb (is_json_str "interval" (jget sampling "mode"))) ValidationError
    "output coverage.sampling.every/every_frames are valid only for interval mode";;
  (if jhas sampling "every"
   then finite_at_least 1 (jget sampling "every") "output coverage.sampling.every must be a positive finite number"
   else Ok tt);;
  raise_if (jhas sampling "every_frames" && negb (int_at_least 1 (jget sampling "every_frames"))) ValidationError
    "output coverage.sampling.every_frames must be a positive integer";;
  match jget_def sampling "cards" (JArr []) with
  | JArr cards => foldM (fun _ card => validate_card card) tt cards;; Ok value
  | _ => raise ValidationError "output coverage.sampling.cards must be a list"
  end.

(** ** Inline bytes *)

Definition b64_plain (c : ascii) : bool :=
  is_upper c || is_lower c || is_digit c || Ascii.eqb c "+"%char || Ascii.eqb c "/"%char.

(** Whole groups of four of the plain alphabet, with padding at the end only. *)
Fixpoint b64_groups (s : string) : bool :=
  match s with
  | EmptyString => true
  | String a (String b (String c (String d r))) =>
      b64_plain a && b64_plain b &&
      (if Ascii.eqb d pad_char then (b64_plain c || Ascii.eqb c pad_char) && negb (nonempty r)
       else b64_plain c && b64_plain d && b64_groups r)
  | _ => false
  end.

(** [base64.b64decode(text, validate=True)], [None] where it raises. *)
Definition b64decode (text : string) : option string := if b64_groups text then a2b 0 0 0 text else None.

(** ** One output *)

Definition OBJECT_MAX_BYTES : Z := DEFAULT_MAX_OBJECT_BYTES.

Definition output_fields : list string :=
  ["name"; "filename"; "output_port"; "selector"; "group_key"; "variant_key"; "generation_id"; "kind"; "digest";
   "media_type"; "size"; "data_base64"; "ordinal"; "role"; "is_primary"; "duration_seconds"; "durability";
   "producer"; "provenance"; "regeneration"; "coverage"].

Definition bytes_of (s : string) : Z := Z.of_nat (String.length s).

(** A text of at most [limit] characters without control characters. *)
Definition plain_text (limit : Z) (value : json) : option string :=
  match value with
  | JStr s => if (py_len s <=? limit) && all_chars (fun c => negb (is_control c)) s then Some s else None
  | _ => None
  end.

Definition nonempty_plain (limit : Z) (value : json) : option string :=
  match plain_text limit value with Some s => if nonempty s then Some s else None | None => None end.

Definition or_invalid {A} (value : option A) (message : string) : res A :=
  match value with Some a => Ok a | None => raise ValidationError message end.

(** An object a settlement is about to publish: whether its bytes were sent
    inline, and the identity under which it is associated with the task. *)
Record staged_item := StagedItem {
  si_digest : string; si_inline : bool; si_size : Z; si_media_type : string; si_verified : option json;
  si_name : string; si_filename : string; si_output_port : string; si_group_key : string; si_variant_key : string;
  si_output : json }.

(** The variables of the loop: items, association keys, metadata by digest,
    and the digests of outputs that are not objects. *)
Record stage_state := StageState {
  sg_items : list staged_item; sg_seen : list (string * string * string * Z);
  sg_content : list (string * (Z * string)); sg_non_objects : list string }.

Definition empty_stage : stage_state := StageState [] [] [] [].

Definition association_eqb (a b : string * string * string * Z) : bool := bool_decide (a = b).

Definition check_output_shape (output : json) : res unit :=
  raise_if (negb (is_dict output)) ValidationError "each output must be an object";;
  raise_if_with (negb (nil_or (unknown_keys output output_fields))) ValidationError
    "output contains unsupported fields" (details1 "fields" (sorted_strings (unknown_keys output output_fields)));;
  raise_if (is_json_str "recoverable_snapshot" (jget output "role")) ValidationError
    "recoverable_snapshot is a Runtime-reserved output role".

Definition declared_digest (output : json) : res string :=
  match jget output "digest" with
  | JStr s =>
      raise_if (negb (String.prefix "sha256:" s)) ValidationError "each output requires a sha256 digest";;
      let digest := remove_prefix "sha256:" s in
      raise_if (negb (is_hex64 digest)) ValidationError "each output requires a valid SHA-256 digest";;
      Ok digest
  | _ => raise ValidationError "each output requires a sha256 digest"
  end.

Definition output_kind (output : json) : res string :=
  match jget_def output "kind" (JStr "object") with
  | JStr s => if str_in s ["object"; "document"; "value"] then Ok s else raise ValidationError "output kind is invalid"
  | _ => raise ValidationError "output kind is invalid"
  end.

Definition output_name (output : json) : res string :=
  match jget_def output "name" (JStr "output") with
  | JStr s => if nonempty s && (py_len s <=? 512) then Ok s else
                raise ValidationError "output name must be a non-empty string"
  | _ => raise ValidationError "output name must be a non-empty string"
  end.

Definition declared_size (output : json) : res (option Z) :=
  match jget output "size" with
  | JNull => Ok None
  | JInt z => if (0 <=? z) && (z <=? OBJECT_MAX_BYTES) then Ok (Some z) else
                raise ValidationError "output size must be an integer between 0 and 5 GiB"
  | _ => raise ValidationError "output size must be an integer between 0 and 5 GiB"
  end.

Definition size_differs (declared : option Z) (size : Z) : bool :=
  match declared with Some z => negb (z =? size) | None => false end.

(** The inline bytes of an output, and their size. *)
Definition inline_bytes (digest data : string) (declared : option Z) : res Z :=
  match b64decode data with
  | None => raise ValidationError "output data_base64 is invalid"
  | Some bytes =>
      raise_if (OBJECT_MAX_BYTES <? bytes_of bytes) ValidationError "output exceeds 5 GiB object limit";;
      raise_if_with (negb (String.eqb (sha256 bytes) digest)) ConflictError
        "output content hash does not match declared digest"
        (JObj [("expected", JStr ("sha256:" +:+ digest)); ("actual", JStr ("sha256:" +:+ sha256 bytes))]);;
      raise_if (size_differs declared (bytes_of bytes)) ValidationError "output size does not match staged bytes";;
      Ok (bytes_of bytes)
  end.

Section Staging.
Context `{World} (file_identity : nat -> string -> json).

(** [verified_objects.get(digest)] *)
Definition verified_identity (verified : option (list (string * json))) (digest : string) : option json :=
  match verified with Some l => alookup digest l | None => None end.

(** The bytes of an output that is already in the object store. *)
Definition stored_bytes (digest : string) (verified : option (list (string * json))) (declared : option Z) : M Z :=
  n ← tick;
  match stored_object n digest with
  | None => raiseM_with ConflictError "output must be staged or published to runtime CAS before settlement"
              (details1 "digest" (JStr ("sha256:" +:+ digest)))
  | Some bytes =>
      guard_raise (OBJECT_MAX_BYTES <? bytes_of bytes) ValidationError "output exceeds 5 GiB object limit";;
      (match verified_identity verified digest with
       | Some identity => guard_raise (negb (py_eq (file_identity n digest) identity)) ConflictError
                            "verified imported CAS object changed"
       | None => guard_raise (negb (String.eqb (sha256 bytes) digest)) ConflictError
                   "CAS object hash or size does not match staged metadata"
       end);;
      guard_raise (size_differs declared (bytes_of bytes)) ValidationError "output size does not match CAS bytes";;
      mret (bytes_of bytes)
  end.

Definition output_bytes (output : json) (digest : string) (verified : option (list (string * json)))
    (declared : option Z) : M (bool * Z) :=
  match jget output "data_base64" with
  | JNull => size ← stored_bytes digest verified declared; mret (false, size)
  | JStr data => size ← lift (inline_bytes digest data declared); mret (true, size)
  | _ => raiseM ValidationError "output data_base64 is invalid"
  end.

(** [ordinal], [role], [is_primary] and [duration_seconds] *)
Definition output_ordinal (output : json) : res (option Z) :=
  match jget output "ordinal" with
  | JNull => Ok None
  | JInt z => if 0 <=? z then Ok (Some z) else raise ValidationError "output ordinal must be a non-negative integer"
  | _ => raise ValidationError "output ordinal must be a non-negative integer"
  end.

Definition check_output_traits (output : json) : res unit :=
  raise_if (negb (is_null (jget output "role")) &&
            match nonempty_plain 255 (jget output "role") with Some _ => false | None => true end) ValidationError
    "output role is invalid";;
  raise_if (negb (is_null (jget output "is_primary")) && negb (is_bool (jget output "is_primary"))) ValidationError
    "output is_primary must be a boolean";;
  if is_null (jget output "duration_seconds") then Ok tt else
  finite_at_least 1 (jget output "duration_seconds") "output duration_seconds must be a positive finite number".

(** A selector fills the keys the output does not give itself. *)
Definition apply_selector (output : json) : res json :=
  let selector := jget output "selector" in
  if is_null selector then Ok output else
  raise_if (negb (is_dict selector) || negb (keys_are selector ["group_key"; "variant_key"])) ValidationError
    "output selector requires exactly group_key and variant_key";;
  let output := if jhas output "group_key" then output else jset output "group_key" (jget selector "group_key") in
  Ok (if jhas output "variant_key" then output else jset output "variant_key" (jget selector "variant_key")).

(** Port, group and variant of the association, and the output as the selector
    completed it. *)
Definition association_keys (output : json) (name : string) (ordinal : option Z)
  : res (json * string * string * string) :=
  output_port ← or_invalid (nonempty_plain 255 (jget_def output "output_port" (JStr name))) "output_port is invalid";
  output ← apply_selector output;
  group_key ← or_invalid (nonempty_plain 255 (jget_def output "group_key" (JStr "default")))
    "output group_key is invalid";
  variant_key ← or_invalid (plain_text 255 (jget_def output "variant_key" (JStr (py_text (JInt (default 0 ordinal))))))
    "output variant_key is invalid";
  Ok (output, output_port, group_key, variant_key).

Definition output_generation (output : json) : res unit :=
  raise_if (negb (is_null (jget output "generation_id")) &&
            match jget output "generation_id" with
            | JStr s => negb (nonempty s) || negb (py_len s <=? 255)
            | _ => true
            end) ValidationError "output generation_id is invalid".

Definition output_durability (output : json) : res string :=
  let value := jget_def output "durability" (JStr "durable") in
  known ← in_set value MANAGED_DURABILITIES;
  raise_if (negb known) ValidationError "output durability is invalid";;
  raise_if (is_json_str "temporary" value && is_true (jget output "is_primary")) ValidationError
    "primary outputs must be durable";;
  Ok (text_of value).

(** Producer, provenance, and the two declarations. *)
Definition check_output_evidence (output : json) : res unit :=
  raise_if (negb (is_dict (jget_def output "producer" (JObj []))) ||
            negb (is_dict (jget_def output "provenance" (JObj [])))) ValidationError
    "output producer and provenance must be objects";;
  (if is_null (jget output "regeneration") then Ok tt else validate_regeneration (jget output "regeneration");; Ok tt);;
  if is_null (jget output "coverage") then Ok tt else validate_coverage (jget output "coverage");; Ok tt.

(** ** Objects a worker uploaded without a project *)

(** [_generic_output_idempotency_key] and [_generic_output_request_hash] *)
Definition generic_output_idempotency_key (binding : json) : string := "output-" +:+ sha256 (canonical_json binding).

Definition generic_output_request_hash (digest media_type : string) (original_name expected_digest binding : json)
  : string :=
  let request := JObj [("content_digest", JStr digest); ("media_type", JStr media_type);
                       ("original_name", original_name); ("expected_digest", expected_digest)] in
  sha256 (canonical_json (if is_null binding then request else jset request "publication_binding" binding)).

(** The attempt a settlement is made under. *)
Record settling := Settling {
  sl_attempt : attempt_row; sl_task : task_row; sl_project : option string;
  sl_lease_id : json; sl_fence : json; sl_runtime_epoch : json }.

(** The identity an upload receipt must carry to be adopted. *)
Definition upload_binding (by_ : settling) (digest : string) (size : Z) (media_type name output_port : string)
    (recorded_filename : json) : M json :=
  fence ← py_int (sl_fence by_);
  epoch ← py_int (sl_runtime_epoch by_);
  mret (JObj [
    ("project_id", opt_str (sl_project by_)); ("run_id", JStr (t_run_id (sl_task by_)));
    ("task_id", JStr (t_id (sl_task by_))); ("attempt_id", JStr (at_id (sl_attempt by_)));
    ("executor_id", JStr (at_executor_id (sl_attempt by_))); ("lease_id", sl_lease_id by_);
    ("fence", JInt fence); ("runtime_epoch", JInt epoch); ("output_key", JStr name);
    ("output_port", JStr output_port); ("filename", recorded_filename);
    ("digest", JStr ("sha256:" +:+ digest)); ("size", JInt size); ("media_type", JStr media_type)]).

Definition recorded_upload (digest media_type : string) (size : Z) (result : json) : M bool :=
  if negb (is_dict result) then mret false else
  recorded ← catch [TypeError; ValueError] (z ← py_int (jget_def result "size" (JInt (-1))); mret (Some z)) (mret None);
  mret (match recorded with
        | None => false
        | Some z => is_json_str ("sha256:" +:+ digest) (jget result "object_id") &&
                    is_json_str ("sha256:" +:+ digest) (jget result "digest") && (z =? size) &&
                    is_json_str media_type (jget result "media_type")
        end).

Definition is_authorized_generic_output (by_ : settling) (digest : string) (size : Z)
    (media_type name output_port filename : string) (recorded_filename : json) : M bool :=
  match canonical_managed_output_filename recorded_filename with
  | Err _ => mret false
  | Ok canonical =>
      if negb (String.eqb canonical filename) then mret false else
      binding ← upload_binding by_ digest size media_type name output_port recorded_filename;
      row ← gets (receipt_of "object.ingest" "objects" (generic_output_idempotency_key binding));
      match row with
      | None => mret false
      | Some r =>
          match json_loads (rc_result_json r) with
          | None => mret false
          | Some result =>
              if negb (is_dict result) then mret false else
              if negb (String.eqb (rc_request_hash r)
                         (generic_output_request_hash digest media_type recorded_filename JNull binding))
              then mret false else recorded_upload digest media_type size result
          end
      end
  end.

Definition owned_by_a_project (digest : string) (t : tables) : bool :=
  existsb (fun r => String.eqb (po_digest r) digest) (project_objects t).

(** [project_id and not (project owns digest)] *)
Definition outside_project (project : option string) (digest : string) (t : tables) : bool :=
  match project with
  | Some p => nonempty p && negb (in_project p digest t)
  | None => false
  end.

(** The object of an output may be used by the task's project. *)
Definition check_output_object (by_ : settling) (output : json) (digest : string) (inline : bool) (size : Z)
    (media_type name output_port filename : string) : M unit :=
  let outside := raiseM_with ConflictError "output object is outside the task project"
    (JObj [("project_id", opt_str (sl_project by_)); ("digest", jget output "digest")]) in
  existing ← gets (object_by_digest digest);
  foreign ← gets (outside_project (sl_project by_) digest);
  match existing with
  | Some o =>
      guard_raise_with (negb (o_size o =? size) || negb (String.eqb (o_media_type o) media_type)) ConflictError
        "output metadata does not match existing object" (details1 "digest" (jget output "digest"));;
      if negb foreign then mret tt else
      owned ← gets (owned_by_a_project digest);
      if (owned : bool) then outside else
      let authorized := is_authorized_generic_output by_ digest size media_type name output_port filename in
      first ← authorized (jget_def output "filename" (JStr name));
      if (first : bool) then mret tt else
      second ← authorized (opt_str (o_original_name o));
      if (second : bool) then mret tt else outside
  | None => if foreign && negb inline then outside else mret tt
  end.

(** ** The normalised output *)

(** [if key in output: normalized[key] = value] *)
Definition echo (output : json) (key : string) (value normalized : json) : json :=
  if jhas output key then jset normalized key value else normalized.

(** [if value is not None: normalized[key] = value] *)
Definition keep_present (output : json) (key : string) (normalized : json) : json :=
  set_present normalized key (jget output key).

Definition normalized_output (output : json) (name kind media_type filename output_port group_key variant_key
    durability : string) (size : Z) : json :=
  let n := JObj [("name", JStr name); ("kind", JStr kind); ("digest", jget output "digest");
                 ("media_type", JStr media_type); ("size", JInt size)] in
  let n := echo output "filename" (JStr filename) n in
  let n := echo output "output_port" (JStr output_port) n in
  let n := if is_null (jget output "selector") then n else
           jset n "selector" (JObj [("group_key", JStr group_key); ("variant_key", JStr variant_key)]) in
  let n := echo output "group_key" (JStr group_key) n in
  let n := echo output "variant_key" (JStr variant_key) n in
  let n := keep_present output "generation_id" n in
  let n := keep_present output "ordinal" n in
  let n := keep_present output "role" n in
  let n := keep_present output "is_primary" n in
  let n := keep_present output "duration_seconds" n in
  let n := if String.eqb durability "durable" then n else jset n "durability" (JStr durability) in
  let n := set_truthy n "producer" (jget output "producer") in
  let n := set_truthy n "provenance" (jget output "provenance") in
  let n := keep_present output "regeneration" n in
  keep_present output "coverage" n.

(** ** The loop *)

Definition duplicate_digest (st : stage_state) (kind digest : string) : bool :=
  str_in digest (sg_non_objects st) || (negb (String.eqb kind "object") && str_in digest (akeys (sg_content st))).

Definition content_conflict (st : stage_state) (digest : string) (size : Z) (media_type : string) : bool :=
  match alookup digest (sg_content st) with
  | Some m => negb (bool_decide (m = (size, media_type)))
  | None => false
  end.

(** The association key of an object must be new. *)
Definition note_association (kind : string) (key : string * string * string * Z)
    (seen : list (string * string * string * Z)) : res (list (string * string * string * Z)) :=
  if negb (String.eqb kind "object") then Ok seen else
  raise_if (existsb (association_eqb key) seen) ValidationError "outputs must not contain duplicate associations";;
  Ok (seen ++ [key]).

Definition stage_output (by_ : settling) (verified : option (list (string * json))) (st : stage_state) (output : json)
  : M stage_state :=
  lift (check_output_shape output);;
  digest ← lift (declared_digest output);
  kind ← lift (output_kind output);
  guard_raise (duplicate_digest st kind digest) ValidationError "outputs must not contain duplicate digests";;
  let non_objects := if String.eqb kind "object" then sg_non_objects st else sg_non_objects st ++ [digest] in
  name ← lift (output_name output);
  filename ← lift (canonical_managed_output_filename (jget_def output "filename" (JStr name)));
  media_type ← lift (or_invalid (nonempty_plain 255 (jget_def output "media_type" (JStr "application/octet-stream")))
                       "output media_type is invalid");
  declared ← lift (declared_size output);
  '(inline, size) ← output_bytes output digest verified declared;
  guard_raise_with (content_conflict st digest size media_type) ConflictError
    "output metadata does not match existing object" (details1 "digest" (jget output "digest"));;
  let content := aset digest (size, media_type) (sg_content st) in
  ordinal ← lift (output_ordinal output);
  lift (check_output_traits output);;
  '(output, output_port, group_key, variant_key) ← lift (association_keys output name ordinal);
  seen ← lift (note_association kind (output_port, group_key, variant_key, default 0 ordinal) (sg_seen st));
  lift (output_generation output);;
  durability ← lift (output_durability output);
  lift (check_output_evidence output);;
  check_output_object by_ output digest inline size media_type name output_port filename;;
  mret (StageState
    (sg_items st ++ [StagedItem digest inline size media_type (verified_identity verified digest) name filename
       output_port group_key variant_key
       (normalized_output output name kind media_type filename output_port group_key variant_key durability size)])
    seen content non_objects).

Definition stage_outputs (by_ : settling) (verified : option (list (string * json))) (outputs : json)
  : M (list staged_item) :=
  match outputs with
  | JArr l => st ← foldS (stage_output by_ verified) empty_stage l; mret (sg_items st)
  | _ => raiseM ValidationError "outputs must be a list"
  end.

(** ** Publication *)

(** The bytes are where they should be when the settlement commits. *)
Definition verify_published (item : staged_item) : M unit :=
  n ← tick;
  match stored_object n (si_digest item) with
  | None => if si_inline item then mret tt else raiseM ConflictError "CAS object is unavailable"
  | Some bytes =>
      match (if si_inline item then None else si_verified item) with
      | Some identity => guard_raise (negb (py_eq (file_identity n (si_digest item)) identity)) ConflictError
                           "verified imported CAS object changed"
      | None =>
          guard_raise (negb (bytes_of bytes =? si_size item)) ConflictError
            "CAS object size does not match staged metadata";;
          guard_raise (negb (String.eqb (sha256 bytes) (si_digest item))) ConflictError
            "CAS object hash or size does not match staged metadata"
      end
  end.

Definition publish_item (project : option string) (item : staged_item) : M unit :=
  verify_published item;;
  created ← now;
  modify (fun t => t {{ objects := insert_or_ignore (fun o => String.eqb (o_digest o) (si_digest item))
    (Object (si_digest item) (si_size item) (si_media_type item) (Some (si_name item)) created) (objects t) }});;
  match project with
  | Some p =>
      if negb (nonempty p) then mret tt else
      related ← now;
      modify (fun t => t {{ project_objects :=
        insert_or_ignore (fun r => String.eqb (po_project_id r) p && String.eqb (po_digest r) (si_digest item) &&
                                   String.eqb (po_relation r) "managed")
          (ProjectObject p (si_digest item) "managed" related) (project_objects t) }})
  | None => mret tt
  end.

Definition publish_staged_outputs (project : option string) (items : list staged_item) : M unit :=
  for_each items (publish_item project).
End Staging.
