(* ===== verification/ChildPolicy.v ===== *)
(** * Child delegation policies

    What a parent task may delegate, as [runtime_protocol/service.py] admits
    it: [_child_policy] with the limits of a policy and the grant of
    discovery, [_validate_discovery_grant_binding], the admission route
    [create_task] that puts a policy into the spec of a task, and
    [_live_delegating_parent], which reads it back for a running attempt. *)

From Stdlib Require Import ZArith String Ascii List Bool Lia.
From stdpp Require Import base list strings.
From S2P Require Import Prelude Json Errors Facts Sha256 Store Idempotency Ledger Bindings.
From S2P Require Import Executors Continuations Snapshots Delegation Claim Outputs Settle Runs.
From S2P Require Import Admission Effects Generations Wire Commands Deployments Activation Recovery Dispatch.

Open Scope Z_scope.

(** ** Limits *)

Definition MiB : Z := 1024 * 1024.
Definition GiB : Z := 1024 * MiB.

(** Default and ceiling of every limit ([CHILD_LIMITS] and
    [CHILD_LIMIT_CEILINGS]). *)
Definition child_limit_table : list (string * (Z * Z)) :=
  [("max_children", (64, 4096)); ("max_active_children", (64, 64)); ("max_derived_objects", (256, 1024));
   ("max_derived_bytes", (256 * MiB, 4 * GiB)); ("max_child_inputs", (256, 256));
   ("max_child_bytes", (256 * MiB, 256 * MiB)); ("max_recoverable_snapshots", (64, 1024));
   ("max_recoverable_bytes", (64 * MiB, 4 * GiB)); ("max_snapshot_bytes", (MiB, DEFAULT_MAX_OBJECT_BYTES))].

Definition CHILD_LIMITS : list (string * json) := map (fun r => (r.1, JInt r.2.1)) child_limit_table.
Definition CHILD_LIMIT_CEILINGS : list (string * Z) := map (fun r => (r.1, r.2.2)) child_limit_table.

Definition DISCOVERY_GRANT_CEILINGS : list (string * Z) :=
  [("max_discovery_rows", 750); ("max_discovery_metadata_bytes", 64 * MiB); ("max_selected_output_objects", 2);
   ("max_selected_output_bytes", 16 * MiB); ("max_child_media_bindings", 1); ("max_child_media_bytes", 16 * MiB)].

(** [type(n) is not int or n < 1 or n > ceilings[key]], negated *)
Definition within_ceiling (ceilings : list (string * Z)) (kv : string * json) : bool :=
  match kv.2, alookup kv.1 ceilings with
  | JInt n, Some c => (1 <=? n) && (n <=? c)
  | _, _ => false
  end.

(** [d | e] *)
Definition dict_union (d e : list (string * json)) : list (string * json) :=
  fold_left (fun acc kv => aset kv.1 kv.2 acc) e d.

Definition child_limits (value : json) : res json :=
  let limits := jget_def value "limits" (JObj []) in
  raise_if (negb (is_dict limits) || negb (nil_or (unknown_keys limits (akeys CHILD_LIMIT_CEILINGS))) ||
            negb (forallb (within_ceiling CHILD_LIMIT_CEILINGS) (jfields limits))) ValidationError
    "child_delegation.limits must fit the finite Runtime ceilings";;
  Ok (JObj (dict_union CHILD_LIMITS (jfields limits))).

(** ** Capabilities, targets and inputs *)

Definition list_of (value : json) : list json := match value with JArr l => l | _ => [] end.

(** A list with at most [limit] entries. *)
Definition bounded_list (limit : nat) (value : json) : option (list json) :=
  match value with JArr l => if (length l <=? limit)%nat then Some l else None | _ => None end.
Definition nonempty_bounded (limit : nat) (value : json) : option (list json) :=
  match bounded_list limit value with Some (x :: l) => Some (x :: l) | _ => None end.

Definition bounded_or {A} (value : option A) (message : string) : res A :=
  match value with Some a => Ok a | None => raise ValidationError message end.

Definition capability_pin (item : json) : res json :=
  raise_if (negb (is_dict item) || negb (keys_are item ["capability_id"; "capability_digest"])) ValidationError
    "child_delegation capability must pin id and digest";;
  raise_if (negb (nonempty_str (jget item "capability_id")) || negb (prefixed_object_id (jget item "capability_digest")))
    ValidationError "child_delegation capability identity is invalid";;
  Ok item.

Definition unique_strings (l : list string) : bool := bool_decide (NoDup l).

Definition base_fields : list string := ["capabilities"; "targets"; "input_object_ids"].
Definition policy_fields : list string :=
  base_fields ++ ["stages"; "final_publication"; "limits"; "recoverable_outputs"; "discovery_grant"].

(** The three required parts: capabilities, targets, inputs. *)
Definition policy_base (value : json) : res (list json * list json * list json) :=
  raise_if (negb (is_dict value) || negb (nil_or (missing_fields value base_fields)) ||
            negb (nil_or (unknown_keys value policy_fields))) ValidationError
    "child_delegation requires capabilities, targets, and input_object_ids";;
  capabilities ← bounded_or (nonempty_bounded 32 (jget value "capabilities"))
    "child_delegation.capabilities must be a non-empty bounded list";
  caps ← mapM_res capability_pin capabilities;
  targets ← bounded_or (nonempty_bounded 32 (jget value "targets"))
    "child_delegation.targets must be a non-empty bounded list";
  targets ← mapM_res normalize_execution_target targets;
  inputs ← bounded_or (match bounded_list 256 (jget value "input_object_ids") with
                       | Some l => if forallb prefixed_object_id l then Some l else None
                       | None => None
                       end) "child_delegation.input_object_ids must contain sha256 object IDs";
  raise_if (negb (unique_strings (map canonical_json targets)) || negb (unique_strings (map text_of inputs)) ||
            negb (unique_strings (map (fun c => text_of (jget c "capability_id")) caps))) ValidationError
    "child_delegation entries must be unique";;
  Ok (caps, targets, inputs).

Definition grant_identities : list string := ["project_id"; "run_id"; "task_id"; "attempt_id"; "capability_id"].

(** A non-empty identity without wildcards. *)
Definition exact_identity (value : json) : bool :=
  match value with JStr s => nonempty s && negb (contains_char "*"%char s) | _ => false end.

Definition discovery_grant (grant : json) : res json :=
  raise_if (negb (is_dict grant) || negb (keys_are grant (grant_identities ++ ["capability_digest"; "limits"])) ||
            existsb (fun k => negb (exact_identity (jget grant k))) grant_identities ||
            negb (prefixed_object_id (jget grant "capability_digest"))) ValidationError
    "discovery_grant requires one exact project/run/task/attempt and root capability";;
  let bounds := jget grant "limits" in
  raise_if (negb (is_dict bounds) || negb (keys_are bounds (akeys DISCOVERY_GRANT_CEILINGS)) ||
            negb (forallb (within_ceiling DISCOVERY_GRANT_CEILINGS) (jfields bounds))) ValidationError
    "discovery_grant.limits requires every finite prototype bound";;
  Ok (jset grant "limits" bounds).

(** [value in list], with Python's equality *)
Definition json_in (value : json) (l : list json) : bool := existsb (py_eq value) l.

Definition pin_of (value : json) : json :=
  JObj [("capability_id", jget value "capability_id"); ("capability_digest", jget value "capability_digest")].

Definition recoverable_grant (caps : list json) (grants : json) : res json :=
  match grants with
  | JArr [grant] =>
      raise_if (negb (is_dict grant) || negb (keys_are grant ["capability_id"; "capability_digest"; "output_ports"]) ||
                negb (is_json_str "editorial.human_review" (jget grant "capability_id")) ||
                negb (py_eq (jget grant "output_ports") (JArr [JStr "state_result"])) ||
                negb (json_in (pin_of grant) caps)) ValidationError
        "recoverable_outputs must pin editorial.human_review/state_result in capabilities";;
      Ok (JArr [grant])
  | _ => raise ValidationError "recoverable_outputs requires one exact pinned Human Review grant"
  end.

(** ** Stages *)

(** [[A-Za-z][A-Za-z0-9_-]{0,63}] *)
Definition stage_name (s : string) : bool :=
  match s with
  | String c r => (is_upper c || is_lower c) && (String.length r <=? 63)%nat &&
                  all_chars (fun c => is_alnum c || Ascii.eqb c "_"%char || Ascii.eqb c "-"%char) r
  | EmptyString => false
  end.

(** One input of a stage; the names so far. *)
Definition stage_input (inputs : list json) (preceding : list string) (names : list string) (ref : json)
  : res (list string) :=
  let bad := raise ValidationError "child stage input names must be unique non-empty strings" in
  match jget ref "name" with
  | JStr name =>
      if negb (is_dict ref) || negb (nonempty name) || (128 <? py_len name) || str_in name names then bad else
      if keys_are ref ["name"; "root_object_id"] then
        raise_if (negb (json_in (jget ref "root_object_id") inputs)) ValidationError
          "child stage root input is outside parent policy";;
        Ok (names ++ [name])
      else if keys_are ref ["name"; "producer_stage"; "output_port"] then
        raise_if (negb (match jget ref "producer_stage" with JStr s => str_in s preceding | _ => false end) ||
                  negb (match jget ref "output_port" with JStr s => nonempty s && (py_len s <=? 255) | _ => false end))
          ValidationError "child stage producer must be an earlier declared stage and port";;
        Ok (names ++ [name])
      else raise ValidationError "child stage input must name a root object or producer stage and port"
  | _ => bad
  end.

Definition stage_fields : list string := ["name"; "capability_id"; "capability_digest"; "target"; "inputs"].

(** One stage after the stages whose names are [st.1]. *)
Definition policy_stage (caps targets inputs : list json) (st : list string * list json) (stage : json)
  : res (list string * list json) :=
  let '(preceding, stages) := st in
  raise_if (negb (is_dict stage) || negb (keys_are stage stage_fields)) ValidationError
    "each child stage requires name, capability, target, and inputs";;
  match jget stage "name" with
  | JStr name =>
      raise_if (negb (stage_name name) || str_in name preceding) ValidationError
        "child stage name is invalid or repeated";;
      target ← normalize_execution_target (jget stage "target");
      raise_if (negb (json_in (pin_of stage) caps) || negb (json_in target targets)) ValidationError
        "child stage capability or target is outside policy";;
      declared ← bounded_or (bounded_list 256 (jget stage "inputs")) "child stage inputs must be a bounded ordered list";
      foldM (stage_input inputs preceding) [] declared;;
      Ok (preceding ++ [name], stages ++ [jset (jset stage "target" target) "inputs" (JArr declared)])
  | _ => raise ValidationError "child stage name is invalid or repeated"
  end.

Definition policy_stages (caps targets inputs : list json) (value : json) : res (list json) :=
  stages ← bounded_or (nonempty_bounded 16 value) "child_delegation.stages must be a non-empty bounded list";
  '(_, stages) ← foldM (policy_stage caps targets inputs) ([], []) stages;
  Ok stages.

(** ** Final publication *)

Definition effect_selectors (effect : json) : list json :=
  match (if is_dict (jget effect "payload") then jget (jget effect "payload") "groups" else JNull) with
  | JArr groups =>
      if forallb (fun g => is_dict g && is_list (jget g "selectors")) groups
      then flat_map (fun g => list_of (jget g "selectors")) groups else []
  | _ => []
  end.

Definition final_publication (stages : option (list json)) (final : json) : res json :=
  match stages with
  | None => raise ValidationError "final_publication requires a declared stage, verify source, and effect"
  | Some stages =>
      raise_if (negb (is_dict final) || negb (keys_are final ["stage"; "verify_stage"; "verify_output_port"; "effect"]))
        ValidationError "final_publication requires a declared stage, verify source, and effect";;
      let last_stage := default JNull (last stages) in
      let earlier := map (fun s => jget s "name") (removelast stages) in
      raise_if (negb (py_eq (jget final "stage") (jget last_stage "name")) ||
                negb (json_in (jget final "verify_stage") earlier)) ValidationError
        "final publication must follow its declared verify stage";;
      let final_inputs := list_of (jget last_stage "inputs") in
      let matches := List.filter (fun ref => py_eq (jget ref "producer_stage") (jget final "verify_stage") &&
                                             py_eq (jget ref "output_port") (jget final "verify_output_port"))
                       final_inputs in
      raise_if (negb (length final_inputs =? 1)%nat || negb (length matches =? 1)%nat) ValidationError
        "final publication must consume exactly one declared verify output";;
      let effect := jget final "effect" in
      raise_if (negb (is_dict effect) || negb (is_json_str "generation.publish_v1" (jget effect "effect_type")))
        ValidationError "final publication requires generation.publish_v1";;
      let selectors := effect_selectors effect in
      raise_if (existsb (fun s => negb (is_dict s)) selectors) ValidationError
        "final publication effect selectors must be objects";;
      match selectors with
      | [selector] =>
          raise_if (negb (py_eq (jget selector "output_port") (jget final "verify_output_port"))) ValidationError
            "final publication effect must select the verified output port";;
          Ok final
      | _ => raise ValidationError "final publication effect must select the verified output port"
      end
  end.

(** ** The policy *)

(** [if key in value: policy[key] = check(value[key])] *)
Definition optional_part (value : json) (key : string) (check : json -> res json) (policy : list (string * json))
  : res (list (string * json)) :=
  if jhas value key then part ← check (jget value key); Ok (policy ++ [(key, part)]) else Ok policy.

Definition child_policy (value : json) : res json :=
  '(caps, targets, inputs) ← policy_base value;
  limits ← child_limits value;
  let policy := [("capabilities", JArr caps); ("targets", JArr targets); ("input_object_ids", JArr inputs);
                 ("limits", limits)] in
  policy ← optional_part value "discovery_grant" discovery_grant policy;
  policy ← optional_part value "recoverable_outputs" (recoverable_grant caps) policy;
  policy ← optional_part value "stages" (fun v => l ← policy_stages caps targets inputs v; Ok (JArr l)) policy;
  let stages := match alookup "stages" policy with Some (JArr l) => Some l | _ => None end in
  policy ← optional_part value "final_publication" (final_publication stages) policy;
  Ok (JObj policy).

(** ** The discovery grant of a policy *)

Section Policies.
Context `{World} (svc : service) (fromisoformat : string -> option (Z * bool)).

(** The attempt that a grant selects, through its task and run. *)
Definition grant_selects (project : string) (grant : json) (t : tables) : bool :=
  existsb (fun a => is_json_str (at_id a) (jget grant "attempt_id") && is_json_str (at_task_id a) (jget grant "task_id") &&
    existsb (fun x => String.eqb (t_id x) (at_task_id a) && is_json_str (t_run_id x) (jget grant "run_id") &&
      existsb (fun r => String.eqb (r_id r) (t_run_id x) && opt_str_eqb (r_project_id r) (Some project)) (runs t))
      (tasks t)) (attempts t).

Definition validate_discovery_grant_binding (policy : json) (project : option string)
    (capability capability_digest : json) : M unit :=
  let grant := jget policy "discovery_grant" in
  if is_null grant then mret tt else
  match project with
  | None => raiseM AuthorizationError "discovery grant does not match parent project or root capability"
  | Some p =>
      guard_raise (negb (is_json_str p (jget grant "project_id")) ||
                   negb (py_eq (jget grant "capability_id") capability) ||
                   negb (py_eq (jget grant "capability_digest") capability_digest)) AuthorizationError
        "discovery grant does not match parent project or root capability";;
      selected ← gets (grant_selects p grant);
      guard_raise (negb selected) AuthorizationError
        "discovery grant selected project/run/task/attempt association does not match"
  end.

(** ** Admission *)

Definition MEDIA_IMPORT_CAPABILITY : string := "runtime.media.import.v1".
Definition MEDIA_IMPORT_EXECUTOR : string := "runtime-host-media-import".

(** What Runtime itself adds to the spec of a task it admits on behalf of
    another one; [JNull] where the keyword argument is [None]. *)
Record delegated := Delegated {
  dg_lineage : json; dg_stage : json; dg_inputs : json; dg_verified_source : json; dg_recoverable : json }.
Definition not_delegated : delegated := Delegated JNull JNull JNull JNull JNull.

Definition reserved_fields : list string :=
  ["child_delegation"; "delegated_parent"; "delegated_stage"; "delegated_inputs"; "verified_publication_source";
   "input_refs"; "derived_input_registry"; "delegation_closed_attempt_id"; "delegated_recoverable_outputs";
   "discovery_grant"].

Definition mentions (value : json) (fields : list string) : bool := existsb (fun f => jhas value f) fields.

(** [key in spec or key in spec["spec"]] *)
Definition smuggles (spec : json) (key : string) : bool :=
  jhas spec key || (is_dict (jget spec "spec") && jhas (jget spec "spec") key).

Definition check_admission_body (body : json) (host_owned : bool) (by_ : delegated) : res unit :=
  raise_if (jhas body "capability" || jhas body "expected_effect") ValidationError
    "legacy task body aliases are not supported";;
  raise_if (is_json_str MEDIA_IMPORT_CAPABILITY (jget body "capability_id") && negb host_owned) AuthorizationError
    "runtime media import capability is host-owned";;
  let spec := jget_def body "spec" (JObj []) in
  raise_if (negb (is_dict spec)) ValidationError "task spec must be an object";;
  raise_if (mentions spec reserved_fields ||
            mentions body (List.filter (fun f => negb (String.eqb f "child_delegation")) reserved_fields)) ValidationError
    "delegation fields must use Runtime admission authority";;
  raise_if (negb (is_null (dg_lineage by_)) && jhas body "child_delegation") ValidationError
    "delegated children cannot delegate further";;
  raise_if (smuggles spec "execution_request") ValidationError
    "execution_request must be supplied through the first-class admission field";;
  raise_if (smuggles spec "execution_binding") ValidationError
    "caller-supplied execution_binding is not accepted";;
  raise_if (is_dict (jget body "execution_request") && jhas (jget body "execution_request") "execution_binding")
    ValidationError "caller-supplied execution_binding is not accepted".

Definition capability_digest_of (body : json) : json :=
  jget_def body "capability_digest" (JStr ("sha256:" +:+ sha256 (py_text (jget body "capability_id")))).

(** [self.store.get_project(body.get("project")) if body.get("project") else None] *)
Definition body_project (body : json) : M (option project_row) :=
  if negb (truthy (jget body "project")) then mret None else
  selector ← bind_text (jget body "project");
  p ← project_of selector;
  mret (Some p).

(** [x in container] *)
Definition py_contains (container x : json) : res bool :=
  match container with
  | JArr l => Ok (json_in x l)
  | JObj _ => Ok (match x with JStr k => jhas container k | _ => false end)
  | JStr s => match x with
              | JStr sub => Ok (match String.index 0 sub s with Some _ => true | None => false end)
              | _ => raise TypeError "'in <string>' requires string as left operand"
              end
  | _ => raise TypeError "argument is not iterable"
  end.

(** [any(x not in container for x in l)] *)
Fixpoint any_missing (container : json) (l : list json) : res bool :=
  match l with
  | [] => Ok false
  | x :: rest => found ← py_contains container x; if (found : bool) then any_missing container rest else Ok true
  end.

(** The policy of a task that may delegate. *)
Definition admitted_policy (body inputs : json) : M json :=
  policy ← lift (child_policy (jget body "child_delegation"));
  outside ← lift (any_missing inputs (list_of (jget policy "input_object_ids")));
  guard_raise outside AuthorizationError "child policy root inputs must be admitted parent inputs";;
  (if jhas policy "discovery_grant" then
     project ← body_project body;
     validate_discovery_grant_binding policy (option_map p_id project) (jget body "capability_id")
       (capability_digest_of body)
   else mret tt);;
  let final := jget policy "final_publication" in
  (if is_null final then mret tt else
   project ← body_project body;
   match project with
   | None => raiseM ValidationError "final publication requires a project-scoped parent"
   | Some p => validate_settlement_effect (jget final "effect") (Some (p_id p)) JNull JNull
   end);;
  mret policy.

Definition put (key : string) (value : json) (spec : json) : json :=
  if is_null value then spec else jset spec key value.

(** The spec of the task as it is admitted. *)
Definition admission_spec (body : json) (by_ : delegated) : M json :=
  let inputs := jget_def body "input_object_ids" (JArr []) in
  let spec := JObj [("input_object_ids", inputs); ("schema_version", jget_def body "schema_version" (JStr "1"));
                    ("capability_digest", capability_digest_of body); ("spec", jget_def body "spec" (JObj []))] in
  spec ← (if jhas body "child_delegation"
          then policy ← admitted_policy body inputs; mret (jset spec "child_delegation" policy) else mret spec);
  let spec := put "delegated_parent" (dg_lineage by_) spec in
  let spec := put "delegated_recoverable_outputs" (dg_recoverable by_) spec in
  let spec := put "delegated_stage" (dg_stage by_) spec in
  let spec := put "delegated_inputs" (dg_inputs by_) spec in
  let spec := put "verified_publication_source" (dg_verified_source by_) spec in
  spec ← (if jhas body "generation_intent" then
            guard_raise (negb (is_dict (jget body "generation_intent"))) ValidationError
              "generation_intent must be an object";;
            mret (jset spec GENERATION_INTENT_STORAGE_KEY (jget body "generation_intent"))
          else mret spec);
  spec ← (if jhas body "required_facts" then
            facts ← lift (normalize_execution_facts (jget body "required_facts") "required_facts");
            mret (jset spec "required_facts" facts)
          else mret spec);
  if jhas body "storage_estimate" then
    estimate ← lift (validate_storage_estimate (jget body "storage_estimate"));
    mret (jset spec "storage_estimate"
      (match estimate with
       | Some (scratch, output) => JObj [("scratch_bytes", JInt scratch); ("output_bytes", JInt output)]
       | None => JNull
       end))
  else mret spec.

(** A text parameter or [None]. *)
Definition bind_opt_text (value : json) : M (option string) :=
  if is_null value then mret None else s ← bind_text value; mret (Some s).

(** [RuntimeService.create_task]; the body has been read from the wire, where
    capability, digest, project and key are texts. *)
Definition service_create_task (calls : admission_calls) (body : json) (enforce_readiness host_owned : bool)
    (by_ : delegated) : M json :=
  verified_mutation svc (
    lift (check_admission_body body host_owned by_);;
    spec ← admission_spec body by_;
    capability ← bind_text (jget body "capability_id");
    digest ← bind_opt_text (capability_digest_of body);
    project ← bind_opt_text (jget body "project");
    key ← bind_opt_text (jget body "idempotency_key");
    create_task calls capability spec project key (jget body "settlement_effect") digest enforce_readiness
      (jget body "execution_request")).

(** ** The running parent of a delegation *)

(** The parent attempt still holds its task. *)
Definition holds_task (a : attempt_row) (x : task_row) : bool :=
  bool_decide (t_status x = Running) && opt_str_eqb (t_attempt_id x) (Some (at_id a)) &&
  opt_str_eqb (t_lease_token x) (Some (at_lease_id a)) && (t_lease_fence x =? at_fence a) &&
  opt_str_eqb (t_executor_id x) (Some (at_executor_id a)) && (default 0 (t_runtime_epoch x) =? at_runtime_epoch a).

Definition check_parent_activation (task_id : string) (identity : json) : M unit :=
  if is_null identity then mret tt else
  required ← task_requires_remote_activation task_id;
  let activation := jget identity "qualified_activation" in
  if negb (required || is_dict activation) then mret tt else
  marker ← (if is_dict activation
            then gets (remote_drain (py_text (jget activation "task_id")) (jget activation "activation_id"))
            else mret JNull);
  placement ← trusted_execution_placement identity;
  matching ← remote_activation_matches svc fromisoformat task_id identity placement (is_null marker);
  guard_raise (negb matching) AuthorizationError "parent activation is missing, expired, revoked, or foreign".

(** The attempt, its task, the project and the policy. *)
Definition live_delegating_parent (attempt_id : string) (lease identity : json)
  : M (attempt_row * task_row * option string * json) :=
  row ← gets (attempt_by_id attempt_id);
  assert_attempt_identity svc fromisoformat (holder_of row) identity;;
  current ← gets current_runtime_epoch;
  validate_attempt_lease row lease current true false;;
  match row with
  | None => raiseM TypeError "'NoneType' object is not subscriptable"
  | Some a =>
      task ← gets (task_by_id (at_task_id a));
      match task with
      | None => raiseM LeaseError "parent attempt is no longer live"
      | Some x =>
          guard_raise (negb (holds_task a x)) LeaseError "parent attempt is no longer live";;
          check_parent_activation (t_id x) identity;;
          spec ← spec_of x;
          guard_raise (negb (is_null (jget spec "delegated_parent"))) AuthorizationError
            "delegated children cannot delegate further";;
          guard_raise (is_json_str attempt_id (jget spec "delegation_closed_attempt_id")) AuthorizationError
            "parent child authority has ended";;
          guard_raise (is_null (jget spec "child_delegation")) AuthorizationError
            "parent task has no child delegation policy";;
          policy ← lift (child_policy (jget spec "child_delegation"));
          run ← gets (run_by_id (t_run_id x));
          match run with
          | None => raiseM TypeError "'NoneType' object is not subscriptable"
          | Some r =>
              validate_discovery_grant_binding policy (r_project_id r) (JStr (t_capability x))
                (opt_str (t_capability_digest x));;
              mret (a, x, r_project_id r, policy)
          end
      end
  end.
End Policies.
