(* ===== verification/Settlement.v ===== *)
(** * The settlement of an attempt

    [settle_attempt] of [runtime_protocol/service.py]: a worker reports the
    result of its attempt.  The route checks the lease, the declared effect,
    the delegation the task is part of, the outputs of its delegated children
    and the source of a verified publication; it stages the outputs and lets
    the store commit them with the result and the receipt. *)

From Stdlib Require Import ZArith String Ascii List Bool Lia.
From stdpp Require Import base list strings.
From S2P Require Import Prelude Json Errors Facts Sha256 Base64 Store Idempotency Ledger Bindings.
From S2P Require Import Executors Continuations Snapshots Delegation Claim Outputs Settle Runs.
From S2P Require Import Admission Effects Generations Wire Commands Deployments Activation Recovery Dispatch.
From S2P Require Import Staging ChildPolicy.

Open Scope Z_scope.

Section Settlement.
Context `{World} (svc : service) (fromisoformat : string -> option (Z * bool)).
Context (file_identity : nat -> string -> json).

(** ** The request *)

Definition settle_fields : list string :=
  ["attempt_id"; "lease_id"; "fence"; "runtime_epoch"; "outputs"; "effect"; "result"].

Definition check_settlement_body (attempt_id : string) (body : json) : res json :=
  body ← wire_object body [] settle_fields;
  let supplied := jget body "attempt_id" in
  raise_if (negb (is_null supplied) && negb (String.eqb (py_text supplied) attempt_id)) ConflictError
    "attempt_id does not match the attempt path";;
  let body := jset body "attempt_id" (JStr attempt_id) in
  wire_string body "lease_id";;
  require_runtime_epoch_for_lease body;;
  wire_integer body "fence" false;;
  wire_integer body "runtime_epoch" true;;
  raise_if (jhas body "outputs" && negb (is_list (jget body "outputs"))) ValidationError "outputs must be a list";;
  raise_if (jhas body "result" && negb (is_dict (jget body "result"))) ValidationError "result must be an object";;
  raise_if (is_dict (jget body "result") && jhas (jget body "result") "outputs") ValidationError
    "result.outputs is reserved; send outputs at the settlement top level";;
  Ok body.

(** The project of the task's run, [None] for a run outside projects. *)
Definition task_project (task : option task_row) : M (option string) :=
  match task with
  | None => mret (Some "unscoped")
  | Some x =>
      run ← gets (run_by_id (t_run_id x));
      match run with
      | Some r => mret (r_project_id r)
      | None => raiseM TypeError "'NoneType' object is not subscriptable"
      end
  end.

(** The task is still run by the attempt. *)
Definition settles_task (a : attempt_row) (x : task_row) : bool :=
  bool_decide (t_status x = Running) && opt_str_eqb (t_attempt_id x) (Some (at_id a)) &&
  opt_str_eqb (t_lease_token x) (Some (at_lease_id a)) && (t_lease_fence x =? at_fence a).

Definition stale_epoch (x : task_row) (current : Z) : bool :=
  match t_runtime_epoch x with Some e => negb (e =? current) | None => false end.

Definition check_declared_effect (task : task_row) (effect : json) : M unit :=
  let declared := default JNull (t_expected_effect_json task) in
  guard_raise_with (negb (is_null effect) && negb (py_eq declared effect)) ValidationError
    "settlement effect was not predeclared" (details1 "declared" declared);;
  guard_raise (negb (is_null declared) && is_null effect) ValidationError "declared settlement effect is required";;
  if is_null effect then mret tt else validate_settlement_effect effect None JNull JNull.

(** ** Delegation *)

(** The parent of the delegation is still running it. *)
Definition check_lineage (lineage : json) : M unit :=
  parent ← jitem lineage "parent_attempt_id";
  lease ← jitem lineage "parent_lease_id";
  fence ← jitem lineage "parent_fence";
  epoch ← jitem lineage "runtime_epoch";
  parent ← bind_text parent;
  live_delegating_parent svc fromisoformat parent
    (JObj [("lease_id", lease); ("fence", fence); ("runtime_epoch", epoch)]) JNull;;
  mret tt.

(** [_verify_child_object_bytes] *)
Definition verify_child_object_bytes (digest : string) (size : Z) (label : string) : M unit :=
  n ← tick;
  match stored_object n digest with
  | None => raiseM ConflictError (label +:+ " is unavailable")
  | Some bytes =>
      guard_raise (negb (bytes_of bytes =? size)) ConflictError (label +:+ " size does not match staged metadata");;
      guard_raise (negb (String.eqb (sha256 bytes) digest)) ConflictError
        (label +:+ " hash or size does not match staged metadata")
  end.

(** The object of an accepted child output is what the association says. *)
Definition child_object_changed (association : json) (project : option string) (digest : string) (t : tables) : bool :=
  match object_by_digest digest t with
  | None => true
  | Some o => negb (py_eq (JInt (o_size o)) (jget association "size")) ||
              negb (is_json_str (o_media_type o) (jget association "media_type")) ||
              negb (py_eq (jget association "project_id") (opt_str project)) ||
              match project with Some p => negb (in_project p digest t) | None => false end
  end.

Definition check_child_association (project : option string) (association : json) : M unit :=
  if is_json_str "recoverable_snapshot" (jget association "role") then mret tt else
  let digest := remove_prefix "sha256:" (text_of (jget association "object_id")) in
  changed ← gets (child_object_changed association project digest);
  guard_raise changed ConflictError "accepted child managed output metadata changed";;
  size ← py_int (jget association "size");
  verify_child_object_bytes digest size "accepted child output CAS object".

Definition check_child_outputs (project : option string) (task_id attempt_id : string) : M unit :=
  children ← gets (delegated_children task_id (Some attempt_id));
  for_each children (fun child =>
    associations ← list_managed_outputs (t_id child);
    for_each associations (check_child_association project)).

(** ** Verified publications *)

Definition source_unavailable (association source : json) (project : option string) (producer : option task_row) : bool :=
  negb (py_eq (jget association "task_id") (jget source "producer_task_id")) ||
  negb (py_eq (jget association "attempt_id") (jget source "producer_attempt_id")) ||
  negb (py_eq (jget association "project_id") (opt_str project)) ||
  negb (py_eq (jget association "object_id") (jget source "object_id")) ||
  negb (py_eq (jget association "output_port") (jget source "output_port")) ||
  negb (is_json_str "durable" (jget association "durability")) ||
  negb (is_json_str "available" (jget (jget association "lifecycle") "state") ||
        is_json_str "promoted" (jget (jget association "lifecycle") "state")) ||
  match producer with
  | None => true
  | Some x => negb (bool_decide (t_status x = Completed)) ||
              negb (py_eq (opt_str (t_attempt_id x)) (jget source "producer_attempt_id"))
  end.

(** The outputs of a final publication: exactly the verified one. *)
Definition publishes_source (outputs source : json) : bool :=
  match outputs with
  | JArr [output] =>
      is_dict output && py_eq (jget output "digest") (jget source "object_id") &&
      py_eq (jget output "output_port") (jget source "output_port") &&
      is_json_str "object" (jget_def output "kind" (JStr "object")) &&
      is_json_str "durable" (jget_def output "durability" (JStr "durable"))
  | _ => false
  end.

(** Runtime wrote the source with all of its fields when it admitted the
    child. *)
Definition check_verified_source (spec : json) (project : option string) (outputs : json) : M unit :=
  let source := jget spec "verified_publication_source" in
  if is_null source then mret tt else
  lineage ← jitem spec "delegated_parent";
  check_lineage lineage;;
  id ← jitem source "association_id";
  association_id ← bind_text id;
  association ← get_managed_output association_id;
  producer_id ← jitem source "producer_task_id";
  producer ← gets (task_by_id (text_of producer_id));
  guard_raise (source_unavailable association source project producer) ConflictError
    "verified publication source is no longer available";;
  guard_raise (negb (publishes_source outputs source)) AuthorizationError
    "final publication must use the declared verified output".

(** ** The route *)

(** What must hold of the task before its outputs are looked at. *)
Definition check_settlement (a : attempt_row) (x : task_row) (project : option string) (current : Z) (body : json)
    (import : bool) : M unit :=
  guard_raise (stale_epoch x current) LeaseError "attempt belongs to a stale runtime epoch";;
  guard_raise (negb (settles_task a x)) LeaseError "attempt lease is stale or already settled";;
  check_declared_effect x (jget body "effect");;
  spec ← spec_of x;
  guard_raise (is_json_str (at_id a) (jget spec "delegation_closed_attempt_id")) AuthorizationError
    "parent attempt child authority has ended";;
  (if is_null (jget spec "delegated_parent") then mret tt else check_lineage (jget spec "delegated_parent"));;
  assert_delegated_children_completed (t_id x) (at_id a);;
  check_child_outputs project (t_id x) (at_id a);;
  check_verified_source spec project (jget body "outputs");;
  guard_raise (import && (negb (String.eqb (at_executor_id a) MEDIA_IMPORT_EXECUTOR) ||
                          negb (String.eqb (t_capability x) MEDIA_IMPORT_CAPABILITY))) AuthorizationError
    "verified import proof requires the host import executor".

Definition settling_of (a : attempt_row) (x : task_row) (project : option string) (body : json) : settling :=
  Settling a x project (jget body "lease_id") (jget body "fence") (jget body "runtime_epoch").

Definition settled_result (body : json) (items : list staged_item) : json :=
  jset (py_or (jget body "result") (JObj [])) "outputs" (JArr (map si_output items)).

(** Staging and commit of a settlement that passed the checks. *)
Definition commit_staged (a : attempt_row) (x : task_row) (project : option string) (body : json)
    (key request_hash : string) (verified : option (list (string * json))) : M json :=
  items ← stage_outputs file_identity (settling_of a x project body) verified (jget_def body "outputs" (JArr []));
  fence ← py_int (jget body "fence");
  set_recorded JNull;;
  settle_attempt (store_settlement (Some (publish_staged_outputs file_identity project items)))
    (at_task_id a) (at_lease_id a) (settled_result body items) (jget body "effect") (Some fence) (at_id a)
    (recording svc "attempt.settle" (at_id a) key request_hash (or_unscoped (opt_str project)) task_resource);;
  get_recorded.

Definition settle_route_body (attempt_id : string) (body key identity : json)
    (verified : option (list (string * json))) : M json :=
  key ← lift (require_idempotency_key key);
  body ← lift (check_settlement_body attempt_id body);
  row ← gets (attempt_by_id attempt_id);
  assert_attempt_identity svc fromisoformat (holder_of row) identity;;
  match row with
  | None => raiseM LeaseError "attempt lease is stale or already settled"
  | Some a =>
      current ← gets current_runtime_epoch;
      validate_runtime_epoch (jget body "runtime_epoch") "executor" (Some (at_executor_id a)) true;;
      task ← gets (task_by_id (at_task_id a));
      project ← task_project task;
      let project_id := or_unscoped (opt_str project) in
      let request_hash := attempt_hash attempt_id body in
      replay ← command_replay svc "attempt.settle" attempt_id (JStr key) request_hash (Some project_id);
      match replay with
      | Some v => mret v
      | None =>
          validate_attempt_lease (Some a) body current true false;;
          match task with
          | None => raiseM LeaseError "attempt belongs to a stale runtime epoch"
          | Some x =>
              check_settlement a x project current body (match verified with Some _ => true | None => false end);;
              commit_staged a x project body key request_hash verified
          end
      end
  end.

Definition settle_attempt_route (attempt_id : string) (body key identity : json)
    (verified : option (list (string * json))) : M json :=
  durable_mutation svc (settle_route_body attempt_id body key identity verified).
End Settlement.
