(* ===== verification/Authority.v ===== *)
(** * Child authorities

    How the running parent of a delegation gets the token with which children
    are admitted, in [runtime_protocol/service.py]: [issue_child_authority]
    signs the identity of the parent attempt, of its policy and of the worker
    with a key of the boot session, [_register_derived_inputs] adds objects the
    attempt uploaded to what a child may consume, and
    [_decode_child_authority] reads a token back.

    [authority_key] is [_child_authority_key], the random bytes of the
    session.  [hmac.compare_digest] refuses texts that are not ASCII with
    [TypeError]. *)

From Stdlib Require Import ZArith String Ascii List Bool Lia.
From stdpp Require Import base list strings.
From S2P Require Import Prelude Json Errors Facts Sha256 Base64 Store Idempotency Ledger Bindings.
From S2P Require Import Executors Continuations Snapshots Delegation Claim Outputs Settle Runs.
From S2P Require Import Admission Effects Generations Wire Commands Deployments Activation Recovery Dispatch.
From S2P Require Import Staging ChildPolicy Settlement Pages.

Open Scope Z_scope.

(** ** HMAC-SHA256 *)

Definition digest_bytes (msg : list Z) : list Z := List.concat (map (be_bytes 4) (sha256_words msg)).

(** The key as one block of 64 bytes. *)
Definition key_block (key : list Z) : list Z :=
  let k := if (64 <? Z.of_nat (length key)) then digest_bytes key else key in
  k ++ repeat 0 (64 - length k).

(** [hmac.new(key, text.encode(), hashlib.sha256).hexdigest()] *)
Definition hmac_sha256 (key text : string) : string :=
  let k := key_block (Sha256.bytes_of key) in
  hex_of (digest_bytes (map (Z.lxor 0x5c) k ++ digest_bytes (map (Z.lxor 0x36) k ++ Sha256.bytes_of text))).

#[global] Arguments hmac_sha256 : simpl never.

(** Test case 2 of RFC 4231. *)
Example hmac_jefe :
  hmac_sha256 "Jefe" "what do ya want for nothing?" =
  "5bdcc146bf60754e6a042426089575c75a003f089d2739839dec58b964ec3843".
Proof. vm_compute. reflexivity. Qed.

(** ** Tokens *)

Definition dot : ascii := "."%char.

Fixpoint count_char (c : ascii) (s : string) : nat :=
  match s with
  | EmptyString => 0
  | String x r => (if Ascii.eqb x c then 1 else 0) + count_char c r
  end.

Definition AUTHORITY_MAX_CHARS : Z := 1024 * 1024.

(** [encoded + "." + signature] *)
Definition sign_payload (authority_key : string) (payload : json) : string :=
  let encoded := b64_text (canonical_json payload) in
  encoded +:+ "." +:+ hmac_sha256 authority_key encoded.

Definition is_ascii (c : ascii) : bool := (N_of_ascii c <? 128)%N.

(** [hmac.compare_digest(supplied, expected)] for an [expected] in ASCII. *)
Definition compare_digest (supplied expected : string) : res bool :=
  if all_chars is_ascii supplied then Ok (String.eqb supplied expected)
  else raise TypeError "comparing strings with non-ASCII characters is not supported".

Section Authority.
Context `{World} (svc : service) (fromisoformat : string -> option (Z * bool)) (authority_key : string).

(** [_decode_child_authority] *)
Definition decode_child_authority (token : json) : res json :=
  match token with
  | JStr s =>
      raise_if ((AUTHORITY_MAX_CHARS <? py_len s) || negb (Nat.eqb (count_char dot s) 1)) AuthorizationError
        "invalid child authority";;
      let '(encoded, rest) := partition_on dot s in
      same ← compare_digest (default EmptyString rest) (hmac_sha256 authority_key encoded);
      raise_if (negb same) AuthorizationError "invalid child authority";;
      match cursor_value encoded with
      | None => raise AuthorizationError "invalid child authority"
      | Some payload =>
          raise_if (negb (is_dict payload) || negb (py_eq (jget payload "version") (JInt 1)) ||
                    negb (is_json_str realm_id (jget payload "realm_id")) ||
                    negb (is_json_str (sv_session_id svc) (jget payload "session_id"))) AuthorizationError
            "child authority belongs to another runtime session";;
          Ok payload
      end
  | _ => raise AuthorizationError "invalid child authority"
  end.

(** [_child_identity_digest] *)
Definition child_identity_digest (identity : json) : M string :=
  if is_null identity then raiseM AuthorizationError "authenticated worker identity is required" else
  placement ← trusted_execution_placement identity;
  mret (sha256 (canonical_json (JObj [("actor", jget identity "actor"); ("placement", placement)]))).

(** ** Derived inputs *)

(** A limit of an admitted policy, which has all of them as integers. *)
Definition limit (policy : json) (key : string) : Z :=
  match jget (jget policy "limits") key with JInt z => z | _ => 0 end.

Definition derived_fields : list string := ["name"; "output_port"; "filename"; "object_id"; "size"; "media_type"].

Definition text_at (value : json) (key : string) : string := text_of (jget value key).
Definition size_at (value : json) : Z := match jget value "size" with JInt z => z | _ => 0 end.
Definition total_size (l : list json) : Z := foldr (fun x n => size_at x + n) 0 l.

(** The checks of an uploaded descriptor; [what] is the kind of object named
    in the messages. *)
Definition check_descriptor (what identity_message : string) (item : json) : res unit :=
  foldM (fun _ key => wire_string item key;;
           raise_if (match plain_text 255 (jget item key) with Some _ => false | None => true end) ValidationError
             (what +:+ " metadata is invalid")) tt ["name"; "output_port"; "media_type"];;
  canonical_execution_input_filename (jget item "filename") (what +:+ " filename");;
  size ← wire_integer item "size" false;
  raise_if ((size <? 0) || (OBJECT_MAX_BYTES <? size) || negb (prefixed_object_id (jget item "object_id")))
    ValidationError identity_message.

Definition derived_item (item : json) : res json :=
  item ← wire_object item derived_fields derived_fields;
  check_descriptor "derived input" "derived input identity or size is invalid" item;;
  Ok item.

(** The registry of the attempt with the new items that are not in it. *)
Definition with_candidates (registry : list (string * json)) (items : list json) : list (string * json) :=
  foldl (fun r item => if str_in (text_at item "object_id") (akeys r) then r
                       else r ++ [(text_at item "object_id", item)]) registry items.

Definition registry_of (attempt_id : string) (spec : json) : list (string * json) :=
  List.filter (fun kv => is_json_str attempt_id (jget kv.2 "parent_attempt_id"))
    (jfields (jget_def spec "derived_input_registry" (JObj []))).

(** The items, within the limits of the policy. *)
Definition derived_items (policy : json) (project : option string) (registry : list (string * json)) (inputs : json)
  : res (list json) :=
  match inputs with
  | JArr l =>
      raise_if (limit policy "max_child_inputs" <? Z.of_nat (length l)) ValidationError
        "derived_inputs exceeds the child input count limit";;
      raise_if (negb (nil_or l) && match project with None => true | Some _ => false end) ValidationError
        "derived inputs require a project-scoped parent";;
      items ← mapM_res derived_item l;
      raise_if (has_dup (map (fun x => text_at x "object_id") items) || has_dup (map (fun x => text_at x "name") items))
        ValidationError "derived input identities and names must be unique";;
      raise_if (limit policy "max_child_bytes" <? total_size items) ValidationError "child input byte limit exceeded";;
      let candidate := with_candidates registry items in
      raise_if ((limit policy "max_derived_objects" <? Z.of_nat (length candidate)) ||
                (limit policy "max_derived_bytes" <? total_size (map snd candidate))) ValidationError
        "derived input attempt count or byte limit exceeded";;
      Ok items
  | _ => raise ValidationError "derived_inputs exceeds the child input count limit"
  end.

(** [_verify_derived_association] *)
Definition association_changed (association ref : json) (parent : task_row) (attempt : attempt_row)
    (project : option string) : bool :=
  let provenance := jget association "provenance" in
  negb (py_eq (jget association "task_id") (JStr (t_id parent))) ||
  negb (py_eq (jget association "attempt_id") (JStr (at_id attempt))) ||
  negb (py_eq (jget association "project_id") (opt_str project)) ||
  negb (is_json_str "derived_input" (jget association "role")) ||
  existsb (fun key => negb (py_eq (jget association key) (jget ref key)))
    ["object_id"; "size"; "media_type"; "filename"; "output_port"] ||
  negb (is_json_str "durable" (jget association "durability")) ||
  negb (is_json_str "available" (jget (jget association "lifecycle") "state") ||
        is_json_str "promoted" (jget (jget association "lifecycle") "state")) ||
  negb (py_eq (jget provenance "task_id") (JStr (t_id parent))) ||
  negb (py_eq (jget provenance "attempt_id") (JStr (at_id attempt))) ||
  negb (py_eq (jget provenance "executor_id") (JStr (at_executor_id attempt))) ||
  negb (py_eq (jget provenance "fence") (JInt (at_fence attempt))) ||
  negb (py_eq (jget provenance "runtime_epoch") (JInt (at_runtime_epoch attempt))).

Definition object_differs (digest : string) (descriptor : json) (t : tables) : bool :=
  match object_by_digest digest t with
  | None => true
  | Some o => negb (py_eq (JInt (o_size o)) (jget descriptor "size")) ||
              negb (is_json_str (o_media_type o) (jget descriptor "media_type"))
  end.

Definition outside (project : option string) (digest : string) (t : tables) : bool :=
  match project with Some p => negb (in_project p digest t) | None => true end.

Definition verify_derived_association (ref : json) (parent : task_row) (attempt : attempt_row)
    (project : option string) : M unit :=
  id ← jitem ref "association_id";
  id ← bind_text id;
  association ← get_managed_output id;
  guard_raise (association_changed association ref parent attempt project) AuthorizationError
    "derived input managed association no longer matches its receipt";;
  let digest := remove_prefix "sha256:" (text_at ref "object_id") in
  changed ← gets (fun t => object_differs digest ref t || outside project digest t);
  guard_raise changed ConflictError "derived input object metadata or project association changed";;
  verify_child_object_bytes digest (size_at ref) "derived input CAS object".

Definition relate_object (project : option string) (digest : string) : M unit :=
  match project with
  | Some p =>
      created ← now;
      modify (fun t => t {{ project_objects :=
        insert_or_ignore (fun r => String.eqb (po_project_id r) p && String.eqb (po_digest r) digest &&
                                   String.eqb (po_relation r) "managed")
          (ProjectObject p digest "managed" created) (project_objects t) }})
  | None => raiseM IntegrityError "NOT NULL constraint failed"
  end.

(** The association of one output, [_associate_managed_outputs(...)[0]]. *)
Definition associate_one (output : json) (task : task_row) (attempt_id : string) (project : option string) : M json :=
  associated ← associate_managed_outputs (JObj [("outputs", JArr [output])]) (t_id task) attempt_id project JNull None;
  match associated with
  | a :: _ => mret a
  | [] => raiseM IndexError "list index out of range"
  end.

Definition derived_output (item : json) (attempt_id digest : string) : json :=
  foldl (fun o kv => jset o kv.1 kv.2) item
    [("digest", jget item "object_id"); ("kind", JStr "object"); ("role", JStr "derived_input");
     ("group_key", JStr ("derived-input-" +:+ attempt_id)); ("variant_key", JStr digest)].

(** One item: the registry and the receipts so far. *)
Definition register_item (by_ : settling) (st : list (string * json) * list json) (item : json)
  : M (list (string * json) * list json) :=
  let '(registry, refs) := st in
  let object_id := text_at item "object_id" in
  let digest := remove_prefix "sha256:" object_id in
  let attempt := sl_attempt by_ in
  authorized ← is_authorized_generic_output by_ digest (size_at item) (text_at item "media_type") (text_at item "name")
    (text_at item "output_port") (text_at item "filename") (jget item "filename");
  guard_raise (negb authorized) AuthorizationError
    "derived input requires this live attempt's authenticated upload receipt";;
  '(registry, ref) ← match alookup object_id registry with
    | Some previous =>
        guard_raise (existsb (fun kv => negb (py_eq (jget previous kv.1) kv.2)) (jfields item)) ConflictError
          "derived input was already registered with another descriptor";;
        mret (registry, previous)
    | None =>
        differs ← gets (object_differs digest item);
        guard_raise differs ConflictError "derived input object metadata does not match upload";;
        verify_child_object_bytes digest (size_at item) "derived input CAS object";;
        relate_object (sl_project by_) digest;;
        association ← associate_one (derived_output item (at_id attempt) digest) (sl_task by_) (at_id attempt) (sl_project by_);
        id ← jitem association "association_id";
        let ref := jset (jset item "association_id" id) "parent_attempt_id" (JStr (at_id attempt)) in
        mret (registry ++ [(object_id, ref)], ref)
    end;
  verify_derived_association ref (sl_task by_) attempt (sl_project by_);;
  mret (registry, refs ++ [ref]).

(** [_register_derived_inputs] *)
Definition register_derived_inputs (inputs : json) (by_ : settling) (policy : json) : M (list json) :=
  spec ← spec_of (sl_task by_);
  let registry := registry_of (at_id (sl_attempt by_)) spec in
  items ← lift (derived_items policy (sl_project by_) registry inputs);
  '(registry, refs) ← foldS (register_item by_) (registry, []) items;
  digest ← store_spec (jset spec "derived_input_registry" (JObj registry));
  update_tasks (is_task (t_id (sl_task by_))) (fun x => x {{ t_spec_digest := Some digest }});;
  mret refs.

(** ** Issue *)

Definition authority_fields : list string := ["lease_id"; "fence"; "runtime_epoch"; "child"; "derived_inputs"].
Definition lease_fields : list string := ["lease_id"; "fence"; "runtime_epoch"].
Definition child_fields : list string := ["child_id"; "capability_id"; "capability_digest"].

(** [int(recovery.get("placement_version", 0)) if recovery else 0] *)
Definition placement_version_of (task_id : string) : M Z :=
  recovery ← placement_recovery task_id;
  match recovery with
  | Some r => if truthy r then py_int (jget_def r "placement_version" (JInt 0)) else mret 0
  | None => mret 0
  end.

Definition policy_digest (policy : json) : string := sha256 (canonical_json policy).

Definition authority_payload (a : attempt_row) (x : task_row) (project : option string) (policy : json)
    (identity_digest : string) (target : json) (version : Z) : json :=
  JObj [("version", JInt 1); ("realm_id", JStr realm_id); ("session_id", JStr (sv_session_id svc));
        ("parent_task_id", JStr (t_id x)); ("parent_attempt_id", JStr (at_id a));
        ("parent_lease_id", JStr (at_lease_id a)); ("parent_fence", JInt (at_fence a));
        ("runtime_epoch", JInt (at_runtime_epoch a)); ("executor_id", JStr (at_executor_id a));
        ("project_id", opt_str project); ("expires_at", jstamp (at_lease_expires_at a));
        ("policy_digest", JStr (policy_digest policy)); ("identity_digest", JStr identity_digest);
        ("effective_target", target); ("placement_version", JInt version)].

(** The child the authority is bound to, when the request names one. *)
Definition check_exact_child (policy child : json) : res json :=
  child ← wire_object child child_fields child_fields;
  require_idempotency_key (jget child "child_id");;
  raise_if (negb (json_in (pin_of child) (list_of (jget policy "capabilities"))) || jhas policy "stages") AuthorizationError
    "derived input child must match an unstaged declared capability";;
  Ok child.

Definition issue_child_authority (attempt_id : string) (body identity : json) : M json :=
  durable_mutation svc (
    body ← lift (wire_object body lease_fields authority_fields);
    lift (wire_string body "lease_id");;
    lift (wire_integer body "fence" false);;
    lift (wire_integer body "runtime_epoch" true);;
    '(a, x, project, policy) ← live_delegating_parent svc fromisoformat attempt_id body identity;
    target ← effective_execution_target (t_id x);
    identity_digest ← child_identity_digest identity;
    version ← placement_version_of (t_id x);
    let payload := authority_payload a x project policy identity_digest target version in
    let answer payload more :=
      JObj ([("authority", JStr (sign_payload authority_key payload)); ("expires_at", jstamp (at_lease_expires_at a));
             ("parent_task_id", JStr (t_id x)); ("parent_attempt_id", JStr attempt_id)] ++ more) in
    if jhas body "derived_inputs" || jhas body "child" then
      child ← lift (check_exact_child policy (jget body "child"));
      refs ← register_derived_inputs (jget_def body "derived_inputs" (JArr []))
        (Settling a x project (jget body "lease_id") (jget body "fence") (jget body "runtime_epoch")) policy;
      let more := [("child", child); ("derived_inputs", JArr refs)] in
      mret (answer (JObj (jfields payload ++ more)) more)
    else mret (answer payload [])).
End Authority.
