(* ===== verification/Children.v ===== *)
(** * Admission of delegated children

    [admit_delegated_child] of [runtime_protocol/service.py]: the holder of an
    authority submits a child task.  The authority is checked against the
    parent attempt as it is now, the child against the policy of the parent
    (capability, target, counts, inputs, and for a staged policy the order of
    the stages and the settled outputs they consume), and the child is admitted
    with its lineage.  [publish_recoverable_snapshot] lets such a child commit
    drafts within the quota of its parent.

    Lineages, policies, grants and authority payloads are dicts that Runtime
    wrote with all of their keys.  The [repr] of an input name in a message is
    the name in single quotes. *)

From Stdlib Require Import ZArith String Ascii List Bool Lia.
From stdpp Require Import base list strings.
From S2P Require Import Prelude Json Errors Facts Sha256 Base64 Store Idempotency Ledger Bindings.
From S2P Require Import Executors Continuations Snapshots Delegation Claim Outputs Settle Runs.
From S2P Require Import Admission Effects Generations Wire Commands Deployments Activation Recovery Dispatch.
From S2P Require Import Staging ChildPolicy Settlement Authority.

Open Scope Z_scope.

(** ** Stages *)

Definition lineage_keys : list string :=
  ["parent_task_id"; "parent_attempt_id"; "parent_lease_id"; "parent_fence"; "runtime_epoch"; "executor_id";
   "parent_placement"; "parent_effective_target"; "parent_placement_version"; "project_id"].

Definition lineage_of_parent (a : attempt_row) (x : task_row) (project : option string) (placement target : json)
    (version : Z) : json :=
  JObj [("parent_task_id", JStr (t_id x)); ("parent_attempt_id", JStr (at_id a)); ("parent_lease_id", JStr (at_lease_id a));
        ("parent_fence", JInt (at_fence a)); ("runtime_epoch", JInt (at_runtime_epoch a));
        ("executor_id", JStr (at_executor_id a)); ("parent_placement", placement); ("parent_effective_target", target);
        ("parent_placement_version", JInt version); ("project_id", opt_str project)].

Definition same_lineage (recorded lineage : json) : bool :=
  is_dict recorded && forallb (fun key => py_eq (jget recorded key) (jget lineage key)) lineage_keys.

(** The tasks of the project that name the parent attempt. *)
Definition staged_candidates (project : option string) (parent_attempt_id : json) (t : tables) : list task_row :=
  List.filter (fun x => match run_by_id (t_run_id x) t, task_body t x with
    | Some r, Some body => opt_str_eqb (r_project_id r) project &&
        py_eq (jget (jget body "delegated_parent") "parent_attempt_id") parent_attempt_id
    | _, _ => false
    end) (tasks t).

Section Children.
Context `{World} (svc : service) (fromisoformat : string -> option (Z * bool)) (authority_key : string).

Definition note_stage (lineage : json) (stages : list (string * task_row)) (row : task_row)
  : M (list (string * task_row)) :=
  spec ← spec_of row;
  if negb (same_lineage (jget spec "delegated_parent") lineage) then mret stages else
  match jget spec "delegated_stage" with
  | JStr name =>
      guard_raise (str_in name (akeys stages)) ConflictError "delegated stage has duplicate admissions";;
      mret (stages ++ [(name, row)])
  | _ => mret stages
  end.

(** [_delegated_stage_rows]: the admitted siblings by stage. *)
Definition delegated_stage_rows (project : option string) (lineage : json) : M (list (string * task_row)) :=
  rows ← gets (staged_candidates project (jget lineage "parent_attempt_id"));
  foldS (note_stage lineage) [] rows.

Definition producer_changed (association : json) (producer : task_row) (project : option string) (port : json) : bool :=
  negb (py_eq (jget association "task_id") (JStr (t_id producer))) ||
  negb (py_eq (jget association "attempt_id") (opt_str (t_attempt_id producer))) ||
  negb (py_eq (jget association "project_id") (opt_str project)) ||
  negb (py_eq (jget association "output_port") port) ||
  is_json_str "recoverable_snapshot" (jget association "role") ||
  negb (is_json_str "durable" (jget association "durability")) ||
  negb (is_json_str "available" (jget (jget association "lifecycle") "state") ||
        is_json_str "promoted" (jget (jget association "lifecycle") "state")).

Definition producer_settled (association : json) (producer : task_row) (epoch : json) (t : tables) : bool :=
  match find (fun a => is_json_str (at_id a) (jget association "attempt_id") &&
                       String.eqb (at_task_id a) (t_id producer)) (attempts t) with
  | Some a => at_settled a && py_eq (JInt (at_runtime_epoch a)) epoch
  | None => false
  end.

Definition producer_input (expected ref : json) (siblings : list (string * task_row)) (project : option string)
    (lineage : json) : M json :=
  guard_raise (negb (keys_are ref ["name"; "producer_task_id"; "association_id"; "output_port"]) ||
               negb (py_eq (jget ref "output_port") (jget expected "output_port"))) AuthorizationError
    "producer input is outside the declared stage policy";;
  match alookup (text_at expected "producer_stage") siblings with
  | None => raiseM ConflictError "declared producer stage is not settled"
  | Some producer =>
      guard_raise (negb (py_eq (JStr (t_id producer)) (jget ref "producer_task_id")) ||
                   negb (bool_decide (t_status producer = Completed))) ConflictError
        "declared producer stage is not settled";;
      association ← get_managed_output (py_text (jget ref "association_id"));
      guard_raise (producer_changed association producer project (jget expected "output_port")) AuthorizationError
        "managed output does not match the declared live lineage and port";;
      settled ← gets (producer_settled association producer (jget lineage "runtime_epoch"));
      guard_raise (negb settled) ConflictError "producer managed output is not settled in the parent epoch";;
      mret (JObj [("name", jget ref "name"); ("producer_stage", jget expected "producer_stage");
                  ("producer_task_id", JStr (t_id producer)); ("producer_attempt_id", opt_str (t_attempt_id producer));
                  ("association_id", jget association "association_id"); ("output_port", jget association "output_port");
                  ("object_id", jget association "object_id")])
  end.

(** One declared input and the reference supplied for it. *)
Definition resolve_input (siblings : list (string * task_row)) (project : option string) (lineage : json)
    (pair : json * json) : M json :=
  let '(expected, ref) := pair in
  guard_raise (negb (is_dict ref) || negb (py_eq (jget ref "name") (jget expected "name"))) ValidationError
    "input_refs must match the declared stage order";;
  if jhas expected "root_object_id" then
    guard_raise (negb (keys_are ref ["name"; "root_object_id"]) ||
                 negb (py_eq (jget ref "root_object_id") (jget expected "root_object_id"))) AuthorizationError
      "root input is outside the declared stage policy";;
    mret (JObj [("name", jget ref "name"); ("root_object_id", jget expected "root_object_id");
                ("object_id", jget expected "root_object_id")])
  else producer_input expected ref siblings project lineage.

(** [_resolve_delegated_stage_inputs] *)
Definition resolve_delegated_stage_inputs (declared : list json) (supplied : json) (siblings : list (string * task_row))
    (project : option string) (lineage : json) : M (list json) :=
  match supplied with
  | JArr refs =>
      guard_raise (negb (Nat.eqb (length refs) (length declared))) ValidationError
        "input_refs must match the declared stage order";;
      resolved ← mapS (resolve_input siblings project lineage) (combine declared refs);
      guard_raise (has_dup (map (fun r => text_at r "object_id") resolved)) ValidationError
        "resolved delegated inputs must have unique object IDs";;
      mret resolved
  | _ => raiseM ValidationError "input_refs must match the declared stage order"
  end.

(** ** The authority and its parent *)

(** [_activation_allows_child] *)
Definition activation_allows_child (parent : task_row) (activation target : json) (version : Z) : bool :=
  let authorized := if is_dict activation then jget activation "authorized_child_lineage" else JNull in
  is_dict authorized && py_eq (jget authorized "parent_task_id") (JStr (t_id parent)) &&
  py_eq (jget authorized "parent_run_id") (JStr (t_run_id parent)) &&
  py_eq (jget authorized "max_depth") (JInt 1) &&
  py_eq (jget authorized "placement_version") (JInt version) && py_eq (jget authorized "effective_target") target.

Definition past_cutoff (payload marker : json) : bool :=
  let cutoff := if truthy marker then jget marker "parent_attempt" else JNull in
  negb (is_null marker) &&
  (is_null cutoff || existsb (fun kv => negb (py_eq (jget payload kv.1) kv.2)) (jfields cutoff)).

Definition check_child_activation (payload identity : json) (parent : task_row) (target : json) (version : Z) : M unit :=
  let activation := jget identity "qualified_activation" in
  required ← task_requires_remote_activation (t_id parent);
  if negb (required || is_dict activation) then mret tt else
  placement ← trusted_execution_placement identity;
  marker ← gets (remote_drain (t_id parent) (if is_dict activation then jget activation "activation_id" else JNull));
  guard_raise (past_cutoff payload marker) AuthorizationError "child authority is outside remote drain cutoff";;
  matching ← remote_activation_matches svc fromisoformat (t_id parent) identity placement (is_null marker);
  guard_raise (negb matching) AuthorizationError "remote activation is missing, expired, revoked, or foreign";;
  guard_raise (negb (activation_allows_child parent activation target version)) AuthorizationError
    "qualified credential is not authorized for this child lineage".

(** The authority no longer describes the parent attempt. *)
Definition authority_outdated (payload : json) (a : attempt_row) (parent : task_row) (project : option string)
    (policy target : json) (version : Z) : bool :=
  negb (py_eq (jget payload "parent_task_id") (JStr (t_id parent))) ||
  negb (py_eq (jget payload "executor_id") (JStr (at_executor_id a))) ||
  negb (py_eq (jget payload "project_id") (opt_str project)) ||
  negb (py_eq (jget payload "expires_at") (jstamp (at_lease_expires_at a))) ||
  negb (py_eq (jget payload "policy_digest") (JStr (policy_digest policy))) ||
  negb (py_eq (jget payload "effective_target") target) ||
  negb (py_eq (jget payload "placement_version") (JInt version)).

Definition task_fields : list string :=
  ["capability_id"; "capability_digest"; "input_object_ids"; "input_refs"; "stage"; "schema_version"; "spec";
   "execution_request"; "generation_intent"; "required_facts"; "storage_estimate"].

(** The child named by the authority, when it names one. *)
Definition check_named_child (payload task : json) (key : string) : M unit :=
  let exact := jget payload "child" in
  guard_raise (negb (is_null exact) &&
               (negb (py_eq (jget exact "child_id") (JStr key)) ||
                existsb (fun k => negb (py_eq (jget exact k) (jget task k))) ["capability_id"; "capability_digest"]))
    AuthorizationError "derived input receipt is bound to another exact child".

Definition check_child_counts (policy : json) (counts : accounting) : M unit :=
  if ac_replay counts then mret tt else
  guard_raise (limit policy "max_children" <=? ac_lifetime counts) ValidationError "parent child count limit exceeded";;
  guard_raise (limit policy "max_active_children" <=? ac_active counts) ValidationError
    "parent active child count limit exceeded".

(** ** Inputs *)

(** A child of a policy without stages: its inputs, and the derived inputs
    among them. *)
Definition check_derived_ref (registry : json) (a : attempt_row) (parent : task_row) (project : option string) (ref : json)
  : M unit :=
  guard_raise (negb (py_eq (jget registry (text_at ref "object_id")) ref)) AuthorizationError
    "derived input receipt is not registered to the parent";;
  verify_derived_association ref parent a project.

Definition unstaged_inputs (a : attempt_row) (parent : task_row) (project : option string) (policy task : json)
    (derived : list json) : M (list json * json) :=
  guard_raise (negb (is_null (jget task "stage")) || jhas task "input_refs") ValidationError
    "parent policy does not declare child stages";;
  let authorized := list_of (jget policy "input_object_ids") ++ map (fun r => jget r "object_id") derived in
  match jget_def task "input_object_ids" (JArr []) with
  | JArr inputs =>
      guard_raise (existsb (fun i => negb (json_in i authorized)) inputs) AuthorizationError
        "child inputs are outside parent policy";;
      guard_raise (limit policy "max_child_inputs" <? Z.of_nat (length inputs)) ValidationError
        "child input count limit exceeded";;
      if nil_or derived then mret (inputs, JNull) else
      let ids := map (fun r => jget r "object_id") derived in
      guard_raise (negb (py_eq (JArr (List.filter (fun i => json_in i ids) inputs)) (JArr ids))) AuthorizationError
        "child inputs must consume the exact derived receipt";;
      spec ← spec_of parent;
      for_each derived (check_derived_ref (jget_def spec "derived_input_registry" (JObj [])) a parent project);;
      mret (inputs, JArr derived)
  | _ => raiseM AuthorizationError "child inputs are outside parent policy"
  end.

(** The position and the declaration of a stage.  Stage names are unique. *)
Fixpoint stage_at (name : string) (stages : list json) : option (list json * json) :=
  match stages with
  | [] => None
  | stage :: rest =>
      if is_json_str name (jget stage "name") then Some ([], stage)
      else match stage_at name rest with Some (before, found) => Some (stage :: before, found) | None => None end
  end.

Definition stage_done (siblings : list (string * task_row)) (stage : json) : bool :=
  match alookup (text_at stage "name") siblings with
  | Some x => bool_decide (t_status x = Completed)
  | None => false
  end.

(** The stage was admitted under another key. *)
Definition admitted_elsewhere (name key : string) (siblings : list (string * task_row)) (t : tables) : bool :=
  match alookup name siblings with
  | Some x => match run_by_id (t_run_id x) t with
              | Some r => negb (opt_str_eqb (r_idempotency_key r) (Some key))
              | None => true
              end
  | None => false
  end.

Definition default_target : json := JObj [("kind", JStr "default")].

Definition request_target (request : json) : res json :=
  if is_null request then Ok default_target else normalize_execution_target (jget request "target").

Definition is_verified_input (final ref : json) : bool :=
  py_eq (jget ref "producer_stage") (jget final "verify_stage") &&
  py_eq (jget ref "output_port") (jget final "verify_output_port").

(** [next(...)] over the resolved inputs when the stage is the publishing one. *)
Definition verified_source_of (policy : json) (name : string) (resolved : list json) : M json :=
  let final := jget policy "final_publication" in
  if is_null final || negb (is_json_str name (jget final "stage")) then mret JNull else
  match find (is_verified_input final) resolved with
  | Some ref => mret ref
  | None => raiseM StopIteration "no verified input"
  end.

(** A child of a staged policy: its inputs and the source of a verified
    publication. *)
Definition staged_inputs (project : option string) (policy task request lineage target : json) (stages : list json)
    (key : string) : M (list json * json * json) :=
  match (if jhas task "input_object_ids" then JNull else jget task "stage") with
  | JStr name =>
      match stage_at name stages with
      | None => raiseM AuthorizationError "child stage is outside parent policy"
      | Some (before, stage) =>
          guard_raise (negb (py_eq (pin_of task) (pin_of stage))) AuthorizationError
            "child capability does not match declared stage";;
          supplied ← lift (request_target request);
          guard_raise (negb (py_eq supplied (jget stage "target")) && negb (py_eq supplied target)) AuthorizationError
            "child target does not match declared stage";;
          siblings ← delegated_stage_rows project lineage;
          elsewhere ← gets (admitted_elsewhere name key siblings);
          guard_raise elsewhere ConflictError "delegated stage was already admitted";;
          guard_raise (negb (forallb (stage_done siblings) before)) ConflictError
            "delegated stages must be admitted once and completed in order";;
          resolved ← resolve_delegated_stage_inputs (list_of (jget stage "inputs")) (jget task "input_refs") siblings
            project lineage;
          let inputs := map (fun r => jget r "object_id") resolved in
          guard_raise (limit policy "max_child_inputs" <? Z.of_nat (length inputs)) ValidationError
            "child input count limit exceeded";;
          source ← verified_source_of policy name resolved;
          mret (inputs, JArr resolved, source)
      end
  | _ => raiseM ValidationError "staged child requires stage and input_refs, not bare input_object_ids"
  end.

(** The bytes of the inputs that are not roots of the policy. *)
Definition derived_bytes (derived_ids : list json) (total : Z) (input : json) : M Z :=
  guard_raise (negb (prefixed_object_id input)) ValidationError "delegated input object identity is invalid";;
  row ← gets (object_by_digest (drop_chars 7 (text_of input)));
  match row with
  | None => raiseM ConflictError "delegated input object is unavailable"
  | Some o => mret (if json_in input derived_ids then total + o_size o else total)
  end.

Definition check_input_bytes (policy resolved : json) (inputs : list json) : M unit :=
  let derived_ids := map (fun r => jget r "object_id") (List.filter (fun r => jhas r "association_id") (list_of resolved)) in
  total ← foldS (derived_bytes derived_ids) 0 inputs;
  guard_raise (limit policy "max_child_bytes" <? total) ValidationError "child input byte limit exceeded".

(** ** The execution request of the child *)

Definition input_label (name field : string) : string := "staged child input '" +:+ name +:+ "'." +:+ field.

(** The descriptor of one resolved input. *)
Definition canonical_input (spec_inputs ref : json) : res json :=
  let name := text_at ref "name" in
  let object_id := jget ref "object_id" in
  let descriptor := jget spec_inputs name in
  raise_if_with (negb (is_dict descriptor)) ValidationError "staged child spec is missing its managed input descriptor"
    (details1 "name" (JStr name));;
  raise_if_with (negb (py_eq (py_or (jget descriptor "object_id") (jget descriptor "digest")) object_id)) AuthorizationError
    "staged child input descriptor disagrees with the Runtime-resolved object" (details1 "name" (JStr name));;
  filename ← canonical_execution_input_filename (jget descriptor "filename") (input_label name "filename");
  let required := jget_def descriptor "required" (JBool true) in
  raise_if (negb (is_bool required)) ValidationError (input_label name "required must be a boolean");;
  let canonical := JObj [("name", JStr name); ("object_id", object_id); ("filename", JStr filename); ("required", required)] in
  let digest := jget descriptor "digest" in
  if is_null digest then Ok canonical else
  raise_if_with (negb (py_eq digest object_id)) AuthorizationError
    "staged child input descriptor digest disagrees with the Runtime-resolved object" (details1 "name" (JStr name));;
  Ok (jset canonical "digest" digest).

Definition staged_request (task request resolved : json) : res json :=
  raise_if (jhas request "inputs") ValidationError "staged child execution_request.inputs are resolved by Runtime";;
  let spec_inputs := jget (jget_def task "spec" (JObj [])) "inputs" in
  raise_if (negb (is_dict spec_inputs)) ValidationError "staged child spec must declare its managed input descriptors";;
  inputs ← mapM_res (canonical_input spec_inputs) (list_of resolved);
  Ok (jset request "inputs" (JArr inputs)).

Definition targeted_request (request target : json) : json :=
  if negb (is_null request) then jset request "target" (py_or target default_target)
  else if is_null target then JNull else JObj [("schema_version", JInt 1); ("target", target)].

Definition describes (ref descriptor : json) : bool :=
  is_dict descriptor && py_eq (jget descriptor "object_id") (jget ref "object_id").

(** The descriptors of the derived inputs agree with their receipts. *)
Definition check_derived_descriptors (request : json) (derived : list json) : res json :=
  if nil_or derived then Ok request else
  let request := if is_null request then JObj [("schema_version", JInt 1); ("target", default_target)] else request in
  match jget request "inputs" with
  | JArr descriptors =>
      foldM (fun _ ref =>
        raise_if (match List.filter (describes ref) descriptors with
                  | [d] => negb (py_eq (jget d "name") (jget ref "name")) ||
                           negb (py_eq (jget d "filename") (jget ref "filename")) ||
                           negb (py_eq (jget_def d "digest" (jget ref "object_id")) (jget ref "object_id"))
                  | _ => true
                  end) AuthorizationError "derived execution input descriptor disagrees with its receipt") tt derived;;
      Ok request
  | _ => raise ValidationError "derived input child requires execution_request.inputs descriptors"
  end.

Definition child_request (staged : bool) (task request resolved target : json) (derived : list json) : res json :=
  request ← (if staged && negb (is_null request) then staged_request task request resolved else Ok request);
  check_derived_descriptors (targeted_request request target) derived.

(** ** The route *)

(** [_recoverable_child_grant] *)
Definition recoverable_child_grant (policy capability lineage : json) : json :=
  match find (fun grant => py_eq (pin_of grant) (pin_of capability)) (list_of (jget policy "recoverable_outputs")) with
  | None => JNull
  | Some grant =>
      foldl (fun g kv => jset g kv.1 kv.2) grant
        [("limits", JObj (map (fun key => (key, jget (jget policy "limits") key))
                            ["max_recoverable_snapshots"; "max_recoverable_bytes"; "max_snapshot_bytes"]));
         ("parent_attempt_id", jget lineage "parent_attempt_id"); ("policy_digest", jget lineage "policy_digest")]
  end.

(** The body of the admission. *)
Definition admitted_body (task : json) (inputs : list json) (request source policy : json) (project : option string)
    (key : string) : json :=
  let admitted := jset (jdel (jdel task "stage") "input_refs") "input_object_ids" (JArr inputs) in
  let admitted := put "execution_request" request admitted in
  let admitted := if is_null source then admitted
                  else jset admitted "settlement_effect" (jget (jget policy "final_publication") "effect") in
  jset (jset admitted "project" (opt_str project)) "idempotency_key" (JStr key).

(** The inputs of the child, what they were resolved to, and the source of a
    verified publication. *)
Definition child_inputs (a : attempt_row) (parent : task_row) (project : option string)
    (policy task request lineage target : json) (derived : list json) (key : string) : M (list json * json * json) :=
  if is_null (jget policy "stages") then
    '(inputs, resolved) ← unstaged_inputs a parent project policy task derived; mret (inputs, resolved, JNull)
  else staged_inputs project policy task request lineage target (list_of (jget policy "stages")) key.

(** A child that passed the checks of its authority. *)
Definition admit_checked_child (calls : admission_calls) (payload identity : json) (a : attempt_row) (parent : task_row)
    (project : option string) (policy target : json) (version : Z) (task : json) (key : string) : M json :=
  counts ← gets (delegated_child_accounting (t_id parent) (at_id a) (Some key));
  check_child_counts policy counts;;
  let request := jget task "execution_request" in
  guard_raise (negb (is_null request) && negb (is_dict request)) ValidationError "execution_request must be an object";;
  let derived := list_of (jget_def payload "derived_inputs" (JArr [])) in
  placement ← trusted_execution_placement identity;
  let lineage := lineage_of_parent a parent project placement target version in
  '(inputs, resolved, source) ← child_inputs a parent project policy task request lineage target derived key;
  child_target ← lift (request_target request);
  check_input_bytes policy resolved inputs;;
  guard_raise (negb (json_in child_target (list_of (jget policy "targets"))) && negb (py_eq child_target target))
    AuthorizationError "child target is outside parent policy";;
  request ← lift (child_request (negb (is_null (jget policy "stages"))) task request resolved target derived);
  let spec := jget_def task "spec" (JObj []) in
  guard_raise (negb (is_dict spec) || jhas spec "runtime_dependencies") ValidationError
    "delegated child spec cannot use runtime_dependencies";;
  let lineage := jset lineage "policy_digest" (jget payload "policy_digest") in
  service_create_task svc calls (admitted_body task inputs request source policy project key) true false
    (Delegated lineage (jget task "stage") resolved source (recoverable_child_grant policy task lineage)).

Definition admit_child_body (calls : admission_calls) (body key identity : json) : M json :=
  body ← lift (wire_object body ["authority"; "task"] ["authority"; "task"]);
  payload ← lift (decode_child_authority svc authority_key (jget body "authority"));
  digest ← child_identity_digest identity;
  guard_raise (negb (py_eq (jget payload "identity_digest") (JStr digest))) AuthorizationError
    "child authority is bound to another worker identity";;
  attempt_id ← bind_text (jget payload "parent_attempt_id");
  '(a, parent, project, policy) ← live_delegating_parent svc fromisoformat attempt_id
    (JObj [("lease_id", jget payload "parent_lease_id"); ("fence", jget payload "parent_fence");
           ("runtime_epoch", jget payload "runtime_epoch")]) identity;
  version ← placement_version_of (t_id parent);
  target ← effective_execution_target (t_id parent);
  check_child_activation payload identity parent target version;;
  guard_raise (authority_outdated payload a parent project policy target version) AuthorizationError
    "child authority no longer matches parent attempt";;
  task ← lift (wire_object (jget body "task") ["capability_id"; "capability_digest"] task_fields);
  guard_raise (negb (json_in (pin_of task) (list_of (jget policy "capabilities")))) AuthorizationError
    "child capability is outside parent policy";;
  key ← lift (require_idempotency_key key);
  check_named_child payload task key;;
  admit_checked_child calls payload identity a parent project policy target version task key.

Definition admit_delegated_child (calls : admission_calls) (body key identity : json) : M json :=
  durable_mutation svc (admit_child_body calls body key identity).

(** ** Drafts of a child *)

Definition snapshot_fields : list string := ["lease_id"; "fence"; "runtime_epoch"; "revision"; "output"].
Definition MAX_REVISION : Z := 9007199254740991.

Definition check_snapshot_body (body : json) : res json :=
  body ← wire_object body snapshot_fields snapshot_fields;
  wire_string body "lease_id";;
  foldM (fun _ key => wire_integer body key true;; Ok tt) tt ["fence"; "runtime_epoch"; "revision"];;
  raise_if (MAX_REVISION <? match jget body "revision" with JInt z => z | _ => 0 end) ValidationError
    "snapshot revision exceeds the portable integer bound";;
  item ← wire_object (jget body "output") derived_fields derived_fields;
  check_descriptor "snapshot" "snapshot object identity or size is invalid" item;;
  Ok body.

Definition revision_of (association : json) : Z :=
  match jget (jget association "provenance") "revision" with JInt z => z | _ => 0 end.

(** The child still runs under the attempt of the request. *)
Definition produces (a : attempt_row) (x : task_row) (body : json) : bool :=
  bool_decide (t_status x = Running) && opt_str_eqb (t_attempt_id x) (Some (at_id a)) &&
  py_eq (opt_str (t_lease_token x)) (jget body "lease_id") && py_eq (JInt (t_lease_fence x)) (jget body "fence") &&
  opt_str_eqb (t_executor_id x) (Some (at_executor_id a)).

(** The grant or the lineage of the child no longer holds. *)
Definition grant_outdated (frozen lineage item : json) (project : option string) (a : attempt_row) (parent : task_row)
    (parent_project : option string) (policy target : json) (version : Z) (capability : json) : bool :=
  negb (py_eq (JStr (t_id parent)) (jget lineage "parent_task_id")) ||
  negb (opt_str_eqb parent_project project) || negb (py_eq (jget lineage "project_id") (opt_str project)) ||
  negb (py_eq (JStr (at_executor_id a)) (jget lineage "executor_id")) ||
  negb (py_eq target (jget lineage "parent_effective_target")) ||
  negb (py_eq (JInt version) (jget lineage "parent_placement_version")) ||
  negb (py_eq (JStr (policy_digest policy)) (jget lineage "policy_digest")) ||
  negb (py_eq frozen (recoverable_child_grant policy capability lineage)) ||
  negb (json_in (jget item "output_port") (list_of (jget frozen "output_ports"))).

Definition over_quota (limits item : json) (committed : list json) : bool :=
  let bound key := match jget limits key with JInt z => z | _ => 0 end in
  (bound "max_snapshot_bytes" <? size_at item) ||
  (bound "max_recoverable_snapshots" <=? Z.of_nat (length committed)) ||
  (bound "max_recoverable_bytes" <? total_size committed + size_at item).

Definition snapshot_output (item : json) (attempt_id key : string) (lineage : json) (revision : Z) : json :=
  foldl (fun o kv => jset o kv.1 kv.2) item
    [("digest", jget item "object_id"); ("kind", JStr "object"); ("role", JStr "recoverable_snapshot");
     ("group_key", JStr ("recoverable-" +:+ attempt_id)); ("variant_key", JStr (py_text (JInt revision)));
     ("provenance", JObj [("parent_attempt_id", jget lineage "parent_attempt_id"); ("revision", JInt revision);
                          ("idempotency_key", JStr key)])].

(** The publication of a revision that is new. *)
Definition publish_revision (a : attempt_row) (x : task_row) (project : option string) (body spec : json)
    (prior : list json) (key hash : string) : M json :=
  let item := jget body "output" in
  let revision := match jget body "revision" with JInt z => z | _ => 0 end in
  current ← gets current_runtime_epoch;
  validate_attempt_lease (Some a) body current true false;;
  guard_raise (negb (produces a x body)) LeaseError "snapshot producing child is no longer live";;
  epoch ← match t_runtime_epoch x with Some e => mret e | None => raiseM TypeError "int() argument must not be None" end;
  guard_raise (negb (py_eq (JInt epoch) (jget body "runtime_epoch"))) LeaseError "snapshot producing child is no longer live";;
  let lineage := jget spec "delegated_parent" in
  let frozen := jget spec "delegated_recoverable_outputs" in
  guard_raise (negb (is_dict lineage) || negb (is_dict frozen) || match project with None => true | Some _ => false end)
    AuthorizationError "child has no admitted recoverable output grant";;
  parent_id ← bind_text (jget lineage "parent_attempt_id");
  '(parent_attempt, parent, parent_project, policy) ← live_delegating_parent svc fromisoformat parent_id
    (JObj [("lease_id", jget lineage "parent_lease_id"); ("fence", jget lineage "parent_fence");
           ("runtime_epoch", jget lineage "runtime_epoch")]) JNull;
  target ← effective_execution_target (t_id parent);
  version ← placement_version_of (t_id parent);
  guard_raise (grant_outdated frozen lineage item project parent_attempt parent parent_project policy target version
                 (JObj [("capability_id", JStr (t_capability x)); ("capability_digest", jget spec "capability_digest")]))
    AuthorizationError "snapshot grant or parent lineage does not match";;
  guard_raise (existsb (fun r => revision <=? revision_of r) prior) ConflictError "snapshot revision is stale";;
  committed ← recoverable_snapshots (Some parent_id) None JNull;
  guard_raise (over_quota (jget frozen "limits") item committed) ValidationError
    "recoverable snapshot count or byte limit exceeded";;
  let digest := drop_chars 7 (text_at item "object_id") in
  authorized ← is_authorized_generic_output
    (Settling a x project (jget body "lease_id") (jget body "fence") (jget body "runtime_epoch"))
    digest (size_at item) (text_at item "media_type") (text_at item "name") (text_at item "output_port")
    (text_at item "filename") (jget item "filename");
  guard_raise (negb authorized) AuthorizationError
    "snapshot requires the producing child's authenticated upload receipt";;
  differs ← gets (object_differs digest item);
  guard_raise differs ConflictError "snapshot object metadata does not match upload";;
  verify_child_object_bytes digest (size_at item) "snapshot CAS object";;
  relate_object project digest;;
  association ← associate_one (snapshot_output item (at_id a) key lineage revision) x (at_id a) project;
  id ← jitem association "association_id";
  event ← append_event (t_run_id x) (Some (t_id x)) "attempt.recoverable_snapshot_published"
    (JObj [("association_id", id); ("revision", JInt revision)]) None;
  command_record svc "attempt.recoverable_snapshot.publish" (at_id a) (JStr key) hash association project [event]
    None None true None.

(** A revision that was published before, asked for under a new key. *)
Definition alias_revision (attempt_id key hash : string) (project : option string) (same : json) : M json :=
  original_key ← jitem (jget same "provenance") "idempotency_key";
  original ← command_replay svc "attempt.recoverable_snapshot.publish" attempt_id original_key hash project;
  command_record svc "attempt.recoverable_snapshot.replay" attempt_id (JStr key) hash (default JNull original) None []
    None None false None.

Definition attempt_differs (a : attempt_row) (body : json) : bool :=
  negb (is_json_str (at_lease_id a) (jget body "lease_id")) || negb (py_eq (JInt (at_fence a)) (jget body "fence")) ||
  negb (py_eq (JInt (at_runtime_epoch a)) (jget body "runtime_epoch")).

Definition publish_snapshot_body (attempt_id : string) (body key identity : json) : M json :=
  body ← lift (check_snapshot_body body);
  key ← lift (require_idempotency_key key);
  guard_raise (is_null identity) AuthorizationError "authenticated snapshot worker identity is required";;
  row ← gets (attempt_by_id attempt_id);
  assert_attempt_identity svc fromisoformat (holder_of row) identity;;
  match row with
  | None => raiseM LeaseError "snapshot attempt fence does not match"
  | Some a =>
      guard_raise (attempt_differs a body) LeaseError "snapshot attempt fence does not match";;
      task ← gets (task_by_id (at_task_id a));
      match task with
      | None => raiseM TypeError "'NoneType' object is not subscriptable"
      | Some x =>
          spec ← spec_of x;
          project ← task_project (Some x);
          let hash := sha256 (canonical_json body) in
          alias ← command_replay svc "attempt.recoverable_snapshot.replay" attempt_id (JStr key) hash None;
          match alias with
          | Some v => mret v
          | None =>
              replay ← command_replay svc "attempt.recoverable_snapshot.publish" attempt_id (JStr key) hash project;
              match replay with
              | Some v => mret v
              | None =>
                  prior ← recoverable_snapshots None (Some attempt_id) (jget (jget body "output") "output_port");
                  match find (fun r => py_eq (jget (jget r "provenance") "revision") (jget body "revision")) prior with
                  | Some same => alias_revision attempt_id key hash project same
                  | None => publish_revision a x project body spec prior key hash
                  end
              end
          end
      end
  end.

Definition publish_recoverable_snapshot (attempt_id : string) (body key identity : json) : M json :=
  durable_mutation svc (publish_snapshot_body attempt_id body key identity).
End Children.
