(* ===== verification/ChildPolicyFacts.v ===== *)
(** * What an admitted child policy grants

    [_child_policy] admits only policies whose authority is finite and whose
    stages can be run in the order in which they are declared.  A stored
    policy keeps its limits whatever the defaults of a later version are. *)

From Stdlib Require Import ZArith String Ascii List Bool Lia.
From stdpp Require Import base list strings.
From S2P Require Import Prelude Json Errors Facts Sha256 Store Effects Wire ChildPolicy.

Open Scope Z_scope.

(** ** Limits *)

(** Every limit is there, positive and at most its ceiling. *)
Definition limits_bounded (limits : json) : Prop :=
  jkeys limits = akeys CHILD_LIMIT_CEILINGS /\
  forall key ceiling, In (key, ceiling) CHILD_LIMIT_CEILINGS ->
    exists n, jget limits key = JInt n /\ 1 <= n <= ceiling.

Lemma aset_forall (P : string * json -> Prop) k v l : P (k, v) -> Forall P l -> Forall P (aset k v l).
Proof.
  intros Hv. induction 1 as [|[k' v'] l Hx Hl IH]; simpl; [by repeat constructor|].
  destruct (String.eqb k k'); by constructor.
Qed.

Lemma dict_union_forall (P : string * json -> Prop) d e : Forall P d -> Forall P e -> Forall P (dict_union d e).
Proof.
  intros Hd He. revert d Hd. unfold dict_union. induction He as [|[k v] e Hv He IH]; intros d Hd; simpl; [done|].
  by apply IH, aset_forall.
Qed.

Lemma dict_union_keys d e : Forall (fun kv => In kv.1 (akeys d)) e -> akeys (dict_union d e) = akeys d.
Proof.
  revert d. unfold dict_union. induction e as [|[k v] e IH]; intros d Hk; simpl; [done|].
  inversion Hk as [|? ? Hin Hrest]; subst. simpl in Hin.
  assert (akeys (aset k v d) = akeys d) as Ha
    by (rewrite akeys_aset; apply str_in_spec in Hin; by rewrite Hin).
  rewrite IH, Ha; [done|]. by rewrite Ha.
Qed.

Lemma aset_middle (p d : list (string * json)) k w v :
  ~ In k (akeys p) -> aset k v (p ++ (k, w) :: d) = p ++ (k, v) :: d.
Proof.
  induction p as [|[k' x] p IH]; simpl; intros Hk; [by rewrite String.eqb_refl|].
  destruct (String.eqb_spec k k') as [->|_]; [by destruct Hk; left|]. rewrite IH; tauto.
Qed.

(** A dictionary with the same keys replaces the whole one. *)
Lemma dict_union_same p d e :
  akeys d = akeys e -> List.NoDup (akeys (p ++ d)) -> dict_union (p ++ d) e = p ++ e.
Proof.
  revert p d. unfold dict_union. induction e as [|[k v] e IH]; intros p [|[k' w] d]; try done.
  intros [= -> Hk] Hn. simpl. rewrite aset_middle.
  2: { unfold akeys in *. rewrite map_app in Hn. simpl in Hn. apply NoDup_remove_2 in Hn. intros Hin. apply Hn, in_or_app. by left. }
  change (p ++ (k, v) :: d) with (p ++ [(k, v)] ++ d). rewrite app_assoc, IH, <- app_assoc; [done..|].
  unfold akeys in *. by rewrite <- app_assoc, !map_app in *.
Qed.

Lemma within_ceiling_key ceilings kv : within_ceiling ceilings kv = true -> In kv.1 (akeys ceilings).
Proof.
  unfold within_ceiling. destruct kv.2; try done. destruct (alookup kv.1 ceilings) eqn:E; [|done]. intros _.
  apply alookup_Some_key. by eexists.
Qed.

Lemma within_ceiling_spec ceilings k v :
  within_ceiling ceilings (k, v) = true -> List.NoDup (akeys ceilings) ->
  forall c, In (k, c) ceilings -> exists n, v = JInt n /\ 1 <= n <= c.
Proof.
  unfold within_ceiling. simpl. destruct v as [| |n| | |]; try done. destruct (alookup k ceilings) as [c'|] eqn:E; [|done].
  intros Hb Hn c Hc. bool_hyps. apply alookup_NoDup in Hc; [|done]. rewrite E in Hc. injection Hc as ->.
  exists n. split; [done|lia].
Qed.

Lemma ceilings_nodup : List.NoDup (akeys CHILD_LIMIT_CEILINGS).
Proof. repeat constructor; simpl; intuition discriminate. Qed.

Lemma child_limits_bounded v limits : child_limits v = Ok limits -> limits_bounded limits.
Proof.
  unfold child_limits. intros E. res_inv. bool_hyps.
  match goal with H : forallb _ _ = true |- _ => pose proof (proj1 (forallb_forall _ _) H) as Hf end.
  assert (Forall (fun kv => within_ceiling CHILD_LIMIT_CEILINGS kv = true)
    (dict_union CHILD_LIMITS (jfields (jget_def v "limits" (JObj []))))) as Hall.
  { apply dict_union_forall; [by repeat constructor|]. apply Forall_forall. intros kv Hkv. by apply Hf, list_elem_of_In. }
  assert (akeys (dict_union CHILD_LIMITS (jfields (jget_def v "limits" (JObj [])))) = akeys CHILD_LIMITS) as Hkeys.
  { apply dict_union_keys, Forall_forall. intros kv Hkv. apply (within_ceiling_key CHILD_LIMIT_CEILINGS).
    by apply Hf, list_elem_of_In. }
  split; [exact Hkeys|]. intros key ceiling Hin. unfold jget. simpl.
  assert (In key (akeys (dict_union CHILD_LIMITS (jfields (jget_def v "limits" (JObj [])))))) as Hk
    by (rewrite Hkeys; apply (in_map fst) in Hin; exact Hin).
  apply alookup_Some_key in Hk as [x Hx]. rewrite Hx. simpl. apply alookup_In in Hx.
  rewrite Forall_forall in Hall. apply list_elem_of_In, Hall in Hx.
  by apply (within_ceiling_spec CHILD_LIMIT_CEILINGS key); [|apply ceilings_nodup|].
Qed.

(** The limits of an admitted policy are complete, so that reading them again
    gives the same limits. *)
Lemma child_limits_frozen v limits policy :
  child_limits v = Ok limits -> jget_def policy "limits" (JObj []) = limits -> child_limits policy = Ok limits.
Proof.
  intros E Hp. pose proof (child_limits_bounded _ _ E) as [Hkeys Hb]. unfold child_limits in *. rewrite Hp. res_inv.
  cbn [jfields] in *. set (l := dict_union CHILD_LIMITS _) in *.
  assert (Forall (fun kv => within_ceiling CHILD_LIMIT_CEILINGS kv = true) l) as Hall.
  { apply Forall_forall. intros [k x] Hin%list_elem_of_In.
    assert (List.NoDup (akeys l)) as Hn by (change (akeys l) with (jkeys (JObj l)); rewrite Hkeys; apply ceilings_nodup).
    assert (In k (akeys CHILD_LIMIT_CEILINGS)) as Hk by (rewrite <- Hkeys; apply (in_map fst) in Hin; exact Hin).
    apply alookup_Some_key in Hk as [c Hc]. destruct (Hb k c) as (n & Hg & Hle); [by apply alookup_In|].
    unfold jget in Hg. simpl in Hg. rewrite (alookup_NoDup _ _ _ Hn Hin) in Hg. simpl in Hg. subst x.
    unfold within_ceiling. simpl fst. simpl snd. rewrite Hc. apply andb_true_intro. split; apply Z.leb_le; lia. }
  assert (unknown_keys (JObj l) (akeys CHILD_LIMIT_CEILINGS) = []) as ->.
  { unfold unknown_keys. rewrite Hkeys. reflexivity. }
  rewrite (proj2 (forallb_forall _ _)). 2: { intros kv Hkv. rewrite Forall_forall in Hall. by apply Hall, list_elem_of_In. }
  simpl. do 2 f_equal. apply (dict_union_same [] CHILD_LIMITS l); [symmetry; exact Hkeys|apply ceilings_nodup].
Qed.

(** ** Stages *)

(** An input is a root object of the policy or an output of an earlier stage. *)
Definition resolvable (inputs : list json) (earlier : list string) (ref : json) : Prop :=
  if jhas ref "root_object_id" then json_in (jget ref "root_object_id") inputs = true
  else exists producer, jget ref "producer_stage" = JStr producer /\ In producer earlier.

Lemma keys_are_has j l k : keys_are j l = true -> jhas j k = str_in k l.
Proof.
  unfold keys_are. intros [Hk Hl]%andb_true_iff. apply eq_true_iff_eq. rewrite str_in_spec. rewrite forallb_forall in Hk, Hl.
  split; [|apply Hl]. intros Hj%jhas_key. by apply str_in_spec, Hk.
Qed.

Record stage_sound (caps inputs : list json) (earlier : list string) (stage : json) (name : string) : Prop := {
  ss_name : jget stage "name" = JStr name;
  ss_new : ~ In name earlier;
  ss_capability : json_in (pin_of stage) caps = true;
  ss_inputs : Forall (resolvable inputs earlier) (list_of (jget stage "inputs")) }.

(** The stages, in the order in which they are declared. *)
Inductive runnable (caps inputs : list json) : list string -> list json -> Prop :=
  | runnable_none : runnable caps inputs [] []
  | runnable_next names stages stage name :
      runnable caps inputs names stages -> stage_sound caps inputs names stage name ->
      runnable caps inputs (names ++ [name]) (stages ++ [stage]).

Lemma stage_inputs_resolvable inputs preceding refs names names' :
  foldM (stage_input inputs preceding) names refs = Ok names' -> Forall (resolvable inputs preceding) refs.
Proof.
  revert names. induction refs as [|ref refs IH]; intros names E; simpl in E; [by constructor|]. res_inv.
  constructor; [|by eapply IH]. match goal with H : stage_input _ _ _ _ = Ok _ |- _ => unfold stage_input in H; rename H into Hs end.
  destruct (jget ref "name"); try done. destruct (_ || _ || _ || _); [done|].
  unfold resolvable. destruct (keys_are ref ["name"; "root_object_id"]) eqn:Ek.
  { rewrite (keys_are_has _ _ "root_object_id" Ek). res_inv. bool_hyps. done. }
  destruct (keys_are ref ["name"; "producer_stage"; "output_port"]) eqn:Ep; [|done].
  rewrite (keys_are_has _ _ "root_object_id" Ep). res_inv. bool_hyps. simpl.
  destruct (jget ref "producer_stage") as [| | |producer| |]; try done. exists producer. split; [done|].
  by apply str_in_spec.
Qed.

Lemma policy_stage_sound caps targets inputs names stages stage st :
  runnable caps inputs names stages -> policy_stage caps targets inputs (names, stages) stage = Ok st ->
  runnable caps inputs st.1 st.2.
Proof.
  intros Hr E. unfold policy_stage in E. res_inv. destruct (jget stage "name") as [| | |name| |] eqn:En; try done.
  res_inv. bool_hyps. simpl. constructor; [done|]. constructor.
  - by rewrite !jget_set_ne.
  - by apply str_in_false.
  - unfold pin_of. by rewrite !jget_set_ne by done.
  - rewrite jget_set_eq. by eapply stage_inputs_resolvable.
Qed.

Lemma policy_stages_sound caps targets inputs l st st' :
  runnable caps inputs st.1 st.2 -> foldM (policy_stage caps targets inputs) st l = Ok st' ->
  runnable caps inputs st'.1 st'.2.
Proof.
  revert st. induction l as [|stage l IH]; intros [names stages] Hr E; simpl in E; [by injection E as <-|].
  apply res_bind_Ok in E as (st & Es & E). eapply IH; [|exact E]. by eapply policy_stage_sound.
Qed.

(** ** The policy *)

(** The parts of a policy, by name. *)
Record policy_sound (policy : json) (caps targets inputs : list json) : Prop := {
  ps_caps : jget policy "capabilities" = JArr caps /\ (1 <= length caps <= 32)%nat /\
    NoDup (map (fun c => text_of (jget c "capability_id")) caps);
  ps_targets : jget policy "targets" = JArr targets /\ (1 <= length targets <= 32)%nat /\
    Forall (fun t => exists v, normalize_execution_target v = Ok t) targets;
  ps_inputs : jget policy "input_object_ids" = JArr inputs /\ (length inputs <= 256)%nat /\
    Forall (fun i => prefixed_object_id i = true) inputs;
  ps_limits : limits_bounded (jget policy "limits") /\ child_limits policy = Ok (jget policy "limits");
  ps_stages : jhas policy "stages" = true -> exists names stages,
    jget policy "stages" = JArr stages /\ runnable caps inputs names stages;
  ps_final : jhas policy "final_publication" = true -> exists stages last_stage verify,
    let final := jget policy "final_publication" in
    jget policy "stages" = JArr (stages ++ [last_stage]) /\
    py_eq (jget final "stage") (jget last_stage "name") = true /\
    In verify stages /\ py_eq (jget final "verify_stage") (jget verify "name") = true /\
    exists ref, list_of (jget last_stage "inputs") = [ref] /\
      py_eq (jget ref "producer_stage") (jget final "verify_stage") = true /\
      py_eq (jget ref "output_port") (jget final "verify_output_port") = true }.

Lemma nonempty_bounded_ok n v l : nonempty_bounded n v = Some l -> v = JArr l /\ (1 <= length l <= n)%nat.
Proof.
  unfold nonempty_bounded, bounded_list. destruct v as [| | | |m|]; try done.
  destruct (length m <=? n)%nat eqn:E; [|done]. apply Nat.leb_le in E. destruct m; [done|]. intros [= <-]. split; [done|].
  simpl in *. lia.
Qed.

Lemma bounded_or_ok {A} (v : option A) m a : bounded_or v m = Ok a -> v = Some a.
Proof. destruct v; [by intros [= ->]|done]. Qed.

Lemma alookup_snoc (k k' : string) (v : json) l :
  alookup k (l ++ [(k', v)]) =
  match alookup k l with Some x => Some x | None => if String.eqb k k' then Some v else None end.
Proof. induction l as [|[k1 v1] l IH]; simpl; [done|]. by destruct (String.eqb k k1). Qed.

Lemma optional_part_keys value key check policy policy' :
  optional_part value key check policy = Ok policy' ->
  forall k, k <> key -> alookup k policy' = alookup k policy.
Proof.
  unfold optional_part. destruct (jhas value key); [|by intros [= <-]]. intros E k Hk. res_inv.
  rewrite alookup_snoc, (proj2 (String.eqb_neq k key)) by done. by destruct (alookup k policy).
Qed.

Lemma optional_part_new value key check policy policy' :
  optional_part value key check policy = Ok policy' -> alookup key policy = None ->
  match alookup key policy' with
  | Some part => check (jget value key) = Ok part
  | None => policy' = policy
  end.
Proof.
  unfold optional_part. destruct (jhas value key); [|intros [= <-] ->; done]. intros E Hn. res_inv.
  by rewrite alookup_snoc, Hn, String.eqb_refl.
Qed.

Lemma policy_base_ok value caps targets inputs :
  policy_base value = Ok (caps, targets, inputs) ->
  ((1 <= length caps <= 32)%nat /\ NoDup (map (fun c => text_of (jget c "capability_id")) caps)) /\
  ((1 <= length targets <= 32)%nat /\ Forall (fun t => exists v, normalize_execution_target v = Ok t) targets) /\
  (length inputs <= 256)%nat /\ Forall (fun i => prefixed_object_id i = true) inputs.
Proof.
  unfold policy_base. intros E. res_inv. simplify_eq.
  repeat match goal with
  | H : bounded_or _ _ = Ok _ |- _ => apply bounded_or_ok in H
  | H : nonempty_bounded _ _ = Some _ |- _ => apply nonempty_bounded_ok in H as [_ H]
  | H : mapM_res _ _ = Ok _ |- _ => apply mapM_res_Forall2 in H
  end.
  bool_hyps. repeat match goal with H : unique_strings _ = true |- _ => apply bool_decide_eq_true in H end.
  repeat match goal with H : Forall2 _ ?l ?m |- _ => pose proof (Forall2_length _ _ _ H); revert H end.
  intros Hc Ht. split; [split; [lia|done]|]. split; [split; [lia|]|].
  - apply Forall_forall. intros t Hin. apply list_elem_of_lookup in Hin as [i Hi].
    destruct (Forall2_lookup_r _ _ _ _ _ Ht Hi) as (v & _ & Hv). by exists v.
  - destruct (bounded_list 256 _) as [l|] eqn:El; [|done]. destruct (forallb _ l) eqn:Ef; [|done]. simplify_eq.
    split.
    + unfold bounded_list in El. destruct (jget value "input_object_ids"); try done.
      destruct (_ <=? 256)%nat eqn:Eb; [|done]. simplify_eq. by apply Nat.leb_le.
    + apply Forall_forall. intros i Hi%list_elem_of_In. by apply (proj1 (forallb_forall _ _) Ef).
Qed.

Lemma final_publication_ok stages final f :
  final_publication (Some stages) final = Ok f -> f = final /\ stages <> [] ->
  exists before last_stage verify, stages = before ++ [last_stage] /\
    py_eq (jget final "stage") (jget last_stage "name") = true /\
    In verify before /\ py_eq (jget final "verify_stage") (jget verify "name") = true /\
    exists ref, list_of (jget last_stage "inputs") = [ref] /\
      py_eq (jget ref "producer_stage") (jget final "verify_stage") = true /\
      py_eq (jget ref "output_port") (jget final "verify_output_port") = true.
Proof.
  intros E [_ Hne]. destruct (exists_last Hne) as (before & last_stage & ->). unfold final_publication in E.
  rewrite last_snoc, removelast_last in E. cbn [default id] in E. res_inv. bool_hyps.
  match goal with H : json_in _ _ = true |- _ => unfold json_in in H; apply existsb_exists in H as (n & Hn & Heq) end.
  apply in_map_iff in Hn as (verify & <- & Hv). exists before, last_stage, verify.
  split; [done|]. split; [done|]. split; [done|]. split; [done|].
  repeat match goal with H : (_ =? _)%nat = true |- _ => apply Nat.eqb_eq in H end.
  remember (list_of (jget last_stage "inputs")) as refs eqn:El. destruct refs as [|ref [|? ?]]; try done. exists ref. split; [done|].
  match goal with H : length (List.filter _ [ref]) = 1%nat |- _ => simpl in H; destruct (_ && _) eqn:Eb; [|done] end.
  by bool_hyps.
Qed.

Lemma child_policy_sound value policy :
  child_policy value = Ok policy -> exists caps targets inputs, policy_sound policy caps targets inputs.
Proof.
  unfold child_policy. intros E. apply res_bind_Ok in E as ([[caps targets] inputs] & Eb & E).
  apply res_bind_Ok in E as (limits & El & E). cbv zeta in E. set (base := [_; _; _; _]) in E.
  apply res_bind_Ok in E as (p1 & E1 & E). apply res_bind_Ok in E as (p2 & E2 & E).
  apply res_bind_Ok in E as (p3 & E3 & E). apply res_bind_Ok in E as (p4 & E4 & E). injection E as <-.
  pose proof (optional_part_keys _ _ _ _ _ E1) as K1. pose proof (optional_part_keys _ _ _ _ _ E2) as K2.
  pose proof (optional_part_keys _ _ _ _ _ E3) as K3. pose proof (optional_part_keys _ _ _ _ _ E4) as K4.
  assert (forall k, k <> "discovery_grant" -> k <> "recoverable_outputs" -> k <> "stages" -> k <> "final_publication" ->
            alookup k p4 = alookup k base) as Hbase by (intros k ? ? ? ?; by rewrite K4, K3, K2, K1).
  apply policy_base_ok in Eb as (Hc & Ht & Hi). exists caps, targets, inputs. constructor.
  - unfold jget. simpl. by rewrite Hbase.
  - unfold jget. simpl. by rewrite Hbase.
  - unfold jget. simpl. by rewrite Hbase.
  - assert (jget (JObj p4) "limits" = limits) as -> by (unfold jget; simpl; by rewrite Hbase).
    split; [by eapply child_limits_bounded|]. eapply child_limits_frozen; [exact El|].
    unfold jget_def. simpl. by rewrite Hbase.
  - unfold jhas. simpl. rewrite K4 by done.
    pose proof (optional_part_new _ _ _ _ _ E3) as Hs. rewrite K2, K1 in Hs by done. specialize (Hs eq_refl).
    destruct (alookup "stages" p3) as [part|] eqn:Es; [|done]. intros _.
    apply res_bind_Ok in Hs as (stages & Hs & [= <-]). unfold policy_stages in Hs.
    apply res_bind_Ok in Hs as (declared & _ & Hs). apply res_bind_Ok in Hs as ([names l] & Hs & [= ->]).
    exists names, stages. unfold jget. simpl. rewrite K4, Es by done. split; [done|].
    by apply (policy_stages_sound _ _ _ _ ([], []) (names, stages) (runnable_none _ _)) in Hs.
  - unfold jhas. simpl. pose proof (optional_part_new _ _ _ _ _ E4) as Hf. rewrite K3, K2, K1 in Hf by done.
    specialize (Hf eq_refl). destruct (alookup "final_publication" p4) as [part|] eqn:Ef; [|done]. intros _.
    destruct (alookup "stages" p3) as [[| | | |stages|]|] eqn:Es; try done.
    assert (part = jget value "final_publication") as ->.
    { clear -Hf. unfold final_publication in Hf. res_inv. by destruct (effect_selectors _) as [|? [|? ?]]; res_inv. }
    destruct (final_publication_ok _ _ _ Hf) as (before & lst & verify & -> & Hrest).
    { split; [done|]. intros ->. unfold final_publication in Hf. simpl in Hf. res_inv. }
    assert (jget (JObj p4) "stages" = JArr (before ++ [lst])) as -> by (unfold jget; simpl; by rewrite K4, Es by done).
    assert (jget (JObj p4) "final_publication" = jget value "final_publication") as ->
      by (unfold jget at 1; simpl; by rewrite Ef).
    by exists before, lst, verify.
Qed.


(** ** An instance *)

Definition sample_target : json := JObj [("kind", JStr "default")].
Definition sample_policy : json :=
  let digest := JStr ("sha256:" +:+ sha256 "render") in
  let stage name inputs := JObj [("name", JStr name); ("capability_id", JStr "render"); ("capability_digest", digest);
                                 ("target", sample_target); ("inputs", JArr inputs)] in
  let root := JStr ("sha256:" +:+ sha256 "root") in
  JObj [("capabilities", JArr [JObj [("capability_id", JStr "render"); ("capability_digest", digest)]]);
        ("targets", JArr [sample_target]); ("input_object_ids", JArr [root]);
        ("limits", JObj [("max_children", JInt 4096)]);
        ("stages", JArr [stage "draft" [JObj [("name", JStr "source"); ("root_object_id", root)]];
                         stage "publish" [JObj [("name", JStr "final"); ("producer_stage", JStr "draft");
                                                ("output_port", JStr "out")]]]);
        ("final_publication", JObj [("stage", JStr "publish"); ("verify_stage", JStr "draft");
           ("verify_output_port", JStr "out");
           ("effect", JObj [("effect_type", JStr "generation.publish_v1");
              ("payload", JObj [("groups", JArr [JObj [("selectors", JArr [JObj [("output_port", JStr "out")]])]])])])])].

