(* ===== verification/Invalidation.v ===== *)
(** * Invalidation of shot-owned media

    Model of shot_dependencies.py.  The report of a promotion sorts the items
    of a shot into current, stale and blocked ones.  Staleness spreads from a
    source item to the deterministic items made of it, by a loop that runs to
    a fixed point; [outdated] is the same relation as an inductive predicate,
    and the theorems say that the loop ends and that the report is about
    exactly the outdated items.

    Dictionaries built from the inputs are association lists with Python's
    last-write rule; lower-casing is that of ASCII. *)

From Stdlib Require Import ZArith String Ascii List Bool Lia.
From stdpp Require Import base list strings.
From S2P Require Import Prelude Json.

Open Scope Z_scope.

(** ** Records *)

Definition DETERMINISTIC : list string := ["plate"; "render_plate"; "proxy"; "review_proxy"; "timeline_asset"].
Definition GENERATIVE : list string := ["transition"; "generative_transition"; "continuity"; "continuity_input"].

Definition records (value : json) : list json :=
  match value with
  | JObj kvs => List.filter is_dict (map snd kvs)
  | JArr l => List.filter is_dict l
  | _ => []
  end.

Definition meta (record : json) : json :=
  let value := jget record "metadata" in if is_dict value then value else record.

(** [_string] *)
Definition string_of (value : json) : option string :=
  match value with JStr s => if nonempty s then Some s else None | _ => None end.

(** [d.get(k1) or d.get(k2) or ...]: the last one when none is truthy. *)
Fixpoint get_or (record : json) (key : string) (more : list string) : json :=
  match more with
  | [] => jget record key
  | k :: more' => py_or (jget record key) (get_or record k more')
  end.

Definition kind_of (record : json) : string :=
  str_lower (py_text (py_or (get_or (meta record) "kind" ["item_kind"; "dependency_kind"; "role"]) (JStr EmptyString))).

Definition deterministic (record : json) : bool := str_in (kind_of record) DETERMINISTIC.
Definition classified (record : json) : bool := str_in (kind_of record) (DETERMINISTIC ++ GENERATIVE).

Definition id_value (record : json) : json := get_or record "id" ["item_id"].
Definition id_of (record : json) : option string := string_of (id_value record).

Record descriptor := Descriptor {
  ds_source_item_id : option string; ds_source_media_id : option string; ds_source_content_sha256 : option string }.

Definition descriptor_of (record : json) : descriptor :=
  let m := meta record in
  Descriptor (string_of (get_or m "source_item_id" ["source_item"]))
             (string_of (get_or m "source_media_id" ["source_media"; "input_media_id"]))
             (string_of (get_or m "source_content_sha256"
                           ["source_hash"; "source_content_hash"; "input_content_sha256"])).

(** ** Mismatches: the field, what it expects and what is there *)

Definition mismatch : Type := string * string * string.

Definition hash_text (h : option string) : string := default "None" h.

Fixpoint first_some {A B} (f : A -> option B) (l : list A) : option B :=
  match l with
  | [] => None
  | x :: r => match f x with Some y => Some y | None => first_some f r end
  end.

(** What the analysis knows of the inputs. *)
Record closure := Closure {
  cl_items : list json; cl_item_by_id : list (string * json); cl_media_hashes : list (string * string);
  cl_active_item : option string; cl_active_media : option string; cl_superseded : list string }.

(** A pinned medium that was superseded, or whose content is not the expected
    one. *)
Definition pin_mismatch (c : closure) (media_field hash_field : string) (media expected : option string)
  : option mismatch :=
  match media with
  | None => None
  | Some id =>
      match cl_active_media c, str_in id (cl_superseded c) with
      | Some active, true => Some (media_field, id, active)
      | _, _ =>
          match expected with
          | Some e => if negb (bool_decide (alookup id (cl_media_hashes c) = Some e))
                      then Some (hash_field, e, hash_text (alookup id (cl_media_hashes c))) else None
          | None => None
          end
      end
  end.

Definition endpoints : list string := ["from"; "to"; "start"; "end"; "parent"; "input"].

Definition endpoint_check (c : closure) (m : json) (endpoint : string) : option mismatch :=
  pin_mismatch c (endpoint +:+ "_media_id") (endpoint +:+ "_content_sha256")
    (string_of (get_or m (endpoint +:+ "_media_id") [endpoint +:+ "_media"]))
    (string_of (get_or m (endpoint +:+ "_content_sha256") [endpoint +:+ "_content_hash"; endpoint +:+ "_hash"])).

Definition endpoint_mismatch (c : closure) (record : json) : option mismatch :=
  first_some (endpoint_check c (meta record)) endpoints.

(** The mismatch of the source item, given the items known to be stale. *)
Definition source_mismatch (c : closure) (stale : list string) (d : descriptor) : option mismatch :=
  match ds_source_item_id d with
  | None => None
  | Some expected =>
      match alookup expected (cl_item_by_id c) with
      | None => Some ("source_item_id", expected, "missing")
      | Some source =>
          if str_in expected stale then Some ("source_item_id", expected, "stale") else
          match cl_active_item c with
          | Some active =>
              if String.eqb (kind_of source) "primary_visual" && negb (String.eqb expected active)
              then Some ("source_item_id", expected, active) else None
          | None => None
          end
      end
  end.

Definition content_mismatch (c : closure) (d : descriptor) : option mismatch :=
  match ds_source_media_id d, ds_source_content_sha256 d with
  | Some media, Some hash =>
      if negb (bool_decide (alookup media (cl_media_hashes c) = Some hash))
      then Some ("source_content_sha256", hash, hash_text (alookup media (cl_media_hashes c))) else None
  | _, _ => None
  end.

(** [_mismatch] *)
Definition find_mismatch (c : closure) (stale : list string) (d : descriptor) : option mismatch :=
  match source_mismatch c stale d with
  | Some m => Some m
  | None => content_mismatch c d
  end.

(** [_mismatch(...) or _endpoint_mismatch(...)] *)
Definition item_mismatch (c : closure) (stale : list string) (item : json) : option mismatch :=
  match find_mismatch c stale (descriptor_of item) with
  | Some m => Some m
  | None => endpoint_mismatch c item
  end.

(** ** The inputs *)

Definition media_hash (acc : list (string * string)) (value : json) : list (string * string) :=
  match string_of (get_or value "id" ["media_id"; "object_id"]),
        string_of (get_or value "content_hash" ["content_sha256"; "digest"]) with
  | Some id, Some hash => aset id hash acc
  | _, _ => acc
  end.

Definition index_item (acc : list (string * json)) (item : json) : list (string * json) :=
  match id_of item with Some id => aset id item acc | None => acc end.

Definition with_status (status : string) (item : json) : bool :=
  String.eqb (kind_of item) "primary_visual" && py_eq (jget (meta item) "status") (JStr status).

Definition find_active (items : list json) : option string :=
  option_map (fun item => py_text (id_value item)) (find (with_status "primary") items).

Definition active_media_of (items : list json) (active : option string) : option string :=
  match active with
  | None => None
  | Some a =>
      match find (fun item => String.eqb (py_text (id_value item)) a) items with
      | Some item => string_of (jget item "media_id")
      | None => None
      end
  end.

Definition superseded_media (items : list json) : list string :=
  flat_map (fun item => if with_status "superseded" item
                        then match string_of (jget item "media_id") with Some s => [s] | None => [] end else [])
    items.

Definition close_inputs (items media : list json) : closure :=
  let active := find_active items in
  Closure items (fold_left index_item items []) (fold_left media_hash media []) active
    (active_media_of items active) (superseded_media items).

(** ** The loop *)

Definition mark_stale (c : closure) (stale : list string) (item : json) : list string :=
  if negb (deterministic item) then stale else
  match item_mismatch c stale item, id_of item with
  | Some _, Some id => if str_in id stale then stale else stale ++ [id]
  | _, _ => stale
  end.

Definition stale_round (c : closure) (stale : list string) : list string :=
  fold_left (mark_stale c) (cl_items c) stale.

Fixpoint stale_loop (fuel : nat) (c : closure) (stale : list string) : option (list string) :=
  match fuel with
  | O => None
  | S fuel' =>
      let next := stale_round c stale in
      if Nat.eqb (length next) (length stale) then Some next else stale_loop fuel' c next
  end.

(** Every round but the last adds the id of an item. *)
Definition stale_items (c : closure) : option (list string) := stale_loop (S (length (cl_items c))) c [].

(** ** The report *)

Record report := Report {
  rp_stale : list json; rp_blocked_on_generation : list json; rp_ready_to_compile : list json; rp_current : list json }.

Definition add_if_some (key : string) (v : option string) (row : json) : json :=
  match v with Some s => jset row key (JStr s) | None => row end.

Definition entry (record : json) (reason : string) (m : mismatch) : json :=
  let '(field, expected, actual) := m in
  add_if_some "media_id" (string_of (jget record "media_id"))
    (add_if_some "item_id" (id_of record)
       (JObj [("kind", JStr (kind_of record)); ("reason", JStr reason); ("field", JStr field);
              ("expected", JStr expected); ("actual", JStr actual)])).

Definition opt_text (s : option string) : json := match s with Some s => JStr s | None => JNull end.

Definition current_row (item : json) : json :=
  JObj [("kind", JStr (kind_of item)); ("item_id", opt_text (id_of item))].

Definition item_reason (item : json) : string :=
  if deterministic item then "frozen deterministic source no longer matches current input"
  else "generative dependency requires explicit regeneration".

Definition report_item (c : closure) (stale : list string) (r : report) (item : json) : report :=
  if negb (classified item) then r else
  match item_mismatch c stale item with
  | None => Report (rp_stale r) (rp_blocked_on_generation r) (rp_ready_to_compile r) (rp_current r ++ [current_row item])
  | Some m =>
      let row := entry item (item_reason item) m in
      if deterministic item
      then Report (rp_stale r ++ [row]) (rp_blocked_on_generation r) (rp_ready_to_compile r) (rp_current r)
      else Report (rp_stale r) (rp_blocked_on_generation r ++ [row]) (rp_ready_to_compile r) (rp_current r)
  end.

(** Relations that name an input of the shot. *)
Definition relation_key (relation : json) : list string :=
  [py_text (get_or relation "from_media_id" ["from_object_id"]); py_text (get_or relation "to_media_id" ["to_object_id"]);
   py_text (jget relation "kind"); py_text (jget relation "ordinal")].

Definition relation_mismatch (c : closure) (relation : json) : option mismatch :=
  let metadata := if is_dict (jget relation "metadata") then jget relation "metadata" else JObj [] in
  pin_mismatch c "source_media_id" "source_content_sha256"
    (string_of (py_or (get_or metadata "source_media_id" ["source_media"])
                      (get_or relation "to_media_id" ["to_object_id"])))
    (string_of (get_or metadata "source_content_sha256" ["content_sha256"; "content_hash"])).

Definition relation_row (relation : json) (m : mismatch) : json :=
  jset (jset (jset (entry relation "continuity input requires explicit regeneration" m) "kind" (JStr "continuity_input"))
         "from_media_id" (get_or relation "from_media_id" ["from_object_id"]))
    "to_media_id" (get_or relation "to_media_id" ["to_object_id"]).

Definition report_relation (c : closure) (acc : list (list string) * report) (relation : json)
  : list (list string) * report :=
  let '(seen, r) := acc in
  if negb (py_eq (jget relation "kind") (JStr "uses_as_input")) then acc else
  let key := relation_key relation in
  if existsb (fun k => bool_decide (k = key)) seen then acc else
  (seen ++ [key],
   match relation_mismatch c relation with
   | None => r
   | Some m => Report (rp_stale r) (rp_blocked_on_generation r ++ [relation_row relation m]) (rp_ready_to_compile r)
                 (rp_current r)
   end).

(** The pins of the timeline. *)
Definition or_else (a b : option string) : option string := match a with Some _ => a | None => b end.

Definition asset_mismatch (c : closure) (stale : list string) (asset : json) : option mismatch :=
  match find_mismatch c stale (descriptor_of asset) with
  | Some m => Some m
  | None =>
      pin_mismatch c "media_id" "content_sha256"
        (or_else (ds_source_media_id (descriptor_of asset)) (string_of (jget asset "media_id")))
        (or_else (ds_source_content_sha256 (descriptor_of asset))
           (string_of (get_or asset "content_sha256" ["content_hash"])))
  end.

Definition asset_id_of (asset : json) : json := opt_text (string_of (get_or asset "id" ["asset_id"])).

Definition report_asset (c : closure) (stale : list string) (r : report) (asset : json) : report :=
  match asset_mismatch c stale asset with
  | None => Report (rp_stale r) (rp_blocked_on_generation r) (rp_ready_to_compile r)
              (rp_current r ++ [JObj [("kind", JStr "timeline_asset"); ("asset_id", asset_id_of asset)]])
  | Some m =>
      let row := jset (jset (entry asset "timeline asset pin no longer matches current media" m)
                         "kind" (JStr "timeline_asset")) "asset_id" (asset_id_of asset) in
      Report (rp_stale r ++ [row]) (rp_blocked_on_generation r) (rp_ready_to_compile r) (rp_current r)
  end.

Definition row_key (row : json) : string * string :=
  (py_text (py_or (get_or row "item_id" ["asset_id"]) (JStr EmptyString)), py_text (jget row "kind")).

Definition row_leb (a b : json) : bool :=
  let '(x, k) := row_key a in
  let '(y, l) := row_key b in
  if String.eqb x y then String.leb k l else String.leb x y.

Definition sort_report (r : report) : report :=
  Report (sort row_leb (rp_stale r)) (sort row_leb (rp_blocked_on_generation r)) (sort row_leb (rp_ready_to_compile r))
    (sort row_leb (rp_current r)).

Definition media_relations_of (media : list json) (relations : json) : list json :=
  records relations ++ flat_map (fun value => records (jget value "relations")) media.

Definition analyze_invalidation (shot_items media timeline_assets media_relations : json) : option report :=
  let items := records shot_items in
  let media_records := records media in
  let c := close_inputs items media_records in
  match stale_items c with
  | None => None
  | Some stale =>
      let r := fold_left (report_item c stale) items (Report [] [] [] []) in
      let r := (fold_left (report_relation c) (media_relations_of media_records media_relations) ([], r)).2 in
      let r := fold_left (report_asset c stale) (records timeline_assets) r in
      Some (sort_report r)
  end.

(** ** What is outdated *)

(** An item is outdated by what it pins itself, or by a deterministic source
    item that is outdated. *)
Inductive outdated (c : closure) : json -> Prop :=
  | outdated_own item : item_mismatch c [] item <> None -> outdated c item
  | outdated_source item source id :
      In source (cl_items c) -> deterministic source = true -> id_of source = Some id ->
      ds_source_item_id (descriptor_of item) = Some id -> outdated c source -> outdated c item.

Section Loop.
Context (c : closure).
Context (indexed : forall item id, In item (cl_items c) -> id_of item = Some id -> is_Some (alookup id (cl_item_by_id c))).

(** The ids of outdated deterministic items. *)
Definition outdated_id (id : string) : Prop :=
  exists source, In source (cl_items c) /\ deterministic source = true /\ id_of source = Some id /\ outdated c source.

Lemma item_mismatch_split stale item :
  item_mismatch c stale item <> None <->
  item_mismatch c [] item <> None \/
  exists id, ds_source_item_id (descriptor_of item) = Some id /\ In id stale /\ is_Some (alookup id (cl_item_by_id c)).
Proof.
  unfold item_mismatch, find_mismatch, source_mismatch.
  destruct (ds_source_item_id (descriptor_of item)) as [id|]; [|split; [intros ?; by left|]; intros [Hm|(? & ? & _)]; [exact Hm|discriminate]].
  destruct (alookup id (cl_item_by_id c)) as [source|] eqn:E.
  - destruct (str_in id stale) eqn:Es.
    + apply str_in_spec in Es. split; [intros _; right; by exists id|done].
    + split; [intros ?; by left|]. intros [?|(id' & [= <-] & Hin & _)]; [done|].
      apply str_in_spec in Hin. congruence.
  - split; [intros ?; by left|done].
Qed.

Definition sound (stale : list string) : Prop := forall id, In id stale -> outdated_id id.

Lemma item_mismatch_outdated stale item : sound stale -> item_mismatch c stale item <> None -> outdated c item.
Proof.
  intros Hs Hm. apply item_mismatch_split in Hm as [Hm|(id & Hd & Hin & _)]; [by constructor|].
  destruct (Hs id Hin) as (source & ? & ? & ? & ?). by eapply outdated_source.
Qed.

Lemma mark_stale_cases stale item :
  mark_stale c stale item = stale \/
  exists id, deterministic item = true /\ item_mismatch c stale item <> None /\ id_of item = Some id /\
             ~ In id stale /\ mark_stale c stale item = stale ++ [id].
Proof.
  unfold mark_stale. destruct (deterministic item); simpl; [|by left].
  destruct (item_mismatch c stale item); [|by left]. destruct (id_of item) as [id|]; [|by left].
  destruct (str_in id stale) eqn:E; [by left|]. right. exists id. repeat split; try done.
  intros Hin. apply str_in_spec in Hin. congruence.
Qed.

(** What every round keeps: the ids found so far, each once. *)
Record progress (stale : list string) : Prop := Progress {
  pr_sound : sound stale; pr_distinct : List.NoDup stale; pr_ids : forall id, In id stale -> In id (omap id_of (cl_items c)) }.

Lemma mark_stale_progress stale item : In item (cl_items c) -> progress stale -> progress (mark_stale c stale item).
Proof.
  intros Hin [Hs Hd Hi]. destruct (mark_stale_cases stale item) as [->|(id & Hdet & Hm & Hid & Hnew & ->)]; [done|].
  split.
  - intros x Hx. apply in_app_or in Hx as [Hx|[<-|[]]]; [auto|].
    exists item. repeat split; try done. by eapply item_mismatch_outdated.
  - apply List.NoDup_app; [done|repeat constructor; by intros []|]. by intros x Hx [<-|[]].
  - intros x Hx. apply in_app_or in Hx as [Hx|[<-|[]]]; [auto|].
    apply list_elem_of_In, list_elem_of_omap. exists item. by rewrite list_elem_of_In.
Qed.

Lemma stale_fold_progress items stale :
  incl items (cl_items c) -> progress stale -> progress (fold_left (mark_stale c) items stale).
Proof.
  revert stale. induction items as [|item items IH]; intros stale Hi Hp; simpl; [done|].
  apply IH; [intros x Hx; apply Hi; by right|]. apply mark_stale_progress; [apply Hi; by left|done].
Qed.

Lemma stale_fold_prefix items stale : exists more, fold_left (mark_stale c) items stale = stale ++ more.
Proof.
  revert stale. induction items as [|item items IH]; intros stale; simpl; [exists []; by rewrite app_nil_r|].
  destruct (IH (mark_stale c stale item)) as [more ->].
  destruct (mark_stale_cases stale item) as [->|(id & _ & _ & _ & _ & ->)]; [by exists more|].
  exists (id :: more). by rewrite <- app_assoc.
Qed.

Lemma stale_round_grows stale : (length stale <= length (stale_round c stale))%nat.
Proof. unfold stale_round. destruct (stale_fold_prefix (cl_items c) stale) as [more ->]. rewrite length_app. lia. Qed.

Lemma stale_round_same stale : length (stale_round c stale) = length stale -> stale_round c stale = stale.
Proof.
  unfold stale_round. destruct (stale_fold_prefix (cl_items c) stale) as [more ->]. rewrite length_app.
  destruct more; simpl; [by rewrite app_nil_r|lia].
Qed.

(** At a fixed point no item is left to mark. *)
Lemma stale_fold_fixed items stale :
  fold_left (mark_stale c) items stale = stale -> forall item, In item items -> mark_stale c stale item = stale.
Proof.
  induction items as [|x items IH]; intros Hf item Hin; [done|]. simpl in Hf.
  destruct (stale_fold_prefix items (mark_stale c stale x)) as [more Hm]. rewrite Hm in Hf.
  assert (mark_stale c stale x = stale) as Hx.
  { destruct (mark_stale_cases stale x) as [?|(id & _ & _ & _ & _ & E)]; [done|]. rewrite E in Hf.
    apply (f_equal length) in Hf. rewrite !length_app in Hf. simpl in Hf. lia. }
  destruct Hin as [<-|Hin]; [done|]. apply IH; [|done]. rewrite Hx in Hm, Hf. rewrite Hm.
  by rewrite Hf.
Qed.

Lemma progress_length stale : progress stale -> (length stale <= length (cl_items c))%nat.
Proof.
  intros [_ Hd Hi]. transitivity (length (omap id_of (cl_items c))).
  - by apply List.NoDup_incl_length.
  - clear. induction (cl_items c) as [|x l IH]; [done|].
    change (omap id_of (x :: l)) with (match id_of x with Some y => y :: omap id_of l | None => omap id_of l end).
    destruct (id_of x); cbn [length]; lia.
Qed.

Lemma stale_loop_ends fuel stale :
  progress stale -> (length (cl_items c) < fuel + length stale)%nat ->
  exists r, stale_loop fuel c stale = Some r /\ progress r /\ stale_round c r = r.
Proof.
  revert stale. induction fuel as [|fuel IH]; intros stale Hp Hf.
  { apply progress_length in Hp. lia. }
  simpl. destruct (Nat.eqb_spec (length (stale_round c stale)) (length stale)) as [E|E].
  - apply stale_round_same in E. exists stale. by rewrite !E.
  - apply IH; [apply stale_fold_progress; [apply incl_refl|done]|]. pose proof (stale_round_grows stale). lia.
Qed.

Lemma fixed_marked stale source id :
  stale_round c stale = stale -> In source (cl_items c) -> deterministic source = true -> id_of source = Some id ->
  item_mismatch c stale source <> None -> In id stale.
Proof.
  intros Hfix Hin Hdet Hid Hm.
  pose proof (stale_fold_fixed _ _ Hfix source Hin) as Hmark. unfold mark_stale in Hmark.
  rewrite Hdet, Hid in Hmark. simpl in Hmark. destruct (item_mismatch c stale source); [|done].
  destruct (str_in id stale) eqn:E; [by apply str_in_spec|].
  apply (f_equal length) in Hmark. rewrite length_app in Hmark. simpl in Hmark. lia.
Qed.

Lemma fixed_complete stale item :
  stale_round c stale = stale -> outdated c item -> item_mismatch c stale item <> None.
Proof.
  intros Hfix. induction 1 as [item Hm|item source id Hin Hdet Hid Hsrc _ IH]; apply item_mismatch_split; [by left|].
  right. exists id. split; [done|]. split; [by eapply fixed_marked|by eapply indexed].
Qed.

Lemma progress_nil : progress [].
Proof. split; [intros ? []|constructor|intros ? []]. Qed.

Lemma stale_items_exact :
  exists stale, stale_items c = Some stale /\ (forall id, In id stale <-> outdated_id id) /\
    forall item, item_mismatch c stale item <> None <-> outdated c item.
Proof.
  destruct (stale_loop_ends (S (length (cl_items c))) [] progress_nil) as (r & Hr & Hp & Hfix); [simpl; lia|].
  exists r. assert (forall item, item_mismatch c r item <> None <-> outdated c item) as Hex.
  { intros item. split; [apply item_mismatch_outdated, Hp|by apply fixed_complete]. }
  split; [done|]. split; [|done]. intros id. split; [apply Hp|].
  intros (source & Hin & Hdet & Hid & Ho). apply Hex in Ho. by eapply fixed_marked.
Qed.
End Loop.

(** ** The loop over a shot *)

Lemma index_items_mono items acc id :
  is_Some (alookup id acc) -> is_Some (alookup id (fold_left index_item items acc)).
Proof.
  revert acc. induction items as [|item items IH]; intros acc Ha; simpl; [done|]. apply IH. unfold index_item.
  destruct (id_of item) as [x|]; [|done]. destruct (String.eqb_spec id x) as [->|Hne].
  - by rewrite alookup_aset_eq.
  - by rewrite alookup_aset_ne.
Qed.

Lemma index_items_some items acc item id :
  In item items -> id_of item = Some id -> is_Some (alookup id (fold_left index_item items acc)).
Proof.
  revert acc. induction items as [|x items IH]; intros acc Hin Hid; [done|]. destruct Hin as [->|Hin]; simpl; [|by apply IH].
  apply index_items_mono. unfold index_item. by rewrite Hid, alookup_aset_eq.
Qed.

(** C25: the invalidation loop terminates and computes exactly what is
    outdated.  One round more than there are items is enough, the ids it
    collects are those of the outdated deterministic items, and against them
    an item has a mismatch exactly when it is outdated. *)
Theorem stale_items_least items media :
  let c := close_inputs items media in
  exists stale, stale_items c = Some stale /\ (forall id, In id stale <-> outdated_id c id) /\
    forall item, item_mismatch c stale item <> None <-> outdated c item.
Proof.
  intros c. apply stale_items_exact. intros item id Hin Hid. by apply (index_items_some items [] item).
Qed.

(** ** The rows of the report *)

Section Rows.
Context (c : closure) (stale : list string).

Definition current_item (item : json) : bool :=
  classified item && match item_mismatch c stale item with None => true | Some _ => false end.
Definition stale_item (item : json) : bool :=
  deterministic item && match item_mismatch c stale item with None => false | Some _ => true end.
Definition blocked_item (item : json) : bool :=
  classified item && negb (deterministic item) && match item_mismatch c stale item with None => false | Some _ => true end.

Definition item_row (item : json) : list json :=
  match item_mismatch c stale item with Some m => [entry item (item_reason item) m] | None => [] end.

Lemma deterministic_classified item : deterministic item = true -> classified item = true.
Proof. unfold deterministic, classified. rewrite !str_in_spec. intros H. apply in_or_app. by left. Qed.

Lemma report_items_rows items r :
  fold_left (report_item c stale) items r =
  Report (rp_stale r ++ flat_map item_row (List.filter stale_item items))
         (rp_blocked_on_generation r ++ flat_map item_row (List.filter blocked_item items))
         (rp_ready_to_compile r)
         (rp_current r ++ map current_row (List.filter current_item items)).
Proof.
  revert r. induction items as [|item items IH]; intros r; simpl; [by rewrite !app_nil_r; destruct r|].
  rewrite IH. unfold report_item, stale_item, blocked_item, current_item, item_row.
  pose proof (deterministic_classified item) as Hdc.
  destruct (deterministic item); [rewrite Hdc by done|destruct (classified item)]; simpl;
    destruct (item_mismatch c stale item) eqn:E; simpl; rewrite ?E, <- ?app_assoc; reflexivity.
Qed.

Lemma report_relations_rows relations seen r :
  exists seen' rows, fold_left (report_relation c) relations (seen, r) =
    (seen', Report (rp_stale r) (rp_blocked_on_generation r ++ rows) (rp_ready_to_compile r) (rp_current r)) /\
    Forall (fun row => jhas row "from_media_id" = true) rows.
Proof.
  revert seen r. induction relations as [|x relations IH]; intros seen r; cbn [fold_left].
  { exists seen, []. rewrite app_nil_r. split; [by destruct r|constructor]. }
  unfold report_relation at 2. destruct (negb _); [apply IH|]. destruct (existsb _ seen); [apply IH|].
  destruct (relation_mismatch c x) as [m|]; [|apply IH].
  edestruct IH as (seen' & rows & -> & Hrows). eexists _, (_ :: rows). cbn [rp_stale rp_blocked_on_generation rp_ready_to_compile rp_current].
  rewrite <- app_assoc. split; [done|]. constructor; [|done]. unfold relation_row, jhas, jset. cbn [jfields].
  rewrite alookup_aset_ne by done. by rewrite alookup_aset_eq.
Qed.

Lemma report_assets_rows assets r :
  exists old new, fold_left (report_asset c stale) assets r =
    Report (rp_stale r ++ old) (rp_blocked_on_generation r) (rp_ready_to_compile r) (rp_current r ++ new) /\
    Forall (fun row => jhas row "asset_id" = true) (old ++ new).
Proof.
  revert r. induction assets as [|x assets IH]; intros r; cbn [fold_left].
  { exists [], []. rewrite !app_nil_r. split; [by destruct r|constructor]. }
  unfold report_asset at 2. destruct (asset_mismatch c stale x) as [m|].
  - edestruct IH as (old & new & -> & Hrows). eexists (_ :: old), new. cbn [rp_stale rp_blocked_on_generation rp_ready_to_compile rp_current].
    rewrite <- app_assoc. split; [done|]. constructor; [|done]. unfold jhas, jset. cbn [jfields]. by rewrite alookup_aset_eq.
  - edestruct IH as (old & new & -> & Hrows). eexists old, (_ :: new). cbn [rp_stale rp_blocked_on_generation rp_ready_to_compile rp_current].
    rewrite <- app_assoc. split; [done|]. apply Forall_app. apply Forall_app in Hrows as [? ?]. split; [done|]. by constructor.
Qed.
End Rows.

