(* ===== verification/Assets.v ===== *)
(** * Content identity of asset registry entries

    Model of asset_identity.py: the identity fields of an entry and the rule
    by which render, inspection and publication decide that two entries name
    the same media. *)

From Stdlib Require Import ZArith String Ascii List Bool Lia.
From stdpp Require Import base list strings.
From S2P Require Import Prelude Json.

Definition SHA_PREFIX : string := "sha256:".
Definition KINDS : list string := ["media_id"; "content_sha256"; "file"].

(** [_text] *)
Definition stripped_text (value : json) : option string :=
  match value with
  | JStr s => if nonempty (str_strip s) then Some (str_strip s) else None
  | _ => None
  end.

Definition normal_digest (digest : string) : string :=
  str_lower (if String.prefix SHA_PREFIX (str_lower digest)
             then drop_chars (String.length SHA_PREFIX) digest else digest).

Definition field (kind : string) (value : option string) : list (string * string) :=
  match value with Some s => [(kind, s)] | None => [] end.

Definition identity_fields (entry : json) : list (string * string) :=
  if negb (is_dict entry) then [] else
  field "media_id" (stripped_text (jget entry "media_id")) ++
  field "content_sha256" (option_map normal_digest (stripped_text (jget entry "content_sha256"))) ++
  field "file" (stripped_text (jget entry "file")).

Definition asset_identity (entry : json) : option (string * string) :=
  match List.filter (fun kind => str_in kind (akeys (identity_fields entry))) KINDS with
  | kind :: _ => option_map (pair kind) (alookup kind (identity_fields entry))
  | [] => None
  end.

Definition shared_kinds (a b : list (string * string)) : list string :=
  List.filter (fun kind => str_in kind (akeys b)) (akeys a).

Definition same_asset_identity (a b : json) : bool :=
  let identity_a := identity_fields a in
  let identity_b := identity_fields b in
  match shared_kinds identity_a identity_b with
  | [] => py_eq a b
  | shared => forallb (fun kind => bool_decide (alookup kind identity_a = alookup kind identity_b)) shared
  end.

(** ** Two entries name the same media *)

(** The kinds two entries both carry, and their agreement. *)
Definition agree (a b : json) : Prop :=
  forall kind x y, alookup kind (identity_fields a) = Some x -> alookup kind (identity_fields b) = Some y -> x = y.
Definition comparable (a b : json) : Prop :=
  exists kind, is_Some (alookup kind (identity_fields a)) /\ is_Some (alookup kind (identity_fields b)).

Lemma shared_kinds_in a b kind :
  In kind (shared_kinds a b) <-> is_Some (alookup kind a) /\ is_Some (alookup kind b).
Proof. unfold shared_kinds. by rewrite filter_In, str_in_spec, !alookup_Some_key. Qed.

Lemma same_asset_comparable a b : comparable a b -> same_asset_identity a b = true <-> agree a b.
Proof.
  intros (kind & Ha & Hb). unfold same_asset_identity.
  destruct (shared_kinds (identity_fields a) (identity_fields b)) as [|k l] eqn:E.
  { exfalso. eapply (in_nil (A := string)). rewrite <- E. apply shared_kinds_in. done. }
  rewrite <- E, forallb_forall. split.
  - intros Hall k' x y Hx Hy. specialize (Hall k'). rewrite bool_decide_eq_true, Hx, Hy in Hall.
    assert (Some x = Some y) as [=]; [|done]. apply Hall, shared_kinds_in. rewrite Hx, Hy. split; by eexists.
  - intros Hag k' Hk. apply bool_decide_eq_true. apply shared_kinds_in in Hk as [[x Hx] [y Hy]].
    rewrite Hx, Hy. f_equal. by eapply Hag.
Qed.

Lemma same_asset_incomparable a b : ~ comparable a b -> same_asset_identity a b = py_eq a b.
Proof.
  intros Hn. unfold same_asset_identity.
  destruct (shared_kinds (identity_fields a) (identity_fields b)) as [|k l] eqn:E; [done|].
  destruct Hn. exists k. apply shared_kinds_in. rewrite E. by left.
Qed.

Lemma comparable_dec a b : comparable a b \/ ~ comparable a b.
Proof.
  destruct (shared_kinds (identity_fields a) (identity_fields b)) as [|k l] eqn:E.
  - right. intros (kind & H). apply shared_kinds_in in H. by rewrite E in H.
  - left. exists k. apply shared_kinds_in. rewrite E. by left.
Qed.

(** What an entry carries beside the identity fields. *)
Lemma identity_fields_decoration entry k v :
  is_dict entry = true -> str_in k KINDS = false -> identity_fields (jset entry k v) = identity_fields entry.
Proof.
  intros Hd Hk. apply str_in_false in Hk. unfold identity_fields. rewrite Hd. cbn [negb is_dict jset].
  assert (forall kind, In kind KINDS -> jget (jset entry k v) kind = jget entry kind) as Hget.
  { intros kind Hin. unfold jget, jset. cbn [jfields]. rewrite alookup_aset_ne; [done|]. by intros ->. }
  by rewrite !Hget by (simpl; tauto).
Qed.

(** C39: decoration never makes two entries different, and the order of the
    entries does not matter.  Entries that share an identity field are the
    same media exactly when all the identity fields they share agree, so
    setting any other field of either entry leaves the answer unchanged;
    entries that share none are compared in full. *)
Theorem same_asset_identity_rule a b :
  (comparable a b -> (same_asset_identity a b = true <-> agree a b) /\
     same_asset_identity b a = same_asset_identity a b /\
     forall k v, is_dict a = true -> str_in k KINDS = false -> same_asset_identity (jset a k v) b = same_asset_identity a b) /\
  (~ comparable a b -> same_asset_identity a b = py_eq a b).
Proof.
  split; [|apply same_asset_incomparable]. intros Hc. split; [by apply same_asset_comparable|]. split.
  - assert (comparable b a) as Hc' by (destruct Hc as (k & ? & ?); by exists k).
    apply eq_true_iff_eq. rewrite !same_asset_comparable by done. unfold agree.
    split; intros H k x y Hx Hy; symmetry; by eapply H.
  - intros k v Hd Hk. pose proof (identity_fields_decoration a k v Hd Hk) as Hi.
    apply eq_true_iff_eq. rewrite !same_asset_comparable; [|done|].
    + unfold agree. by rewrite Hi.
    + unfold comparable. by rewrite Hi.
Qed.

(** Bare and prefixed digests agree. *)
Example digest_prefix_dropped :
  same_asset_identity (JObj [("content_sha256", JStr " SHA256:ABCDEF "); ("url", JStr "a")])
    (JObj [("content_sha256", JStr "abcdef"); ("file", JStr "x.png")]) = true.
Proof. reflexivity. Qed.

Definition sample_entry : json := JObj [("media_id", JStr "m1"); ("content_sha256", JStr "sha256:AB")].

(** C39: an entry without the media id and with a url of its own. *)
Lemma same_asset_identity_rule_witness :
  same_asset_identity (jset sample_entry "url" (JStr "u")) (JObj [("content_sha256", JStr "ab")]) = true.
Proof.
  destruct (same_asset_identity_rule sample_entry (JObj [("content_sha256", JStr "ab")])) as [Hc _].
  destruct Hc as (_ & _ & Hdeco).
  - exists "content_sha256". split; vm_compute; by eexists.
  - rewrite Hdeco; reflexivity.
Defined.
