(* ===== verification/Demo.v ===== *)
(** * A small realm

    A concrete environment and the states of a realm with one project, one
    capability that needs the resource [gpu], one executor and two tasks.  The
    theorems of the development are instantiated here. *)

From Stdlib Require Import ZArith String Ascii List Bool Lia.
From stdpp Require Import base list strings.
From S2P Require Import Prelude Json Errors Facts Sha256 Store Idempotency Ledger Bindings.
From S2P Require Import Executors Continuations Snapshots Delegation Claim Outputs Settle Runs.
From S2P Require Import Admission Durable.

Open Scope Z_scope.

(** Every reading advances the clock by one millisecond; ids are numbered. *)
Definition demo_world : World := {|
  clock n := 1700000000000000 + Z.of_nat n * 1000;
  monotonic n := Z.of_nat n * 1000;
  fresh n := "id-" +:+ dec_string (Z.of_nat n);
  free_disk _ := 10 ^ 13;
  getenv _ := None;
  stored_object _ _ := None;
  checkpoint_file _ _ := Some (durable_json_bytes (JObj [("frame", JInt 3)]));
  zlib_base64 s := s;
  unzlib_base64 s := Some s;
  max_depth := 4;
  realm_id := "realm-1";
  realm_root := "/srv/realm" |}.

#[local] Existing Instance demo_world.

Definition empty_realm : tables :=
  Tables [] [] [] [] 1 [] [] [] [] [] [] [] [] [] None [] [] [] [] [] [] [] 1 [] [] [] [] [] [] [].

Definition demo_project : project_row :=
  Project "project-1" "realm-1" "demo" "Demo" (JObj []) 1 (At 1690000000000) (At 1690000000000) None.

Definition no_admission_calls : admission_calls := {|
  ac_freeze := fun _ s => mret s;
  ac_validate_effect := fun _ _ _ => mret tt |}.

Definition no_settlement_calls : settlement := {|
  st_publish := None;
  st_validate_effect := fun _ _ _ _ => mret tt;
  st_apply_effect := fun _ _ _ _ _ _ _ => mret JNull |}.

Definition demo_digest : string := "d1".

Definition demo_spec (n : Z) : json := JObj [("spec", JObj [("prompt", JInt n)])].

(** Boot, registrations and two admissions. *)
Definition demo_setup : M (json * json) :=
  begin_runtime_session "boot-1" None;;
  register_capability "image.make" demo_digest (JArr [JStr "gpu"]) "ready" None (JInt 0) (JInt 0);;
  upsert_executor "worker-1" (JArr [JObj [("capability_id", JStr "image.make");
      ("definition_digest", JStr demo_digest); ("required_resource_keys", JArr [JStr "gpu"])]])
    2 (JArr [JStr "gpu"]) "v1" "ready" None (JInt 1) None None None JNull;;
  a ← create_task no_admission_calls "image.make" (demo_spec 1) (Some "demo") (Some "key-1") JNull
        (Some demo_digest) false JNull;
  b ← create_task no_admission_calls "image.make" (demo_spec 2) (Some "demo") (Some "key-2") JNull
        (Some demo_digest) false JNull;
  mret (a, b).

Definition demo_start : state := State (empty_realm {{ projects := [demo_project] }}) 0 0 JNull.

Definition demo_admitted : state := Eval vm_compute in (demo_setup demo_start).2.

(** The ids of the two admitted tasks. *)
Definition demo_task_1 : string := Eval vm_compute in
  match tasks (tb demo_admitted) with x :: _ => t_id x | [] => EmptyString end.
Definition demo_task_2 : string := Eval vm_compute in
  match tasks (tb demo_admitted) with _ :: x :: _ => t_id x | _ => EmptyString end.

(** The first task claimed by the executor. *)
Definition demo_claimed : state := Eval vm_compute in
  (claim_selected demo_task_1 "worker-1" 1 JNull demo_admitted).2.

Definition demo_lease : string := Eval vm_compute in
  match task_by_id demo_task_1 (tb demo_claimed) with
  | Some x => default EmptyString (t_lease_token x)
  | None => EmptyString
  end.
Definition demo_attempt : string := Eval vm_compute in
  match task_by_id demo_task_1 (tb demo_claimed) with
  | Some x => default EmptyString (t_attempt_id x)
  | None => EmptyString
  end.

(** The first task completed. *)
Definition demo_settled : state := Eval vm_compute in
  (settle_attempt no_settlement_calls demo_task_1 demo_lease (JObj [("outputs", JArr [])]) JNull
     (Some 1) demo_attempt no_record demo_claimed).2.

Example demo_statuses :
  map (fun s => map t_status (tasks (tb s))) [demo_admitted; demo_claimed; demo_settled] =
  [[Queued; Queued]; [Running; Queued]; [Completed; Queued]].
Proof. reflexivity. Qed.
