(* ===== verification/Evolution.v ===== *)
(** * How the tables may evolve

    The frame every handler stays in.  [Benign I] says that a relation [I] on
    tables accepts the writes that carry no decision about a task's status:
    spec records, events, waiting reasons, reservation releases, bindings,
    receipts and the rest.  The helpers of the ledger are shown to stay within
    every benign relation once; a property of all handlers is then an instance
    of the class plus its obligations on task rows. *)

From Stdlib Require Import ZArith String Ascii List Bool Lia.
From stdpp Require Import base list strings.
From S2P Require Import Prelude Json Errors Facts Sha256 Store Idempotency Ledger Bindings.
From S2P Require Import Executors Continuations Snapshots Delegation Claim Outputs Settle Runs.
From S2P Require Import Admission.

Open Scope Z_scope.

(** ** Computations that only read

    They stay within every preorder. *)

Section Readers1.
Context `{World} (I : tables -> tables -> Prop) `{!PreOrder I}.

Lemma load_spec_steps d : steps I (load_spec d).
Proof. unfold load_spec. steps_walk. Qed.

Lemma command_result_within_steps w r c : steps I (command_result_within w r c).
Proof. unfold command_result_within, window_expired, restore_spec, put_at. steps_walk. Qed.

Lemma command_result_steps r c : steps I (command_result r c).
Proof. apply command_result_within_steps. Qed.

Lemma placement_recovery_steps id : steps I (placement_recovery id).
Proof. unfold placement_recovery. steps_walk. Qed.

Lemma apply_recovery_steps v r : steps I (apply_recovery v r).
Proof. unfold apply_recovery. steps_walk. Qed.

Lemma storage_preflight_steps c e : steps I (storage_preflight c e).
Proof. unfold storage_preflight, free_disk_floor. steps_walk. Qed.

Lemma executor_live_steps r : steps I (executor_live r).
Proof. unfold executor_live. steps_walk. Qed.

Lemma validate_runtime_epoch_steps s i d r : steps I (validate_runtime_epoch s i d r).
Proof. unfold validate_runtime_epoch. steps_walk. Qed.

Lemma validate_task_inputs_steps p s : steps I (validate_task_inputs p s).
Proof. unfold validate_task_inputs, check_input_association. steps_walk. Qed.

Lemma validate_spec_snapshot_refs_steps s p : steps I (validate_spec_snapshot_refs s p).
Proof.
  unfold validate_spec_snapshot_refs, validate_snapshot_ref, cas_intact, check_working_copy.
  steps_walk.
Qed.

Lemma set_resolved_children_steps s c : steps I (set_resolved_children s c).
Proof. unfold set_resolved_children. steps_walk. Qed.

Lemma lease_live_steps d : steps I (lease_live d).
Proof. unfold lease_live. steps_walk. Qed.

Lemma parent_authority_steps p s a j l : steps I (parent_authority p s a j l).
Proof. unfold parent_authority, lineage_equals. steps_walk. Qed.

Lemma check_lease_steps t l f : steps I (check_lease t l f).
Proof. unfold check_lease. steps_walk. Qed.

Lemma overdue_lease_rows_steps : steps I overdue_lease_rows.
Proof. unfold overdue_lease_rows. steps_walk. Qed.

Lemma executor_result_steps r : steps I (executor_result r).
Proof. unfold executor_result, executor_result_entry. steps_walk. Qed.

Lemma validated_manifest_digest_steps r p : steps I (validated_manifest_digest r p).
Proof. unfold validated_manifest_digest, outputs_of. steps_walk. Qed.

Lemma children_completed_steps t a : steps I (assert_delegated_children_completed t a).
Proof.
  unfold assert_delegated_children_completed, check_child_completed, check_child_output, outputs_of,
    list_managed_outputs. steps_walk.
Qed.
End Readers1.

#[export] Hint Resolve load_spec_steps command_result_within_steps command_result_steps placement_recovery_steps
  apply_recovery_steps storage_preflight_steps executor_live_steps validate_runtime_epoch_steps
  validate_task_inputs_steps validate_spec_snapshot_refs_steps set_resolved_children_steps
  lease_live_steps parent_authority_steps check_lease_steps overdue_lease_rows_steps
  executor_result_steps validated_manifest_digest_steps children_completed_steps : steps.

Section Readers2.
Context `{World} (I : tables -> tables -> Prop) `{!PreOrder I}.

Lemma spec_of_steps x : steps I (spec_of x).
Proof. unfold spec_of. steps_walk. Qed.

Lemma execution_request_from_row_steps e d s : steps I (execution_request_from_row e d s).
Proof. unfold execution_request_from_row. steps_walk. Qed.

Lemma stored_executor_result_steps id : steps I (stored_executor_result id).
Proof. pose proof executor_result_steps. unfold stored_executor_result. steps_walk. Qed.
End Readers2.

#[export] Hint Resolve spec_of_steps execution_request_from_row_steps
  stored_executor_result_steps : steps.

Section Readers3.
Context `{World} (I : tables -> tables -> Prop) `{!PreOrder I}.

Lemma execution_binding_from_row_steps row id task spec rec :
  steps I (execution_binding_from_row row id task spec rec).
Proof. unfold execution_binding_from_row. steps_walk. Qed.

Lemma effective_execution_target_steps id : steps I (effective_execution_target id).
Proof. unfold effective_execution_target. steps_walk. Qed.

Lemma retry_capacity_steps id : steps I (assert_delegated_retry_capacity id).
Proof. unfold assert_delegated_retry_capacity. steps_walk. Qed.

Lemma claim_waiting_reason_steps t s e c : steps I (claim_waiting_reason t s e c).
Proof. unfold claim_waiting_reason. steps_walk. Qed.
End Readers3.

#[export] Hint Resolve execution_binding_from_row_steps effective_execution_target_steps
  retry_capacity_steps claim_waiting_reason_steps : steps.

Section Readers4.
Context `{World} (I : tables -> tables -> Prop) `{!PreOrder I}.

Lemma execution_binding_steps id : steps I (execution_binding id).
Proof. unfold execution_binding. steps_walk. Qed.
End Readers4.

#[export] Hint Resolve execution_binding_steps : steps.

Section Readers5.
Context `{World} (I : tables -> tables -> Prop) `{!PreOrder I}.

Lemma task_result_steps run task spec b : steps I (task_result run task spec b).
Proof. unfold task_result. steps_walk. Qed.
End Readers5.

#[export] Hint Resolve task_result_steps : steps.

Section Readers6.
Context `{World} (I : tables -> tables -> Prop) `{!PreOrder I}.

Lemma get_task_steps id : steps I (get_task id).
Proof. unfold get_task. steps_walk. Qed.
End Readers6.

#[export] Hint Resolve get_task_steps : steps.

(** A task update that leaves identity, status, result, lease and fence alone. *)
Record benign_row (x y : task_row) : Prop := {
  br_id : t_id y = t_id x;
  br_run : t_run_id y = t_run_id x;
  br_capability : t_capability y = t_capability x;
  br_created : t_created_at y = t_created_at x;
  br_status : t_status y = t_status x;
  br_result : t_result_json y = t_result_json x;
  br_token : t_lease_token y = t_lease_token x;
  br_executor : t_executor_id y = t_executor_id x;
  br_fence : t_lease_fence y = t_lease_fence x;
  br_attempt : t_attempt y = t_attempt x }.

Lemma benign_row_refl x : benign_row x x.
Proof. by constructor. Qed.

(** Reservation updates of the benign kind release the row or extend it. *)
Record keeps_reservation (x y : reservation_row) : Prop := {
  kr_task : rv_task_id y = rv_task_id x;
  kr_key : rv_resource_key y = rv_resource_key x;
  kr_executor : rv_executor_id y = rv_executor_id x;
  kr_token : rv_lease_token y = rv_lease_token x;
  kr_fence : rv_fence y = rv_fence x;
  kr_active : active y = true -> active x = true }.

Record keeps_binding (x y : binding_row) : Prop := {
  kb_id : b_binding_id y = b_binding_id x;
  kb_task : b_task_id y = b_task_id x;
  kb_run : b_run_id y = b_run_id x }.

Record keeps_attempt (x y : attempt_row) : Prop := {
  ka_id : at_id y = at_id x;
  ka_task : at_task_id y = at_task_id x;
  ka_lease : at_lease_id y = at_lease_id x;
  ka_fence : at_fence y = at_fence x;
  ka_executor : at_executor_id y = at_executor_id x;
  ka_epoch : at_runtime_epoch y = at_runtime_epoch x;
  ka_settled : at_settled x = true -> at_settled y = true }.

(** The life cycle of a recovery checkpoint. *)
Inductive checkpoint_edge : CheckpointState -> CheckpointState -> Prop :=
  | edge_requested : checkpoint_edge Durable RebootRequested
  | edge_executed : checkpoint_edge RebootRequested Executed
  | edge_failed : checkpoint_edge RebootRequested ExecutorFailed
  | edge_recovered s : s = Durable \/ s = RebootRequested -> checkpoint_edge s Recovered
  | edge_resumed s : s = Recovered \/ s = RebootRequested \/ s = Executed -> checkpoint_edge s Resumed.

(** What a checkpoint is made of, which no update touches. *)
Record same_checkpoint (x y : checkpoint_row) : Prop := {
  sc_id : ck_id y = ck_id x;
  sc_attempt : ck_attempt_id y = ck_attempt_id x;
  sc_task : ck_task_id y = ck_task_id x;
  sc_executor : ck_executor_id y = ck_executor_id x;
  sc_epoch : ck_runtime_epoch y = ck_runtime_epoch x;
  sc_lease : ck_lease_id y = ck_lease_id x;
  sc_fence : ck_fence y = ck_fence x;
  sc_nonce : ck_nonce y = ck_nonce x;
  sc_path : ck_checkpoint_path y = ck_checkpoint_path x;
  sc_digest : ck_checkpoint_digest y = ck_checkpoint_digest x;
  sc_created : ck_created_at y = ck_created_at x }.

Record keeps_checkpoint (x y : checkpoint_row) : Prop := {
  kc_same : same_checkpoint x y;
  kc_edge : checkpoint_edge (ck_state x) (ck_state y) }.

Record keeps_run (x y : run_row) : Prop := {
  ku_id : r_id y = r_id x;
  ku_project : r_project_id y = r_project_id x;
  ku_capability : r_capability y = r_capability x;
  ku_key : r_idempotency_key y = r_idempotency_key x }.

Definition bump_sequence (project_id : string) (l : list (string * Z)) : list (string * Z) :=
  upsert (fun r => String.eqb r.1 project_id) (fun r => (r.1, r.2 + 1)) (project_id, 2) l.

Class Benign (I : tables -> tables -> Prop) : Prop := {
  benign_preorder :: PreOrder I;
  benign_spec_insert : forall t body stamp,
    I t (t {{ task_specs := insert_or_ignore (fun r => String.eqb (sp_digest r) (sha256 body))
                (Spec (sha256 body) body stamp) (task_specs t) }});
  benign_spec_filter : forall t p, I t (t {{ task_specs := List.filter p (task_specs t) }});
  benign_event : forall t run task kind payload stamp, I t (insert_event run task kind payload stamp t);
  benign_timeline_events : forall t l n, I t (t {{ timeline_events := l; next_timeline_event_id := n }});
  benign_sequences : forall t p, I t (t {{ project_sequences := bump_sequence p (project_sequences t) }});
  benign_receipts : forall t l, I t (t {{ command_idempotency := l }});
  benign_tasks : forall t p f, (forall x, benign_row x (f x)) ->
    I t (t {{ tasks := update_where p f (tasks t) }});
  benign_runs : forall t p f, (forall x, keeps_run x (f x)) ->
    I t (t {{ runs := update_where p f (runs t) }});
  benign_reservations : forall t p f, (forall x, keeps_reservation x (f x)) ->
    I t (t {{ reservations := update_where p f (reservations t) }});
  benign_bindings : forall t p f, (forall x, keeps_binding x (f x)) ->
    I t (t {{ execution_bindings := update_where p f (execution_bindings t) }});
  benign_attempts : forall t p f, (forall x, keeps_attempt x (f x)) ->
    I t (t {{ attempts := update_where p f (attempts t) }});
  benign_attempt_insert : forall t a, I t (t {{ attempts := attempts t ++ [a] }});
  benign_admissions : forall t a, I t (t {{ continuation_admissions := continuation_admissions t ++ [a] }});
  benign_executors : forall t l, I t (t {{ executors := l }});
  benign_capabilities : forall t l, I t (t {{ capabilities := l }});
  benign_associations : forall t a, I t (t {{ managed_output_associations := managed_output_associations t ++ [a] }});
  benign_outputs : forall t l, I t (t {{ managed_output_lifecycle := l }});
  benign_project_objects : forall t r, I t (t {{ project_objects :=
    insert_or_ignore (fun q => String.eqb (po_project_id q) (po_project_id r) && String.eqb (po_digest q) (po_digest r) &&
                               String.eqb (po_relation q) (po_relation r)) r (project_objects t) }});
  benign_objects : forall t o, I t (t {{ objects :=
    insert_or_ignore (fun x => String.eqb (o_digest x) (o_digest o)) o (objects t) }});
  benign_publications : forall t l, I t (t {{ timeline_render_publications := l }});
  benign_run_insert : forall t r, I t (t {{ runs := runs t ++ [r] }});
  benign_binding_insert : forall t b, I t (t {{ execution_bindings := execution_bindings t ++ [b] }});
  benign_dependencies : forall t d, I t (t {{ task_dependencies := task_dependencies t ++ [d] }});
  benign_projects : forall t l, I t (t {{ projects := l }});
  benign_selections : forall t l, I t (t {{ project_selections := l }});
  benign_session : forall t l, I t (t {{ session_command_replay := l }});
  benign_generations : forall t l, I t (t {{ generations := l }});
  benign_variants : forall t l, I t (t {{ generation_variants := l }});
}.

(** The writes to the checkpoints, which few handlers make. *)
Class CheckpointWrites (I : tables -> tables -> Prop) : Prop := {
  checkpoint_updated : forall t p f, (forall x, p x = true -> keeps_checkpoint x (f x)) ->
    I t (t {{ recovery_checkpoints := update_where p f (recovery_checkpoints t) }});
  checkpoint_inserted : forall t c, ck_state c = Durable ->
    existsb (fun x => String.eqb (ck_id x) (ck_id c) || String.eqb (ck_nonce x) (ck_nonce c)) (recovery_checkpoints t) = false ->
    I t (t {{ recovery_checkpoints := recovery_checkpoints t ++ [c] }})
}.

(** An update of the checkpoints in given states to a next state. *)
Ltac checkpoint_update :=
  let x := fresh "x" in let Hx := fresh "Hx" in
  intros x Hx; split; [destruct x; by constructor|];
  repeat match goal with
         | H : _ && _ = true |- _ => apply andb_true_iff in H as [? ?]
         | H : bool_decide _ = true |- _ => apply bool_decide_eq_true in H
         end;
  destruct x; simpl in *; subst; constructor; tauto.

(** The leaf of a walk: one write, accepted by the class. *)
Ltac benign_write :=
  unfold update_tasks, update_runs, update_bindings, update_attempts, update_reservations,
    update_executors;
  apply steps_modify; intros ?t;
  first [ apply benign_spec_insert | apply benign_spec_filter | apply benign_event | apply benign_timeline_events
        | apply benign_sequences | apply benign_receipts | apply benign_attempt_insert
        | apply benign_admissions | apply benign_executors | apply benign_capabilities
        | apply checkpoint_updated; checkpoint_update
        | apply benign_associations | apply benign_outputs
        | apply (benign_project_objects _ (ProjectObject _ _ _ _))
        | apply (benign_objects _ (Object _ _ _ _ _)) | apply benign_publications | apply benign_run_insert
        | apply benign_binding_insert | apply benign_dependencies
        | apply benign_projects | apply benign_selections | apply benign_session | apply benign_generations | apply benign_variants
        | apply benign_tasks; intros []; by constructor
        | apply benign_runs; intros []; by constructor
        | apply benign_reservations; intros []; by constructor
        | apply benign_bindings; intros []; by constructor
        | apply benign_attempts; intros []; by constructor ].

Ltac benign_walk := repeat (steps_walk; try benign_write).

Section Helpers.
Context `{World} (I : tables -> tables -> Prop) `{!Benign I}.

Lemma store_spec_steps spec : steps I (store_spec spec).
Proof. unfold store_spec. benign_walk. Qed.

Lemma append_event_steps run task kind payload created :
  steps I (append_event run task kind payload created).
Proof. unfold append_event. benign_walk. Qed.

Lemma allocate_project_seq_steps p : steps I (allocate_project_seq p).
Proof. unfold allocate_project_seq. benign_walk. Qed.

Lemma set_waiting_reason_steps id r : steps I (set_waiting_reason id r).
Proof. unfold set_waiting_reason. benign_walk. Qed.

Lemma release_reservations_steps id l r : steps I (release_reservations id l r).
Proof. unfold release_reservations. benign_walk. Qed.

Lemma release_execution_attempt_steps id s : steps I (release_execution_attempt id s).
Proof. unfold release_execution_attempt. benign_walk. Qed.

Lemma set_run_status_steps id s ts : steps I (set_run_status id s ts).
Proof. unfold set_run_status. benign_walk. Qed.

Lemma requeue_run_steps id ts : steps I (requeue_run id ts).
Proof. unfold requeue_run. benign_walk. Qed.

Lemma settle_attempt_row_steps id : steps I (settle_attempt_row id).
Proof. unfold settle_attempt_row. benign_walk. Qed.
End Helpers.

#[export] Hint Resolve store_spec_steps append_event_steps allocate_project_seq_steps
  set_waiting_reason_steps release_reservations_steps release_execution_attempt_steps
  set_run_status_steps requeue_run_steps settle_attempt_row_steps : steps.

Section ReadersAndWriters.
Context `{World} (I : tables -> tables -> Prop) `{!Benign I}.

Lemma prune_steps : steps I prune_replay_bodies.
Proof. unfold prune_replay_bodies, expire_receipt, expired_publication_result. benign_walk. Qed.

Lemma insert_receipt_steps r : steps I (insert_receipt r).
Proof. unfold insert_receipt. benign_walk. Qed.

End ReadersAndWriters.

#[export] Hint Resolve prune_steps insert_receipt_steps : steps.

Section Views.
Context `{World} (I : tables -> tables -> Prop) `{!Benign I}.

Lemma record_command_receipt_steps k a i h r p ev s n c :
  steps I (record_command_receipt k a i h r p ev s n c).
Proof. unfold record_command_receipt. benign_walk. Qed.

End Views.

#[export] Hint Resolve record_command_receipt_steps : steps.

Section Components.
Context `{World} (I : tables -> tables -> Prop) `{!Benign I}.

Lemma bind_execution_attempt_steps id a l f e r p : steps I (bind_execution_attempt id a l f e r p).
Proof. unfold bind_execution_attempt. benign_walk. Qed.

Lemma reset_execution_attempt_steps id e : steps I (reset_execution_attempt id e).
Proof. unfold reset_execution_attempt. benign_walk. Qed.

Lemma admit_continuation_steps id : steps I (admit_continuation id).
Proof. unfold admit_continuation. benign_walk. Qed.
End Components.

#[export] Hint Resolve bind_execution_attempt_steps reset_execution_attempt_steps
  admit_continuation_steps : steps.

Section Components2.
Context `{World} (I : tables -> tables -> Prop) `{!Benign I}.

Lemma refresh_steps id : steps I (refresh_continuations_for_predecessor id).
Proof. unfold refresh_continuations_for_predecessor, refresh_continuation. benign_walk. Qed.

Lemma close_delegation_steps id a : steps I (close_delegation id a).
Proof. unfold close_delegation. benign_walk. Qed.

Lemma insert_attempt_steps a : steps I (insert_attempt a).
Proof. unfold insert_attempt. benign_walk. Qed.

End Components2.

#[export] Hint Resolve refresh_steps close_delegation_steps insert_attempt_steps : steps.

(** ** Handlers that decide about a task's status

    [ok] is what a relation asks of the old and the new row of an updated
    task. *)

Class TaskUpdates (I : tables -> tables -> Prop) (ok : task_row -> task_row -> Prop) : Prop :=
  task_updates : forall t p f, (forall x, In x (tasks t) -> p x = true -> ok x (f x)) ->
    I t (t {{ tasks := update_where p f (tasks t) }}).

(** The row updates of cancellation, lease expiry and boot recovery are
    acceptable whatever the row was. *)
Class UndoRows (ok : task_row -> task_row -> Prop) : Prop := {
  ok_request_cancel : forall ts x, ok x (request_cancel ts x);
  ok_cancelled : forall ts x, ok x (mark_cancelled ts x);
  ok_requeued : forall ts x, ok x (mark_requeued ts x);
  ok_unresolved : forall s ts x, s = Queued \/ s = CancelRequested -> ok x (mark_unresolved s ts x);
  ok_recovered : forall ts x, ok x (mark_recovered ts x);
  ok_retry : forall ts x, ok x (retry_row ts x);
  ok_failed : forall r ts x, ok x (mark_failed r ts x) }.

(** A recorder writes its receipt and nothing else. *)
Definition records (I : tables -> tables -> Prop) (record : recorder) : Prop :=
  forall v e s c, steps I (record v e s c).

Section Handlers.
Context `{World} (I : tables -> tables -> Prop) (ok : task_row -> task_row -> Prop).
Context `{!Benign I} `{!TaskUpdates I ok} `{!UndoRows ok}.

Lemma records_nothing : records I no_record.
Proof. intros v e s c. unfold no_record. steps_walk. Qed.

Lemma update_tasks_ok p f : (forall x, ok x (f x)) -> steps I (update_tasks p f).
Proof. intros Hf. apply steps_modify. intros t. apply task_updates. auto. Qed.

Lemma contain_with_steps cancel id a r :
  (forall c, steps I (cancel c)) -> steps I (contain_with cancel id a r).
Proof. intros Hc. unfold contain_with, contain_child. benign_walk. Qed.

Lemma reconcile_with_steps cancel id a :
  (forall c, steps I (cancel c)) -> steps I (reconcile_with cancel id a).
Proof.
  intros Hc. unfold reconcile_with. pose proof contain_with_steps. benign_walk.
Qed.

Lemma cancel_task_steps fuel id record :
  records I record -> steps I (cancel_task fuel id record).
Proof.
  revert id record. induction fuel as [|fuel IH]; intros id record Hr; simpl; [steps_walk|].
  assert (forall c, steps I (cancel_task fuel c no_record)) as Hc
    by (intros c; apply IH, records_nothing).
  assert (forall x, steps I (contain_with (fun c => cancel_task fuel c no_record) x None "parent_cancelled"))
    as Hcon by (intros; by apply contain_with_steps).
  assert (forall x a, steps I (reconcile_with (fun c => cancel_task fuel c no_record) x a))
    as Hrec by (intros; by apply reconcile_with_steps).
  unfold records in Hr. benign_walk; apply update_tasks_ok; intros; [apply ok_request_cancel|apply ok_cancelled].
Qed.

Lemma contain_steps id a r : steps I (contain_delegated_children id a r).
Proof. apply contain_with_steps. intros c. apply cancel_task_steps, records_nothing. Qed.

Lemma reconcile_steps id a : steps I (reconcile_runtime_attempt id a).
Proof. apply reconcile_with_steps. intros c. apply cancel_task_steps, records_nothing. Qed.
End Handlers.

#[export] Hint Resolve contain_steps reconcile_steps : steps.

Section Recovery.
Context `{World} (I : tables -> tables -> Prop) (ok : task_row -> task_row -> Prop).
Context `{!Benign I} `{!TaskUpdates I ok} `{!UndoRows ok}.

Lemma contain_orphaned_steps : steps I contain_orphaned_delegations.
Proof. unfold contain_orphaned_delegations, contain_if_orphaned. benign_walk. Qed.

Lemma reap_row_steps row : steps I (reap_row row).
Proof.
  unfold reap_row. benign_walk. apply (update_tasks_ok I ok). intros. apply ok_requeued.
Qed.

Lemma reap_expired_leases_steps : steps I reap_expired_leases.
Proof. pose proof reap_row_steps. pose proof contain_orphaned_steps. unfold reap_expired_leases. benign_walk. Qed.

Lemma reap_overdue_leases_steps : steps I reap_overdue_leases.
Proof. pose proof reap_expired_leases_steps. unfold reap_overdue_leases. benign_walk. Qed.

Lemma recover_task_steps pe e pb b ts row : steps I (recover_task pe e pb b ts row).
Proof.
  unfold recover_task, recover_interrupted. benign_walk; apply (update_tasks_ok I ok); intros x.
  - apply ok_unresolved. destruct (bool_decide _); auto.
  - apply ok_recovered.
Qed.

Lemma begin_runtime_session_steps `{!CheckpointWrites I} b f :
  (forall t l, I t (t {{ runtime_lifecycle := l }})) -> steps I (begin_runtime_session b f).
Proof.
  intros Hl. pose proof recover_task_steps. unfold begin_runtime_session, open_session. benign_walk;
    apply steps_modify; intros; apply Hl.
Qed.

Lemma cancel_run_steps id k : steps I (cancel_run id k).
Proof.
  unfold cancel_run, cancel_run_task, replay_run_command, record_run_command, run_result. benign_walk;
    apply (update_tasks_ok I ok); intros; [apply ok_request_cancel|apply ok_cancelled].
Qed.

Lemma retry_run_steps id s k : steps I (retry_run id s k).
Proof.
  unfold retry_run, retry_task, replay_run_command, record_run_command, run_result,
    configured_spec_retention_days. benign_walk.
  apply (update_tasks_ok I ok); intros; apply ok_retry.
Qed.

Lemma fail_task_steps id l f fe a record : records I record -> steps I (fail_task id l f fe a record).
Proof.
  intros Hr. unfold records in Hr. unfold fail_task, leased_task. benign_walk.
  apply (update_tasks_ok I ok); intros; apply ok_failed.
Qed.

Lemma heartbeat_task_steps id l f n record : records I record -> steps I (heartbeat_task id l f n record).
Proof. intros Hr. unfold records in Hr. unfold heartbeat_task, leased_task. benign_walk. Qed.
End Recovery.

#[global] Instance any_row_undo : UndoRows (fun _ _ => True).
Proof. by constructor. Qed.

(** What a relation asks of a claim and of a settlement. *)
Class Commits `{World} (I : tables -> tables -> Prop) : Prop :=
  commit_claim_respects : forall task spec ex lease epoch s, steps I (commit_claim task spec ex lease epoch s).
Class Completes (ok : task_row -> task_row -> Prop) : Prop :=
  ok_completed : forall r ts x, ok x (mark_completed r ts x).

#[global] Instance any_row_completes : Completes (fun _ _ => True).
Proof. done. Qed.

(** The callbacks of a settlement stay within the relation. *)
Record settlement_respects (I : tables -> tables -> Prop) (calls : settlement) : Prop := {
  publish_respects : steps I (run_publish (st_publish calls));
  validate_respects : forall e p r i, steps I (st_validate_effect calls e p r i);
  apply_respects : forall e p r t i s a, steps I (st_apply_effect calls e p r t i s a) }.

Section Registration.
Context `{World} (I : tables -> tables -> Prop) `{!Benign I}.

Lemma register_capability_steps c d k s u e o : steps I (register_capability c d k s u e o).
Proof. unfold register_capability. benign_walk. Qed.

Lemma set_executor_readiness_steps e r n p : steps I (set_executor_readiness e r n p).
Proof. pose proof stored_executor_result_steps. unfold set_executor_readiness. benign_walk. Qed.

Lemma heartbeat_executor_steps e r n p : steps I (heartbeat_executor e r n p).
Proof. pose proof stored_executor_result_steps. unfold heartbeat_executor. benign_walk. Qed.

Lemma upsert_executor_steps e c m k p r n ep sd dd se v :
  steps I (upsert_executor e c m k p r n ep sd dd se v).
Proof.
  pose proof stored_executor_result_steps. pose proof register_capability_steps.
  unfold upsert_executor, classify_capability, register_descriptor, register_default. benign_walk.
Qed.

Lemma retire_terminal_specs_steps d : steps I (retire_terminal_specs d).
Proof. unfold retire_terminal_specs, configured_spec_retention_days. benign_walk. Qed.

Lemma prepare_publication_steps a b c d e f : steps I (prepare_timeline_render_publication a b c d e f).
Proof. unfold prepare_timeline_render_publication, timeline_render_publication. benign_walk. Qed.

Lemma complete_publication_steps a b c d e f g h i :
  steps I (complete_timeline_render_publication a b c d e f g h i).
Proof. unfold complete_timeline_render_publication, timeline_render_publication. benign_walk. Qed.

Lemma update_managed_output_lifecycle_steps a o v l w n :
  steps I (update_managed_output_lifecycle a o v l w n).
Proof.
  unfold update_managed_output_lifecycle, output_transition, get_managed_output. benign_walk.
Qed.

Lemma associate_managed_outputs_steps r t a p e c : steps I (associate_managed_outputs r t a p e c).
Proof.
  unfold associate_managed_outputs, associate_output, validated_manifest_digest, outputs_of, py_str,
    insert_association, insert_output_lifecycle. benign_walk.
Qed.

End Registration.

Section Claims.
Context `{World} (I : tables -> tables -> Prop) (ok : task_row -> task_row -> Prop).
Context `{!Benign I} `{!TaskUpdates I ok} `{!UndoRows ok} `{!Commits I}.

Lemma claim_task_steps t e l ep tr rec : steps I (claim_task t e l ep tr rec).
Proof.
  pose proof (reap_expired_leases_steps I ok). pose proof commit_claim_respects.
  unfold claim_task, claim_body, claim_row_or_wait. benign_walk.
Qed.

Lemma claim_selected_steps t e ep p : steps I (claim_selected t e ep p).
Proof.
  pose proof claim_task_steps. unfold claim_selected, fence_attempt, record_attempt. benign_walk.
Qed.

End Claims.

Section Settlements.
Context `{World} (I : tables -> tables -> Prop) (ok : task_row -> task_row -> Prop).
Context `{!Benign I} `{!TaskUpdates I ok} `{!UndoRows ok} `{!Completes ok}.

Lemma settle_attempt_steps calls t l r e f a record :
  settlement_respects I calls -> records I record -> steps I (settle_attempt calls t l r e f a record).
Proof.
  intros [Hp Hv Ha] Hr. unfold records in Hr.
  pose proof (associate_managed_outputs_steps I). pose proof (validated_manifest_digest_steps I).
  pose proof (children_completed_steps I).
  unfold settle_attempt, settle_leased, leased_task, settle_effects, commit_settlement. benign_walk.
  apply (update_tasks_ok I ok). intros. apply ok_completed.
Qed.
End Settlements.

(** What a relation asks of a new task. *)
Class Admits `{World} (I : tables -> tables -> Prop) : Prop :=
  insert_task_respects : forall row, t_status row = Queued -> steps I (insert_task row).

(** The callbacks of an admission stay within the relation. *)
Record admission_respects (I : tables -> tables -> Prop) (calls : admission_calls) : Prop := {
  freeze_respects : forall p s, steps I (ac_freeze calls p s);
  effect_respects : forall e p i, steps I (ac_validate_effect calls e p i) }.

Section AdmissionReaders.
Context `{World} (I : tables -> tables -> Prop) `{!PreOrder I}.

Lemma any_can_run_steps rows c d b f : steps I (any_can_run rows c d b f).
Proof. induction rows; simpl; [steps_walk|]. unfold executor_can_run. steps_walk. Qed.

Lemma matching_live_executor_steps c d b f : steps I (matching_live_executor c d b f).
Proof. pose proof any_can_run_steps. unfold matching_live_executor. steps_walk. Qed.

Lemma admission_toolchain_steps c s d : steps I (admission_toolchain c s d).
Proof.
  unfold admission_toolchain, render_toolchain_digest, toolchain_identities, executor_can_run. steps_walk.
Qed.

Lemma capability_readiness_steps c d e : steps I (capability_readiness c d e).
Proof. unfold capability_readiness. steps_walk. Qed.

Lemma executor_readiness_steps c d s e w : steps I (executor_readiness c d s e w).
Proof. pose proof matching_live_executor_steps. unfold executor_readiness. steps_walk. Qed.

Lemma check_admission_storage_steps c e : steps I (check_admission_storage c e).
Proof. unfold check_admission_storage. steps_walk. Qed.

Lemma validate_predecessors_steps l p : steps I (validate_continuation_predecessors l p).
Proof. unfold validate_continuation_predecessors. steps_walk. Qed.

Lemma prior_admission_steps c s r p k e d : steps I (prior_admission c s r p k e d).
Proof. unfold prior_admission. steps_walk. Qed.

Lemma all_intact_steps rows : steps I (all_intact rows).
Proof. induction rows; simpl; [steps_walk|]. unfold output_intact. steps_walk. Qed.

Lemma reuse_candidate_steps c s r e d t l : steps I (reuse_candidate c s r e d t l).
Proof.
  pose proof all_intact_steps. induction l as [|[run task] l IH]; simpl; [steps_walk|].
  unfold reusable_render_output. steps_walk.
Qed.
End AdmissionReaders.

#[export] Hint Resolve admission_toolchain_steps capability_readiness_steps executor_readiness_steps
  check_admission_storage_steps validate_predecessors_steps prior_admission_steps
  reuse_candidate_steps : steps.

Section Admissions.
Context `{World} (I : tables -> tables -> Prop) `{!Benign I} `{!Admits I}.

Lemma publish_snapshot_steps p s v : steps I (publish_snapshot p s v).
Proof. unfold publish_snapshot, pinned_revision, cas_put, cas_read. benign_walk. Qed.

Lemma rewrite_spec_snapshots_steps publish s :
  (forall a b, steps I (publish a b)) -> steps I (rewrite_spec_snapshots publish s).
Proof.
  intros Hp. unfold rewrite_spec_snapshots, rewrite_location, rewrite_context_key, rewrite_filmstrip,
    rewrite_duplicate_key. benign_walk.
Qed.

Lemma insert_admission_steps c s r p k a h e d w l : steps I (insert_admission c s r p k a h e d w l).
Proof.
  pose proof (insert_task_respects (I := I)) as Hi. unfold insert_admission, insert_run, prepare_binding, insert_binding,
    insert_dependencies. benign_walk.
Qed.

Lemma admit_task_steps c s r p k e d b l : steps I (admit_task c s r p k e d b l).
Proof.
  pose proof insert_admission_steps. pose proof (retire_terminal_specs_steps I).
  unfold admit_task, admit_new, retire_when_due, answer_receipt, record_existing, rebuild_receipt,
    current_result, configured_spec_retention_days.
  benign_walk.
Qed.

Lemma create_task_steps calls c s p k e d b r :
  admission_respects I calls -> steps I (create_task calls c s p k e d b r).
Proof.
  intros [Hf He]. pose proof admit_task_steps. pose proof publish_snapshot_steps.
  pose proof rewrite_spec_snapshots_steps.
  unfold create_task, create_task_body, project_of. benign_walk.
Qed.
End Admissions.
