(* ===== verification/Leases.v ===== *)
(** * Lease fencing

    What a lease holder may do and what a claim and a settlement establish:
    the lease checks of [_settle_attempt], [fail_task] and [heartbeat_task]
    stop every stale caller before anything is written, a claim issues a fence
    greater than all earlier ones, and a settlement completes the task and
    frees its resources. *)

From Stdlib Require Import ZArith String Ascii List Bool Lia.
From stdpp Require Import base list strings.
From S2P Require Import Prelude Json Errors Facts Sha256 Store Idempotency Ledger Bindings.
From S2P Require Import Executors Continuations Snapshots Delegation Claim Outputs Settle Runs.
From S2P Require Import Admission Demo Evolution.

Open Scope Z_scope.

(** [m] raises an exception of the class and leaves the tables alone. *)
Definition rejects {A} (c : ExnClass) (m : M A) (s : state) : Prop :=
  exists e, (m s).1 = Err e /\ exn_class e = c /\ tb (m s).2 = tb s.

Lemma rejects_bind {A B} c (m : M A) (k : A -> M B) s : rejects c m s -> rejects c (m ≫= k) s.
Proof.
  intros (e & He & Hc & Ht). exists e. unfold mbind, M_bind.
  destruct (m s) as [[a|e'] s']; simpl in *; [done|]. by injection He as ->.
Qed.

(** ** Postconditions of handlers *)

(** [m], started where [P] holds, establishes [Q] when it returns. *)
Definition post {A} (P : tables -> Prop) (m : M A) (Q : A -> tables -> Prop) : Prop :=
  spec (fun _ _ => True) P m Q.

#[local] Instance anything_preorder : PreOrder (fun _ _ : tables => True).
Proof. by split. Qed.

Lemma post_bind {A B} (m : M A) (k : A -> M B) P Q Q' :
  post P m Q -> (forall a, post (Q a) (k a) Q') -> post P (m ≫= k) Q'.
Proof. apply spec_bind. exact _. Qed.

Lemma post_conseq {A} (m : M A) (P P' : tables -> Prop) (Q Q' : A -> tables -> Prop) :
  post P m Q -> (forall t, P' t -> P t) -> (forall a t, Q a t -> Q' a t) -> post P' m Q'.
Proof. apply spec_conseq. Qed.

Lemma post_transaction {A} (m : M A) P Q : post P m Q -> post P (transaction m) Q.
Proof. apply spec_transaction. exact _. Qed.

Lemma post_steps {A} (I : tables -> tables -> Prop) (m : M A) (P : tables -> Prop) :
  steps I m -> (forall t t', I t t' -> P t -> P t') -> post P m (fun _ => P).
Proof.
  intros Hm HP s Hs. split; [done|]. specialize (Hm s). destruct (m s).1; [|done]. by eapply HP.
Qed.

Lemma post_gets {A} (f : tables -> A) P : post P (gets f) (fun a t => a = f t /\ P t).
Proof. apply spec_gets. exact _. Qed.

Lemma post_ret {A} (a : A) (P : tables -> Prop) (Q : A -> tables -> Prop) :
  (forall t, P t -> Q a t) -> post P (mret a) Q.
Proof. intros H s Hs. split; [done|]. by apply H. Qed.

Lemma post_lift {A} (r : res A) P : post P (lift r) (fun a t => r = Ok a /\ P t).
Proof. apply spec_lift. exact _. Qed.

Lemma post_pure {A} (m : M A) (phi : Prop) P Q : (phi -> post P m Q) -> post (fun t => phi /\ P t) m Q.
Proof. apply spec_pure. Qed.

Lemma post_modify f (P : tables -> Prop) (Q : tables -> Prop) :
  (forall t, P t -> Q (f t)) -> post P (modify f) (fun _ => Q).
Proof. intros H. apply spec_modify. intros t Ht. split; [done|auto]. Qed.

Lemma post_raise {A} c msg P Q : post P (raiseM (A := A) c msg) Q.
Proof. intros s _. split; [done|]. done. Qed.

Lemma post_any {A} (m : M A) P : post P m (fun _ _ => True).
Proof. intros st _. split; [done|]. by destruct (m st).1. Qed.

Lemma post_read {A} (m : M A) (P : tables -> Prop) : steps eq m -> post P m (fun _ => P).
Proof. intros Hm. apply (post_steps eq); [done|]. by intros t t' ->. Qed.

Lemma post_gets_at {A} (f : tables -> A) t0 : post (fun t => t = t0) (gets f) (fun a t => a = f t0 /\ t = t0).
Proof. intros s Hs. simpl in *. by rewrite Hs. Qed.

(** The computation was run from these tables. *)
Definition ran {A} (m : M A) (t0 : tables) (v : A) (t : tables) : Prop :=
  exists s s', tb s = t0 /\ m s = (Ok v, s') /\ tb s' = t.

Lemma post_ran {A} (m : M A) t0 : post (fun t => t = t0) m (ran m t0).
Proof. intros s Hs. split; [done|]. destruct (m s) as [[v|e] s'] eqn:E; simpl; [|done]. by exists s, s'. Qed.

Lemma ran_post {A} (m : M A) P Q t0 v t : ran m t0 v t -> post P m Q -> P t0 -> Q v t.
Proof. intros (s & s' & <- & E & <-) Hm Hs. specialize (Hm s Hs). rewrite E in Hm. apply Hm. Qed.

Lemma post_guard b c m P : post P (guard_raise b c m) (fun _ t => b = false /\ P t).
Proof. eapply post_conseq; [apply post_lift|done|]. intros ? t [Hg Ht]. by apply raise_if_Ok in Hg. Qed.

Lemma post_guard_with b c m d P : post P (guard_raise_with b c m d) (fun _ t => b = false /\ P t).
Proof. eapply post_conseq; [apply post_lift|done|]. intros ? t [Hg Ht]. by apply raise_if_with_Ok in Hg. Qed.

(** Walk over the guards of a handler, keeping what they found. *)
Ltac guards :=
  repeat lazymatch goal with
  | |- post _ (guard_raise _ _ _ ≫= _) _ =>
      eapply post_bind; [apply post_guard|]; intros ?; apply post_pure; intros ?; bool_hyps
  | |- post _ (guard_raise_with _ _ _ _ ≫= _) _ =>
      eapply post_bind; [apply post_guard_with|]; intros ?; apply post_pure; intros ?; bool_hyps
  | |- post _ (raiseM _ _) _ => apply post_raise
  | H : bool_decide _ = true |- _ => apply bool_decide_eq_true in H
  | H : bool_decide _ = false |- _ => apply bool_decide_eq_false in H
  end.

(** ** What the bookkeeping writes keep *)

Record frame (t t' : tables) : Prop := {
  fr_tasks : forall id x, task_by_id id t = Some x ->
    exists y, task_by_id id t' = Some y /\ benign_row x y;
  fr_reservations : forall r', In r' (reservations t') -> active r' = true ->
    exists r, In r (reservations t) /\ active r = true /\ rv_task_id r' = rv_task_id r /\
              rv_resource_key r' = rv_resource_key r /\ rv_lease_token r' = rv_lease_token r;
  fr_attempts : forall a, In a (attempts t) -> exists a', In a' (attempts t') /\ keeps_attempt a a' }.

Lemma benign_row_trans x y z : benign_row x y -> benign_row y z -> benign_row x z.
Proof. intros [] []. constructor; congruence. Qed.

Lemma keeps_attempt_trans a b c : keeps_attempt a b -> keeps_attempt b c -> keeps_attempt a c.
Proof. intros [] []. constructor; try congruence. auto. Qed.

#[global] Instance frame_preorder : PreOrder frame.
Proof.
  split.
  - intros t. constructor.
    + intros id x Hx. exists x. split; [done|apply benign_row_refl].
    + intros r Hr Ha. by exists r.
    + intros a Ha. exists a. split; [done|]. by constructor.
  - intros a b c [T1 R1 A1] [T2 R2 A2]. constructor.
    + intros id x Hx. destruct (T1 id x Hx) as (y & Hy & Hxy). destruct (T2 id y Hy) as (z & Hz & Hyz).
      exists z. split; [done|]. by eapply benign_row_trans.
    + intros r Hr Ha. destruct (R2 r Hr Ha) as (r1 & Hr1 & Ha1 & ? & ? & ?).
      destruct (R1 r1 Hr1 Ha1) as (r0 & Hr0 & Ha0 & ? & ? & ?).
      exists r0. repeat split; try done; congruence.
    + intros x Hx. destruct (A1 x Hx) as (y & Hy & Hxy). destruct (A2 y Hy) as (z & Hz & Hyz).
      exists z. split; [done|]. by eapply keeps_attempt_trans.
Qed.

Lemma frame_same t t' :
  tasks t' = tasks t -> reservations t' = reservations t -> attempts t' = attempts t -> frame t t'.
Proof.
  intros Ht Hr Ha. destruct (PreOrder_Reflexive (R := frame) t) as [T R A]. constructor.
  - unfold task_by_id. rewrite Ht. exact T.
  - rewrite Hr. exact R.
  - rewrite Ha. exact A.
Qed.

#[global] Instance frame_benign : Benign frame.
Proof.
  constructor; try exact _; intros; try (by apply frame_same);
    destruct (PreOrder_Reflexive (R := frame) t) as [T R A]; constructor; try done.
  - intros id x Hx. unfold task_by_id in *. simpl. rewrite find_update_where.
    + rewrite Hx. eexists. split; [reflexivity|]. destruct (p x); [done|apply benign_row_refl].
    + intros y. by rewrite (br_id _ _ (H y)).
  - intros r' Hr' Ha. simpl in Hr'. apply in_update_where in Hr' as (r & Hr & ->). exists r.
    destruct (p r); [|done]. destruct (H r). repeat split; try done; auto.
  - intros a Ha. exists (if p a then f a else a). split.
    + simpl. unfold update_where. apply in_map_iff. by exists a.
    + destruct (p a); [done|by constructor].
  - intros b Hb. exists b. split; [apply in_or_app; by left|]. by constructor.
Qed.

(** ** The lease check *)

(** The lease of the row is the caller's and has not expired at [us]. *)
Definition lease_valid (x : task_row) (lease_token : string) (fence : option Z) (us : Z) : bool :=
  bool_decide (t_status x = Running) && opt_str_eqb (t_lease_token x) (Some lease_token) &&
  match fence with Some f => f =? t_lease_fence x | None => true end &&
  match t_lease_expires_at x with
  | Some deadline => negb (stamp_truthy (Some deadline)) || match expired_at deadline us with
                                                             | Some expired => negb expired
                                                             | None => false
                                                             end
  | None => true
  end.

Section LeaseCheck.
Context `{World}.

Ltac rejected := eexists; split; [reflexivity|split; reflexivity].

Lemma check_lease_rejects x l f s :
  lease_valid x l f (clock (step s)) = false -> rejects LeaseError (check_lease x l f) s.
Proof.
  unfold lease_valid, rejects, check_lease, guard_raise, guard_raise_with, mbind, M_bind, lift. intros Hv.
  destruct (bool_decide (t_status x = Running)); simpl in *; [|rejected].
  destruct (opt_str_eqb (t_lease_token x) (Some l)); simpl in *; [|rejected].
  destruct f as [f|]; simpl in *; [destruct (f =? t_lease_fence x); simpl in *; [|rejected]|];
    (destruct (t_lease_expires_at x) as [[ms|m]|]; simpl in *;
      [apply negb_false_iff in Hv; rewrite Hv; rejected|destruct m; [done|rejected]|done]).
Qed.

Lemma check_lease_passes x l f s :
  lease_valid x l f (clock (step s)) = true ->
  exists n, check_lease x l f s = (Ok tt, State (tb s) n (last_prune s) (recorded s)).
Proof.
  unfold lease_valid, check_lease. intros Hv. destruct s as [t n p]. simpl in *.
  destruct (bool_decide (t_status x = Running)); simpl in *; [|done].
  destruct (opt_str_eqb (t_lease_token x) (Some l)); simpl in *; [|done].
  unfold mbind, M_bind, guard_raise, guard_raise_with, lift. simpl.
  destruct f as [f|]; simpl in *; [destruct (f =? t_lease_fence x); simpl in *; [|done]|];
    (destruct (t_lease_expires_at x) as [[ms|m]|]; simpl in *;
      [apply negb_true_iff in Hv; rewrite Hv; by eexists
      |destruct m; [by eexists|done]
      |by eexists]).
Qed.

(** C9: a caller whose lease is not the current one is stopped before
    anything is written.  When the task is not running, or the lease token or
    the fence differs from the stored one, or the deadline has passed or is
    unreadable, then settlement, failure and heartbeat all raise [LeaseError]
    and the tables are unchanged. *)
Theorem stale_lease_rejected s id x l f calls result effect attempt record failure attempt' seconds :
  task_by_id id (tb s) = Some x -> lease_valid x l f (clock (step s)) = false -> 0 < seconds ->
  rejects LeaseError (settle_attempt calls id l result effect f attempt record) s /\
  rejects LeaseError (fail_task id l failure f attempt' record) s /\
  rejects LeaseError (heartbeat_task id l f seconds record) s.
Proof.
  intros Hx Hv Hsec.
  assert (rejects LeaseError (leased_task id l f) s) as Hl.
  { unfold leased_task, rejects, mbind, M_bind, gets. simpl. rewrite Hx.
    destruct (check_lease_rejects x l f s Hv) as (e & He & Hc & Ht). exists e.
    destruct (check_lease x l f s) as [[u|e'] s']; simpl in *; [done|]. by injection He as ->. }
  split; [by apply rejects_bind|]. split; [by apply rejects_bind|].
  unfold heartbeat_task. replace (seconds <=? 0) with false by (symmetry; by apply Z.leb_gt).
  apply (rejects_bind _ (leased_task id l f)). exact Hl.
Qed.
End LeaseCheck.

(** C9: the first task of the sample realm under an old fence, with the lease
    of nobody, and after it completed. *)
Lemma stale_lease_rejected_witness :
  let settle s l f := @settle_attempt demo_world no_settlement_calls demo_task_1 l (JObj []) JNull f demo_attempt no_record s in
  (exists e, (settle demo_claimed demo_lease (Some 0)).1 = Err e /\ exn_class e = LeaseError) /\
  (exists e, (settle demo_claimed "nobody" (Some 1)).1 = Err e /\ exn_class e = LeaseError) /\
  (exists e, (settle demo_settled demo_lease (Some 1)).1 = Err e /\ exn_class e = LeaseError).
Proof.
  assert (forall x s l f,
    task_by_id demo_task_1 (tb s) = Some x -> lease_valid x l f (@clock demo_world (step s)) = false ->
    exists e, (@settle_attempt demo_world no_settlement_calls demo_task_1 l (JObj []) JNull f demo_attempt no_record s).1
                = Err e /\ exn_class e = LeaseError) as Hall.
  { intros x s l f Hx Hv.
    destruct (@stale_lease_rejected demo_world s demo_task_1 x l f no_settlement_calls (JObj []) JNull demo_attempt
                no_record JNull None 30 Hx Hv ltac:(lia)) as [(e & He & Hc & _) _].
    exists e. split; [exact He|exact Hc]. }
  split; [|split]; (eapply Hall; [reflexivity|vm_compute; reflexivity]).
Defined.

(** ** What a settlement establishes *)

(** The stored row of the task is completed with this result. *)
Definition completed_with (id : string) (result : json) (fence : Z) (t : tables) : Prop :=
  exists y, task_by_id id t = Some y /\ t_status y = Completed /\
            t_result_json y = Some (json_column result) /\ t_lease_fence y = fence.

(** The stored row of the task has this fence. *)
Definition has_fence (id : string) (fence : Z) (t : tables) : Prop :=
  exists y, task_by_id id t = Some y /\ t_lease_fence y = fence.

(** The lease of the task holds no resource. *)
Definition lease_released (id lease : string) (t : tables) : Prop :=
  forall r, In r (reservations t) -> active r = true -> rv_task_id r = id -> rv_lease_token r <> lease.

(** The attempt is recorded. *)
Definition attempt_recorded (attempt : string) (settled : bool) (t : tables) : Prop :=
  exists a, In a (attempts t) /\ at_id a = attempt /\ (settled = true -> at_settled a = true).

Lemma has_fence_frame id fence t t' : frame t t' -> has_fence id fence t -> has_fence id fence t'.
Proof.
  intros [T _ _] (x & Hx & Hf). destruct (T id x Hx) as (y & Hy & Hb). exists y. split; [done|].
  by rewrite (br_fence _ _ Hb).
Qed.

Lemma completed_with_frame id result fence t t' :
  frame t t' -> completed_with id result fence t -> completed_with id result fence t'.
Proof.
  intros [T _ _] (x & Hx & Hs & Hr & Hf). destruct (T id x Hx) as (y & Hy & []). exists y.
  repeat split; congruence.
Qed.

Lemma lease_released_frame id lease t t' : frame t t' -> lease_released id lease t -> lease_released id lease t'.
Proof.
  intros [_ R _] Hl r Hr Ha Hid. destruct (R r Hr Ha) as (r0 & Hr0 & Ha0 & Ht & _ & Hk).
  rewrite Hk. apply Hl; [done|done|congruence].
Qed.

Lemma attempt_recorded_frame attempt b t t' : frame t t' -> attempt_recorded attempt b t -> attempt_recorded attempt b t'.
Proof.
  intros [_ _ A] (a & Ha & Hid & Hs). destruct (A a Ha) as (a' & Ha' & []). exists a'.
  split; [done|]. split; [congruence|auto].
Qed.

Create HintDb framed.
#[export] Hint Resolve has_fence_frame completed_with_frame lease_released_frame attempt_recorded_frame : framed.

(** A framed computation keeps what the four assertions say. *)
Ltac framed_step :=
  eapply post_bind;
    [apply (post_steps frame); [benign_walk|intros ? ? ? ?; intuition eauto with framed]|].

Section Settlement.
Context `{World}.

Lemma release_reservations_post id l released (P : tables -> Prop) :
  (forall t t', frame t t' -> P t -> P t') ->
  post P (release_reservations id (Some l) released) (fun _ t => lease_released id l t /\ P t).
Proof.
  intros HP. unfold release_reservations.
  eapply post_bind; [apply (post_steps frame); [steps_walk|exact HP]|]. intros ts.
  apply post_modify. intros t Ht. split.
  - intros r Hr Hact Hid. simpl in Hr. apply in_update_where in Hr as (r0 & Hr0 & ->).
    destruct (_ && _) eqn:E; [done|]. intros Hl. rewrite Hid, Hl, Hact in E.
    by rewrite !String.eqb_refl in E.
  - eapply HP; [|exact Ht]. apply benign_reservations. intros []. by constructor.
Qed.

Lemma settle_attempt_row_post attempt (P : tables -> Prop) :
  (forall t t', frame t t' -> P t -> P t') ->
  post (fun t => attempt_recorded attempt false t /\ P t) (settle_attempt_row attempt)
    (fun _ t => attempt_recorded attempt true t /\ P t).
Proof.
  intros HP. apply post_modify. intros t [(a & Ha & Hid & _) Ht]. split.
  - exists (if String.eqb (at_id a) attempt && negb (at_settled a) then a {{ at_settled := true }} else a).
    split; [simpl; unfold update_where; apply in_map_iff; by exists a|].
    rewrite Hid, String.eqb_refl. simpl. by destruct (at_settled a) eqn:E; simpl.
  - eapply HP; [|exact Ht]. apply benign_attempts. intros []. by constructor.
Qed.

Lemma commit_settlement_post x l attempt effect result ts record :
  records frame record ->
  post (fun t => has_fence (t_id x) (t_lease_fence x) t /\ attempt_recorded attempt false t)
    (commit_settlement x l attempt effect result ts record)
    (fun _ t => completed_with (t_id x) result (t_lease_fence x) t /\ lease_released (t_id x) l t /\
                attempt_recorded attempt true t).
Proof.
  intros Hr. unfold records in Hr. unfold commit_settlement. cbv zeta.
  eapply post_bind; [apply (post_modify _ _ (fun t =>
    completed_with (t_id x) result (t_lease_fence x) t /\ attempt_recorded attempt false t))|intros ?].
  { intros t [(y & Hy & Hf) Ha]. split; [|exact Ha]. unfold completed_with, task_by_id. simpl.
    rewrite find_update_where; [|done]. unfold task_by_id in Hy. rewrite Hy.
    apply find_some in Hy as [_ Hy]. unfold is_task. rewrite Hy. by eexists. }
  framed_step. intros ?.
  eapply post_bind.
  { eapply post_conseq; [apply (settle_attempt_row_post attempt (completed_with (t_id x) result (t_lease_fence x)))
      |intros t [? ?]; by split|intros ? ? Hq; exact Hq]. eauto with framed. }
  intros ?. eapply post_bind.
  { apply (release_reservations_post (t_id x) l). intuition eauto with framed. }
  intros ?. repeat (framed_step; intros ?). apply post_ret. intros t (? & ? & ?). by split.
Qed.

(** From the row that passed the lease check on. *)
Lemma settle_rest_post calls x l result effect attempt record :
  settlement_respects frame calls -> records frame record ->
  post (fun t => has_fence (t_id x) (t_lease_fence x) t /\ attempt_recorded attempt false t)
    (settle_leased calls x l result effect attempt record)
    (fun _ t => exists applied,
      completed_with (t_id x) (effect_result effect result applied) (t_lease_fence x) t /\
      lease_released (t_id x) l t /\ attempt_recorded attempt true t).
Proof.
  intros [Hp Hv Ha] Hr. pose proof (associate_managed_outputs_steps frame).
  pose proof (validated_manifest_digest_steps frame). pose proof (children_completed_steps frame).
  unfold settle_leased, settle_effects. do 5 (framed_step; intros ?).
  apply post_transaction. do 4 (framed_step; intros ?).
  eapply post_conseq; [apply commit_settlement_post; exact Hr|intros ? Ht; exact Ht|]. intros v t Ht. eexists. exact Ht.
Qed.

Lemma leased_task_ok id l f s x s' :
  leased_task id l f s = (Ok x, s') ->
  task_by_id id (tb s) = Some x /\ lease_valid x l f (clock (step s)) = true /\ tb s' = tb s.
Proof.
  unfold leased_task, mbind, M_bind, gets. simpl.
  destruct (task_by_id id (tb s)) as [y|]; [|done].
  destruct (lease_valid y l f (clock (step s))) eqn:Hv.
  - destruct (check_lease_passes y l f s Hv) as [n ->]. intros [= <- <-]. by split.
  - destruct (check_lease_rejects y l f s Hv) as (e & He & _ & _).
    destruct (check_lease y l f s) as [[u|e'] s1]; simpl in *; done.
Qed.

(** C10: a settlement that returns did what it says.  The caller held the
    current lease; the task is stored as completed with the settled result
    (the given one, extended by what its declared effect applied) under the
    same fence; the lease holds no resource any more; the attempt is marked
    settled. *)
Theorem settlement_completes calls id l result effect f attempt record s v s' :
  settlement_respects frame calls -> records frame record -> attempt_recorded attempt false (tb s) ->
  settle_attempt calls id l result effect f attempt record s = (Ok v, s') ->
  exists x applied,
    task_by_id id (tb s) = Some x /\ lease_valid x l f (clock (step s)) = true /\
    completed_with id (effect_result effect result applied) (t_lease_fence x) (tb s') /\
    lease_released id l (tb s') /\ attempt_recorded attempt true (tb s').
Proof.
  intros Hc Hr Ha Hs. unfold settle_attempt, mbind, M_bind in Hs.
  destruct (leased_task id l f s) as [[x|e] s1] eqn:El; [|done].
  apply leased_task_ok in El as (Hx & Hv & Ht).
  assert (t_id x = id) as <- by (unfold task_by_id in Hx; apply find_some in Hx as [_ Hx]; by apply String.eqb_eq).
  destruct (settle_rest_post calls x l result effect attempt record Hc Hr s1) as [_ Hq].
  { rewrite Ht. split; [|done]. by exists x. }
  rewrite Hs in Hq. simpl in Hq. destruct Hq as [applied Hq]. by exists x, applied.
Qed.
End Settlement.

Lemma no_settlement_calls_framed : settlement_respects frame no_settlement_calls.
Proof. constructor; intros; steps_walk. Qed.

Lemma no_record_framed : records frame no_record.
Proof. intros v e s c. unfold no_record. steps_walk. Qed.

(** C10 on the sample realm. *)
Lemma settlement_completes_witness :
  lease_released demo_task_1 demo_lease (tb demo_settled) /\ attempt_recorded demo_attempt true (tb demo_settled).
Proof.
  destruct (@settlement_completes demo_world no_settlement_calls demo_task_1 demo_lease (JObj [("outputs", JArr [])])
    JNull (Some 1) demo_attempt no_record demo_claimed
    (match (@settle_attempt demo_world no_settlement_calls demo_task_1 demo_lease (JObj [("outputs", JArr [])]) JNull
              (Some 1) demo_attempt no_record demo_claimed).1 with Ok v => v | Err _ => JNull end) demo_settled)
    as (x & applied & _ & _ & _ & Hl & Ha).
  - exact no_settlement_calls_framed.
  - exact no_record_framed.
  - eexists. split; [left; reflexivity|]. split; [reflexivity|discriminate].
  - vm_compute. reflexivity.
  - split; [exact Hl|exact Ha].
Defined.

(** ** What a claim establishes *)

(** Task rows keep their identity and fence. *)
Definition keeps_fence (x y : task_row) : Prop := t_id y = t_id x /\ t_lease_fence y = t_lease_fence x.

Definition same_fences (t t' : tables) : Prop :=
  forall id x, task_by_id id t = Some x -> exists y, task_by_id id t' = Some y /\ keeps_fence x y.

#[global] Instance same_fences_preorder : PreOrder same_fences.
Proof.
  split.
  - intros t id x Hx. by exists x.
  - intros a b c H1 H2 id x Hx. destruct (H1 id x Hx) as (y & Hy & ? & ?).
    destruct (H2 id y Hy) as (z & Hz & ? & ?). exists z. split; [done|]. split; congruence.
Qed.

Lemma find_updated id p f t x :
  (forall y, In y (tasks t) -> p y = true -> t_id (f y) = t_id y) -> task_by_id id t = Some x ->
  find (is_task id) (update_where p f (tasks t)) = Some (if p x then f x else x) /\ In x (tasks t).
Proof.
  unfold task_by_id. intros Hf Hx. split; [|by apply find_some in Hx as [? _]].
  induction (tasks t) as [|z l IH]; simpl in *; [done|].
  assert (is_task id (if p z then f z else z) = is_task id z) as ->.
  { destruct (p z) eqn:E; [|done]. unfold is_task. by rewrite (Hf z (or_introl eq_refl) E). }
  unfold is_task at 1. destruct (String.eqb (t_id z) id); [by injection Hx as ->|].
  apply IH; [|done]. intros y Hy. apply Hf. by right.
Qed.

#[global] Instance same_fences_tasks : TaskUpdates same_fences keeps_fence.
Proof.
  intros t p f Hf id x Hx. destruct (find_updated id p f t x) as [Hu Hin]; [|done|].
  - intros y Hy Hp. by destruct (Hf y Hy Hp).
  - exists (if p x then f x else x). split; [exact Hu|]. destruct (p x) eqn:E; [by apply Hf|by split].
Qed.

#[global] Instance keeps_fence_undo : UndoRows keeps_fence.
Proof. by constructor. Qed.

(** Task rows change at most in what a bookkeeping write may change. *)
Definition frame_tasks (t t' : tables) : Prop :=
  forall id x, task_by_id id t = Some x -> exists y, task_by_id id t' = Some y /\ benign_row x y.

#[global] Instance frame_tasks_preorder : PreOrder frame_tasks.
Proof.
  split.
  - intros t id x Hx. exists x. split; [done|apply benign_row_refl].
  - intros a b c H1 H2 id x Hx. destruct (H1 id x Hx) as (y & Hy & ?).
    destruct (H2 id y Hy) as (z & Hz & ?). exists z. split; [done|]. by eapply benign_row_trans.
Qed.

Lemma frame_tasks_same t t' : tasks t' = tasks t -> frame_tasks t t'.
Proof. intros Ht id x. unfold task_by_id. rewrite Ht. exists x. split; [done|apply benign_row_refl]. Qed.

#[global] Instance frame_tasks_benign : Benign frame_tasks.
Proof.
  constructor; try exact _; intros; try (by apply frame_tasks_same).
  exact (fr_tasks _ _ (benign_tasks t p f H)).
Qed.

Lemma frame_tasks_fences t t' : frame_tasks t t' -> same_fences t t'.
Proof. intros Hf id x Hx. destruct (Hf id x Hx) as (y & Hy & []). by exists y. Qed.

#[global] Instance same_fences_benign : Benign same_fences.
Proof.
  constructor; try exact _; intros; apply frame_tasks_fences; try (by apply frame_tasks_same).
  by apply benign_tasks.
Qed.

(** The lease a claim leaves behind, or none. *)
Definition leased_to (ex lease : string) (fence : Z) (y : task_row) : Prop :=
  t_status y = Running /\ t_lease_token y = Some lease /\ t_executor_id y = Some ex /\ t_lease_fence y = fence.

Definition claim_outcome (id ex lease : string) (fence : Z) (t : tables) : Prop :=
  exists y, task_by_id id t = Some y /\ (t_status y <> Running \/ leased_to ex lease fence y).

Lemma claim_outcome_frame id ex lease fence t t' :
  frame_tasks t t' -> claim_outcome id ex lease fence t -> claim_outcome id ex lease fence t'.
Proof.
  intros Hf (x & Hx & Hs). destruct (Hf id x Hx) as (y & Hy & []). exists y. split; [done|].
  destruct Hs as [Hs|(? & ? & ? & ?)]; [left; congruence|right; repeat split; congruence].
Qed.

(** The stored row of the task has this status and fence. *)
Definition waits_at (id : string) (status : Status) (fence : Z) (t : tables) : Prop :=
  exists y, task_by_id id t = Some y /\ t_status y = status /\ t_lease_fence y = fence.

Lemma waits_at_frame id status fence t t' : frame_tasks t t' -> waits_at id status fence t -> waits_at id status fence t'.
Proof.
  intros Hf (x & Hx & ? & ?). destruct (Hf id x Hx) as (y & Hy & []). exists y. repeat split; congruence.
Qed.

Section ClaimPost.
Context `{World}.

Ltac claim_step :=
  eapply post_bind; [apply (post_steps frame_tasks); [benign_walk|
    eauto using claim_outcome_frame, waits_at_frame]|].

(** A task view reports the status of the stored row. *)
Definition reports (id : string) (v : json) (t : tables) : Prop :=
  exists y, task_by_id id t = Some y /\ jget (jget v "task") "status" = JStr (status_text (t_status y)).

Lemma public_result_status value :
  is_dict (jget value "task") = true ->
  jget (jget (public_task_result value) "task") "status" = jget (jget value "task") "status".
Proof.
  intros Hd. unfold public_task_result. rewrite Hd. destruct (public_task_spec _) as [spec intent]. cbv zeta.
  rewrite jget_set_eq. destruct (is_null _); [rewrite jget_del_ne by done|rewrite jget_set_ne by done];
    by rewrite jget_set_ne.
Qed.

Lemma get_task_reports id (P : tables -> Prop) : post P (get_task id) (fun v t => reports id v t /\ P t).
Proof.
  intros s Hs. split; [done|]. unfold get_task, mbind, M_bind, gets. cbv beta iota.
  destruct (task_by_id id (tb s)) as [x|] eqn:Ex; [|done]. unfold task_result, mbind, M_bind.
  pose proof (load_spec_steps eq (t_spec_digest x) s) as H1.
  destruct (load_spec (t_spec_digest x) s) as [[stored|e] s1]; simpl in H1; [|done].
  pose proof (execution_request_from_row_steps eq (t_execution_request_json x) (t_spec_digest x) (Some stored) s1) as H2.
  destruct (execution_request_from_row _ _ _ s1) as [[request|e] s2]; simpl in H2; [|done].
  destruct (public_task_spec stored) as [spec intent]. destruct (run_by_id (t_run_id x) (tb s)) as [r|]; [|done].
  pose proof (execution_binding_steps eq (t_id x) s2) as H3.
  destruct (execution_binding (t_id x) s2) as [[b|e] s3]; simpl in H3; [|done]. simpl. rewrite <- H3, <- H2, <- H1.
  split; [|done]. exists x. split; [done|]. rewrite public_result_status.
  - assert (forall v k, k <> "task" -> forall o, jget (set_some v k o) "task" = jget v "task") as Hset
      by (intros v k Hk [o|]; [by apply jget_set_ne|done]).
    rewrite Hset by done. cbn [jget jfields alookup]. unfold set_some.
    destruct (str_truthy _), (t_result_json x), (t_expected_effect_json x), (jhas spec _), (is_null intent), request,
      (t_spec_digest x); repeat first [rewrite jget_set_ne by done|rewrite jget_del_ne by done]; reflexivity.
  - unfold set_some. destruct b; [rewrite jget_set_ne by done|]; 
    destruct (str_truthy _), (t_result_json x), (t_expected_effect_json x); reflexivity.
Qed.

Lemma commit_claim_post x spec ex lease epoch status :
  post (waits_at (t_id x) status (t_lease_fence x)) (commit_claim x spec ex lease epoch status)
    (fun _ => claim_outcome (t_id x) (ex_id ex) lease (t_lease_fence x + 1)).
Proof.
  unfold commit_claim. do 3 (claim_step; intros ?). eapply post_bind.
  - apply (post_modify _ _ (claim_outcome (t_id x) (ex_id ex) lease (t_lease_fence x + 1))).
    intros t (y & Hy & Hs & Hf). unfold claim_outcome.
    destruct (find_updated (t_id x) (fun z => is_task (t_id x) z && bool_decide (t_status z = status))
      (claim_row (ex_id ex) lease (t_lease_fence x + 1) a0 epoch a) t y) as [Hu _]; [done|done|].
    eexists. split; [exact Hu|]. right. unfold task_by_id in Hy. apply find_some in Hy as [_ Hy].
    unfold is_task. rewrite Hy, (bool_decide_eq_true_2 _ Hs). by split.
  - intros ?. do 5 (claim_step; intros ?). eapply post_bind.
    + apply (post_steps frame_tasks); [|eauto using claim_outcome_frame].
      apply steps_for_each; [exact _|]. intros key. apply steps_modify. intros. by apply frame_tasks_same.
    + intros ?. claim_step. intros ?. by apply post_ret.
Qed.

(** What a claim answers, and what it leaves. *)
Definition claim_answered (id ex lease : string) (fence : Z) (v : json) (t : tables) : Prop :=
  reports id v t /\ claim_outcome id ex lease fence t.

(** Whoever leaves the task as it waits claims nothing. *)
Lemma waiting_outcome id status fence ex lease fence' t :
  status <> Running -> waits_at id status fence t -> claim_outcome id ex lease fence' t.
Proof. intros Hs (y & Hy & He & _). exists y. split; [done|]. left. congruence. Qed.

Lemma waiting_post id status fence ex lease fence' :
  status <> Running ->
  post (waits_at id status fence) (get_task id) (claim_answered id ex lease fence').
Proof.
  intros Hs. eapply post_conseq; [apply get_task_reports|intros t Ht; exact Ht|]. intros v t [Hr Hw].
  split; [done|]. by eapply waiting_outcome.
Qed.

Lemma claim_row_or_wait_post x ex lease epoch (recovery : bool) status :
  status <> Running -> (if recovery then t_status x else Queued) = status ->
  post (waits_at (t_id x) status (t_lease_fence x)) (claim_row_or_wait x ex lease epoch recovery)
    (claim_answered (t_id x) ex lease (t_lease_fence x + 1)).
Proof.
  intros Hne Hst. unfold claim_row_or_wait. rewrite Hst.
  eapply (post_bind _ _ _ (fun executor t => (forall e, executor = Some e -> ex_id e = ex) /\
                                             waits_at (t_id x) status (t_lease_fence x) t)).
  { eapply post_conseq; [apply post_gets|intros t Ht; exact Ht|]. intros executor t [-> Ht]. split; [|done].
    intros e He. unfold executor_by_id in He. apply find_some in He as [_ He]. by apply String.eqb_eq. }
  intros executor. apply post_pure. intros Hex. do 2 (claim_step; intros ?).
  claim_step. intros [run|]; [|apply post_raise]. do 2 (claim_step; intros ?).
  assert (forall r, post (waits_at (t_id x) status (t_lease_fence x)) (set_waiting_reason (t_id x) r;; get_task (t_id x))
    (claim_answered (t_id x) ex lease (t_lease_fence x + 1))) as Hwait.
  { intros r. claim_step. intros ?. by apply (waiting_post _ status (t_lease_fence x)). }
  destruct a2, executor as [e|]; try apply Hwait. rewrite <- (Hex e eq_refl).
  eapply post_bind; [apply commit_claim_post|]. intros ?. apply get_task_reports.
Qed.

(** Reading the row of the task. *)
Lemma post_read_row {A} id (ok : task_row -> Prop) (k : option task_row -> M A) P Q :
  (forall t, P t -> exists y, task_by_id id t = Some y /\ ok y) ->
  (forall x, t_id x = id -> ok x -> post (fun t => task_by_id id t = Some x /\ P t) (k (Some x)) Q) ->
  post P (row ← gets (task_by_id id); k row) Q.
Proof.
  intros HP Hk s Hs. unfold mbind, M_bind, gets. simpl. destruct (HP _ Hs) as (x & Hx & Hf).
  rewrite Hx. apply Hk; [|done|done]. unfold task_by_id in Hx. apply find_some in Hx as [_ Hx]. by apply String.eqb_eq.
Qed.

Lemma claim_body_post id ex lease epoch recover fence :
  post (has_fence id fence) (claim_body id ex lease epoch recover) (claim_answered id ex lease (fence + 1)).
Proof.
  unfold claim_body. eapply post_bind.
  { apply (post_steps same_fences); [apply (reap_expired_leases_steps same_fences keeps_fence)|].
    intros t t' Hf (x & Hx & Hxf). destruct (Hf id x Hx) as (y & Hy & _ & Hyf). exists y. split; [done|congruence]. }
  intros ?. apply (post_read_row id (fun x => t_lease_fence x = fence)); [by intros t|]. intros x Hid Hf. subst fence.
  set (unknown := opt_str_eqb _ _). set (recovery := recover && unknown && _).
  eapply post_bind; [apply post_lift|]. intros ?. apply post_pure. intros Hg. apply raise_if_with_Ok in Hg.
  assert ((if recovery then t_status x else Queued) = t_status x /\ t_status x <> Running) as [Hst Hne].
  { destruct recovery eqn:Er.
    - split; [done|]. intros Hrun. unfold recovery in Er. rewrite Hrun in Er. simpl in Er. by rewrite andb_false_r in Er.
    - rewrite andb_true_r in Hg. apply negb_false_iff, bool_decide_eq_true in Hg. by rewrite Hg. }
  apply (post_conseq _ (waits_at id (t_status x) (t_lease_fence x)) _ (claim_answered id ex lease (t_lease_fence x + 1)));
    [|by intros t (Hx & _); exists x|done].
  pose proof (waiting_post id (t_status x) (t_lease_fence x) ex lease (t_lease_fence x + 1) Hne) as Hget.
  destruct (unknown && negb recover); [exact Hget|]. do 2 (claim_step; intros ?).
  destruct (negb (nil_or _) && negb _).
  - do 2 (claim_step; intros ?). destruct (negb a4); [exact Hget|].
    apply (post_read_row id (fun y => t_status y = t_status x /\ t_lease_fence y = t_lease_fence x));
      [intros t (y & ? & ? & ?); by exists y|].
    intros y Hyid [Hys Hyf]. pose proof (claim_row_or_wait_post y ex lease epoch recovery (t_status x) Hne) as Hpost.
    rewrite Hyid, Hyf, Hys in Hpost. eapply post_conseq; [apply Hpost, Hst|by intros t (_ & Hq)|done].
  - rewrite <- Hid. by apply claim_row_or_wait_post.
Qed.

Lemma claim_task_post id ex lease epoch transactional recover fence :
  post (has_fence id fence) (claim_task id ex lease epoch transactional recover) (claim_answered id ex lease (fence + 1)).
Proof.
  unfold claim_task. do 2 (eapply post_bind; [apply (post_steps frame); [steps_walk|eauto with framed]|]; intros ?).
  destruct transactional; [apply post_transaction|]; apply claim_body_post.
Qed.

(** The lease and the attempt row that back a claim. *)
Definition claim_backed (id ex : string) (fence : Z) (c : claimed) (t : tables) : Prop :=
  (exists y, task_by_id id t = Some y /\ leased_to ex (cl_lease_id c) fence y) /\
  exists a, In a (attempts t) /\ at_id a = cl_attempt_id c /\ at_lease_id a = cl_lease_id c /\
            at_task_id a = id /\ at_fence a = cl_fence c.

Lemma claim_backed_frame id ex fence c t t' : frame t t' -> claim_backed id ex fence c t -> claim_backed id ex fence c t'.
Proof.
  intros [T _ A] [(x & Hx & ? & ? & ? & ?) (a & Ha & ? & ? & ? & ?)]. split.
  - destruct (T id x Hx) as (y & Hy & []). exists y. split; [done|]. repeat split; congruence.
  - destruct (A a Ha) as (a' & Ha' & []). exists a'. repeat split; congruence.
Qed.

Lemma leased_row_frame id ex lease fence t t' :
  frame t t' -> (exists y, task_by_id id t = Some y /\ leased_to ex lease fence y) ->
  exists y, task_by_id id t' = Some y /\ leased_to ex lease fence y.
Proof.
  intros [T _ _] (y & Hy & ? & ? & ? & ?). destruct (T id y Hy) as (z & Hz & []).
  exists z. split; [done|]. repeat split; congruence.
Qed.

Lemma record_attempt_post x ex epoch placement attempt lease fence value :
  post (fun t => exists y, task_by_id (t_id x) t = Some y /\ leased_to ex lease fence y)
    (record_attempt x ex epoch placement attempt lease fence value)
    (fun r t => forall c, r = Some c -> cl_fence c = fence /\ claim_backed (t_id x) ex fence c t).
Proof.
  unfold record_attempt.
  eapply post_bind; [apply (post_steps frame); [steps_walk|eauto using leased_row_frame]|]. intros expires.
  eapply (post_bind _ _ _ (fun _ t => claim_backed (t_id x) ex fence (ClaimedAttempt attempt lease fence None value) t)).
  { unfold insert_attempt.
    do 4 (eapply post_bind; [apply (post_steps frame); [steps_walk|eauto using leased_row_frame]|]; intros ?).
    apply post_modify. intros t Ht. split; [exact Ht|]. eexists. split; [apply in_or_app; right; by left|].
    by repeat split. }
  intros ?. do 3 (eapply post_bind; [apply (post_steps frame); [benign_walk|eauto using claim_backed_frame]|]; intros ?).
  apply post_ret. intros t Ht c [= <-]. by split.
Qed.

Lemma fence_attempt_post id ex epoch placement attempt lease value fence :
  fence <> 0 ->
  post (claim_outcome id ex lease fence) (fence_attempt id ex epoch placement attempt lease value)
    (fun r t => forall c, r = Some c -> cl_fence c = fence /\ claim_backed id ex fence c t).
Proof.
  intros Hnz s (x & Hx & Hs). unfold fence_attempt, mbind, M_bind, gets. cbv beta iota. rewrite Hx.
  destruct Hs as [Hq|(Hrun & Hl & He & Hf)]; [rewrite (bool_decide_eq_false_2 _ Hq); simpl; by split|].
  rewrite Hrun, Hf. replace (fence =? 0) with false by (symmetry; by apply Z.eqb_neq).
  assert (t_id x = id) as <- by (unfold task_by_id in Hx; apply find_some in Hx as [_ Hx]; by apply String.eqb_eq).
  apply (record_attempt_post x ex epoch placement attempt lease fence value s).
  exists x. split; [done|]. by repeat split.
Qed.

(** C4: a claim hands out a new fence.  When [claim_next] returns an attempt
    for a task, the stored task runs under the returned lease on the claiming
    executor, with a fence one above the fence before the claim; the attempt
    row carries that lease and fence; and whoever still holds any earlier
    fence of the task fails the lease check. *)
Theorem claim_issues_next_fence id ex epoch placement s x c s' :
  task_by_id id (tb s) = Some x -> 0 <= t_lease_fence x ->
  claim_selected id ex epoch placement s = (Ok (Some c), s') ->
  cl_fence c = t_lease_fence x + 1 /\ claim_backed id ex (t_lease_fence x + 1) c (tb s') /\
  forall y lease fence us, task_by_id id (tb s') = Some y -> fence <= t_lease_fence x ->
    lease_valid y lease (Some fence) us = false.
Proof.
  intros Hx Hnn Hs.
  assert (post (has_fence id (t_lease_fence x)) (claim_selected id ex epoch placement)
    (fun r t => forall c, r = Some c -> cl_fence c = t_lease_fence x + 1 /\
                                        claim_backed id ex (t_lease_fence x + 1) c t)) as Hpost.
  { unfold claim_selected. do 2 (eapply post_bind; [apply (post_steps frame); [steps_walk|eauto with framed]|]; intros ?).
    eapply post_bind; [|intros value; apply fence_attempt_post; lia].
    eapply post_conseq; [apply claim_task_post|intros t Ht; exact Ht|]. by intros v t [_ Ho]. }
  destruct (Hpost s (ex_intro _ x (conj Hx eq_refl))) as [_ Hq]. rewrite Hs in Hq.
  destruct (Hq c eq_refl) as [Hc Hb]. split; [done|]. split; [done|].
  intros y lease fence us Hy Hle. destruct Hb as [(z & Hz & _ & _ & _ & Hf) _]. simpl in Hz.
  assert (y = z) as -> by congruence. unfold lease_valid. rewrite Hf.
  replace (fence =? t_lease_fence x + 1) with false by (symmetry; apply Z.eqb_neq; lia).
  by rewrite andb_false_r.
Qed.
End ClaimPost.

(** C4 on the sample realm. *)
Lemma claim_issues_next_fence_witness :
  exists c, (@claim_selected demo_world demo_task_1 "worker-1" 1 JNull demo_admitted).1 = Ok (Some c) /\ cl_fence c = 1.
Proof.
  destruct ((@claim_selected demo_world demo_task_1 "worker-1" 1 JNull demo_admitted).1) as [[c|]|] eqn:E;
    [|vm_compute in E; discriminate..].
  exists c. split; [reflexivity|].
  destruct (@claim_issues_next_fence demo_world demo_task_1 "worker-1" 1 JNull demo_admitted
    (nth 0 (tasks (tb demo_admitted)) (new_task_row "x" "r" "c" "d" None None JNull JNull (At 0))) c
    (@claim_selected demo_world demo_task_1 "worker-1" 1 JNull demo_admitted).2) as [Hc _].
  - reflexivity.
  - vm_compute. discriminate.
  - rewrite <- E. apply surjective_pairing.
  - exact Hc.
Defined.
