(* ===== verification/ActivationFacts.v ===== *)
(** * What remote activations promise

    The activation events of a task are the log of an abstract machine that
    holds at most one activation and never takes one back: qualification,
    revocation and drains refine it whatever other commands write in between.
    A drain is answered as finished only when the task and its delegated
    children have no work left. *)

From Stdlib Require Import ZArith String Ascii List Bool Lia.
From stdpp Require Import base list strings relations.
From S2P Require Import Prelude Json Errors Facts Sha256 Store Idempotency Ledger Bindings.
From S2P Require Import Executors Continuations Snapshots Delegation Claim Outputs Settle Runs.
From S2P Require Import Admission Effects Wire Commands Deployments Activation Recovery Demo Evolution Leases.

Open Scope Z_scope.

(** ** The frame *)

Section CatchSteps.
Context `{World} (I : tables -> tables -> Prop) `{!PreOrder I}.

Lemma catch_steps {A} l (m h : M A) : steps I m -> steps I h -> steps I (catch l m h).
Proof.
  intros Hm Hh s. unfold catch. specialize (Hm s). destruct (m s) as [[a|e] s'] eqn:E; simpl in *; [done|].
  destruct (existsb _ _); [|done]. etrans; [exact Hm|]. apply Hh.
Qed.

Lemma allM_steps l : Forall (steps I) l -> steps I (allM l).
Proof. induction 1; simpl; [steps_walk|]. by apply steps_andM. Qed.

Lemma lineage_of_steps x : steps I (lineage_of x).
Proof. unfold lineage_of, dict_get. steps_walk. Qed.

Lemma has_admin_steps i : steps I (has_admin i).
Proof. unfold has_admin. steps_walk. Qed.
#[local] Hint Resolve catch_steps lineage_of_steps has_admin_steps : steps.

Lemma require_owner_steps i m : steps I (require_owner i m).
Proof. unfold require_owner, require_placement_recovery_owner. steps_walk. Qed.

Lemma task_resource_steps v : steps I (task_resource v).
Proof. unfold task_resource, copy_field, py_dict. steps_walk. Qed.
#[local] Hint Resolve task_resource_steps : steps.

Lemma binding_of_task_steps id : steps I (binding_of_task id).
Proof. unfold binding_of_task. steps_walk. Qed.

Lemma service_children_steps id : steps I (service_children id).
Proof. unfold service_children. steps_walk. Qed.

Lemma placement_qualification_steps id p : steps I (placement_recovery_qualification_matches id p).
Proof. unfold placement_recovery_qualification_matches. steps_walk. Qed.

Lemma quiescent_steps x l : steps I (assert_placement_recovery_quiescent x l).
Proof. unfold assert_placement_recovery_quiescent. steps_walk. Qed.
#[local] Hint Resolve service_children_steps placement_qualification_steps quiescent_steps : steps.

Lemma admissible_steps id q : steps I (assert_remote_activation_admissible id q).
Proof. unfold assert_remote_activation_admissible. steps_walk. Qed.

Lemma check_qualification_steps svc iso id q x b : steps I (check_qualification svc iso id q x b).
Proof. unfold check_qualification, placement_evidence_digest. steps_walk. Qed.

Lemma drain_pending_steps id : steps I (drain_pending id).
Proof. unfold drain_pending. steps_walk. Qed.

Lemma drain_cutoff_steps id x q : steps I (drain_cutoff id x q).
Proof. unfold drain_cutoff. steps_walk. Qed.
End CatchSteps.

#[export] Hint Resolve catch_steps lineage_of_steps has_admin_steps require_owner_steps task_resource_steps
  binding_of_task_steps service_children_steps placement_qualification_steps quiescent_steps admissible_steps
  check_qualification_steps drain_pending_steps drain_cutoff_steps : steps.

Section DrainSteps.
Context `{World} (I : tables -> tables -> Prop) `{!PreOrder I}.

Lemma drain_generation_steps svc id q i b : steps I (assert_exact_drain_generation svc id q i b).
Proof. unfold assert_exact_drain_generation. steps_walk. Qed.
End DrainSteps.

#[export] Hint Resolve drain_generation_steps : steps.

(** ** Writes that are not about activations *)

Definition remote_kinds : list string := [QUALIFIED; ACCEPTED; REVOKED; DRAINING].

Definition remote_events (t : tables) : list event_row :=
  List.filter (fun e => str_in (e_kind e) remote_kinds) (events t).

Definition quiet (t t' : tables) : Prop := remote_events t' = remote_events t.

#[global] Instance quiet_preorder : PreOrder quiet.
Proof. split; [by intros ?|intros a b c; unfold quiet; congruence]. Qed.

Lemma quiet_event run id kind payload ts t :
  str_in kind remote_kinds = false -> quiet t (insert_event run id kind payload ts t).
Proof. intros Hk. unfold quiet, remote_events, insert_event. simpl. rewrite List.filter_app. simpl. rewrite Hk. apply app_nil_r. Qed.

Section Quiet.
Context `{World}.

Lemma append_event_quiet run id kind payload c :
  str_in kind remote_kinds = false -> steps quiet (append_event run id kind payload c).
Proof. intros Hk. unfold append_event. steps_walk. apply steps_modify. intros t. by apply quiet_event. Qed.

End Quiet.

(** Writes to other tables, and events of other kinds. *)
Ltac quiet_walk :=
  repeat (steps_walk; try
    first [ apply append_event_quiet; reflexivity
          | apply steps_modify; intros ?; apply quiet_event; reflexivity
          | unfold update_tasks, update_runs, update_bindings, update_attempts, update_reservations;
            apply steps_modify; intros ?; reflexivity ]).

Section QuietHandlers.
Context `{World}.

Lemma store_spec_quiet v : steps quiet (store_spec v).
Proof. unfold store_spec. quiet_walk. Qed.

Lemma release_reservations_quiet id l r : steps quiet (release_reservations id l r).
Proof. unfold release_reservations. quiet_walk. Qed.

Lemma release_execution_attempt_quiet id st : steps quiet (release_execution_attempt id st).
Proof. unfold release_execution_attempt. quiet_walk. Qed.

Lemma set_waiting_reason_quiet id r : steps quiet (set_waiting_reason id r).
Proof. unfold set_waiting_reason. quiet_walk. Qed.

Lemma admit_continuation_quiet id : steps quiet (admit_continuation id).
Proof. pose proof store_spec_quiet. pose proof set_waiting_reason_quiet. unfold admit_continuation. quiet_walk.
Qed.

Lemma refresh_quiet id : steps quiet (refresh_continuations_for_predecessor id).
Proof.
  pose proof admit_continuation_quiet. pose proof set_waiting_reason_quiet.
  unfold refresh_continuations_for_predecessor, refresh_continuation. quiet_walk.
Qed.

Lemma contain_with_quiet cancel id a r :
  (forall c, steps quiet (cancel c)) -> steps quiet (contain_with cancel id a r).
Proof.
  intros Hc. pose proof store_spec_quiet. unfold contain_with, close_delegation, contain_child. quiet_walk.
Qed.

Lemma cancel_task_quiet fuel id : steps quiet (cancel_task fuel id no_record).
Proof.
  revert id. induction fuel as [|fuel IH]; intros id; simpl; [steps_walk|].
  assert (forall c, steps quiet (cancel_task fuel c no_record)) as Hc by done.
  pose proof (fun x a r => contain_with_quiet _ x a r Hc). pose proof refresh_quiet.
  pose proof release_reservations_quiet. pose proof release_execution_attempt_quiet.
  unfold no_record, reconcile_with, set_run_status. quiet_walk.
Qed.

Lemma contain_quiet id a r : steps quiet (contain_delegated_children id a r).
Proof. apply contain_with_quiet. intros c. apply cancel_task_quiet. Qed.
End QuietHandlers.

(** ** The machine of a task's activations *)

Inductive move := Qualify (id : string) | Revoke (id : string).

(** The activation that is current, and every id seen so far. *)
Record generations := Gens { current : option string; seen : list string }.

Definition apply_move (g : generations) (m : move) : option generations :=
  match m, current g with
  | Qualify i, None => if str_in i (seen g) then None else Some (Gens (Some i) (i :: seen g))
  | Qualify _, Some _ => None
  | Revoke i, Some c => if String.eqb c i then Some (Gens None (i :: seen g)) else None
  | Revoke i, None => if str_in i (seen g) then None else Some (Gens None (i :: seen g))
  end.

Fixpoint play (g : generations) (l : list move) : option generations :=
  match l with
  | [] => Some g
  | m :: r => match apply_move g m with Some g' => play g' r | None => None end
  end.

Definition idle : generations := Gens None [].

(** The moves an event log records for a task. *)
Definition activation_id_of (payload : json) : string := text_of (jget payload "activation_id").

Definition move_of (e : event_row) : move :=
  if String.eqb (e_kind e) QUALIFIED then Qualify (activation_id_of (e_payload_json e))
  else Revoke (activation_id_of (e_payload_json e)).

Definition decisions (task_id : string) (t : tables) : list event_row := task_events task_id [QUALIFIED; REVOKED] t.

Definition moves (task_id : string) (t : tables) : list move := map move_of (decisions task_id t).

(** The payloads name their activation. *)
Definition named (payload : json) : Prop :=
  is_dict payload = true /\ exists i, jget payload "activation_id" = JStr i.

(** The log of the task is a play of the machine that ends in [g]. *)
Definition plays (task_id : string) (t : tables) (g : generations) : Prop :=
  Forall (fun e => named (e_payload_json e)) (decisions task_id t) /\ play idle (moves task_id t) = Some g.

Lemma play_app g l l' : play g (l ++ l') = match play g l with Some g' => play g' l' | None => None end.
Proof. revert g. induction l as [|m l IH]; intros g; simpl; [done|]. destruct (apply_move g m); [apply IH|done]. Qed.

Definition id_of_move (m : move) : string := match m with Qualify i | Revoke i => i end.

Lemma apply_move_seen g m g' : apply_move g m = Some g' -> seen g' = id_of_move m :: seen g.
Proof.
  unfold apply_move. destruct m, (current g);
    repeat match goal with |- context [if ?b then _ else _] => destruct b end; naive_solver.
Qed.

Lemma play_seen g l g' i :
  play g l = Some g' -> In i (seen g') <-> In i (seen g) \/ In i (map id_of_move l).
Proof.
  revert g. induction l as [|m l IH]; intros g Hp; simpl in *; [naive_solver|].
  destruct (apply_move g m) as [g1|] eqn:E; [|done]. rewrite (IH _ Hp), (apply_move_seen _ _ _ E). simpl. naive_solver.
Qed.

(** What a log with a play shows of the machine. *)

Lemma latest_of_decisions id t :
  latest_remote_activation id t =
  match last (decisions id t) with
  | Some e => if String.eqb (e_kind e) QUALIFIED then e_payload_json e else JNull
  | None => JNull
  end.
Proof. done. Qed.

Lemma plays_current id t g :
  plays id t g ->
  match current g with
  | None => latest_remote_activation id t = JNull
  | Some i => jget (latest_remote_activation id t) "activation_id" = JStr i
  end.
Proof.
  intros [Hn Hp]. unfold moves in Hp. rewrite latest_of_decisions. revert Hn Hp.
  generalize (decisions id t) as l. intros l. destruct l as [|e l _] using rev_ind; intros Hn Hp.
  { simpl in Hp. by injection Hp as <-. }
  rewrite last_snoc. rewrite map_app, play_app in Hp. destruct (play idle (map move_of l)) as [g1|]; [|done].
  apply Forall_app in Hn as [_ He]. apply Forall_inv in He as [_ [i Hi]]. simpl in Hp.
  unfold apply_move, move_of, activation_id_of in Hp. rewrite Hi in Hp.
  destruct (String.eqb (e_kind e) QUALIFIED), (current g1); simpl in Hp; try done;
    repeat match type of Hp with context [if ?b then _ else _] => destruct b end; try done;
    injection Hp as <-; simpl; done.
Qed.

Lemma fresh_unseen id t g i :
  plays id t g -> remote_activation_history id (JStr i) t = [] -> str_in i (seen g) = false.
Proof.
  intros [Hn Hp] Hh. apply str_in_false. rewrite (play_seen _ _ _ i Hp). simpl. intros [[]|Hin].
  unfold moves in Hin. rewrite map_map in Hin. apply in_map_iff in Hin as (e & He & Hin).
  pose proof (proj1 (List.Forall_forall _ _) Hn e Hin) as [Hd [j Hj]].
  assert (In (e_kind e, e_payload_json e) (remote_activation_history id (JStr i) t)) as Hx; [|by rewrite Hh in Hx].
  apply filter_In. split.
  - apply in_map_iff. exists e. split; [done|]. unfold decisions, task_events in *. apply filter_In in Hin as [Hin Hk].
    apply filter_In. split; [done|]. bool_hyps. apply andb_true_iff. split; [done|].
    apply str_in_spec. apply str_in_spec in H0. simpl in *. tauto.
  - simpl. rewrite Hd, Hj. unfold move_of, id_of_move, activation_id_of in He. rewrite Hj in He. simpl in He.
    replace j with i by (by destruct (String.eqb _ _)). apply String.eqb_refl.
Qed.

(** ** What the operations append *)

Lemma decisions_insert tid run id kind payload ts t :
  decisions tid (insert_event run (Some id) kind payload ts t) =
  decisions tid t ++
  (if String.eqb id tid && str_in kind [QUALIFIED; REVOKED] then [next_event run (Some id) kind payload ts t] else []).
Proof.
  unfold decisions, task_events, insert_event. simpl. rewrite List.filter_app. simpl. f_equal.
  replace (opt_str_eqb (Some id) (Some tid)) with (String.eqb id tid); [done|].
  unfold opt_str_eqb. destruct (String.eqb id tid) eqn:E; bool_hyps; symmetry.
  - apply bool_decide_eq_true. congruence.
  - apply bool_decide_eq_false. congruence.
Qed.

Lemma named_column payload i :
  is_dict payload = true -> jget payload "activation_id" = JStr i ->
  named (json_column payload) /\ activation_id_of (json_column payload) = i.
Proof.
  intros Hd Hi. unfold json_column, activation_id_of, named. rewrite jget_jnorm, Hi. simpl.
  split; [|done]. split; [by destruct payload|by exists i].
Qed.

(** An appended decision is one move of the machine of its task, and nothing
    to the others. *)
Lemma plays_insert tid run id kind payload i ts t g g' :
  plays tid t g -> is_dict payload = true -> jget payload "activation_id" = JStr i ->
  str_in kind [QUALIFIED; REVOKED] = true ->
  (id = tid -> apply_move g (if String.eqb kind QUALIFIED then Qualify i else Revoke i) = Some g') ->
  plays tid (insert_event run (Some id) kind payload ts t) (if String.eqb id tid then g' else g).
Proof.
  intros [Hn Hp] Hd Hi Hk Hm. unfold plays, moves. rewrite decisions_insert, Hk.
  destruct (String.eqb id tid) eqn:E; simpl; [|by rewrite app_nil_r]. bool_hyps. specialize (Hm E).
  destruct (named_column payload i Hd Hi) as [Hnamed Hid]. split.
  - apply Forall_app. split; [done|]. constructor; [exact Hnamed|constructor].
  - unfold moves in Hp. rewrite map_app, play_app, Hp. simpl. unfold move_of. simpl. rewrite Hid, Hm. done.
Qed.

Lemma plays_other tid run id kind payload ts t g :
  plays tid t g -> str_in kind [QUALIFIED; REVOKED] = false ->
  plays tid (insert_event run (Some id) kind payload ts t) g.
Proof.
  intros Hp Hk. unfold plays, moves in *. rewrite decisions_insert, Hk, andb_false_r, app_nil_r. done.
Qed.

Lemma plays_quiet tid t t' g : quiet t t' -> plays tid t g -> plays tid t' g.
Proof.
  intros Hq. assert (decisions tid t' = decisions tid t) as E; [|unfold plays, moves; by rewrite E].
  assert (forall u, decisions tid u = List.filter (fun e => opt_str_eqb (e_task_id e) (Some tid) &&
    str_in (e_kind e) [QUALIFIED; REVOKED]) (remote_events u)) as Hu; [|by rewrite !Hu, Hq].
  intros u. unfold decisions, task_events, remote_events. induction (events u) as [|e l IH]; simpl; [done|].
  destruct (str_in (e_kind e) remote_kinds) eqn:E; simpl.
  - by destruct (_ && _); rewrite IH.
  - replace (str_in (e_kind e) [QUALIFIED; REVOKED]) with false; [by rewrite andb_false_r|].
    symmetry. apply str_in_false. apply str_in_false in E. simpl in *. tauto.
Qed.

(** One command is at most one move. *)
Definition advances (g g' : generations) : Prop := g' = g \/ exists m, apply_move g m = Some g'.

Section Operations.
Context `{World} (svc : service) (fromisoformat : string -> option (Z * bool)).

Lemma append_event_post run id kind payload c (P Q : tables -> Prop) :
  (forall t ts, P t -> Q (insert_event run id kind payload ts t)) ->
  post P (append_event run id kind payload c) (fun _ => Q).
Proof.
  intros HQ. unfold append_event.
  eapply post_bind; [apply post_read; steps_walk|]. intros previous.
  eapply post_bind; [apply post_read; steps_walk|]. intros ts. cbv zeta.
  eapply post_bind; [apply post_read; steps_walk|]. intros known.
  eapply post_bind; [apply post_read; steps_walk|]. intros [].
  eapply post_bind; [apply post_modify; intros t Ht; apply HQ, Ht|]. intros [].
  eapply post_bind; [apply post_read; steps_walk|]. intros e. apply post_read. steps_walk.
Qed.

(** Reading a view of known tables. *)
Lemma post_view {A B} (f : tables -> A) (k : A -> M B) t0 Q :
  post (fun t => t = t0) (k (f t0)) Q -> post (fun t => t = t0) (gets f ≫= k) Q.
Proof. intros Hk s Hs. simpl in Hs. subst t0. exact (Hk s eq_refl). Qed.

Lemma revoke_move tid id aid q g t :
  plays id t g ->
  (is_str aid = true \/ q = JNull) -> tid = id ->
  negb (is_null (latest_remote_activation id t) && is_dict q && is_json_str id (jget q "task_id") &&
        py_eq (jget q "activation_id") aid && nil_or (remote_activation_history id aid t)) &&
  (is_null (latest_remote_activation id t) ||
   negb (py_eq (jget (latest_remote_activation id t) "activation_id") aid)) = false ->
  exists i g', aid = JStr i /\ apply_move g (Revoke i) = Some g'.
Proof.
  intros Hp Ha -> Hg. pose proof (plays_current _ _ _ Hp) as Hc. apply andb_false_iff in Hg as [Hg|Hg]; bool_hyps.
  - destruct Ha as [Ha| ->]; [|done]. destruct aid as [| | |i| |]; try done. exists i.
    destruct (current g) as [c|] eqn:Ec; [by destruct (latest_remote_activation id t)|].
    destruct (remote_activation_history id (JStr i) t) eqn:Eh; [|done].
    eexists. split; [done|]. unfold apply_move. by rewrite Ec, (fresh_unseen _ _ _ _ Hp Eh).
  - destruct (current g) as [c|] eqn:Ec; [|by rewrite Hc in *]. rewrite Hc in *. destruct aid as [| | |i| |]; try done.
    simpl in *. bool_hyps. subst. eexists _, _. split; [done|]. unfold apply_move. by rewrite Ec, String.eqb_refl.
Qed.

Lemma revoke_advances tid task_id aid identity q t0 g :
  plays tid t0 g -> is_str aid = true \/ q = JNull ->
  post (fun t => t = t0) (revoke_body task_id aid identity q)
    (fun _ t => exists g', plays tid t g' /\ advances g g').
Proof.
  intros Hp Ha. unfold revoke_body. eapply post_bind; [apply post_read; steps_walk|]. intros [].
  apply post_view, post_view. cbv zeta. guards.
  eapply post_bind; [apply post_read; steps_walk|]. intros value.
  eapply post_bind; [apply post_read; steps_walk|]. intros ts.
  eapply post_bind.
  - apply (append_event_post _ _ _ _ _ _ (fun t => exists g', plays tid t g' /\ advances g g')). intros t ts' ->.
    destruct (decide (tid = task_id)) as [->|Hne].
    + destruct (revoke_move task_id task_id aid q g t0) as (i & g' & -> & Hm); try done.
      exists g'. split; [|right; eauto].
      pose proof (plays_insert task_id (text_of (jget (jget value "run") "id")) task_id REVOKED
        (JObj [("activation_id", JStr i); ("revoked_at", jstamp ts)]) i ts' t0 g g' Hp eq_refl eq_refl eq_refl) as Hi.
      rewrite String.eqb_refl in Hi. by apply Hi.
    + exists g. split; [|by left]. unfold plays, moves in *. rewrite decisions_insert.
      rewrite (proj2 (String.eqb_neq task_id tid)) by congruence. simpl. by rewrite app_nil_r.
  - intros event. apply (post_steps quiet); [apply contain_quiet|].
    intros t t' Hq (g' & Hg & Had). exists g'. split; [|done]. by eapply plays_quiet.
Qed.

(** [_durable_mutation]: a failure leaves the tables as they were. *)
Lemma durable_outcome {A} (m : M A) (R : tables -> Prop) s :
  R (tb s) -> post (fun t => t = tb s) m (fun _ => R) -> R (tb (durable_mutation svc m s).2).
Proof.
  intros HR Hm. unfold durable_mutation, assert_mutation_admitted, transaction, mbind, M_bind. simpl.
  destruct (raise_if _ _ _); simpl; [|done]. specialize (Hm s eq_refl).
  destruct (m s) as [[v|e] s']; simpl in *; [by apply Hm|done].
Qed.

Lemma durable_post {A} (m : M A) P Q : post P m Q -> post P (durable_mutation svc m) Q.
Proof.
  intros Hm. unfold durable_mutation, assert_mutation_admitted.
  eapply post_bind; [apply post_guard|]. intros []. apply post_pure. intros _. by apply post_transaction.
Qed.


Lemma check_qualification_named task_id q task b P :
  post P (check_qualification svc fromisoformat task_id q task b)
    (fun _ t => (exists i, jget q "activation_id" = JStr i) /\ P t).
Proof.
  unfold check_qualification. apply post_bind with (Q := fun _ => P); [apply post_read; steps_walk|]. intros epoch.
  guards. eapply post_bind; [apply post_read; unfold placement_evidence_digest; steps_walk|]. intros [].
  destruct (jget q "expires_at") as [| | |text| |]; try apply post_raise.
  destruct (fromisoformat text) as [[expiry aware]|]; [|apply post_raise]. guards.
  apply post_ret. intros t Ht. split; [|done]. simpl in *. bool_hyps.
  destruct (jget q "activation_id") as [| | |i| |]; try done. by exists i.
Qed.

Lemma record_advances tid task_id q identity t0 g :
  plays tid t0 g ->
  post (fun t => t = t0) (record_body svc fromisoformat task_id q identity)
    (fun _ t => exists g', plays tid t g' /\ advances g g').
Proof.
  intros Hp. unfold record_body. eapply post_bind; [apply post_read; steps_walk|]. intros []. guards.
  eapply post_bind; [apply post_read; steps_walk|]. intros value.
  eapply post_bind; [apply post_read; steps_walk|]. intros task.
  eapply post_bind; [apply post_read; steps_walk|]. intros b.
  eapply post_bind; [apply check_qualification_named|]. intros expiry. apply post_pure. intros [i Hi].
  apply post_view, post_view. rewrite Hi.
  destruct (remote_activation_history task_id (JStr i) t0) eqn:Eh; simpl.
  2: { guards. apply post_ret. intros t ->. exists g. split; [done|by left]. }
  eapply post_bind; [apply post_read; steps_walk|]. intros us. guards.
  eapply post_bind; [apply post_read; steps_walk|]. intros []. cbv zeta.
  set (run := text_of _).
  eapply post_bind; [apply (append_event_post _ _ _ _ _ _ (fun t => exists g', plays tid t g' /\ advances g g'))|].
  - intros t ts ->. destruct (decide (tid = task_id)) as [->|Hne].
    + pose proof (plays_current _ _ _ Hp) as Hc.
      assert (current g = None) as Ec.
      { destruct (current g); [|done]. destruct (latest_remote_activation task_id t0); try done. }
      exists (Gens (Some i) (i :: seen g)).
      assert (apply_move g (Qualify i) = Some (Gens (Some i) (i :: seen g))) as Hm.
      { unfold apply_move. by rewrite Ec, (fresh_unseen _ _ _ _ Hp Eh). }
      split; [|right; eauto].
      pose proof (plays_insert task_id run task_id QUALIFIED q i ts t0 g (Gens (Some i) (i :: seen g)) Hp) as Hins.
      rewrite (String.eqb_refl task_id) in Hins. apply Hins; done.
    + exists g. split; [|by left]. unfold plays, moves in *. rewrite decisions_insert.
      rewrite (proj2 (String.eqb_neq task_id tid)) by congruence. simpl. by rewrite app_nil_r.
  - intros event. eapply post_bind;
      [apply (append_event_post _ _ _ _ _ _ (fun t => exists g', plays tid t g' /\ advances g g'))|].
    + intros t ts (g' & Hg & Ha). exists g'. split; [by apply plays_other|done].
    + intros event'. by apply post_ret.
Qed.

Lemma begin_drain_advances tid task_id q identity s g :
  plays tid (tb s) g -> plays tid (tb (begin_remote_drain svc task_id q identity s).2) g.
Proof.
  intros Hp. apply (durable_outcome _ (fun t => plays tid t g)); [done|].
  eapply post_bind; [apply post_read; steps_walk|]. intros [marker revoked].
  destruct (negb (is_null marker)). { apply post_ret. by intros t ->. }
  apply post_view. destruct (task_by_id task_id (tb s)) as [parent|]; [|apply post_raise].
  eapply post_bind; [apply post_read; steps_walk|]. intros cutoff.
  eapply post_bind; [apply post_read; steps_walk|]. intros begun.
  eapply post_bind; [apply (append_event_post _ _ _ _ _ _ (fun t => plays tid t g))|].
  - intros t ts ->. by apply plays_other.
  - intros event. by apply post_ret.
Qed.

Lemma finish_drain_advances tid task_id q identity s g :
  plays tid (tb s) g ->
  exists g', plays tid (tb (finish_remote_drain svc task_id q identity s).2) g' /\ advances g g'.
Proof.
  intros Hp. apply (durable_outcome _ (fun t => exists g', plays tid t g' /\ advances g g')); [by exists g; split; [|left]|].
  eapply post_bind; [apply post_read; steps_walk|]. intros [marker revoked]. guards.
  eapply post_bind; [apply post_read; steps_walk|]. intros children.
  eapply post_bind; [apply post_read; steps_walk|]. intros pending.
  destruct (negb (nil_or pending)). { apply post_ret. intros t ->. by exists g; split; [|left]. }
  eapply post_bind with (Q := fun _ t => exists g', plays tid t g' /\ advances g g'); [|intros []; by apply post_ret].
  destruct revoked. { apply post_ret. intros t ->. by exists g; split; [|left]. }
  apply durable_post, revoke_advances; [done|by right].
Qed.
End Operations.

(** ** Recovery of a placement *)

(** Receipts other than those of publications are read and written without
    the callback of the service. *)

Lemma steps_view {A B} (I : tables -> tables -> Prop) `{!PreOrder I} (f : tables -> A) (k : A -> M B) :
  (forall t, steps I (k (f t))) -> steps I (gets f ≫= k).
Proof. intros Hk s. exact (Hk (tb s) s). Qed.

Lemma valid_key_same key k : validate_idempotency_key (JStr key) = Ok k -> k = key.
Proof. simpl. destruct (is_idempotency_key key); [congruence|done]. Qed.

Section Receipts.
Context `{World} (I : tables -> tables -> Prop) `{!PreOrder I} (svc : service).

Definition plain (row : receipt_row) : Prop := String.eqb (rc_command_kind row) "parent_composition.publish" = false.

Lemma receipt_payload_plain row b p : plain row -> steps I (receipt_payload svc row b p).
Proof.
  intros Hp. unfold receipt_payload, active_task_admission_result, seq_number, plain in *. rewrite Hp. steps_walk.
Qed.

Lemma receipt_of_kind kind a k t r : receipt_of kind a k t = Some r -> rc_command_kind r = kind.
Proof. intros E. apply find_some in E as [_ E]. unfold same_receipt in E. bool_hyps. done. Qed.

Lemma command_replay_plain kind a key h p :
  String.eqb kind "parent_composition.publish" = false -> session_kind kind = false ->
  steps I (command_replay svc kind a key h p).
Proof.
  intros Hk Hs. unfold command_replay, command_replay_state, prior_receipt. rewrite Hs, Hk.
  apply steps_bind; [exact _| |intros; steps_walk]. destruct (is_null key); [steps_walk|].
  apply steps_bind; [exact _|steps_walk|]. intros k. apply steps_view; [exact _|]. intros t.
  destruct (receipt_of kind a k t) as [r|] eqn:Er; [|steps_walk].
  assert (plain r) as Hr by (unfold plain; by rewrite (receipt_of_kind _ _ _ _ _ Er)).
  pose proof (fun b q => receipt_payload_plain r b q Hr). steps_walk.
Qed.
End Receipts.

(** Receipts write no event. *)
Definition same_events (t t' : tables) : Prop := events t' = events t.

#[global] Instance same_events_preorder : PreOrder same_events.
Proof. split; [by intros ?|intros a b c; unfold same_events; congruence]. Qed.

Section QuietRecords.
Context `{World} (svc : service).

Lemma prune_events : steps same_events prune_replay_bodies.
Proof. unfold prune_replay_bodies, expire_receipt, expired_publication_result. quiet_walk. Qed.

Lemma record_receipt_events k a i h r p ev st n c : steps same_events (record_command_receipt k a i h r p ev st n c).
Proof.
  pose proof prune_events. unfold record_command_receipt, allocate_project_seq, insert_receipt. quiet_walk.
Qed.

Lemma record_durable_events kind a key h r p ev st n b c :
  String.eqb kind "parent_composition.publish" = false ->
  steps same_events (record_durable svc kind a key h r p ev st n b c).
Proof.
  intros Hk. unfold record_durable. apply steps_bind; [exact _|apply record_receipt_events|]. intros ?.
  destruct (negb b); [steps_walk|]. apply steps_view; [exact _|]. intros t.
  destruct (receipt_of kind a key t) as [row|] eqn:Er; [|quiet_walk].
  assert (plain row) as Hr by (unfold plain; by rewrite (receipt_of_kind _ _ _ _ _ Er)).
  pose proof (fun b q => receipt_payload_plain same_events svc row b q Hr). quiet_walk.
Qed.

Lemma command_record_events kind a key h r p ev st n b c :
  String.eqb kind "parent_composition.publish" = false ->
  steps same_events (command_record svc kind a key h r p ev st n b c).
Proof.
  intros Hk. pose proof (record_durable_events kind).
  unfold command_record, record_session, insert_session, expire_session, insert_receipt. quiet_walk.
Qed.

Lemma command_record_quiet kind a key h r p ev st n b c :
  String.eqb kind "parent_composition.publish" = false ->
  steps quiet (command_record svc kind a key h r p ev st n b c).
Proof.
  intros Hk. apply (steps_weaken same_events); [|by apply command_record_events].
  intros t t' E. unfold quiet, remote_events. by rewrite E.
Qed.

Lemma fence_child_quiet id v r ts c : steps quiet (fence_child id v r ts c).
Proof. unfold fence_child, set_run_status. quiet_walk. Qed.

Lemma rebind_quiet id r ts : steps quiet (rebind id r ts).
Proof. unfold rebind. quiet_walk. Qed.
End QuietRecords.

Section RecoveryReaders.
Context `{World} (I : tables -> tables -> Prop) `{!PreOrder I} (iso : string -> option (Z * bool)).

Lemma check_recovery_body_steps id x b : steps I (check_recovery_body id x b).
Proof. unfold check_recovery_body. steps_walk. Qed.

Lemma loss_evidence_steps v t : steps I (validate_placement_loss_evidence iso v t).
Proof. unfold validate_placement_loss_evidence, check_observed_at, placement_evidence_digest. steps_walk. Qed.

Lemma replacement_qualification_steps v t : steps I (validate_replacement_qualification v t).
Proof. unfold validate_replacement_qualification, placement_evidence_digest. steps_walk. Qed.

Lemma superseded_steps b : steps I (superseded_binding b).
Proof. unfold superseded_binding, int_or_zero. steps_walk. Qed.

Lemma recovery_owner_steps i : steps I (require_placement_recovery_owner i).
Proof. unfold require_placement_recovery_owner. steps_walk. Qed.

Lemma check_versions_steps b : steps I (check_versions b).
Proof. unfold check_versions. steps_walk. Qed.
End RecoveryReaders.

#[export] Hint Resolve check_recovery_body_steps loss_evidence_steps replacement_qualification_steps superseded_steps
  recovery_owner_steps check_versions_steps : steps.

Section RecoveryMoves.
Context `{World} (svc : service) (iso : string -> option (Z * bool)).

Lemma jitem_post j k P : post P (jitem j k) (fun v t => jget j k = v /\ P t).
Proof.
  destruct j as [| | | | |kvs]; try apply post_raise. simpl. unfold jget. simpl.
  destruct (alookup k kvs) as [v|]; [by apply post_ret|apply post_raise].
Qed.

Lemma plays_elsewhere tid run id kind payload ts t g :
  tid <> id -> plays tid t g -> plays tid (insert_event run (Some id) kind payload ts t) g.
Proof.
  intros Hne Hp. unfold plays, moves in *. rewrite decisions_insert.
  rewrite (proj2 (String.eqb_neq id tid)) by congruence. simpl. by rewrite app_nil_r.
Qed.

Lemma revoke_previous_advances tid run id ts g :
  post (fun t => plays tid t g) (revoke_previous run id ts) (fun _ t => exists g', plays tid t g' /\ advances g g').
Proof.
  unfold revoke_previous. eapply post_bind; [apply post_gets|]. intros previous.
  destruct (is_null previous) eqn:En. { apply post_ret. intros t [_ Ht]. exists g. by split; [|left]. }
  eapply post_bind; [apply jitem_post|]. intros aid. apply post_pure. intros Ha.
  eapply post_bind; [apply (append_event_post _ _ _ _ _ _ (fun t => exists g', plays tid t g' /\ advances g g'))|].
  2: { intros event. by apply post_ret. }
  intros t ts' [Hprev Hp]. destruct (decide (tid = id)) as [->|Hne].
  2: { exists g. split; [by apply plays_elsewhere|by left]. }
  pose proof (plays_current _ _ _ Hp) as Hc. destruct (current g) as [i|] eqn:Ec; [|by subst previous; rewrite Hc in En].
  rewrite <- Hprev, Ha in Hc. subst aid. exists (Gens None (i :: seen g)).
  assert (apply_move g (Revoke i) = Some (Gens None (i :: seen g))) as Hm
    by (unfold apply_move; by rewrite Ec, String.eqb_refl).
  split; [|right; eauto].
  pose proof (plays_insert id run id REVOKED (JObj [("activation_id", JStr i); ("reason", JStr "placement_recovered");
    ("revoked_at", jstamp ts)]) i ts' t g (Gens None (i :: seen g)) Hp eq_refl eq_refl eq_refl) as Hi.
  rewrite (String.eqb_refl id) in Hi. rewrite Hc. exact (Hi (fun _ => Hm)).
Qed.

Lemma quiet_keeps {A} tid g (m : M A) :
  steps quiet m -> post (fun t => plays tid t g) m (fun _ t => plays tid t g).
Proof. intros Hm. apply (post_steps quiet); [done|]. intros t t' Hq. by apply plays_quiet. Qed.

Lemma quiet_advances {A} tid g (m : M A) :
  steps quiet m -> post (fun t => exists g', plays tid t g' /\ advances g g') m
    (fun _ t => exists g', plays tid t g' /\ advances g g').
Proof.
  intros Hm. apply (post_steps quiet); [done|]. intros t t' Hq (g' & Hp & Ha). exists g'.
  split; [by eapply plays_quiet|done].
Qed.

Lemma commit_recovery_advances tid id run v r d kids ts g :
  post (fun t => plays tid t g) (commit_recovery id run v r d kids ts)
    (fun _ t => exists g', plays tid t g' /\ advances g g').
Proof.
  unfold commit_recovery. eapply post_bind.
  { apply quiet_keeps. apply steps_foldS; [exact _|]. intros acc x. apply steps_bind; [exact _|apply fence_child_quiet|].
    intros. steps_walk. }
  intros fenced. eapply post_bind; [apply quiet_keeps, rebind_quiet|]. intros ?.
  eapply post_bind; [apply quiet_keeps, steps_modify; intros t; reflexivity|]. intros ?.
  eapply post_bind; [apply quiet_keeps; by apply append_event_quiet|]. intros event.
  eapply post_bind; [apply revoke_previous_advances|]. intros revoked. by apply post_ret.
Qed.

Lemma recover_fresh_advances tid id actor reason current body g :
  post (fun t => plays tid t g) (recover_fresh iso id actor reason current body)
    (fun _ t => exists g', plays tid t g' /\ advances g g').
Proof.
  unfold recover_fresh. eapply post_bind; [apply post_read; steps_walk|]. intros [task|]; [|apply post_raise].
  eapply post_bind; [apply post_read; steps_walk|]. intros [[[[admitted pv] tv] target] replacement].
  do 6 (eapply post_bind; [apply post_read; steps_walk|]; intros ?). cbv zeta.
  eapply post_bind; [apply commit_recovery_advances|]. intros events. by apply post_ret.
Qed.

Lemma recover_advances tid id body key identity s g :
  plays tid (tb s) g ->
  exists g', plays tid (tb (recover_task_placement svc iso id body key identity s).2) g' /\ advances g g'.
Proof.
  intros Hp. apply (durable_outcome svc _ (fun t => exists g', plays tid t g' /\ advances g g'));
    [by exists g; split; [|left]|].
  apply (post_conseq _ (fun t => plays tid t g) _ (fun _ t => exists g', plays tid t g' /\ advances g g'));
    [|by intros t ->|done]. unfold recover_body.
  do 5 (eapply post_bind; [apply post_read; steps_walk|]; intros ?).
  destruct (bounded_text 1024 _) as [reason|]; [|apply post_raise]. cbv zeta.
  eapply post_bind; [apply post_read; steps_walk|]. intros current.
  eapply post_bind; [apply post_read; apply command_replay_plain; [exact _|reflexivity..]|]. intros [v|].
  { apply post_ret. intros t Ht. by exists g; split; [|left]. }
  eapply post_bind; [apply recover_fresh_advances|]. intros [[decision events] ts].
  do 3 (eapply post_bind; [apply quiet_advances; steps_walk|]; intros ?).
  apply quiet_advances. by apply command_record_quiet.
Qed.
End RecoveryMoves.

(** ** Runs *)

Inductive remote_command :=
  | RecordActivation (task_id : string) (qualification identity : json)
  | RevokeActivation (task_id activation_id : string) (identity qualification : json)
  | BeginDrain (task_id : string) (qualification identity : json)
  | FinishDrain (task_id : string) (qualification identity : json)
  | RecoverPlacement (task_id : string) (body key identity : json).

Section Runs.
Context `{World} (fromisoformat : string -> option (Z * bool)).

Definition run_remote (svc : service) (c : remote_command) (s : state) : tables :=
  match c with
  | RecordActivation id q i => tb (record_remote_activation svc fromisoformat id q i s).2
  | RevokeActivation id a i q => tb (revoke_remote_activation svc id (JStr a) i q s).2
  | BeginDrain id q i => tb (begin_remote_drain svc id q i s).2
  | FinishDrain id q i => tb (finish_remote_drain svc id q i s).2
  | RecoverPlacement id b k i => tb (recover_task_placement svc fromisoformat id b k i s).2
  end.

(** A command of any session of the service, or any change that writes no
    activation event. *)
Inductive remote_step : tables -> tables -> Prop :=
  | step_command svc c s : remote_step (tb s) (run_remote svc c s)
  | step_other t t' : quiet t t' -> remote_step t t'.

Lemma remote_step_plays id t t' g :
  remote_step t t' -> plays id t g -> exists g', plays id t' g' /\ advances g g'.
Proof.
  intros [svc c s|u u' Hq] Hp; [|exists g; split; [by eapply plays_quiet|by left]].
  destruct c as [task q i|task a i q|task q i|task q i|task b k i]; simpl.
  - apply (durable_outcome svc _ (fun t => exists g', plays id t g' /\ advances g g'));
      [by exists g; split; [|left]|by apply record_advances].
  - apply (durable_outcome svc _ (fun t => exists g', plays id t g' /\ advances g g'));
      [by exists g; split; [|left]|apply revoke_advances; auto].
  - exists g. split; [by apply begin_drain_advances|by left].
  - by apply finish_drain_advances.
  - by apply recover_advances.
Qed.

(** The log, read without the machine: whatever happened to an activation, it
    is never qualified afterwards; and a second one is qualified only after
    the first was revoked. *)
Record lawful (l : list move) : Prop := {
  single_use : forall a m b, l = a ++ m :: b -> ~ In (Qualify (id_of_move m)) b;
  exclusive : forall a i b j c, l = a ++ Qualify i :: b ++ Qualify j :: c -> In (Revoke i) b }.

Lemma play_unused g l g' i : play g l = Some g' -> In i (seen g) -> ~ In (Qualify i) l.
Proof.
  revert g. induction l as [|m l IH]; intros g Hp Hi; [intros []|]. simpl in Hp.
  destruct (apply_move g m) as [g1|] eqn:E; [|done]. intros [->|Hin].
  - unfold apply_move in E. destruct (current g); [done|]. apply str_in_spec in Hi. by rewrite Hi in E.
  - apply (IH g1); [done| |done]. rewrite (apply_move_seen _ _ _ E). by right.
Qed.

Lemma play_holds g l g' i :
  play g l = Some g' -> current g = Some i -> current g' = None -> In (Revoke i) l.
Proof.
  intros Hp Hi Hn. destruct l as [|m l]; simpl in Hp; [congruence|]. left.
  destruct (apply_move g m) as [g1|] eqn:E; [|done]. unfold apply_move in E. rewrite Hi in E.
  destruct m as [j|j]; [done|]. destruct (String.eqb i j) eqn:Ej; [|done]. bool_hyps. by subst.
Qed.

Lemma play_split g l m r g' :
  play g (l ++ m :: r) = Some g' ->
  exists g1 g2, play g l = Some g1 /\ apply_move g1 m = Some g2 /\ play g2 r = Some g'.
Proof.
  rewrite play_app. simpl. intros Hp. destruct (play g l) as [g1|]; [|done].
  destruct (apply_move g1 m) as [g2|] eqn:E; [|done]. eauto.
Qed.

Lemma play_lawful l g : play idle l = Some g -> lawful l.
Proof.
  intros Hp. split.
  - intros a m b ->. apply play_split in Hp as (g1 & g2 & _ & Hm & Hb).
    apply (play_unused _ _ _ _ Hb). rewrite (apply_move_seen _ _ _ Hm). by left.
  - intros a i b j c ->. apply play_split in Hp as (g1 & g2 & _ & Hm & Hp).
    apply play_split in Hp as (g3 & g4 & Hb & Hj & _). apply (play_holds _ _ _ _ Hb).
    + unfold apply_move in Hm. destruct (current g1); [done|]. destruct (str_in i (seen g1)); [done|].
      by injection Hm as <-.
    + unfold apply_move in Hj. by destruct (current g3).
Qed.

(** C7: a task that had no activation event, through any sequence of
    qualifications, revocations, drains and placement recoveries by any
    sessions, interleaved with any other changes: the log of its activations is a play of the machine
    that holds one activation at a time; hence an activation id is qualified
    at most once and never after it was revoked, a second activation is
    qualified only after the one before it was revoked, and the activation
    Runtime answers as the latest is the machine's current one. *)
Theorem activations_single_use id t t' :
  decisions id t = [] -> rtc remote_step t t' ->
  lawful (moves id t') /\
  exists g, play idle (moves id t') = Some g /\
    match current g with
    | None => latest_remote_activation id t' = JNull
    | Some i => jget (latest_remote_activation id t') "activation_id" = JStr i
    end.
Proof.
  intros Hd Hr. assert (plays id t idle) as Hp by (unfold plays, moves; rewrite Hd; by split).
  assert (exists g, plays id t' g) as [g Hg].
  { clear Hd. revert Hp. generalize idle. induction Hr as [t|t u t' Hs _ IH]; intros g Hp; [eauto|].
    destruct (remote_step_plays _ _ _ _ Hs Hp) as (g' & Hg' & _). eauto. }
  split; [apply play_lawful with g, Hg|]. exists g. split; [apply Hg|by apply plays_current].
Qed.
End Runs.

(** ** Drains *)

(** Nothing of the task can still act: it is over, no attempt of it is open
    and it holds no reservation. *)
Record at_rest (id : string) (t : tables) : Prop := {
  rest_row : exists x, task_by_id id t = Some x /\ status_in (t_status x) [Completed; Failed; Cancelled] = true /\
    t_waiting_reason x <> Some "provider_state_unknown";
  rest_attempts : forall a, In a (attempts t) -> at_task_id a = id -> at_settled a = true;
  rest_reservations : forall r, In r (reservations t) -> rv_task_id r = id -> active r = false }.

(** The task names the other as the parent that delegated it. *)
Definition delegated_by (parent : string) (x : task_row) (t : tables) : Prop :=
  exists lineage, (lineage_of x (State t 0 0 JNull)).1 = Ok lineage /\ is_dict lineage = true /\
    jget lineage "parent_task_id" = JStr parent.

Section Drains.
Context `{World}.

Lemma post_run {A} (m : M A) P Q s a s' : post P m Q -> P (tb s) -> m s = (Ok a, s') -> Q a (tb s').
Proof. intros Hm Hs E. specialize (Hm s Hs). rewrite E in Hm. apply Hm. Qed.

Lemma lineage_reads x s : lineage_of x s = ((lineage_of x (State (tb s) 0 0 JNull)).1, s).
Proof.
  unfold lineage_of, spec_of, load_spec, dict_get, loads, mbind, M_bind. simpl.
  destruct (t_spec_digest x) as [d|]; [|done]. simpl. destruct (spec_by_digest d (tb s)) as [r|]; [|done]. simpl.
  destruct (raise_if _ _ _); [|done]. destruct (json_loads _) as [v|]; [|done]. simpl. by destruct (is_dict v).
Qed.

Definition collect_child (parent : string) (acc : list (task_row * json)) (row : task_row)
  : M (list (task_row * json)) :=
  lineage ← catch [TypeError; ValueError] (lineage_of row) (mret JNull);
  mret (if is_dict lineage && is_json_str parent (jget lineage "parent_task_id")
        then acc ++ [(row, lineage)] else acc).

Lemma collect_children parent rows acc s l s' :
  foldS (collect_child parent) acc rows s = (Ok l, s') ->
  incl (map fst acc) (map fst l) /\
  forall x, In x rows -> delegated_by parent x (tb s) -> In x (map fst l).
Proof.
  revert acc s. induction rows as [|r rows IH]; intros acc s; simpl.
  { intros [= <- <-]. split; [apply incl_refl|done]. }
  unfold mbind, M_bind at 1. unfold collect_child, mbind, M_bind, catch. rewrite lineage_reads.
  destruct (lineage_of r (State (tb s) 0 0 JNull)).1 as [lin|e] eqn:El.
  - simpl. intros E. apply IH in E as [Hi Hx]. destruct (is_dict lin && _) eqn:Ed.
    + rewrite map_app in Hi. split; [intros x Hin; apply Hi, in_or_app; by left|].
      intros x [<-|Hin] Hd; [|by apply Hx]. apply Hi, in_or_app. right. by left.
    + split; [done|]. intros x [<-|Hin] Hd; [|by apply Hx]. destruct Hd as (lin' & E' & Hdict & Hp).
      rewrite El in E'. injection E' as <-. rewrite Hdict, Hp in Ed. simpl in Ed. by rewrite String.eqb_refl in Ed.
  - destruct (existsb _ _); simpl; [|done]. intros E. apply IH in E as [Hi Hx]. split; [done|].
    intros x [<-|Hin] Hd; [|by apply Hx]. destruct Hd as (lin' & E' & _). congruence.
Qed.

Lemma drain_pending_rest id : post (fun _ => True) (drain_pending id) (fun p t => p = false -> at_rest id t).
Proof.
  unfold drain_pending. intros s _. split; [done|].
  unfold mbind, M_bind. simpl. pose proof (execution_binding_steps eq id s) as Hb.
  destruct (execution_binding id s) as [[b|e] s1]; [|done]. simpl in Hb.
  destruct (task_by_id id (tb s)) as [x|] eqn:Ex; [|done]. simpl. intros Hf. bool_hyps. rewrite <- Hb in *.
  split.
  - exists x. split; [done|]. split; [done|]. intros E. rewrite E in *. done.
  - intros a Ha Hid. destruct (at_settled a) eqn:Es; [done|]. exfalso.
    assert (In a (unsettled id (tb s))) as Hin; [|by destruct (unsettled id (tb s))].
    apply filter_In. split; [done|]. rewrite Hid, String.eqb_refl, Es. done.
  - intros r Hr Hid. destruct (active r) eqn:Er; [|done]. exfalso.
    assert (holds_reservation id (tb s) = true) as Hh; [|congruence].
    apply existsb_exists. exists r. by rewrite Hid, String.eqb_refl, Er.
Qed.

Lemma pending_rest ids acc s l s' :
  foldS (fun acc id => p ← drain_pending id; mret (if (p : bool) then acc ++ [id] else acc)) acc ids s = (Ok l, s') ->
  tb s' = tb s /\ (exists more, l = acc ++ more) /\ (l = acc -> forall id, In id ids -> at_rest id (tb s)).
Proof.
  revert acc s. induction ids as [|i ids IH]; intros acc s; simpl.
  { intros [= <- <-]. split; [done|]. split; [exists []; by rewrite app_nil_r|done]. }
  unfold mbind, M_bind. pose proof (drain_pending_steps eq i s) as Ht. pose proof (drain_pending_rest i s I) as [_ Hp].
  destruct (drain_pending i s) as [[p|e] s1]; [|done]. simpl in *. intros E. apply IH in E as (E1 & [more ->] & E2).
  split; [congruence|]. destruct p.
  - split; [rewrite <- app_assoc; by eexists|]. intros E. exfalso. rewrite <- app_assoc in E.
    apply (f_equal length) in E. rewrite length_app in E. simpl in E. lia.
  - split; [by eexists|]. intros E id [<-|Hin]; rewrite Ht; [by apply Hp|by apply E2].
Qed.

Definition revoked_in (task_id i : string) (t : tables) : Prop :=
  has_kind REVOKED (remote_activation_history task_id (JStr i) t) = true.

Lemma revoked_in_spec task_id i t :
  revoked_in task_id i t <->
  exists e, In e (remote_events t) /\ e_task_id e = Some task_id /\ e_kind e = REVOKED /\
    is_dict (e_payload_json e) = true /\ py_eq (jget (e_payload_json e) "activation_id") (JStr i) = true.
Proof.
  unfold revoked_in, has_kind. rewrite existsb_exists. split.
  - intros ([k v] & Hin & Hk). apply filter_In in Hin as [Hin Hv]. apply in_map_iff in Hin as (e & [= <- <-] & He).
    apply filter_In in He as [He Hc]. simpl in *. bool_hyps.
    match goal with Ht : opt_str_eqb _ _ = true |- _ => apply bool_decide_eq_true in Ht end. exists e.
    split; [|by auto]. apply filter_In. split; [done|]. by rewrite Hk.
  - intros (e & He & Ht & Hk & Hd & Hi). exists (e_kind e, e_payload_json e). simpl. split; [|by rewrite Hk].
    apply filter_In. simpl. split; [|by rewrite Hd, Hi]. apply in_map_iff. exists e. split; [done|].
    apply filter_In in He as [He _]. apply filter_In. split; [done|]. rewrite Ht, Hk.
    apply andb_true_iff. split; [by apply bool_decide_eq_true|done].
Qed.

Lemma revoke_records task_id i identity q P :
  post P (revoke_body task_id (JStr i) identity q) (fun _ t => revoked_in task_id i t).
Proof.
  unfold revoke_body. eapply post_bind; [apply post_any|]. intros [].
  eapply post_bind; [apply post_any|]. intros latest. eapply post_bind; [apply post_any|]. intros history. cbv zeta.
  eapply post_bind; [apply post_any|]. intros []. eapply post_bind; [apply post_any|]. intros value.
  eapply post_bind; [apply post_any|]. intros ts.
  eapply post_bind; [apply (append_event_post _ _ _ _ _ _ (revoked_in task_id i))|].
  - intros t ts' _. apply revoked_in_spec. eexists. split; [apply filter_In; split; [apply in_or_app; right; by left|done]|].
    split; [done|]. split; [done|]. split; [done|]. apply String.eqb_refl.
  - intros event. apply (post_steps quiet); [apply contain_quiet|].
    intros t t' Hq Hr. apply revoked_in_spec. apply revoked_in_spec in Hr. by rewrite Hq.
Qed.

Lemma exact_drain_reads svc task_id q identity t0 :
  post (fun t => t = t0) (assert_exact_drain_generation svc task_id q identity true)
    (fun r t => r.2 = has_kind REVOKED (remote_activation_history task_id (jget q "activation_id") t0) /\ t = t0).
Proof.
  unfold assert_exact_drain_generation. eapply post_bind; [apply post_read; steps_walk|]. intros []. guards. cbv zeta.
  do 3 apply post_view. guards.
  eapply post_bind; [apply post_read; steps_walk|]. intros b.
  eapply post_bind; [apply post_read; steps_walk|]. intros epoch. guards. apply post_ret. by intros t ->.
Qed.

Lemma service_children_post task_id t0 :
  post (fun t => t = t0) (service_children task_id)
    (fun l t => (forall x, In x (tasks t0) -> delegated_by task_id x t0 -> In (t_id x) (map (fun c => t_id c.1) l)) /\
                t = t0).
Proof.
  intros s Hs. split; [done|]. pose proof (service_children_steps eq task_id s) as Hc. simpl in Hs. rewrite Hs in Hc.
  change (service_children task_id s) with (foldS (collect_child task_id) [] (tasks (tb s)) s) in *.
  destruct (foldS _ _ _ s) as [[l|e] s'] eqn:E; [|done]. split; [|done]. simpl.
  apply collect_children in E as [_ E]. rewrite Hs in E. intros x Hx Hd.
  rewrite <- (map_map fst t_id). apply in_map. by apply E.
Qed.

Lemma pending_post ids t0 :
  post (fun t => t = t0)
    (foldS (fun acc id => p ← drain_pending id; mret (if (p : bool) then acc ++ [id] else acc)) [] ids)
    (fun l t => (l = [] -> forall id, In id ids -> at_rest id t0) /\ t = t0).
Proof.
  intros s Hs. split; [done|]. simpl in Hs. subst t0. destruct (foldS _ _ _ s) as [[l|e] s'] eqn:E; [|done].
  apply pending_rest in E as (Ht & _ & Hr). done.
Qed.

(** C18: a drain is answered as finished only when it is: the task and every
    task it delegated were over, without an open attempt, an unreleased
    reservation or work of unknown state; and the activation is revoked for
    good in the tables the answer leaves behind. *)
Theorem drain_finishes_at_rest svc task_id q identity i s v s' :
  finish_remote_drain svc task_id q identity s = (Ok v, s') ->
  jget v "state" = JStr "drained" -> jget q "activation_id" = JStr i ->
  at_rest task_id (tb s) /\
  (forall x, In x (tasks (tb s)) -> delegated_by task_id x (tb s) -> at_rest (t_id x) (tb s)) /\
  revoked_in task_id i (tb s').
Proof.
  intros E Hv Hi. revert Hv. pattern v, (tb s').
  refine (post_run _ (fun t => t = tb s) _ s v s' _ eq_refl E).
  apply durable_post. eapply post_bind; [apply exact_drain_reads|]. intros [marker revoked]. cbn [fst snd].
  apply post_pure. intros Hrev. rewrite Hi in *. guards.
  eapply post_bind; [apply service_children_post|]. intros children. apply post_pure. intros Hkids.
  eapply post_bind; [apply pending_post|]. intros pending. apply post_pure. intros Hrest.
  destruct pending as [|p pending]; simpl; [|by apply post_ret]. specialize (Hrest eq_refl).
  apply post_bind with (Q := fun _ => revoked_in task_id i).
  - destruct revoked; [apply post_ret; intros t ->; done|]. apply durable_post, revoke_records.
  - intros []. apply post_ret. intros t Ht _. split; [by apply Hrest; left|]. split; [|done].
    intros x Hx Hd. apply Hrest. right. by apply Hkids.
Qed.
End Drains.

(** ** A remote task *)

#[local] Existing Instance demo_world.

Definition remote_target : json :=
  JObj [("kind", JStr "runpod"); ("pod_id", JStr "pod-1"); ("provider_account_ref", JStr "acct-1")].

(** One task admitted for a pod. *)
Definition remote_admitted : state := Eval vm_compute in
  ((begin_runtime_session "boot-1" None;;
   register_capability "image.make" (sample_hex "c") (JArr [JStr "gpu"]) "ready" None (JInt 0) (JInt 0);;
   create_task no_admission_calls "image.make" (JObj [("prompt", JStr "cat")]) (Some "demo") (Some "key-1") JNull
     (Some (sample_hex "c")) false (JObj [("target", remote_target)])) demo_start).2.

Definition remote_id : string := Eval vm_compute in
  match tasks (tb remote_admitted) with x :: _ => t_id x | [] => EmptyString end.

Definition remote_service : service :=
  Service true "session-1" "local" false None None (fun _ => mret JNull).

(** A clock text is read as a fixed day in 2027. *)
Definition remote_iso (text : string) : option (Z * bool) := Some (1800000000000000, true).

Definition remote_binding : deployment_binding := Eval vm_compute in
  match (binding_of_task remote_id remote_admitted).1 with Ok b => b | Err _ => sample_binding end.

Definition remote_qualification (activation_id : string) : json :=
  JObj [("activation_id", JStr activation_id); ("task_id", JStr remote_id);
        ("run_id", JStr (ai_run_id (db_admission remote_binding)));
        ("credential_actor", JStr "worker-1"); ("binding_digest", JStr (binding_digest remote_binding));
        ("deployment_digest", JStr (sample_hex "d")); ("evidence_digest", JStr (sample_hex "e"));
        ("effective_target", remote_target); ("executor_incarnation", JStr "inc-1");
        ("runtime_session_id", JStr "session-1"); ("runtime_epoch", JInt 1);
        ("expires_at", JStr "2027-01-15T08:00:00+00:00"); ("observation_digest", JStr (sample_hex "f"));
        ("authorized_child_lineage", expected_lineage remote_binding)].

Definition remote_owner : json := JObj [("actor", JStr "owner"); ("scopes", JArr [JStr "admin"])].

(** Qualified, and then being drained. *)
Definition remote_qualified : state := Eval vm_compute in
  (record_remote_activation remote_service remote_iso remote_id (remote_qualification "activation-1") remote_owner
     remote_admitted).2.

Definition remote_draining : state := Eval vm_compute in
  (begin_remote_drain remote_service remote_id (remote_qualification "activation-1") remote_owner remote_qualified).2.

(** The task cancelled. *)
Definition remote_cancelled : state := Eval vm_compute in (cancel_child remote_id remote_draining).2.

(** C7: an activation, its revocation, a refused reuse of its id and a second
    activation. *)
Lemma activations_single_use_witness :
  let revoked := run_remote remote_iso remote_service (RevokeActivation remote_id "activation-1" remote_owner JNull)
                   remote_qualified in
  let last := run_remote remote_iso remote_service
                (RecordActivation remote_id (remote_qualification "activation-2") remote_owner)
                (State revoked 50 0 JNull) in
  lawful (moves remote_id last) /\
  moves remote_id last = [Qualify "activation-1"; Revoke "activation-1"; Qualify "activation-2"].
Proof.
  intros revoked last.
  assert (decisions remote_id (tb remote_admitted) = []) as Hd by reflexivity.
  assert (rtc (remote_step remote_iso) (tb remote_admitted) last) as Hr.
  { apply rtc_l with (tb remote_qualified).
    { replace (tb remote_qualified) with (run_remote remote_iso remote_service
        (RecordActivation remote_id (remote_qualification "activation-1") remote_owner) remote_admitted)
        by (vm_compute; reflexivity). constructor. }
    apply rtc_l with revoked; [constructor|]. apply rtc_once. exact (step_command remote_iso remote_service
      (RecordActivation remote_id (remote_qualification "activation-2") remote_owner) (State revoked 50 0 JNull)). }
  destruct (activations_single_use remote_iso remote_id (tb remote_admitted) last Hd Hr) as [Hl _].
  split; [exact Hl|]. vm_compute. reflexivity.
Defined.

(** C18: the cancelled task is drained. *)
Lemma drain_finishes_at_rest_witness :
  at_rest remote_id (tb remote_cancelled).
Proof.
  destruct (drain_finishes_at_rest remote_service remote_id (remote_qualification "activation-1") remote_owner
    "activation-1" remote_cancelled
    (JObj [("state", JStr "drained"); ("activation_id", JStr "activation-1")])
    (finish_remote_drain remote_service remote_id (remote_qualification "activation-1") remote_owner remote_cancelled).2)
    as [Hr _].
  - vm_compute. reflexivity.
  - reflexivity.
  - reflexivity.
  - exact Hr.
Defined.
