(* ===== verification/RecoveryFacts.v ===== *)
(** * What the recovery of a placement establishes

    The signed decision that [recover_task_placement] records is the one the
    deployment side accepts, its replacement becomes the effective target of
    the task, and the activation of the lost placement is gone. *)

From Stdlib Require Import ZArith String Ascii List Bool Lia.
From stdpp Require Import base list strings.
From S2P Require Import Prelude Json Errors Facts Sha256 Store Idempotency Ledger Bindings.
From S2P Require Import Executors Continuations Snapshots Delegation Claim Outputs Settle Runs.
From S2P Require Import Admission Effects Wire Commands Deployments Activation Recovery.
From S2P Require Import Demo Evolution Leases ActivationFacts.

Open Scope Z_scope.

(** ** Digests are read back *)

Lemma all_chars_imp p q s : (forall c, p c = true -> q c = true) -> all_chars p s = true -> all_chars q s = true.
Proof.
  intros Hpq. induction s as [|c s IH]; simpl; [done|]. intros Hs. bool_hyps. apply andb_true_iff. auto.
Qed.

Lemma rstrip_none p s : all_chars (fun c => negb (p c)) s = true -> rstrip_by p s = s.
Proof.
  induction s as [|c s IH]; simpl; [done|]. intros Hs. apply andb_true_iff in Hs as [Hc Hs].
  apply negb_true_iff in Hc. rewrite (IH Hs), Hc. by destruct s.
Qed.

Lemma strip_none p s : all_chars (fun c => negb (p c)) s = true -> strip_by p s = s.
Proof.
  intros Hs. unfold strip_by. rewrite <- (rstrip_none p s Hs) at 2. f_equal.
  destruct s as [|c s]; simpl in *; [done|]. apply andb_true_iff in Hs as [Hc _]. apply negb_true_iff in Hc. by rewrite Hc.
Qed.

Lemma lower_none s : all_chars (fun c => Ascii.eqb (lower_char c) c) s = true -> str_lower s = s.
Proof.
  induction s as [|c s IH]; simpl; [done|]. intros Hs. apply andb_true_iff in Hs as [Hc Hs].
  apply Ascii.eqb_eq in Hc. by rewrite Hc, (IH Hs).
Qed.

(** The characters of a digest with its prefix. *)
Definition digest_char (c : ascii) : bool := is_hex c || Ascii.eqb c "s" || Ascii.eqb c "h" || Ascii.eqb c ":".

Lemma digest_char_plain c :
  digest_char c = true ->
  negb (is_space c) = true /\ Ascii.eqb (lower_char c) c = true /\ negb (line_break c) = true.
Proof. destruct c as [[] [] [] [] [] [] [] []]; vm_compute; intros [=]; auto. Qed.

Lemma sha256_of_chars v : all_chars digest_char (sha256_of v) = true.
Proof.
  pose proof (sha256_hex64 (canonical_json v)) as Hs. unfold is_hex64 in Hs. apply andb_true_iff in Hs as [_ Hs].
  unfold sha256_of. simpl. apply (all_chars_imp is_hex); [|done]. intros c Hc. unfold digest_char. by rewrite Hc.
Qed.

Lemma digest_field_own v field : digest_field (JStr (sha256_of v)) field = Ok (sha256_of v).
Proof.
  pose proof (sha256_of_chars v) as Hc.
  assert (is_sha256_id (sha256_of v) = true) as Hid by apply prefixed_hex_id, sha256_hex64.
  assert (nonempty (sha256_of v) = true) as Hn by reflexivity. revert Hc Hid Hn. generalize (sha256_of v) as d. intros d Hc Hid Hn.
  assert (str_strip d = d) as Hs
    by (apply strip_none; eapply all_chars_imp; [|exact Hc]; intros; by apply digest_char_plain).
  assert (str_lower d = d) as Hl
    by (apply lower_none; eapply all_chars_imp; [|exact Hc]; intros; by apply digest_char_plain).
  assert (all_chars (fun c => negb (line_break c)) d = true) as Hb
    by (eapply all_chars_imp; [|exact Hc]; intros; by apply digest_char_plain).
  unfold digest_field, text_field. rewrite Hs, Hb, Hn. simpl. by rewrite Hl, Hid.
Qed.

Lemma sha256_of_norm v : sha256_of (jnorm v) = sha256_of v.
Proof. unfold sha256_of, canonical_json. by rewrite jnorm_idem. Qed.

(** The decision read back from its event carries its own digest. *)
Lemma recovery_digest_signed id run actor reason tv pv o c r l q b ts :
  let decision := recovery_decision id run actor reason tv pv o c r l q b ts in
  recovery_digest (json_column (sign_decision decision)) = Ok (sha256_of decision).
Proof.
  intros decision. unfold recovery_digest, json_column, sign_decision. rewrite jget_jnorm, jget_set_eq.
  change (jnorm (JStr (sha256_of decision))) with (JStr (sha256_of decision)). cbn [is_null].
  assert (jdel (jnorm (jset decision "decision_digest" (JStr (sha256_of decision)))) "decision_digest" = jnorm decision)
    as -> by reflexivity.
  rewrite sha256_of_norm, digest_field_own. simpl. by rewrite String.eqb_refl.
Qed.

(** ** What the ledger says afterwards *)

Definition recovery_rows (id : string) (t : tables) : list event_row :=
  List.filter (fun e => opt_str_eqb (e_task_id e) (Some id) && String.eqb (e_kind e) "task.placement_recovered") (events t).

(** The decision in force, as [placement_recovery] reads it. *)
Definition decision_of (id : string) (t : tables) : option json :=
  match last (recovery_rows id t) with
  | Some e => if is_dict (e_payload_json e) then Some (e_payload_json e) else None
  | None => None
  end.

(** The version of the placement: that of the decision, 0 at admission. *)
Definition version_of (id : string) (t : tables) : json :=
  match decision_of id t with Some d => jget_def d "placement_version" (JInt 0) | None => JInt 0 end.

(** A stopped task whose old placement can do nothing more. *)
Record stopped (id : string) (t : tables) : Prop := {
  stopped_row : exists x, task_by_id id t = Some x /\ status_in (t_status x) [Failed; Cancelled] = true;
  stopped_attempts : forall a, In a (attempts t) -> at_task_id a = id -> at_settled a = true;
  stopped_reservations : forall r, In r (reservations t) -> rv_task_id r = id -> active r = false }.

Section Recovered.
Context `{World} (svc : service) (iso : string -> option (Z * bool)).

Lemma placement_recovery_reads id s : placement_recovery id s = (Ok (decision_of id (tb s)), s).
Proof. reflexivity. Qed.

Lemma recovery_rows_insert id run task kind payload ts t :
  recovery_rows id (insert_event run (Some task) kind payload ts t) =
  recovery_rows id t ++
  (if opt_str_eqb (Some task) (Some id) && String.eqb kind "task.placement_recovered"
   then [next_event run (Some task) kind payload ts t] else []).
Proof. unfold recovery_rows, insert_event. simpl. rewrite List.filter_app. simpl. done. Qed.

Definition installed (id : string) (decision : json) (t : tables) : Prop :=
  decision_of id t = Some (json_column decision) /\ latest_remote_activation id t = JNull.

Lemma decision_recorded id run decision ts t :
  is_dict decision = true ->
  decision_of id (insert_event run (Some id) "task.placement_recovered" decision ts t) = Some (json_column decision).
Proof.
  intros Hd. unfold decision_of. rewrite recovery_rows_insert.
  replace (opt_str_eqb (Some id) (Some id)) with true by (symmetry; by apply bool_decide_eq_true).
  change (String.eqb "task.placement_recovered" "task.placement_recovered") with true. cbn [andb].
  rewrite last_snoc. simpl. destruct decision; try done.
Qed.

Lemma decision_kept id run kind payload ts t d :
  String.eqb kind "task.placement_recovered" = false -> decision_of id t = d ->
  decision_of id (insert_event run (Some id) kind payload ts t) = d.
Proof. intros Hk Hd. unfold decision_of. rewrite recovery_rows_insert, Hk, andb_false_r, app_nil_r. done. Qed.

Lemma revoke_previous_installed id run ts d :
  post (fun t => decision_of id t = Some (json_column d)) (revoke_previous run id ts) (fun _ => installed id d).
Proof.
  unfold revoke_previous. eapply post_bind; [apply post_gets|]. intros previous.
  destruct (is_null previous) eqn:En.
  { apply post_ret. intros t [-> Ht]. split; [done|]. by destruct (latest_remote_activation id t). }
  eapply post_bind; [apply jitem_post|]. intros aid. apply post_pure. intros _.
  eapply post_bind; [apply (append_event_post _ _ _ _ _ _ (installed id d))|intros event; by apply post_ret].
  intros t ts' [_ Ht]. split; [by apply decision_kept|].
  rewrite latest_of_decisions, decisions_insert, String.eqb_refl.
  change (str_in REVOKED [QUALIFIED; REVOKED]) with true. cbn [andb]. by rewrite last_snoc.
Qed.

Lemma commit_recovery_installed id run v r d kids ts P :
  is_dict d = true -> post P (commit_recovery id run v r d kids ts) (fun _ => installed id d).
Proof.
  intros Hd. unfold commit_recovery. do 3 (eapply post_bind; [apply post_any|]; intros ?).
  eapply post_bind; [apply (append_event_post _ _ _ _ _ _ (fun t => decision_of id t = Some (json_column d)))|].
  { intros t ts' _. by apply decision_recorded. }
  intros event. eapply post_bind; [apply revoke_previous_installed|]. intros revoked. by apply post_ret.
Qed.

Lemma check_recovery_body_post id x body t0 :
  post (fun t => t = t0) (check_recovery_body id x body)
    (fun r t => let '(_, pv, _, _, replacement) := r in
       (py_eq (jget body "expected_placement_version") (JInt pv) = true /\
        normalize_execution_target (jget body "replacement_target") = Ok replacement /\
        forall z, version_of id t0 = JInt z -> pv = z) /\ t = t0).
Proof.
  unfold check_recovery_body. eapply post_bind; [apply post_read; steps_walk|].
  intros [request|]; [|apply post_raise].
  do 2 (eapply post_bind; [apply post_read; steps_walk|]; intros ?). guards.
  eapply post_bind with (Q := fun r t => r = decision_of id t0 /\ t = t0).
  { intros s Hs. split; [done|]. rewrite placement_recovery_reads. simpl in *. by subst t0. }
  intros latest. apply post_pure. intros ->.
  eapply post_bind with (Q := fun pv t => (forall z, version_of id t0 = JInt z -> pv = z) /\ t = t0).
  { unfold version_of. destruct (decision_of id t0) as [d|]; [|apply post_ret; intros t ->; split; [congruence|done]].
    destruct (truthy d) eqn:Ed.
    - intros s Hs. split; [done|]. simpl in Hs. pose proof (steps_py_int eq (jget_def d "placement_version" (JInt 0)) s) as Ht.
      destruct (py_int _ s) as [[z|e] s'] eqn:E; [|done]. simpl in *. split; [|congruence].
      intros z' Hz. rewrite Hz in E. injection E as E _. congruence.
    - apply post_ret. intros t ->. split; [|done]. intros z Hz.
      assert (jget_def d "placement_version" (JInt 0) = JInt 0) as E by (by destruct d as [| | | | |[|]]). congruence. }
  intros pv. apply post_pure. intros Hv.
  eapply post_bind; [apply post_read; steps_walk|]. intros current.
  eapply post_bind; [apply post_read; steps_walk|]. intros expected. guards. cbv zeta. guards.
  eapply post_bind; [apply post_lift|]. intros replacement. apply post_pure. intros Hr. guards.
  do 2 (eapply post_bind; [apply post_read; steps_walk|]; intros ?). guards.
  apply post_ret. intros t ->. split; [|done]. split; [done|]. split; [done|done].
Qed.

Lemma quiescent_stopped x kids t0 :
  task_by_id (t_id x) t0 = Some x ->
  post (fun t => t = t0) (assert_placement_recovery_quiescent x kids) (fun _ t => stopped (t_id x) t0 /\ t = t0).
Proof.
  intros Hx. unfold assert_placement_recovery_quiescent. guards. apply post_view. guards. apply post_view. guards.
  eapply post_bind; [apply post_read; steps_walk|]. intros [b|]; [|apply post_raise]. guards.
  eapply post_bind; [apply post_read; steps_walk|]. intros [].
  apply post_ret. intros t ->. split; [|done]. split.
  - eauto.
  - intros at' Ha Hid. destruct (at_settled at') eqn:Es; [done|]. exfalso.
    assert (In at' (unsettled (t_id x) t0)) as Hin; [|by destruct (unsettled (t_id x) t0)].
    apply filter_In. split; [done|]. by rewrite Hid, String.eqb_refl, Es.
  - intros r Hr Hid. destruct (active r) eqn:Er; [|done]. exfalso.
    assert (holds_reservation (t_id x) t0 = true) as Hh; [|congruence].
    apply existsb_exists. exists r. by rewrite Hid, String.eqb_refl, Er.
Qed.

Lemma normalize_target_not_null v : normalize_execution_target v <> Ok JNull.
Proof.
  unfold normalize_execution_target. intros E. res_inv. destruct v; try done. bool_hyps.
  repeat match type of E with (if ?b then _ else _) = _ => destruct b end;
    unfold aliased_target in E; res_inv; done.
Qed.

(** What a recovery under [body] leaves behind. *)
Record recovered (id : string) (body decision : json) (before after : tables) : Prop := {
  rc_stopped : stopped id before;
  rc_in_force : installed id decision after;
  rc_version : exists pv, jget body "expected_placement_version" = JInt pv /\
    jget decision "placement_version" = JInt (pv + 1) /\ forall z, version_of id before = JInt z -> pv = z;
  rc_replacement : normalize_execution_target (jget body "replacement_target") = Ok (jget decision "replacement_target");
  rc_signed : exists d, jget decision "decision_digest" = JStr d /\ recovery_digest (json_column decision) = Ok d }.

Lemma recover_fresh_post id actor reason current body t0 :
  (exists pv, jget body "expected_placement_version" = JInt pv) ->
  post (fun t => t = t0) (recover_fresh iso id actor reason current body)
    (fun r t => recovered id body r.1.1 t0 t).
Proof.
  intros [epv Hpv]. unfold recover_fresh. apply post_view.
  destruct (task_by_id id t0) as [x|] eqn:Ex; [|apply post_raise].
  assert (t_id x = id) as Hid by (apply find_some in Ex as [_ Ex]; by apply String.eqb_eq in Ex).
  eapply post_bind; [apply check_recovery_body_post|]. intros [[[[admitted pv] tv] target] replacement].
  apply post_pure. intros (Hv & Hr & Hz). rewrite Hpv in Hv. simpl in Hv. apply Z.eqb_eq in Hv. subst epv.
  do 3 (eapply post_bind; [apply post_read; steps_walk|]; intros ?).
  eapply post_bind; [apply quiescent_stopped; by rewrite Hid|]. intros binding. apply post_pure. rewrite Hid. intros Hstop.
  do 2 (eapply post_bind; [apply post_read; steps_walk|]; intros ?). cbv zeta.
  set (decision := recovery_decision _ _ _ _ _ _ _ _ _ _ _ _ _).
  eapply post_bind; [apply commit_recovery_installed; reflexivity|]. intros events. apply post_ret. intros t Ht. split.
  - done.
  - exact Ht.
  - exists pv. done.
  - rewrite Hr. reflexivity.
  - exists (sha256_of decision). split; [reflexivity|]. apply recovery_digest_signed.
Qed.

Lemma check_versions_post body P :
  post P (check_versions body) (fun _ t => (exists pv, jget body "expected_placement_version" = JInt pv) /\ P t).
Proof.
  unfold check_versions, for_each. simpl. eapply post_bind; [apply post_read; steps_walk|]. intros [].
  eapply post_bind with (Q := fun _ t => (exists pv, jget body "expected_placement_version" = JInt pv) /\ P t).
  - destruct (jget body "expected_placement_version") as [| |pv| | |]; try apply post_raise.
    eapply post_conseq; [apply post_guard|done|]. intros ? t [_ Ht]. eauto.
  - intros []. by apply post_ret.
Qed.

Lemma no_receipt_no_replay kind id key hash p t0 :
  String.eqb kind "parent_composition.publish" = false -> session_kind kind = false ->
  receipt_of kind id key t0 = None ->
  post (fun t => t = t0) (command_replay svc kind id (JStr key) hash p) (fun r t => r = None /\ t = t0).
Proof.
  intros Hk Hs Hr. unfold command_replay, command_replay_state. cbn [is_null].
  eapply post_bind with (Q := fun r t => r = None /\ t = t0).
  - eapply post_bind; [apply post_lift|]. intros k. apply post_pure. intros Hv.
    apply valid_key_same in Hv as ->.
    apply post_view. unfold prior_receipt. rewrite Hs, Hr. apply post_ret. by intros t ->.
  - intros found. apply post_pure. intros ->. by apply post_ret.
Qed.

End Recovered.

(** ** The small realm *)

#[local] Existing Instance demo_world.

(** Observations are read as made at the start of the demo clock. *)
Definition observed_now (text : string) : option (Z * bool) := Some (1700000000000000, true).

Definition spare_target : json :=
  JObj [("kind", JStr "runpod"); ("pod_id", JStr "pod-2"); ("provider_account_ref", JStr "acct-1")].

Definition demo_recovery_body : json :=
  JObj [("schema_version", JInt 1); ("expected_task_version", JInt 1); ("expected_placement_version", JInt 0);
        ("expected_original_target", remote_target); ("expected_current_target", remote_target);
        ("replacement_target", spare_target); ("reason", JStr "pod lost");
        ("loss_evidence", JObj [("source", JStr "provider"); ("status", JStr "absent"); ("target", remote_target);
           ("observed_at", JStr "2023-11-14T22:13:20Z"); ("evidence_digest", JStr (sample_hex "a"));
           ("no_active_work", JBool true)]);
        ("qualification", JObj [("target", spare_target); ("verified", JBool true);
           ("evidence_digest", JStr (sample_hex "b")); ("executor_incarnation", JStr "inc-2")])].

Definition demo_recovery : res json * state := Eval vm_compute in
  recover_task_placement remote_service observed_now remote_id demo_recovery_body (JStr "recover-1") remote_owner
    remote_cancelled.

