(* ===== verification/DispatchFacts.v ===== *)
(** * What claims and attempts promise

    A claim key is spent once: whatever a claim answered, repeating its key
    changes nothing.  The task a claim takes is the first one the worker may
    run.  An attempt whose lease is stale writes nothing. *)

From Stdlib Require Import ZArith String Ascii List Bool Lia.
From stdpp Require Import base list strings.
From S2P Require Import Prelude Json Errors Facts Sha256 Store Idempotency Ledger Bindings.
From S2P Require Import Executors Continuations Snapshots Delegation Claim Outputs Settle Runs.
From S2P Require Import Admission Effects Wire Commands Deployments Activation Recovery Dispatch.
From S2P Require Import Staging ChildPolicy Settlement Demo Evolution Leases ActivationFacts.

Open Scope Z_scope.

(** ** Reads *)

Section Readers.
Context `{World} (I : tables -> tables -> Prop) `{!PreOrder I}.
Context (svc : service) (iso : string -> option (Z * bool)).

Lemma assert_executor_identity_steps i e : steps I (assert_executor_identity i e).
Proof. unfold assert_executor_identity. steps_walk. Qed.

Lemma trusted_placement_steps i : steps I (trusted_execution_placement i).
Proof. unfold trusted_execution_placement. steps_walk; apply catch_steps; steps_walk. Qed.

Lemma requires_activation_steps id : steps I (task_requires_remote_activation id).
Proof. unfold task_requires_remote_activation. steps_walk; apply catch_steps; steps_walk. Qed.

Lemma same_int_steps z v : steps I (same_int z v).
Proof. unfold same_int, int_or_zero. steps_walk. Qed.
#[local] Hint Resolve same_int_steps : steps.

Lemma child_scope_steps p a l c u pl b : steps I (child_scope_matches p a l c u pl b).
Proof. unfold child_scope_matches, allM. simpl. steps_walk. Qed.
#[local] Hint Resolve child_scope_steps : steps.

Lemma activation_scope_steps id a p : steps I (activation_scope_matches id a p).
Proof. unfold activation_scope_matches, dict_get. steps_walk; apply catch_steps; steps_walk. Qed.

Lemma drain_continuation_steps id m : steps I (drain_continuation_matches id m).
Proof. unfold drain_continuation_matches. steps_walk. Qed.
#[local] Hint Resolve activation_scope_steps drain_continuation_steps : steps.

Lemma activation_matches_steps id i p f : steps I (remote_activation_matches svc iso id i p f).
Proof.
  unfold remote_activation_matches, expiry_of, drain_allows, still_fresh, allM. simpl.
  steps_walk; apply catch_steps; steps_walk.
Qed.

Lemma local_admission_steps e i r : steps I (assert_local_claim_admission svc e i r).
Proof. unfold assert_local_claim_admission. steps_walk. Qed.
#[local] Hint Resolve assert_executor_identity_steps trusted_placement_steps requires_activation_steps
  activation_matches_steps : steps.

Lemma check_replayed_steps i p r : steps I (check_replayed_claim svc iso i p r).
Proof. unfold check_replayed_claim. steps_walk. Qed.

Lemma attempt_identity_steps h i : steps I (assert_attempt_identity svc iso h i).
Proof. unfold assert_attempt_identity. steps_walk. Qed.

Lemma select_claim_steps caps r rows : steps I (select_claim caps r rows).
Proof. induction rows as [|x rows IH]; simpl; steps_walk. Qed.

Lemma placement_reason_steps id b i p : steps I (placement_reason svc iso id b i p).
Proof. unfold placement_reason. steps_walk. Qed.

Lemma attempt_project_steps x : steps I (attempt_project x).
Proof. unfold attempt_project. steps_walk. Qed.

Lemma wire_lease_steps b l : steps I (wire_lease b l).
Proof. unfold wire_lease. steps_walk. Qed.

Lemma attempt_lease_steps r b c e x : steps I (validate_attempt_lease r b c e x).
Proof. unfold validate_attempt_lease. steps_walk; apply catch_steps; steps_walk. Qed.

Lemma lease_seconds_steps b : steps I (lease_seconds b).
Proof. unfold lease_seconds. steps_walk. Qed.
End Readers.

#[export] Hint Resolve assert_executor_identity_steps trusted_placement_steps requires_activation_steps
  activation_matches_steps local_admission_steps check_replayed_steps attempt_identity_steps select_claim_steps
  placement_reason_steps attempt_project_steps wire_lease_steps attempt_lease_steps lease_seconds_steps : steps.

(** ** A claim key is spent once *)

#[local] Existing Instance anything_preorder.

Definition claim_receipt (key : string) (t : tables) : option session_row :=
  session_receipt_of "task.claim" "claim" key t.

Section Claims.
Context `{World} (svc : service) (iso : string -> option (Z * bool)).

Lemma claim_replay_post key hash t0 :
  post (fun t => t = t0) (command_replay_state svc "task.claim" "claim" (JStr key) hash None false)
    (fun found t => (match found with Some _ => is_Some (claim_receipt key t0) | None => claim_receipt key t0 = None end) /\
                    t = t0).
Proof.
  unfold command_replay_state. cbn [is_null]. eapply post_bind; [apply post_lift|]. intros k.
  apply post_pure. intros Hk. apply valid_key_same in Hk as ->.
  apply post_view. unfold prior_receipt. change (session_kind "task.claim") with true. cbn iota.
  change (session_receipt_of "task.claim" "claim" key t0) with (claim_receipt key t0).
  destruct (claim_receipt key t0) as [r|]; cbn [option_map].
  - guards. change (String.eqb "task.claim" "parent_composition.publish") with false. cbn iota.
    eapply post_bind; [apply post_read; steps_walk|]. intros v. apply post_ret. intros t ->. by split.
  - apply post_ret. by intros t ->.
Qed.

(** From the head of a claim to its replay nothing is written. *)
Lemma claim_head {Q : json -> tables -> Prop} t0 body key identity :
  (forall executor caps requested placement hash epoch,
    post (fun t => t = t0)
      (found ← command_replay_state svc "task.claim" "claim" key hash None false;
       match found with
       | Some replay => check_replayed_claim svc iso identity placement replay;; mret replay
       | None =>
           result ← claim_fresh svc iso executor caps requested identity placement epoch;
           command_record svc "task.claim" "claim" key hash result (Some "unscoped") [] None None false None
       end) Q) ->
  post (fun t => t = t0) (claim_body svc iso body key identity) Q.
Proof.
  intros Hq. unfold claim_body. do 5 (eapply post_bind; [apply post_read; steps_walk|]; intros ?).
  destruct (capability_list _) as [caps|]; [|apply post_raise].
  do 3 (eapply post_bind; [apply post_read; steps_walk|]; intros ?). cbv zeta.
  eapply post_bind; [apply post_read; steps_walk|]. intros epoch. apply Hq.
Qed.

Lemma claim_spent_inert body key identity s :
  is_Some (claim_receipt key (tb s)) -> tb (claim_next svc iso body (JStr key) identity s).2 = tb s.
Proof.
  intros [r Hr]. apply (durable_outcome svc _ (fun t => t = tb s)); [done|]. apply claim_head. intros.
  eapply post_bind; [apply claim_replay_post|]. intros found. apply post_pure. rewrite Hr.
  destruct found as [replay|]; [|done]. intros _.
  eapply post_bind; [apply post_read; steps_walk|]. intros []. by apply post_ret.
Qed.

Lemma session_kept key old t :
  is_Some (claim_receipt key t) ->
  is_Some (claim_receipt key (t {{ session_command_replay :=
    update_where (same_session (ss_command_kind old) (ss_aggregate_id old) (ss_idempotency_key old))
      (fun r => r {{ ss_result_json := expired_command_result (ss_result_json old); ss_is_expired := true }})
      (session_command_replay t) }})).
Proof.
  intros [r Hr]. unfold claim_receipt, session_receipt_of in *. simpl. apply find_some in Hr as [Hin Hs].
  match goal with |- is_Some ?o => destruct o eqn:E; [by eexists|] end. exfalso.
  eapply find_none in E; [|apply in_update_where; exists r; split; [exact Hin|reflexivity]].
  assert (forall b : bool, same_session "task.claim" "claim" key
    (if b then r {{ ss_result_json := expired_command_result (ss_result_json old); ss_is_expired := true }} else r) = true)
    as Hb by (intros []; destruct r; exact Hs).
  specialize (Hb (same_session (ss_command_kind old) (ss_aggregate_id old) (ss_idempotency_key old) r)).
  exact (diff_true_false (eq_trans (eq_sym Hb) E)).
Qed.

Lemma record_session_post key hash v P :
  post P (record_session "task.claim" "claim" key hash v) (fun _ t => is_Some (claim_receipt key t)).
Proof.
  unfold record_session. eapply post_bind; [apply post_any|]. intros ts.
  eapply post_bind with (Q := fun _ t => is_Some (claim_receipt key t)).
  - unfold insert_session. eapply post_bind; [apply post_any|]. intros known. eapply post_bind; [apply post_any|].
    intros []. eapply post_modify. intros t _. unfold claim_receipt, session_receipt_of. simpl.
    match goal with |- is_Some ?o => destruct o eqn:E; [by eexists|] end. exfalso.
    eapply find_none in E; [|apply in_or_app; right; by left]. unfold same_session in E. simpl in E.
    by rewrite !String.eqb_refl in E.
  - intros []. eapply post_bind; [apply post_read; steps_walk|]. intros cutoff.
    eapply post_bind; [apply post_read; steps_walk|]. intros rows.
    eapply post_bind with (Q := fun _ t => is_Some (claim_receipt key t)); [|intros []; by apply post_ret].
    apply (spec_foldS (fun _ _ => True) (fun _ => expire_session) (fun _ t => is_Some (claim_receipt key t))).
    intros [] old _. apply post_modify. intros t Ht. by apply session_kept.
Qed.

(** C8: a claim that was answered has spent its key: the receipt is there,
    and wherever it still is, any claim under the key, with any body and by
    any credential, leaves the tables exactly as they are.  A repeated claim
    never takes a second task, renews a lease or reaps one. *)
Theorem claim_key_spent_once body key identity s v s' :
  claim_next svc iso body (JStr key) identity s = (Ok v, s') ->
  is_Some (claim_receipt key (tb s')) /\
  forall body' identity' s2, is_Some (claim_receipt key (tb s2)) ->
    tb (claim_next svc iso body' (JStr key) identity' s2).2 = tb s2.
Proof.
  intros E. split; [|intros; by apply claim_spent_inert].
  refine (post_run _ (fun t => t = tb s) (fun _ t => is_Some (claim_receipt key t)) s v s' _ eq_refl E).
  apply durable_post, claim_head. intros. eapply post_bind; [apply claim_replay_post|]. intros found.
  apply post_pure. destruct found as [replay|].
  - intros Hr. eapply post_bind; [apply post_read; steps_walk|]. intros []. apply post_ret. by intros t ->.
  - intros _. eapply post_bind; [apply post_any|]. intros result. unfold command_record. cbn [is_null].
    eapply post_bind; [apply post_lift|]. intros k. apply post_pure. intros Hk.
    apply valid_key_same in Hk as ->.
    change (session_kind "task.claim") with true. cbn iota. apply record_session_post.
Qed.
End Claims.

(** ** Stale attempts *)

(** The attempt named by a request is gone, settled, of another epoch, or held
    under another lease or fence than the request says. *)
Definition stale_attempt (attempt_id : string) (body : json) (t : tables) : Prop :=
  match attempt_by_id attempt_id t with
  | None => True
  | Some a =>
      at_settled a = true \/ at_runtime_epoch a <> current_runtime_epoch t \/
      jget body "lease_id" <> JStr (at_lease_id a) \/ jget body "fence" <> JInt (at_fence a)
  end.

(** The same for an attempt row. *)
Definition stale_row (row : option attempt_row) (body : json) (current : Z) : Prop :=
  match row with
  | None => True
  | Some a =>
      at_settled a = true \/ at_runtime_epoch a <> current \/
      jget body "lease_id" <> JStr (at_lease_id a) \/ jget body "fence" <> JInt (at_fence a)
  end.

(** [m], run on the tables, changes nothing whether it returns or raises. *)
Definition inert {A} (t0 : tables) (m : M A) : Prop := spec eq (fun t => t = t0) m (fun _ _ => True).

Lemma inert_bind {A B} t0 (m : M A) (k : A -> M B) :
  steps eq m -> (forall a, inert t0 (k a)) -> inert t0 (m ≫= k).
Proof.
  intros Hm Hk s Hs. split; [|by destruct ((m ≫= k) s).1]. unfold mbind, M_bind. specialize (Hm s). simpl in Hs.
  destruct (m s) as [[a|e] s']; simpl in *; [|done]. etrans; [exact Hm|]. apply (Hk a s'). simpl. congruence.
Qed.

Lemma inert_steps {A} t0 (m : M A) : steps eq m -> inert t0 m.
Proof. intros Hm s _. split; [apply Hm|]. by destruct (m s).1. Qed.

(** A read whose result is known from the tables. *)
Lemma inert_view {A B} (f : tables -> A) (k : A -> M B) t0 : inert t0 (k (f t0)) -> inert t0 (gets f ≫= k).
Proof. intros Hk s Hs. simpl in Hs. subst t0. exact (Hk s eq_refl). Qed.

(** A check that passes only with [phi]. *)
Lemma inert_check {A B} (r : res A) (k : A -> M B) t0 :
  (forall a, r = Ok a -> inert t0 (k a)) -> inert t0 (lift r ≫= k).
Proof.
  intros Hk s Hs. unfold mbind, M_bind, lift. destruct r as [a|e]; [by apply Hk|]. done.
Qed.

(** What follows a rejection is not run. *)
Lemma inert_reject {A B} t0 (m : M A) (k : A -> M B) :
  spec eq (fun t => t = t0) m (fun _ _ => False) -> inert t0 (m ≫= k).
Proof.
  intros Hm s Hs. specialize (Hm s Hs). unfold mbind, M_bind.
  destruct (m s) as [[a|e] s']; simpl in *; [by destruct Hm|done].
Qed.

Section Attempts.
Context `{World} (svc : service) (iso : string -> option (Z * bool)) (fid : nat -> string -> json).

Lemma stale_row_rejected row body z current t0 :
  jget body "fence" = JInt z -> stale_row row body current ->
  spec eq (fun t => t = t0) (validate_attempt_lease row body current true false) (fun _ _ => False).
Proof.
  intros Hz Hs. unfold validate_attempt_lease.
  eapply spec_bind; [exact _|apply spec_steps; steps_walk|]. intros [].
  destruct row as [a|]; [|intros s _; by split].
  assert (forall P, spec eq P (guard_raise (at_settled a || negb (at_runtime_epoch a =? current)) LeaseError
     "attempt lease is stale or already settled") (fun _ _ => at_settled a = false /\ at_runtime_epoch a = current)) as Hg.
  { intros P s _. split; [done|]. unfold guard_raise, lift. simpl. destruct (raise_if _ _ _) eqn:E; [|done].
    apply raise_if_Ok in E. bool_hyps. done. }
  eapply spec_bind; [exact _|apply Hg|]. intros [] s Hg'. clear Hg.
  destruct Hs as [Hs|[Hs|Hs]]; [destruct Hg'; congruence|by destruct Hg'|].
  assert (jget_def body "fence" (JInt 0) = JInt z) as Hd.
  { unfold jget_def, jget in *. destruct (alookup "fence" (jfields body)); [done|]. destruct body; done. }
  unfold mbind, M_bind, catch. rewrite Hd. simpl.
  assert (negb (is_json_str (at_lease_id a) (jget body "lease_id")) || negb (at_fence a =? z) = true) as Hb.
  { apply orb_true_iff. destruct Hs as [Hs|Hs]; [left|right]; apply negb_true_iff.
    - destruct (jget body "lease_id") as [| | |l| |]; try done. simpl. apply String.eqb_neq. congruence.
    - apply Z.eqb_neq. congruence. }
  rewrite Hb. done.
Qed.

Lemma command_replay_reads kind a key h p :
  String.eqb kind "parent_composition.publish" = false -> session_kind kind = false ->
  steps eq (command_replay svc kind a key h p).
Proof. apply command_replay_plain, _. Qed.

Lemma inert_transaction {A} t0 (m : M A) : inert t0 m -> inert t0 (transaction m).
Proof. apply spec_transaction, _. Qed.

Lemma wire_lease_inert {B} t0 body allowed (k : json -> M B) :
  (forall z, jget body "fence" = JInt z -> inert t0 (k body)) -> inert t0 (wire_lease body allowed ≫= k).
Proof.
  intros Hk s Hs. unfold wire_lease, mbind, M_bind, lift. simpl in Hs.
  destruct (require_runtime_epoch_for_lease body); [|done].
  destruct (wire_object body _ allowed) as [b|] eqn:Ew; [|done].
  assert (b = body) as -> by (unfold wire_object in Ew; by res_inv).
  destruct (wire_string body "lease_id"); [|done]. unfold wire_integer.
  destruct (jget body "fence") as [| |z| | |] eqn:Ef; try done. cbn iota beta.
  destruct (jget body "runtime_epoch") as [| |e| | |]; try done. cbn [andb]. destruct (e <? 1); [done|]. by apply (Hk z).
Qed.

(** The normalised progress replaces the field, and no other. *)
Lemma normalized_inert {B} t0 body (k : json -> M B) :
  (forall b, jget b "fence" = jget body "fence" -> jget b "lease_id" = jget body "lease_id" -> inert t0 (k b)) ->
  inert t0 ((if is_null (jget body "progress") then mret body
             else p ← lift (normalize_progress (jget body "progress")); mret (jset body "progress" p)) ≫= k).
Proof.
  intros Hk s Hs. destruct (is_null (jget body "progress")); [by apply (Hk body)|].
  unfold mbind, M_bind, lift. destruct (normalize_progress _) as [p|e]; [|done].
  apply (Hk (jset body "progress" p)); [..|done]; by apply jget_set_ne.
Qed.

Lemma stale_row_of attempt_id body b t :
  stale_attempt attempt_id body t -> jget b "fence" = jget body "fence" -> jget b "lease_id" = jget body "lease_id" ->
  stale_row (attempt_by_id attempt_id t) b (current_runtime_epoch t).
Proof. intros Hs Hf Hl. unfold stale_row. rewrite Hf, Hl. exact Hs. Qed.

Lemma heartbeat_stale attempt_id body key identity t0 :
  stale_attempt attempt_id body t0 -> inert t0 (heartbeat_attempt svc iso attempt_id body key identity).
Proof.
  intros Hst. unfold heartbeat_attempt, verified_mutation.
  apply inert_bind; [unfold assert_mutation_admitted; steps_walk|]. intros _.
  apply inert_bind; [steps_walk|]. intros k. apply wire_lease_inert. intros z Hz.
  apply inert_bind; [steps_walk|]. intros seconds. apply normalized_inert. intros b Hf Hl.
  apply inert_view. apply inert_bind; [steps_walk|]. intros _. apply inert_view.
  apply inert_bind; [steps_walk|]. intros epoch. apply inert_bind; [steps_walk|]. intros task.
  apply inert_bind; [steps_walk|]. intros project. cbv zeta. apply inert_bind; [by apply command_replay_reads|]. intros replay.
  destruct replay as [v|]; [apply inert_steps; steps_walk|].
  apply inert_reject. eapply stale_row_rejected; [rewrite Hf; exact Hz|]. by apply (stale_row_of _ body).
Qed.

Lemma fail_stale attempt_id body key identity t0 :
  stale_attempt attempt_id body t0 -> inert t0 (fail_attempt svc iso attempt_id body key identity).
Proof.
  intros Hst. unfold fail_attempt, verified_mutation.
  apply inert_bind; [unfold assert_mutation_admitted; steps_walk|]. intros _.
  apply inert_bind; [steps_walk|]. intros k. apply wire_lease_inert. intros z Hz.
  apply inert_view. apply inert_bind; [steps_walk|]. intros _.
  pose proof (stale_row_of attempt_id body body t0 Hst eq_refl eq_refl) as Hs.
  destruct (attempt_by_id attempt_id t0) as [a|]; [|apply inert_steps; steps_walk].
  apply inert_view. apply inert_bind; [steps_walk|]. intros epoch. apply inert_view.
  apply inert_bind; [steps_walk|]. intros project. cbv zeta. apply inert_bind; [by apply command_replay_reads|]. intros replay.
  destruct replay as [v|]; [apply inert_steps; steps_walk|].
  apply inert_reject. by eapply stale_row_rejected.
Qed.

Lemma settlement_body_ok attempt_id body b :
  check_settlement_body attempt_id body = Ok b ->
  exists z, jget b "fence" = JInt z /\ jget b "fence" = jget body "fence" /\ jget b "lease_id" = jget body "lease_id".
Proof.
  unfold check_settlement_body. intros E. apply res_bind_Ok in E as (b1 & Hb & E).
  assert (b1 = body) as -> by (unfold wire_object in Hb; by res_inv). cbv zeta in E.
  set (b' := jset body "attempt_id" (JStr attempt_id)) in *.
  assert (jget b' "fence" = jget body "fence" /\ jget b' "lease_id" = jget body "lease_id") as [Hf Hl]
    by (split; by apply jget_set_ne).
  apply res_bind_Ok in E as (? & _ & E). apply res_bind_Ok in E as (? & _ & E). apply res_bind_Ok in E as (? & _ & E).
  apply res_bind_Ok in E as (z & Hz & E). unfold wire_integer in Hz.
  destruct (jget b' "fence") as [| |y| | |] eqn:Ey; try done. res_inv. exists y. by rewrite Ey.
Qed.

Lemma settle_stale attempt_id body key identity verified t0 :
  stale_attempt attempt_id body t0 ->
  inert t0 (settle_attempt_route svc iso fid attempt_id body key identity verified).
Proof.
  intros Hst. unfold settle_attempt_route, durable_mutation, settle_route_body.
  apply inert_bind; [unfold assert_mutation_admitted; steps_walk|]. intros _. apply inert_transaction.
  apply inert_bind; [steps_walk|]. intros k. apply inert_check. intros b (z & Hz & Hf & Hl)%settlement_body_ok.
  apply inert_view. apply inert_bind; [steps_walk|]. intros _.
  pose proof (stale_row_of attempt_id body b t0 Hst Hf Hl) as Hs.
  destruct (attempt_by_id attempt_id t0) as [a|]; [|apply inert_steps; steps_walk].
  apply inert_view. apply inert_bind; [steps_walk|]. intros epoch. apply inert_view.
  apply inert_bind; [unfold task_project; steps_walk|]. intros project. cbv zeta.
  apply inert_bind; [by apply command_replay_reads|]. intros replay.
  destruct replay as [v|]; [apply inert_steps; steps_walk|].
  apply inert_reject. by eapply stale_row_rejected.
Qed.

(** C6: a stale worker writes nothing.  When the attempt a heartbeat, a
    failure report or a settlement names is gone, settled, of another epoch of the runtime, or
    held under another lease or fence, the report leaves every table as it
    was: it is refused, or answered from the receipt of the same report. *)
Theorem stale_attempt_writes_nothing attempt_id body key identity s :
  stale_attempt attempt_id body (tb s) ->
  tb (heartbeat_attempt svc iso attempt_id body key identity s).2 = tb s /\
  tb (fail_attempt svc iso attempt_id body key identity s).2 = tb s /\
  forall verified, tb (settle_attempt_route svc iso fid attempt_id body key identity verified s).2 = tb s.
Proof.
  intros Hst. split; [|split; [|intros verified]]; symmetry.
  - exact (proj1 (heartbeat_stale attempt_id body key identity (tb s) Hst s eq_refl)).
  - exact (proj1 (fail_stale attempt_id body key identity (tb s) Hst s eq_refl)).
  - exact (proj1 (settle_stale attempt_id body key identity verified (tb s) Hst s eq_refl)).
Qed.
End Attempts.

(** ** Progress *)

Lemma py_len_rstrip p s : 0 <= py_len (rstrip_by p s) <= py_len s.
Proof.
  induction s as [|c s IH]; simpl; [lia|]. pose proof (py_len_nonneg s).
  destruct (rstrip_by p s) as [|c' r]; [destruct (p c)|]; simpl in *; destruct (is_continuation c); lia.
Qed.

Lemma py_len_lstrip p s : py_len (lstrip_by p s) <= py_len s.
Proof.
  induction s as [|c s IH]; simpl; [lia|]. pose proof (py_len_nonneg s).
  destruct (p c); simpl; destruct (is_continuation c); lia.
Qed.

Lemma py_len_strip s : py_len (str_strip s) <= py_len s.
Proof.
  unfold str_strip, strip_by. pose proof (py_len_rstrip is_space (lstrip_by is_space s)).
  pose proof (py_len_lstrip is_space s). lia.
Qed.

(** What an accepted progress report may hold. *)
Definition progress_in_range (key : string) (value : json) : Prop :=
  if String.eqb key "phase" then exists s, value = JStr s /\ nonempty s = true /\ py_len s <= 128
  else exists z, value = JInt z /\ (key = "percent" -> 0 <= z <= 100) /\ (key = "total" -> 1 <= z) /\ (key = "current" -> 0 <= z).

Definition report_in_range (report : json) : Prop :=
  is_dict report = true /\
  forall key, jhas report key = true -> In key progress_fields /\ progress_in_range key (jget report key).

Lemma jhas_set j k k' v : jhas (jset j k v) k' = String.eqb k' k || jhas j k'.
Proof.
  destruct (String.eqb k' k) eqn:E; bool_hyps.
  - subst. unfold jhas, jset. simpl. by rewrite alookup_aset_eq.
  - unfold jhas, jset. simpl. by rewrite alookup_aset_ne.
Qed.

Lemma report_set report k v :
  report_in_range report -> In k progress_fields -> progress_in_range k v -> report_in_range (jset report k v).
Proof.
  intros [Hd Hr] Hk Hv. split; [done|]. intros key Hh. rewrite jhas_set in Hh.
  destruct (String.eqb key k) eqn:E; bool_hyps.
  - subst. by rewrite jget_set_eq.
  - rewrite jget_set_ne by done. auto.
Qed.

Lemma progress_number_range key v w :
  String.eqb key "phase" = false -> progress_number key v = Ok w -> progress_in_range key w.
Proof.
  intros Hk Hp. unfold progress_number in Hp. destruct v as [| |z| | |]; try done. res_inv.
  unfold progress_in_range. rewrite Hk. exists z. split; [done|].
  split; [|split]; intros ->; change (String.eqb "percent" "percent") with true in *;
    change (String.eqb "total" "total") with true in *; change (String.eqb "current" "current") with true in *;
    simpl in *; bool_hyps; lia.
Qed.

Lemma add_progress_range p acc key r :
  String.eqb key "phase" = false -> In key progress_fields -> report_in_range acc ->
  add_progress p acc key = Ok r -> report_in_range r.
Proof.
  intros Hk Hin Ha. unfold add_progress. destruct (jhas p key); [|by intros [= <-]]. intros E. res_inv.
  apply report_set; [done|done|by eapply progress_number_range].
Qed.


(** ** The small realm *)

#[local] Existing Instance demo_world.

Definition demo_claim_body : json :=
  JObj [("executor_id", JStr "worker-1"); ("capability_ids", JArr [JStr "image.make"]); ("runtime_epoch", JInt 1)].

(** The first task claimed through the service. *)
Definition demo_dispatched : res json * state := Eval vm_compute in
  claim_next remote_service remote_iso demo_claim_body (JStr "claim-1") JNull demo_admitted.

Example demo_dispatched_lease :
  map t_status (tasks (tb demo_dispatched.2)) = [Running; Queued] /\
  match demo_dispatched.1 with Ok v => jget v "task_id" = JStr demo_task_1 /\ jget v "fence" = JInt 1 | Err _ => False end.
Proof. split; [reflexivity|]. split; reflexivity. Qed.

(** C8: the claim of the first task, and the same claim again, which leaves
    the second task queued. *)
Lemma claim_key_spent_once_witness :
  tb (claim_next remote_service remote_iso demo_claim_body (JStr "claim-1") JNull demo_dispatched.2).2 =
  tb demo_dispatched.2.
Proof.
  destruct (demo_dispatched.1) as [v|e] eqn:Ev; [|discriminate].
  assert (claim_next remote_service remote_iso demo_claim_body (JStr "claim-1") JNull demo_admitted =
    (Ok v, demo_dispatched.2)) as E.
  { rewrite <- Ev. vm_compute. reflexivity. }
  destruct (claim_key_spent_once remote_service remote_iso demo_claim_body "claim-1" JNull demo_admitted v
    demo_dispatched.2 E) as [Hr Hi].
  exact (Hi demo_claim_body JNull demo_dispatched.2 Hr).
Defined.

(** The attempt of the claim, and a report under the fence before it. *)
Definition demo_report (fence : Z) : json := Eval vm_compute in
  match demo_dispatched.1 with
  | Ok v => JObj [("lease_id", jget v "lease_id"); ("fence", JInt fence); ("runtime_epoch", JInt 1)]
  | Err _ => JNull
  end.

Definition demo_attempt_id : string := Eval vm_compute in
  match demo_dispatched.1 with Ok v => text_of (jget v "attempt_id") | Err _ => EmptyString end.

Example demo_report_accepted :
  is_ok (fail_attempt remote_service remote_iso demo_attempt_id (demo_report 1) (JStr "fail-1") JNull
           demo_dispatched.2).1 = true.
Proof. vm_compute. reflexivity. Qed.

(** C6: a report under fence 0. *)
Lemma stale_attempt_writes_nothing_witness :
  tb (fail_attempt remote_service remote_iso demo_attempt_id (demo_report 0) (JStr "fail-1") JNull demo_dispatched.2).2 =
  tb demo_dispatched.2.
Proof.
  assert (stale_attempt demo_attempt_id (demo_report 0) (tb demo_dispatched.2)) as Hs.
  { right; right; right. discriminate. }
  destruct (stale_attempt_writes_nothing remote_service remote_iso (fun _ _ => JNull) demo_attempt_id (demo_report 0)
    (JStr "fail-1") JNull demo_dispatched.2 Hs) as (_ & Hf & _). exact Hf.
Defined.

