(* ===== verification/StagingFacts.v ===== *)
(** * What staging establishes

    The outputs of a settlement that pass [stage_outputs] are what they claim
    to be: their digests are the hashes of bytes that were seen, their names
    are safe, their associations are distinct, and no object of another
    project is among them. *)

From Stdlib Require Import ZArith String Ascii List Bool Lia.
From stdpp Require Import base list strings.
From S2P Require Import Prelude Json Errors Facts Sha256 Base64 Store Idempotency Ledger Bindings.
From S2P Require Import Executors Continuations Snapshots Delegation Claim Outputs Settle Runs.
From S2P Require Import Admission Effects Generations Wire Commands Deployments Activation Recovery Dispatch.
From S2P Require Import Staging ChildPolicy Settlement Demo Evolution Leases ActivationFacts DispatchFacts.

Open Scope Z_scope.

(** ** The normalised output *)

Lemma echo_get o k v n k' : k' <> k -> jget (echo o k v n) k' = jget n k'.
Proof. intros Hk. unfold echo. destruct (jhas o k); [by apply jget_set_ne|done]. Qed.

Lemma present_get o k n k' : k' <> k -> jget (keep_present o k n) k' = jget n k'.
Proof. intros Hk. unfold keep_present, set_present. destruct (is_null _); [done|by apply jget_set_ne]. Qed.

Lemma truthy_get n k v k' : k' <> k -> jget (set_truthy n k v) k' = jget n k'.
Proof. intros Hk. unfold set_truthy. destruct (truthy v); [by apply jget_set_ne|done]. Qed.

Lemma if_set_get (b : bool) n k v k' : k' <> k -> jget (if b then n else jset n k v) k' = jget n k'.
Proof. intros Hk. destruct b; [done|by apply jget_set_ne]. Qed.

(** A field of the normalised output that is written once. *)
Ltac normal_get :=
  unfold normalized_output; cbv zeta;
  repeat first [ rewrite present_get by discriminate | rewrite echo_get by discriminate
               | rewrite truthy_get by discriminate | rewrite if_set_get by discriminate ].

Section Normalized.
Context (output : json) (name kind media_type filename port group variant durability : string) (size : Z).
Let n := normalized_output output name kind media_type filename port group variant durability size.

Lemma normal_digest : jget n "digest" = jget output "digest".
Proof. unfold n. by normal_get. Qed.
Lemma normal_size : jget n "size" = JInt size.
Proof. unfold n. by normal_get. Qed.
Lemma normal_kind : jget n "kind" = JStr kind.
Proof. unfold n. by normal_get. Qed.
Lemma normal_ordinal : jget n "ordinal" = jget output "ordinal".
Proof.
  unfold n. unfold normalized_output; cbv zeta.
  do 2 rewrite present_get by discriminate. do 2 rewrite truthy_get by discriminate.
  rewrite if_set_get by discriminate. do 3 rewrite present_get by discriminate.
  unfold keep_present at 1, set_present. destruct (is_null (jget output "ordinal")) eqn:E; [|by rewrite jget_set_eq].
  destruct (jget output "ordinal"); try done. rewrite present_get by discriminate.
  by normal_get.
Qed.
End Normalized.

(** ** Staged items *)

Definition item_ordinal (item : staged_item) : Z :=
  match jget (si_output item) "ordinal" with JInt z => z | _ => 0 end.

Definition item_key (item : staged_item) : string * string * string * Z :=
  (si_output_port item, si_group_key item, si_variant_key item, item_ordinal item).

Definition is_object (item : staged_item) : bool := is_json_str "object" (jget (si_output item) "kind").

(** What is known of one staged item. *)
Record established (item : staged_item) : Prop := {
  es_digest : is_hex64 (si_digest item) = true;
  es_bytes : exists bytes, sha256 bytes = si_digest item /\ bytes_of bytes = si_size item;
  es_size : 0 <= si_size item <= OBJECT_MAX_BYTES;
  es_filename : safe_name (si_filename item);
  es_media_type : nonempty (si_media_type item) = true;
  es_output_digest : jget (si_output item) "digest" = JStr ("sha256:" +:+ si_digest item);
  es_output_size : jget (si_output item) "size" = JInt (si_size item) }.

(** The object is unknown, or known as what it is; and when projects own it,
    the project of the task is one of them. *)
Definition admissible (project : option string) (t : tables) (item : staged_item) : Prop :=
  forall o, object_by_digest (si_digest item) t = Some o ->
    o_size o = si_size item /\ o_media_type o = si_media_type item /\
    forall p, project = Some p -> nonempty p = true -> owned_by_a_project (si_digest item) t = true ->
      in_project p (si_digest item) t = true.

(** The loop invariant of [stage_outputs]. *)
Record staged_well (project : option string) (t : tables) (st : stage_state) : Prop := {
  sw_items : Forall established (sg_items st);
  sw_admissible : Forall (admissible project t) (sg_items st);
  sw_keys : sg_seen st = map item_key (List.filter is_object (sg_items st));
  sw_distinct : List.NoDup (sg_seen st);
  sw_content : forall item, In item (sg_items st) ->
    alookup (si_digest item) (sg_content st) = Some (si_size item, si_media_type item) }.

Lemma declared_digest_ok output d :
  declared_digest output = Ok d -> is_hex64 d = true /\ jget output "digest" = JStr ("sha256:" +:+ d).
Proof.
  unfold declared_digest. destruct (jget output "digest") as [| | |s| |]; try done. intros E. res_inv. bool_hyps.
  split; [done|]. unfold remove_prefix. rewrite_hyps. f_equal. by apply (prefix_split "sha256:").
Qed.

Lemma nonempty_plain_ok n v s : nonempty_plain n v = Some s -> nonempty s = true.
Proof. unfold nonempty_plain. destruct (plain_text n v) as [x|]; [|done]. destruct (nonempty x) eqn:E; [|done]. by intros [= <-]. Qed.

Lemma selector_keeps output o k :
  apply_selector output = Ok o -> k <> "group_key" -> k <> "variant_key" -> jget o k = jget output k.
Proof.
  unfold apply_selector. destruct (is_null _); [by intros [= <-]|]. intros E Hg Hv. res_inv.
  destruct (jhas output "group_key"); destruct (jhas _ "variant_key"); rewrite ?jget_set_ne by done; done.
Qed.

Lemma association_keys_ok output name ordinal o port group variant k :
  association_keys output name ordinal = Ok (o, port, group, variant) ->
  k <> "group_key" -> k <> "variant_key" -> jget o k = jget output k.
Proof.
  unfold association_keys. intros E. res_inv. simplify_eq. by apply selector_keeps.
Qed.

#[local] Existing Instance anything_preorder.

Section Staged.
Context `{World} (fid : nat -> string -> json).

Lemma raise_with_post {A} c m d P Q : post P (raiseM_with (A := A) c m d) Q.
Proof. intros s _. by split. Qed.

(** The size of an output is that of bytes with its hash. *)
Lemma output_bytes_post output digest declared t0 :
  post (fun t => t = t0) (output_bytes fid output digest None declared)
    (fun r t => ((exists bytes, sha256 bytes = digest /\ bytes_of bytes = r.2) /\ 0 <= r.2 <= OBJECT_MAX_BYTES) /\ t = t0).
Proof.
  unfold output_bytes. destruct (jget output "data_base64") as [| | |data| |]; try apply post_raise.
  - unfold stored_bytes. eapply post_bind; [|intros size; apply post_ret; intros t Ht; exact Ht].
    eapply post_bind; [apply post_read; steps_walk|]. intros n.
    destruct (stored_object n digest) as [bytes|]; [|apply raise_with_post].
    cbn [verified_identity]. guards. apply post_ret. intros t ->. split; [|done]. split; [by exists bytes|].
    unfold bytes_of in *. cbn [snd]. lia.
  - eapply post_bind; [apply post_lift|]. intros size. apply post_pure. intros E. apply post_ret. intros t ->.
    split; [|done]. unfold inline_bytes in E. destruct (b64decode data) as [bytes|]; [|done]. res_inv. bool_hyps.
    split; [by exists bytes|]. unfold bytes_of in *. cbn [snd]. lia.
Qed.

Lemma check_object_post by_ output digest inline size media name port filename t0 :
  post (fun t => t = t0) (check_output_object by_ output digest inline size media name port filename)
    (fun _ t => (forall o, object_by_digest digest t0 = Some o ->
       o_size o = size /\ o_media_type o = media /\
       forall p, sl_project by_ = Some p -> nonempty p = true -> owned_by_a_project digest t0 = true ->
         in_project p digest t0 = true) /\ t = t0).
Proof.
  unfold check_output_object. apply post_view, post_view. destruct (object_by_digest digest t0) as [o|] eqn:Eo.
  - guards. match goal with H1 : o_size o = size, H2 : o_media_type o = media |- _ => rename H1 into Hsize, H2 into Hmedia end.
    assert (owned_by_a_project digest t0 = false \/ outside_project (sl_project by_) digest t0 = false ->
      forall o', Some o = Some o' -> o_size o' = size /\ o_media_type o' = media /\
       forall p, sl_project by_ = Some p -> nonempty p = true -> owned_by_a_project digest t0 = true ->
         in_project p digest t0 = true) as Hok.
    { intros Hor o' [= <-]. split; [done|]. split; [done|]. intros p Hp Hn Hw. destruct Hor as [Hor|Hor]; [congruence|].
      unfold outside_project in Hor. rewrite Hp, Hn in Hor. by apply negb_false_iff in Hor. }
    destruct (outside_project _ _ _) eqn:Ef; cbn [negb]; [|apply post_ret; intros t ->; split; [apply Hok; by right|done]].
    apply post_view. destruct (owned_by_a_project digest t0) eqn:Ew; [apply raise_with_post|].
    do 2 (eapply post_bind; [apply post_read; unfold is_authorized_generic_output, upload_binding, recorded_upload;
      steps_walk; apply catch_steps; steps_walk|]; intros [|]; [apply post_ret; intros t ->; split; [apply Hok; by left|done]|]).
    apply raise_with_post.
  - destruct (_ && _); [apply raise_with_post|]. apply post_ret. by intros t ->.
Qed.

Lemma note_association_ok kind key seen seen' :
  note_association kind key seen = Ok seen' -> List.NoDup seen ->
  List.NoDup seen' /\ seen' = seen ++ (if String.eqb kind "object" then [key] else []).
Proof.
  unfold note_association. destruct (String.eqb kind "object"); simpl.
  - intros E Hn. res_inv. split; [|done]. apply List.NoDup_app; [done|repeat constructor; by intros []|].
    intros x Hin [<-|[]].
    match goal with H : existsb _ _ = false |- _ => rewrite <- not_true_iff_false in H; apply H end.
    apply existsb_exists. exists key. split; [done|]. by apply bool_decide_eq_true.
  - intros [= <-] Hn. by rewrite app_nil_r.
Qed.

Lemma alookup_content d (v : Z * string) l k x :
  alookup k l = Some x -> (forall m, alookup d l = Some m -> m = v) -> alookup k (aset d v l) = Some x.
Proof.
  intros Hk Hd. destruct (decide (k = d)) as [->|Hne].
  - rewrite alookup_aset_eq. f_equal. symmetry. by apply Hd.
  - by rewrite alookup_aset_ne.
Qed.

Lemma staged_snoc project t st item seen content non_objects :
  staged_well project t st -> established item -> admissible project t item ->
  List.NoDup seen -> seen = sg_seen st ++ (if is_object item then [item_key item] else []) ->
  content = aset (si_digest item) (si_size item, si_media_type item) (sg_content st) ->
  content_conflict st (si_digest item) (si_size item) (si_media_type item) = false ->
  staged_well project t (StageState (sg_items st ++ [item]) seen content non_objects).
Proof.
  intros [Hi Ha Hk _ Hc] He Had Hn -> -> Hf. constructor; simpl.
  - by apply Forall_app_2; [|constructor].
  - by apply Forall_app_2; [|constructor].
  - rewrite List.filter_app, map_app, <- Hk. simpl. by destruct (is_object item).
  - done.
  - intros x Hx. apply in_app_or in Hx as [Hx|[->|[]]]; [|apply alookup_aset_eq].
    apply alookup_content; [by apply Hc|]. intros m Hm. unfold content_conflict in Hf. rewrite Hm in Hf.
    apply negb_false_iff, bool_decide_eq_true in Hf. done.
Qed.

Lemma stage_output_post by_ st output t0 :
  staged_well (sl_project by_) t0 st ->
  post (fun t => t = t0) (stage_output fid by_ None st output)
    (fun st' t => staged_well (sl_project by_) t0 st' /\ t = t0).
Proof.
  intros Hst. unfold stage_output.
  eapply post_bind; [apply post_lift|]. intros []. apply post_pure. intros _.
  eapply post_bind; [apply post_lift|]. intros digest. apply post_pure. intros [Hd Ho]%declared_digest_ok.
  eapply post_bind; [apply post_lift|]. intros kind. apply post_pure. intros _. guards. cbv zeta.
  eapply post_bind; [apply post_lift|]. intros name. apply post_pure. intros _.
  eapply post_bind; [apply post_lift|]. intros filename. apply post_pure. intros Hf%canonical_name_safe.
  eapply post_bind; [apply post_lift|]. intros media. apply post_pure. intros Hm.
  eapply post_bind; [apply post_lift|]. intros declared. apply post_pure. intros _.
  eapply post_bind; [apply output_bytes_post|]. intros [inline size]. apply post_pure. intros [Hb Hs]. guards.
  eapply post_bind; [apply post_lift|]. intros ordinal. apply post_pure. intros Hord.
  eapply post_bind; [apply post_lift|]. intros []. apply post_pure. intros _.
  eapply post_bind; [apply post_lift|]. intros [[[out port] group] variant]. apply post_pure. intros Hk.
  eapply post_bind; [apply post_lift|]. intros seen. apply post_pure. intros Hseen.
  do 3 (eapply post_bind; [apply post_lift|]; intros ?; apply post_pure; intros _).
  eapply post_bind; [apply check_object_post|]. intros []. apply post_pure. intros Hobj. apply post_ret. intros t ->.
  split; [|done]. apply note_association_ok in Hseen as [Hn Hseen]; [|apply Hst].
  apply staged_snoc; try done.
  - constructor; simpl; try done.
    + unfold or_invalid in Hm. destruct (nonempty_plain 255 _) eqn:E; [|done]. injection Hm as <-. by eapply nonempty_plain_ok.
    + rewrite normal_digest. by rewrite (association_keys_ok _ _ _ _ _ _ _ "digest" Hk).
    + apply normal_size.
  - rewrite Hseen. unfold is_object, item_key, item_ordinal. simpl. rewrite normal_kind, normal_ordinal.
    rewrite (association_keys_ok _ _ _ _ _ _ _ "ordinal" Hk) by done. simpl.
    rewrite (String.eqb_sym kind). destruct (String.eqb "object" kind); [|done]. repeat f_equal.
    unfold output_ordinal in Hord. destruct (jget output "ordinal") as [| |z| | |]; try done; [by injection Hord as <-|].
    destruct (0 <=? z); [|done]. by injection Hord as <-.
Qed.

Lemma stage_outputs_post by_ l t0 :
  post (fun t => t = t0) (foldS (stage_output fid by_ None) empty_stage l)
    (fun st t => staged_well (sl_project by_) t0 st /\ t = t0).
Proof.
  eapply post_conseq; [apply (spec_foldS _ _ (fun st t => staged_well (sl_project by_) t0 st /\ t = t0))| |done].
  - intros st output _. apply post_pure. apply stage_output_post.
  - intros t ->. split; [|done]. by constructor; try constructor.
Qed.
End Staged.


(** ** An instance *)

#[local] Existing Instance demo_world.

Definition sample_outputs : json :=
  let digest := JStr ("sha256:" +:+ sha256 "hi") in
  JArr [JObj [("name", JStr "frames/one"); ("filename", JStr "images/one.txt"); ("digest", digest);
              ("media_type", JStr "text/plain"); ("data_base64", JStr "aGk=")];
        JObj [("name", JStr "two"); ("digest", digest); ("media_type", JStr "text/plain"); ("size", JInt 2);
              ("data_base64", JStr "aGk="); ("selector", JObj [("group_key", JStr "g"); ("variant_key", JStr "v")])]].

Definition sample_settling : settling :=
  let t := tb demo_claimed in
  match attempts t, task_by_id demo_task_1 t with
  | a :: _, Some x => Settling a x (Some "project-1") (JStr (at_lease_id a)) (JInt (at_fence a)) (JInt 1)
  | _, _ => Settling (Attempt "" "" "" 0 "" (At 0) false 0 None None false) (new_task_row "" "" "" "" None None JNull JNull (At 0))
              None JNull JNull JNull
  end.

