(* ===== verification/Sessions.v ===== *)
(** * Runtime sessions

    What [begin_runtime_session] establishes at boot: a larger runtime epoch,
    and a queue in which no task runs under a lease of an earlier boot. *)

From Stdlib Require Import ZArith String Ascii List Bool Lia.
From stdpp Require Import base list strings.
From S2P Require Import Prelude Json Errors Facts Sha256 Store Idempotency Ledger Bindings.
From S2P Require Import Executors Continuations Snapshots Delegation Claim Outputs Settle Runs.
From S2P Require Import Admission Demo Evolution Leases.

Open Scope Z_scope.

(** No task starts to run. *)
Definition starts_nothing (t t' : tables) : Prop :=
  forall id y, task_by_id id t' = Some y -> t_status y = Running ->
    exists x, task_by_id id t = Some x /\ t_status x = Running.

Definition starts_no_row (x y : task_row) : Prop :=
  t_id y = t_id x /\ (t_status y = Running -> t_status x = Running).

#[global] Instance starts_nothing_preorder : PreOrder starts_nothing.
Proof.
  split; [intros t id y; by exists y|]. intros a b c H1 H2 id z Hz Hs.
  destruct (H2 id z Hz Hs) as (y & Hy & Hys). by apply (H1 id y).
Qed.

Lemma starts_nothing_same t t' : tasks t' = tasks t -> starts_nothing t t'.
Proof. intros Ht id y. unfold task_by_id. rewrite Ht. by exists y. Qed.

Lemma find_updated_none id p f t :
  (forall y, In y (tasks t) -> p y = true -> t_id (f y) = t_id y) -> task_by_id id t = None ->
  find (is_task id) (update_where p f (tasks t)) = None.
Proof.
  unfold task_by_id. intros Hf Hx. induction (tasks t) as [|z l IH]; simpl in *; [done|].
  assert (is_task id (if p z then f z else z) = is_task id z) as ->.
  { destruct (p z) eqn:E; [|done]. unfold is_task. by rewrite (Hf z (or_introl eq_refl) E). }
  unfold is_task at 1. destruct (String.eqb (t_id z) id); [done|]. apply IH; [|done].
  intros y Hy. apply Hf. by right.
Qed.

#[global] Instance starts_nothing_tasks : TaskUpdates starts_nothing starts_no_row.
Proof.
  intros t p f Hf id y Hy Hs.
  assert (forall y, In y (tasks t) -> p y = true -> t_id (f y) = t_id y) as Hid by (intros; by apply Hf).
  destruct (task_by_id id t) as [x|] eqn:Hx.
  - destruct (find_updated id p f t x Hid Hx) as [Hu Hin]. exists x. split; [done|].
    unfold task_by_id in Hy. simpl in Hy. unfold is_task in Hu. rewrite Hu in Hy. injection Hy as <-.
    destruct (p x) eqn:E; [by apply (Hf x Hin E)|done].
  - pose proof (find_updated_none id p f t Hid Hx) as Hu. unfold task_by_id in Hy. simpl in Hy.
    unfold is_task in Hu. congruence.
Qed.

#[global] Instance starts_no_row_undo : UndoRows starts_no_row.
Proof. constructor; intros; split; simpl; try done. by intros ->; destruct H. Qed.

#[global] Instance starts_nothing_benign : Benign starts_nothing.
Proof.
  constructor; try exact _; intros; try (by apply starts_nothing_same).
  apply task_updates. intros x _ _. destruct (H x). split; [done|congruence].
Qed.

#[global] Instance starts_nothing_checkpoints : CheckpointWrites starts_nothing.
Proof. split; intros; by apply starts_nothing_same. Qed.

(** The session row does not change. *)
Definition same_session (t t' : tables) : Prop := runtime_lifecycle t' = runtime_lifecycle t.

#[global] Instance same_session_preorder : PreOrder same_session.
Proof. split; [done|]. unfold same_session. intros a b c. congruence. Qed.

#[global] Instance same_session_benign : Benign same_session.
Proof. by constructor; try exact _. Qed.

#[global] Instance same_session_checkpoints : CheckpointWrites same_session.
Proof. by split. Qed.

#[global] Instance same_session_tasks : TaskUpdates same_session (fun _ _ => True).
Proof. done. Qed.

(** What every iteration establishes for its element holds for all at the end. *)
Lemma post_for_each {A} (I : tables -> tables -> Prop) (l : list A) (f : A -> M unit) (R : A -> tables -> Prop) P :
  (forall x, steps I (f x)) -> (forall x t t', I t t' -> R x t -> R x t') ->
  (forall t t', I t t' -> P t -> P t') -> (forall x, post P (f x) (fun _ => R x)) ->
  post P (for_each l f) (fun _ t => P t /\ forall x, In x l -> R x t).
Proof.
  intros Hf HR HP Hpost. unfold for_each.
  enough (forall l seen, post (fun t => P t /\ forall x, In x seen -> R x t) (foldS (fun _ x => f x) tt l)
            (fun _ t => P t /\ forall x, In x (seen ++ l) -> R x t)) as Hall.
  { eapply post_conseq; [apply (Hall l [])|intros t Ht; split; [done|by intros ? []]|done]. }
  intros k. induction k as [|x k IH]; intros seen; simpl.
  - apply post_ret. intros t Ht. by rewrite app_nil_r.
  - eapply (post_bind _ _ _ (fun _ t => P t /\ forall y, In y (seen ++ [x]) -> R y t)).
    + intros s [Hs Hd]. destruct (Hpost x s Hs) as [_ Hq]. split; [done|].
      pose proof (Hf x s) as HI. destruct (f x s).1; [|done]. split; [by eapply HP|].
      intros y Hy. apply in_app_or in Hy as [Hy|[<-|[]]]; [|done]. eapply HR; [exact HI|by apply Hd].
    + intros u. destruct u. specialize (IH (seen ++ [x])). rewrite <- app_assoc in IH. exact IH.
Qed.

Section Session.
Context `{World}.

Definition not_running (id : string) (t : tables) : Prop :=
  forall x, task_by_id id t = Some x -> t_status x <> Running.

Lemma not_running_starts id t t' : starts_nothing t t' -> not_running id t -> not_running id t'.
Proof. intros Hs Hn y Hy Hr. destruct (Hs id y Hy Hr) as (x & Hx & Hxr). by apply (Hn x). Qed.

Lemma not_running_update id p f t :
  (forall y, t_id (f y) = t_id y) -> (forall y, t_status (f y) <> Running) ->
  (forall y, task_by_id id t = Some y -> t_status y = Running -> p y = true) ->
  not_running id (t {{ tasks := update_where p f (tasks t) }}).
Proof.
  intros Hid Hst Hp y Hy Hr. unfold task_by_id in Hy. simpl in Hy.
  rewrite find_update_where in Hy; [|intros z; by rewrite Hid].
  destruct (find (fun x => String.eqb (t_id x) id) (tasks t)) as [x|] eqn:E; [|done].
  injection Hy as <-. destruct (p x) eqn:Ep; [by apply Hst in Hr|].
  rewrite (Hp x E Hr) in Ep. discriminate.
Qed.

Lemma recover_task_post pe e pb b ts x :
  post (fun _ => True) (recover_task pe e pb b ts x) (fun _ => not_running (t_id x)).
Proof.
  unfold recover_task. eapply post_bind; [apply post_gets|]. intros [latest|]; [|apply post_raise].
  destruct (status_in (t_status latest) [Running; CancelRequested]) eqn:Hin; cbn [negb]; cycle 1.
  { apply post_ret. intros t [Hl _] y Hy Hr. assert (y = latest) as -> by congruence. by rewrite Hr in Hin. }
  apply (post_conseq _ (fun _ => True) _ (fun _ => not_running (t_id x))); [|done|done].
  eapply post_bind; [apply (post_steps (fun _ _ => True)); [intros ?; done|done]|]. intros ?.
  eapply post_bind; [apply (post_steps (fun _ _ => True)); [intros ?; done|done]|]. intros binding.
  unfold recover_interrupted. destruct (unresolved_external binding).
  - eapply post_bind.
    { apply (post_modify _ _ (not_running (t_id x))). intros t _. apply not_running_update; [done| |].
      - intros y. simpl. by destruct (bool_decide _).
      - intros y Hy _. unfold task_by_id in Hy. by apply find_some in Hy as [_ ?]. }
    intros ?. apply (post_steps starts_nothing); [benign_walk|eauto using not_running_starts].
  - eapply post_bind; [apply (post_steps (fun _ _ => True)); [intros ?; done|done]|]. intros reconciled.
    eapply post_bind.
    { apply (post_modify _ _ (not_running (t_id x))). intros t _. apply not_running_update; [done|done|].
      intros y Hy Hr. unfold task_by_id in Hy. apply find_some in Hy as [_ Hy]. unfold is_task. rewrite Hy.
      by apply bool_decide_eq_true. }
    intros ?. apply (post_steps starts_nothing); [benign_walk|eauto using not_running_starts].
Qed.

Definition previous_epoch (t : tables) : Z :=
  match runtime_lifecycle t with Some l => lc_runtime_epoch l | None => 0 end.

(** Every task that runs is in the list. *)
Definition running_among (l : list task_row) (t : tables) : Prop :=
  forall id y, task_by_id id t = Some y -> t_status y = Running -> exists x, In x l /\ t_id x = id.

Lemma running_among_starts l t t' : starts_nothing t t' -> running_among l t -> running_among l t'.
Proof. intros Hs Hl id y Hy Hr. destruct (Hs id y Hy Hr) as (x & Hx & Hxr). by apply (Hl id x). Qed.

Definition session_is (boot_id : string) (epoch : Z) (t : tables) : Prop :=
  exists l, runtime_lifecycle t = Some l /\ lc_boot_id l = boot_id /\ lc_runtime_epoch l = epoch.

Lemma session_is_same b e t t' : same_session t t' -> session_is b e t -> session_is b e t'.
Proof. unfold session_is. intros ->. done. Qed.

Lemma open_session_post boot_id floor epoch :
  post (fun t => Z.max (previous_epoch t) (default 0 floor) + 1 = epoch) (open_session boot_id floor)
    (fun _ t => session_is boot_id epoch t /\ forall id, not_running id t).
Proof.
  unfold open_session. eapply post_bind; [apply post_gets|]. intros row.
  set (epoch' := Z.max (match row with Some l => lc_runtime_epoch l | None => 0 end) (default 0 floor) + 1).
  apply (post_conseq _ (fun _ => epoch' = epoch) _ (fun _ t => session_is boot_id epoch t /\ forall id, not_running id t));
    [|by intros t [-> ?]|done].
  do 2 (eapply post_bind; [apply (post_steps same_session); [steps_walk|done]|]; intros ?).
  eapply (post_bind _ _ _ (fun _ => session_is boot_id epoch)).
  { apply post_modify. intros t ->. by eexists. }
  intros ?. eapply post_bind; [apply (post_steps same_session); [benign_walk|eauto using session_is_same]|]. intros ?.
  eapply (post_bind _ _ _ (fun l t => session_is boot_id epoch t /\ running_among l t)).
  { eapply post_conseq; [apply post_gets|intros t Ht; exact Ht|]. intros l t [-> Ht]. split; [done|].
    intros id y Hy Hr. unfold task_by_id in Hy. apply find_some in Hy as [Hin Hid]. apply String.eqb_eq in Hid.
    exists y. split; [|done]. apply filter_In. by rewrite Hr. }
  intros interrupted.
  eapply (post_bind _ _ _ (fun _ t => session_is boot_id epoch t /\ forall id, not_running id t)).
  { eapply post_conseq; [apply (post_for_each (fun t t' => same_session t t' /\ starts_nothing t t') interrupted
        (recover_task _ epoch' _ boot_id a0) (fun x => not_running (t_id x))
        (fun t => session_is boot_id epoch t /\ running_among interrupted t))|done|].
    - intros x s. split; [apply (recover_task_steps same_session (fun _ _ => True))
                         |apply (recover_task_steps starts_nothing starts_no_row)].
    - intros x t t' [_ Hs]. by apply not_running_starts.
    - intros t t' [Hs Hn] [H1 H2]. eauto using session_is_same, running_among_starts.
    - intros x. eapply post_conseq; [apply recover_task_post|done|done].
    - intros ? t [[H1 H2] H3]. split; [done|]. intros id y Hy Hr.
      destruct (H2 id y Hy Hr) as (x & Hx & <-). by apply (H3 x Hx y). }
  intros ?. eapply post_bind.
  { apply (post_steps (fun t t' => same_session t t' /\ starts_nothing t t')).
    - intros s. split; [destruct (_ =? 0); done|]. destruct (_ =? 0); by apply starts_nothing_same.
    - intros t t' [Hs Hn] [H1 H2]. split; [by eapply session_is_same|]. intros id. by eapply not_running_starts. }
  intros ?. apply post_modify. intros t [(l & Hl & ? & ?) Hn]. split; [|exact Hn].
  unfold session_is. simpl. rewrite Hl. by eexists.
Qed.

(** C11: a boot fences off everything before it.  When
    [begin_runtime_session] returns, the recorded session is the new boot
    under an epoch above the previous epoch and above the given floor, and no
    task is running any more. *)
Theorem session_starts_clean boot_id floor s v s' :
  begin_runtime_session boot_id floor s = (Ok v, s') ->
  exists l, runtime_lifecycle (tb s') = Some l /\ lc_boot_id l = boot_id /\
    previous_epoch (tb s) < lc_runtime_epoch l /\ default 0 floor < lc_runtime_epoch l /\
    forall id x, task_by_id id (tb s') = Some x -> t_status x <> Running.
Proof.
  intros Hs.
  assert (post (fun t => Z.max (previous_epoch t) (default 0 floor) + 1 =
                         Z.max (previous_epoch (tb s)) (default 0 floor) + 1)
    (begin_runtime_session boot_id floor)
    (fun _ t => session_is boot_id (Z.max (previous_epoch (tb s)) (default 0 floor) + 1) t /\
                forall id, not_running id t)) as Hpost.
  { unfold begin_runtime_session. eapply post_bind; [apply (post_steps eq); [steps_walk|by intros ? ? ->]|]. intros ?.
    eapply post_bind; [apply post_transaction, open_session_post|]. intros ?.
    eapply post_bind; [apply (post_steps eq); [steps_walk|by intros ? ? ->]|]. intros [l|]; [|apply post_raise].
    by apply post_ret. }
  destruct (Hpost s eq_refl) as [_ Hq]. rewrite Hs in Hq. destruct Hq as [(l & Hl & Hb & He) Hn].
  exists l. split; [done|]. split; [done|]. split; [lia|]. split; [lia|]. exact Hn.
Qed.
End Session.

(** C11: a restart of the sample realm while a task runs. *)
Lemma session_starts_clean_witness :
  exists s' l, (@begin_runtime_session demo_world "boot-2" (Some 7) demo_claimed).2 = s' /\
    runtime_lifecycle (tb s') = Some l /\ 7 < lc_runtime_epoch l /\
    forall id x, task_by_id id (tb s') = Some x -> t_status x <> Running.
Proof.
  destruct ((@begin_runtime_session demo_world "boot-2" (Some 7) demo_claimed).1) as [v|] eqn:E;
    [|vm_compute in E; discriminate].
  destruct (@session_starts_clean demo_world "boot-2" (Some 7) demo_claimed v
    (@begin_runtime_session demo_world "boot-2" (Some 7) demo_claimed).2) as (l & Hl & _ & _ & Hf & Hn).
  - rewrite <- E. apply surjective_pairing.
  - eexists _, l. split; [reflexivity|]. split; [exact Hl|]. split; [exact Hf|exact Hn].
Defined.
