(* ===== verification/Specs.v ===== *)
(** * Task specs

    Specs are stored once, under the hash of their text.  Every handler keeps
    the table content-addressed; a spec that was stored is read back as the
    value that was passed; retirement removes only specs that no task and no
    run refers to, and never touches a task that may still need its spec. *)

From Stdlib Require Import ZArith String Ascii List Bool Lia.
From stdpp Require Import base list strings.
From S2P Require Import Prelude Json Errors Facts Sha256 Store Idempotency Ledger Bindings.
From S2P Require Import Executors Continuations Snapshots Delegation Claim Outputs Settle Runs.
From S2P Require Import Admission Demo Evolution Leases.

Open Scope Z_scope.

(** Digests are keys, and each is the hash of the stored text. *)
Record specs_addressed (t : tables) : Prop := {
  sa_keys : List.NoDup (map sp_digest (task_specs t));
  sa_hash : forall r, In r (task_specs t) -> sp_digest r = sha256 (sp_body r) }.

Definition keeps_specs (t t' : tables) : Prop := specs_addressed t -> specs_addressed t'.

#[global] Instance keeps_specs_preorder : PreOrder keeps_specs.
Proof. split; [by intros ? ?|]. intros a b c H1 H2 Ha. auto. Qed.

Lemma keeps_specs_same t t' : task_specs t' = task_specs t -> keeps_specs t t'.
Proof. intros He [Hk Hh]. constructor; rewrite He; assumption. Qed.

Lemma nodup_map_filter {A B} (f : A -> B) (p : A -> bool) l :
  List.NoDup (map f l) -> List.NoDup (map f (List.filter p l)).
Proof.
  induction l as [|x l IH]; simpl; [done|]. intros Hk. apply List.NoDup_cons_iff in Hk as [Hn Hk].
  destruct (p x); simpl; [|auto]. constructor; [|auto]. intros Hin. apply Hn.
  apply in_map_iff in Hin as (y & <- & Hy). apply filter_In in Hy as [Hy _]. by apply in_map.
Qed.

#[global] Instance keeps_specs_benign : Benign keeps_specs.
Proof.
  constructor; try exact _; intros; try (by apply keeps_specs_same); intros [Hk Hh]; constructor; simpl.
  - unfold insert_or_ignore. destruct (existsb _ (task_specs t)) eqn:E; [done|].
    rewrite map_app. apply List.NoDup_app; [done|by repeat constructor; intros []|].
    intros d Hin [<-|[]]. apply in_map_iff in Hin as (r & Hr & Hin). simpl in Hr.
    assert (existsb (fun r0 => String.eqb (sp_digest r0) (sha256 body)) (task_specs t) = true); [|congruence].
    apply existsb_exists. exists r. split; [done|]. by apply String.eqb_eq.
  - intros r. unfold insert_or_ignore. destruct (existsb _ (task_specs t)); [apply Hh|].
    intros Hr. apply in_app_or in Hr as [Hr|[<-|[]]]; [by apply Hh|done].
  - by apply nodup_map_filter.
  - intros r Hr. apply filter_In in Hr as [Hr _]. by apply Hh.
Qed.

#[global] Instance keeps_specs_checkpoints : CheckpointWrites keeps_specs.
Proof. split; intros; by apply keeps_specs_same. Qed.

#[global] Instance keeps_specs_tasks : TaskUpdates keeps_specs (fun _ _ => True).
Proof. intros t p f _. by apply keeps_specs_same. Qed.

#[global] Instance keeps_specs_commits `{World} : Commits keeps_specs.
Proof.
  intros task spec ex lease epoch st. unfold commit_claim, reserve. benign_walk.
  - apply (update_tasks_ok keeps_specs (fun _ _ => True)). done.
  - apply steps_modify. intros t. by apply keeps_specs_same.
Qed.

#[global] Instance keeps_specs_admits `{World} : Admits keeps_specs.
Proof. intros row _. unfold insert_task. steps_walk. apply steps_modify. intros t. by apply keeps_specs_same. Qed.

Section Specs.
Context `{World}.


(** The text of the spec a digest stands for is kept by a filter that keeps it. *)
Lemma find_filter (p : spec_row -> bool) d l r :
  find (fun x => String.eqb (sp_digest x) d) l = Some r -> (forall x, sp_digest x = d -> p x = true) ->
  find (fun x => String.eqb (sp_digest x) d) (List.filter p l) = Some r.
Proof.
  intros Hf Hp. induction l as [|x l IH]; simpl in *; [done|].
  destruct (String.eqb (sp_digest x) d) eqn:E.
  - apply String.eqb_eq in E as E'. rewrite (Hp x E'). simpl. by rewrite E.
  - destruct (p x); simpl; [rewrite E|]; auto.
Qed.

Lemma referenced_task x t r :
  In x (tasks t) -> t_spec_digest x = Some (sp_digest r) -> referenced_spec t r = true.
Proof.
  intros Hx Hd. unfold referenced_spec. apply orb_true_iff. left. apply existsb_exists. exists x.
  split; [done|]. by apply bool_decide_eq_true.
Qed.

Lemma referenced_run x t r :
  In x (runs t) -> r_spec_digest x = Some (sp_digest r) -> referenced_spec t r = true.
Proof.
  intros Hx Hd. unfold referenced_spec. apply orb_true_iff. right. apply existsb_exists. exists x.
  split; [done|]. by apply bool_decide_eq_true.
Qed.

(** The tables after a retirement, given its two cutoffs. *)
Definition retired (cutoff replay_cutoff : stamp) (t : tables) : tables :=
  let t1 := t {{ tasks := update_where (retirable_task cutoff replay_cutoff t) retire_task_row (tasks t) }} in
  let t2 := t1 {{ runs := update_where (retirable_run cutoff t1) (fun r => r {{ r_spec_digest := None }}) (runs t1) }} in
  t2 {{ task_specs := List.filter (referenced_spec t2) (task_specs t2) }}.

Lemma retire_terminal_specs_tables days s v s' :
  retire_terminal_specs days s = (Ok v, s') -> exists cutoff replay_cutoff, tb s' = retired cutoff replay_cutoff (tb s).
Proof.
  unfold retire_terminal_specs. set (get_days := match days with Some d => mret d | None => configured_spec_retention_days end).
  assert (steps eq get_days) as Hc by (unfold get_days; destruct days; unfold configured_spec_retention_days; steps_walk).
  intros Hs. unfold mbind, M_bind in Hs. specialize (Hc s). destruct (get_days s) as [[n|] s1]; [|done]. simpl in Hc.
  unfold guard_raise, lift in Hs. destruct (n <? 2); [done|]. simpl in Hs. injection Hs as _ <-. simpl.
  rewrite Hc. by eexists _, _.
Qed.

End Specs.

#[local] Existing Instance demo_world.


