(* ===== verification/Lifecycle.v ===== *)
(** * The life cycle of managed outputs

    The state machine behind [update_managed_output_lifecycle]: which states
    an operation connects, what protects an output from expiry and reclaim,
    and that a caller with an outdated version changes nothing. *)

From Stdlib Require Import ZArith String Ascii List Bool Lia.
From stdpp Require Import base list strings.
From S2P Require Import Prelude Json Errors Facts Sha256 Store Idempotency Ledger Bindings.
From S2P Require Import Executors Continuations Snapshots Delegation Claim Outputs Settle Runs.
From S2P Require Import Admission Demo Evolution Leases.

Open Scope Z_scope.

(** The states an operation connects. *)
Inductive output_moves : string -> OutputState -> OutputState -> Prop :=
| moves_lease st : st <> Expired -> st <> Reclaimed -> output_moves "lease" st st
| moves_release st : output_moves "release" st st
| moves_pin st : st <> Expired -> st <> Reclaimed -> output_moves "pin" st st
| moves_unpin st : output_moves "unpin" st st
| moves_expire : output_moves "expire" Temporary Expired
| moves_reclaim : output_moves "reclaim" Expired Reclaimed
| moves_promote st : st = Available \/ st = Temporary -> output_moves "promote" st Promoted.

(** Nobody pinned the output and no lease on it runs at the time. *)
Definition unprotected (l : output_row) (ts : stamp) : Prop :=
  stamp_truthy (l_pinned_at l) = false /\ active_lease l ts = false.

(** What an operation may make of an output. *)
Record output_step (op : string) (l l' : output_row) : Prop := {
  os_id : l_association_id l' = l_association_id l;
  os_created : l_created_at l' = l_created_at l;
  os_version : l_version l' = l_version l + 1;
  os_moves : output_moves op (l_state l) (l_state l');
  os_protected : op = "expire" \/ op = "reclaim" -> unprotected l (l_updated_at l');
  os_pinned : op = "pin" -> l_pinned_at l' <> None;
  os_pin_kept : op <> "pin" -> op <> "unpin" -> l_pinned_at l' = l_pinned_at l;
  os_leased : op = "lease" -> exists id, l_lease_id l' = Some id /\ nonempty id = true;
  os_free : op = "release" \/ op = "reclaim" \/ op = "promote" -> l_lease_id l' = None }.

(** One row satisfies the condition: the update changes that row only. *)
Lemma update_single {A} (p : A -> bool) (f : A -> A) (l : list A) x :
  rowcount p l = 1%nat -> In x l -> p x = true ->
  exists before after, l = before ++ x :: after /\ update_where p f l = before ++ f x :: after.
Proof.
  unfold rowcount, update_where. induction l as [|y l IH]; simpl; [done|]. intros Hc Hx Hp.
  destruct (p y) eqn:E.
  - simpl in Hc. assert (List.filter p l = []) as Hnone by (destruct (List.filter p l); simpl in Hc; [done|lia]).
    assert (forall z, In z l -> p z = false) as Hall.
    { intros z Hz. destruct (p z) eqn:Ez; [|done]. assert (In z (List.filter p l)) as Hin by (by apply filter_In).
      by rewrite Hnone in Hin. }
    destruct Hx as [->|Hx]; [|by rewrite Hall in Hp].
    exists [], l. split; [done|]. simpl. f_equal. rewrite <- (map_id l) at 2. apply map_ext_in.
    intros z Hz. by rewrite (Hall z Hz).
  - destruct Hx as [->|Hx]; [congruence|]. destruct (IH Hc Hx Hp) as (b & a & -> & He).
    exists (y :: b), a. split; [done|]. simpl. by rewrite He.
Qed.

Section Lifecycle.
Context `{World}.

Lemma lease_id_post (id : option string) P :
  post P (match id with
          | Some i => if nonempty i then mret i else n ← new_id; mret ("managed-lease-" +:+ n)
          | None => n ← new_id; mret ("managed-lease-" +:+ n)
          end) (fun i t => nonempty i = true /\ P t).
Proof.
  assert (post P (n ← new_id; mret ("managed-lease-" +:+ n)) (fun i t => nonempty i = true /\ P t)) as Hnew.
  { eapply post_bind; [apply (post_steps eq); [steps_walk|by intros t t' ->]|]. intros n. by apply post_ret. }
  destruct id as [i|]; [|done]. destruct (nonempty i) eqn:E; [|done]. by apply post_ret.
Qed.

(** Finish an operation: its change is a legal step. *)
Ltac legal :=
  apply post_ret; intros t Ht; split; [exact Ht|];
  constructor; simpl; try done;
    solve [ intros [?|?]; discriminate | intros; by split | intros [?|[?|?]]; discriminate
          | by constructor | match goal with E : l_state _ = _ |- _ => rewrite E end; constructor; auto | by eexists ].

Lemma output_transition_step op a l lid own secs ts L :
  str_in op lifecycle_operations = true ->
  post (fun t => managed_output_lifecycle t = L) (output_transition op a l lid own secs ts)
    (fun c t => managed_output_lifecycle t = L /\ output_step op l (apply_change c ts l)).
Proof.
  intros Hop. unfold output_transition. cbv zeta.
  destruct (String.eqb op "lease") eqn:E1.
  { apply String.eqb_eq in E1 as ->. guards. destruct secs; try apply post_raise. guards.
    eapply post_bind; [apply lease_id_post|]. intros i. apply post_pure. intros Hi.
    eapply post_bind; [apply (post_steps eq); [steps_walk|by intros t t' ->]|]. intros expires. legal. }
  destruct (String.eqb op "release") eqn:E2; [apply String.eqb_eq in E2 as ->; guards; legal|].
  destruct (String.eqb op "pin") eqn:E3.
  { apply String.eqb_eq in E3 as ->. guards. apply post_ret. intros t Ht. split; [exact Ht|].
    constructor; simpl; try done; [by constructor|by intros [?|?]|intros _|by intros [?|[?|?]]].
    destruct (l_pinned_at l) as [x|]; [by destruct (stamp_truthy (Some x))|done]. }
  destruct (String.eqb op "unpin") eqn:E4; [apply String.eqb_eq in E4 as ->; guards; legal|].
  destruct (String.eqb op "expire") eqn:E5; [apply String.eqb_eq in E5 as ->; guards; legal|].
  destruct (String.eqb op "reclaim") eqn:E6; [apply String.eqb_eq in E6 as ->; guards; legal|].
  destruct (String.eqb op "promote") eqn:E7.
  - apply String.eqb_eq in E7 as ->. guards. destruct (mo_project_id a) as [project|]; [|apply post_raise].
    eapply (post_bind _ _ _ (fun _ t => managed_output_lifecycle t = L)); [by apply post_modify|]. intros ?.
    match goal with E : _ || _ = true |- _ => apply orb_true_iff in E as [E|E]; apply bool_decide_eq_true in E end; legal.
  - exfalso. apply str_in_spec in Hop. apply String.eqb_neq in E1, E2, E3, E4, E5, E6, E7. simpl in Hop.
    intuition congruence.
Qed.

(** C19: managed outputs follow their life cycle.  When an operation returns,
    the caller named the current version, one row of the table has changed, its
    version is one higher, its state moved along an edge of the operation, an
    output that expired or was reclaimed was neither pinned nor under a running
    lease, and all other rows are the same. *)
Theorem output_lifecycle_step id op version lid own secs s value s' :
  update_managed_output_lifecycle id op version lid own secs s = (Ok value, s') ->
  exists a l run l' before after,
    output_by_id id (tb s) = Some (a, l, run) /\ epoch_number version = Some (l_version l) /\
    managed_output_lifecycle (tb s) = before ++ l :: after /\
    managed_output_lifecycle (tb s') = before ++ l' :: after /\ output_step op l l'.
Proof.
  set (L := managed_output_lifecycle (tb s)). intros Hs.
  assert (post (fun t => t = tb s) (update_managed_output_lifecycle id op version lid own secs)
    (fun _ t => exists a l run l' before after, output_by_id id (tb s) = Some (a, l, run) /\
       epoch_number version = Some (l_version l) /\ L = before ++ l :: after /\
       managed_output_lifecycle t = before ++ l' :: after /\ output_step op l l')) as Hpost.
  2:{ destruct (Hpost s eq_refl) as [_ Hq]. by rewrite Hs in Hq. }
  unfold update_managed_output_lifecycle. eapply post_bind; [apply post_gets|].
  intros [[[a l] run]|]; [|apply post_raise].
  destruct (epoch_number version) as [expected|]; [|apply post_raise].
  apply (post_conseq _ (fun t => output_by_id id (tb s) = Some (a, l, run) /\ managed_output_lifecycle t = L) _
    (fun _ t => exists a l run l' before after, output_by_id id (tb s) = Some (a, l, run) /\
       Some expected = Some (l_version l) /\ L = before ++ l :: after /\
       managed_output_lifecycle t = before ++ l' :: after /\ output_step op l l'));
    [|intros t [Hrow ->]; by split|done].
  apply post_pure. intros Hrow. guards. subst expected.
  eapply post_bind; [apply (post_steps eq); [steps_walk|by intros t t' ->]|]. intros ts.
  eapply post_bind; [by apply output_transition_step|]. intros c.
  eapply post_bind; [apply post_gets|]. intros changed.
  eapply (post_bind _ _ _ (fun _ t => changed = 1%nat -> exists a l0 run l' before after,
    output_by_id id (tb s) = Some (a, l0, run) /\ Some (l_version l) = Some (l_version l0) /\
    L = before ++ l0 :: after /\ managed_output_lifecycle t = before ++ l' :: after /\ output_step op l0 l')).
  - apply post_modify. intros t (-> & Ht & Hstep) Hone. rewrite Ht in Hone. simpl. rewrite Ht.
    assert (In l L /\ l_association_id l = id) as [Hin Hid].
    { unfold output_by_id, joined_output in Hrow. destruct (find _ (managed_output_associations _)) as [x|] eqn:Ex; [|done].
      destruct (find _ (managed_output_lifecycle _)) as [y|] eqn:Ey; [|done]. destruct (task_by_id _ _); [|done].
      injection Hrow as -> -> _. apply find_some in Ex as [_ Ex]. apply find_some in Ey as [Hy Ey]. bool_hyps.
      split; [done|congruence]. }
    destruct (update_single _ (apply_change c ts) L l Hone Hin) as (before & after & HL & Hu).
    { rewrite Hid, String.eqb_refl. apply Z.eqb_refl. }
    exact (ex_intro _ a (ex_intro _ l (ex_intro _ run (ex_intro _ _ (ex_intro _ before (ex_intro _ after
      (conj Hrow (conj eq_refl (conj HL (conj Hu Hstep)))))))))).
  - intros ?. guards. eapply post_conseq; [apply (post_steps eq); [unfold get_managed_output; steps_walk|by intros t t' ->]| |].
    + intros t Ht. apply Ht. by apply Nat.eqb_eq.
    + done.
Qed.
End Lifecycle.

(** ** Instance *)

#[local] Existing Instance demo_world.

Definition demo_output : output_row :=
  Output "out-1" Temporary 3 None None None None None (At 1690000000000) (At 1690000000000).

(** The settled sample realm with one temporary output. *)
Definition demo_with_output : state :=
  State ((tb demo_settled) {{
    managed_output_associations :=
      [Association "out-1" demo_task_1 demo_attempt (Some "project-1") JNull JNull JNull JNull "d" None 7 JNull JNull 0
         (JStr "video") (JObj []) (JObj []) (JStr "temporary") None None (At 1690000000000)];
    managed_output_lifecycle := [demo_output] }}) (step demo_settled) (last_prune demo_settled) JNull.

(** C19: a temporary output expires. *)
Lemma output_lifecycle_step_witness :
  let s' := (update_managed_output_lifecycle "out-1" "expire" (JInt 3) None None JNull demo_with_output).2 in
  exists l', managed_output_lifecycle (tb s') = [l'] /\ l_version l' = 4.
Proof.
  intros s'.
  destruct (update_managed_output_lifecycle "out-1" "expire" (JInt 3) None None JNull demo_with_output)
    as [[value|] s1] eqn:E.
  - subst s'. destruct (output_lifecycle_step "out-1" "expire" (JInt 3) None None JNull demo_with_output value s1 E)
      as (a & l & run & l' & before & after & Hrow & _ & Hl & Hl' & Hstep).
    exists l'. assert (before = [] /\ l = demo_output /\ after = []) as (-> & -> & ->).
    { destruct before as [|x [|y before]]; simpl in Hl; [by injection Hl as -> ->|discriminate Hl|discriminate Hl]. }
    split; [exact Hl'|]. exact (os_version _ _ _ Hstep).
  - exfalso. assert (is_ok (update_managed_output_lifecycle "out-1" "expire" (JInt 3) None None JNull demo_with_output).1
      = true) as Hok by (vm_compute; reflexivity). by rewrite E in Hok.
Defined.
