(* ===== verification/GenerationFacts.v ===== *)
(** * What settlement effects do

    The typed effects stay within every benign relation, so that the
    properties of all operations hold with the store's own callbacks; an
    appended variant that is promoted is the only primary one; a publication
    plan covers what was declared. *)

From Stdlib Require Import ZArith String Ascii List Bool Lia.
From stdpp Require Import base list strings.
From S2P Require Import Prelude Json Errors Facts Sha256 Store Idempotency Ledger Bindings.
From S2P Require Import Executors Continuations Snapshots Delegation Claim Outputs Settle Runs.
From S2P Require Import Admission Effects Generations Demo Evolution Leases Lifecycle.

Open Scope Z_scope.

(** ** The frame of the effects *)

Section EffectReaders.
Context `{World} (I : tables -> tables -> Prop) `{!PreOrder I}.

Lemma project_of_steps p : steps I (project_of p).
Proof. unfold project_of. steps_walk. Qed.

Lemma output_key_steps o : steps I (generation_publish_output_key o).
Proof. unfold generation_publish_output_key, py_str. steps_walk. Qed.

Lemma primary_variant_steps g : steps I (generation_primary_variant g).
Proof. unfold generation_primary_variant. steps_walk. Qed.

Lemma variant_object_steps v : steps I (variant_object v).
Proof. unfold variant_object. steps_walk. Qed.

Lemma bound_generation_steps t p e a b c : steps I (bound_generation t p e a b c).
Proof. unfold bound_generation. steps_walk. Qed.

Lemma target_project_steps t : steps I (target_project t).
Proof. unfold target_project, py_str. steps_walk. Qed.
End EffectReaders.

#[export] Hint Resolve project_of_steps output_key_steps primary_variant_steps variant_object_steps
  bound_generation_steps target_project_steps : steps.

Section EffectValidation.
Context `{World} (I : tables -> tables -> Prop) `{!PreOrder I}.

Lemma validate_publish_steps e p r : steps I (validate_generation_publish e p r).
Proof.
  unfold validate_generation_publish, publish_project, match_output, plan_digests, output_digest.
  steps_walk.
Qed.

Lemma validate_create_steps e p r i : steps I (validate_generation_create e p r i).
Proof. unfold validate_generation_create. steps_walk. Qed.

Lemma validate_append_steps e p r i : steps I (validate_generation_append e p r i).
Proof. unfold validate_generation_append, check_append_source. steps_walk. Qed.

Lemma validate_attach_steps e p r i : steps I (validate_generation_attach e p r i).
Proof. unfold validate_generation_attach. steps_walk. Qed.

Lemma check_target_steps e : steps I (check_effect_target e).
Proof. unfold check_effect_target. steps_walk. Qed.
End EffectValidation.

#[export] Hint Resolve validate_publish_steps validate_create_steps validate_append_steps
  validate_attach_steps check_target_steps : steps.

Section EffectReads.
Context `{World} (I : tables -> tables -> Prop) `{!PreOrder I}.

Lemma validate_effect_steps e p r i : steps I (validate_settlement_effect e p r i).
Proof. unfold validate_settlement_effect, validate_project_update. steps_walk. Qed.

End EffectReads.

#[export] Hint Resolve validate_effect_steps : steps.

Section EffectFrame.
Context `{World} (I : tables -> tables -> Prop) `{!Benign I}.

Lemma on_integrity_steps {A} (m h : M A) : steps I m -> steps I h -> steps I (on_integrity m h).
Proof.
  intros Hm Hh s. unfold on_integrity. specialize (Hm s). destruct (m s) as [[a|e] s'] eqn:E; simpl in *; [done|].
  destruct (bool_decide _); [|done]. etrans; [exact Hm|]. apply Hh.
Qed.

Lemma insert_variant_steps v : steps I (insert_variant v).
Proof. unfold insert_variant. benign_walk. Qed.

Lemma insert_generation_steps g : steps I (insert_generation g).
Proof. unfold insert_generation. benign_walk. Qed.

Lemma update_generation_steps i p v m t e : steps I (update_generation i p v m t e).
Proof. unfold update_generation. benign_walk. Qed.

Lemma thumbnail_columns_steps d : steps I (variant_thumbnail_columns d).
Proof. unfold variant_thumbnail_columns. steps_walk. Qed.

Lemma text_digest_steps d : steps I (text_digest d).
Proof. unfold text_digest. steps_walk. Qed.
#[local] Hint Resolve insert_variant_steps insert_generation_steps update_generation_steps
  thumbnail_columns_steps text_digest_steps : steps.

Lemma apply_publish_steps e p r t a ts : steps I (apply_generation_publish e p r t a ts).
Proof.
  unfold apply_generation_publish, publish_group, publish_variant, thumbnail_override, runtime_provenance.
  benign_walk.
Qed.

Lemma apply_create_steps e p r i t ts : steps I (apply_generation_create e p r i t ts).
Proof. unfold apply_generation_create. benign_walk. Qed.

Lemma apply_attach_steps e p r i ts : steps I (apply_generation_attach e p r i ts).
Proof. unfold apply_generation_attach. benign_walk. Qed.

Lemma apply_append_steps e p r i t ts : steps I (apply_generation_append e p r i t ts).
Proof.
  unfold apply_generation_append, appended_metadata, clear_primaries. benign_walk.
  all: apply on_integrity_steps; [benign_walk|steps_walk].
Qed.
#[local] Hint Resolve apply_publish_steps apply_create_steps apply_attach_steps apply_append_steps : steps.

Lemma apply_effect_steps e p r t i ts a : steps I (apply_settlement_effect e p r t i ts a).
Proof. unfold apply_settlement_effect, apply_project_update, text_column. benign_walk. Qed.

(** The callbacks of the store stay within every benign relation. *)
Lemma store_settlement_respects publish :
  steps I (run_publish publish) -> settlement_respects I (store_settlement publish).
Proof. intros Hp. constructor; intros; [exact Hp|apply validate_effect_steps, _|apply apply_effect_steps]. Qed.

Lemma store_admission_respects freeze :
  (forall p s, steps I (freeze p s)) -> admission_respects I (store_admission freeze).
Proof. intros Hf. constructor; intros; [apply Hf|apply validate_effect_steps, _]. Qed.
End EffectFrame.

(** ** Promotion *)

(** The explicit primary variants of a generation. *)
Definition primaries (generation_id : string) (t : tables) : list variant_row :=
  List.filter (fun v => String.eqb (v_generation_id v) generation_id && marked_primary v) (generation_variants t).

Lemma find_filter_head {A} (p : A -> bool) l : find p l = hd_error (List.filter p l).
Proof. induction l as [|x l IH]; simpl; [done|]. by destruct (p x). Qed.

Lemma filter_perm_single {A} (p : A -> bool) l l' x :
  Permutation l' l -> List.filter p l = [x] -> List.filter p l' = [x].
Proof.
  intros Hp Hl. assert (Permutation (List.filter p l') (List.filter p l)) as Hf.
  { clear Hl. induction Hp; simpl; [done|..].
    - destruct (p x0); [by constructor|done].
    - destruct (p x0), (p y); try done. constructor.
    - by etrans. }
  rewrite Hl in Hf. symmetry in Hf. by apply Permutation_length_1_inv in Hf.
Qed.

Section Promotion.
Context `{World}.

(** The only marked variant is the one reads return. *)
Lemma single_primary id v s :
  primaries id (tb s) = [v] -> (generation_primary_variant id s).1 = Ok v.
Proof.
  intros Hp.
  assert (List.filter marked_primary (variants_of id (tb s)) = [v]) as Hm.
  { eapply filter_perm_single; [apply sort_perm|]. rewrite <- Hp. unfold primaries.
    induction (generation_variants (tb s)) as [|x l IH]; simpl; [done|].
    destruct (String.eqb (v_generation_id x) id); simpl; [|done]. by destruct (marked_primary x); simpl; rewrite IH. }
  unfold generation_primary_variant, mbind, M_bind, gets. simpl.
  destruct (variants_of id (tb s)) as [|first rest] eqn:E; [done|].
  unfold guard_raise_with, lift. simpl. fold (List.filter marked_primary (first :: rest)).
  change (if marked_primary first then first :: List.filter marked_primary rest else List.filter marked_primary rest)
    with (List.filter marked_primary (first :: rest)). rewrite Hm. simpl.
  change (if marked_primary first then Some first else find marked_primary rest) with (find marked_primary (first :: rest)).
  rewrite find_filter_head, Hm. done.
Qed.

Lemma bound_generation_post target p expected a b c P :
  post P (bound_generation target p expected a b c)
    (fun g t => generation_by_id target t = Some g /\ g_project_id g = p /\ g_version g = expected /\ P t).
Proof.
  unfold bound_generation. eapply post_bind; [apply post_gets|]. intros [g|]; [|intros u _; by split].
  guards. apply post_ret. intros t [Hg Ht]. auto.
Qed.

(** What a validated append knows of its target. *)
Definition append_bound (effect : json) (p : string) (t : tables) : Prop :=
  exists g, generation_by_id (text_of (jget effect "target_id")) t = Some g /\ g_project_id g = p /\
            jget effect "expected_version" = JInt (g_version g).

Lemma validate_append_post effect p result inputs t0 :
  post (fun t => t = t0) (validate_generation_append effect (Some p) result inputs)
    (fun _ t => t = t0 /\ append_bound effect p t0).
Proof.
  unfold validate_generation_append. eapply post_bind; [apply post_lift|]. intros ?. apply post_pure. intros Hd.
  assert (exists e, jget effect "expected_version" = JInt e) as [e He].
  { unfold check_append_declaration in Hd. res_inv. destruct (jget effect "expected_version"); try discriminate. by eexists. }
  guards. cbv zeta. rewrite He. cbn [as_int default].
  eapply post_bind; [apply bound_generation_post|]. intros g.
  apply (post_conseq _ (fun t => append_bound effect p t0 /\ t = t0) _ (fun _ t => append_bound effect p t0 /\ t = t0)).
  - apply post_read. unfold check_append_source. steps_walk.
  - intros t (Hg & Hp & Hv & ->). split; [|done]. exists g. by rewrite He, Hv.
  - by intros ? t [? ?].
Qed.

Lemma update_generation_post id p g m ts e t0 :
  post (fun t => t = t0 /\ generation_by_id id t0 = Some g /\ g_project_id g = p)
    (update_generation id p (g_version g) m ts e)
    (fun _ t => generation_variants t = generation_variants t0 /\
                exists g', generation_by_id id t = Some g' /\ g_version g' = g_version g + 1).
Proof.
  unfold update_generation. eapply post_bind; [apply post_gets|]. intros changed.
  eapply post_bind; [|intros ?; eapply post_conseq; [apply post_guard|intros t Ht; exact Ht|intros ? t [_ Ht]; exact Ht]].
  apply post_modify. intros t (_ & -> & Hg & Hp). split; [done|]. unfold generation_by_id in *. simpl.
  rewrite find_update_where by done. rewrite Hg. eexists. split; [reflexivity|].
  apply find_some in Hg as [_ Hid]. rewrite Hid, Hp, String.eqb_refl, Z.eqb_refl. done.
Qed.

Lemma clear_primary_unmarked v : marked_primary (clear_primary v) = false.
Proof.
  unfold marked_primary. apply bool_decide_eq_false.
  change (v_metadata_json (clear_primary v)) with (jnorm (jset (v_metadata_json v) "is_primary" (JBool false))).
  rewrite jget_jnorm. unfold jset, jget. cbn [jfields]. rewrite alookup_aset_eq. discriminate.
Qed.

Lemma clear_primaries_post id (P : tables -> Prop) :
  (forall t l, P t -> P (t {{ generation_variants := l }})) ->
  post P (clear_primaries id) (fun _ t => primaries id t = [] /\ P t).
Proof.
  intros HP. apply post_modify. intros t Ht. split; [|by apply HP]. unfold primaries. simpl.
  induction (generation_variants t) as [|v l IH]; simpl; [done|].
  destruct (String.eqb (v_generation_id v) id && marked_primary v) eqn:E.
  - rewrite clear_primary_unmarked, andb_false_r. exact IH.
  - rewrite E. exact IH.
Qed.

Lemma on_integrity_post {A} (m : M A) c msg d P Q : post P m Q -> post P (on_integrity m (raiseM_with c msg d)) Q.
Proof.
  intros Hm s Hs. destruct (Hm s Hs) as [_ Hq]. split; [done|]. unfold on_integrity.
  destruct (m s) as [[a|e] s']; simpl in *; [done|]. by destruct (bool_decide _).
Qed.

Lemma insert_variant_post v P :
  post P (insert_variant v)
    (fun _ t => exists t1, P t1 /\ t = t1 {{ generation_variants := generation_variants t1 ++ [v] }}).
Proof.
  unfold insert_variant. do 4 (eapply post_bind; [apply post_read; steps_walk|]; intros ?).
  apply post_modify. intros t Ht. by exists t.
Qed.

(** C23: promotion leaves one primary variant.  When an appended variant
    settles with the policy [promote], the target generation belonged to the
    task's project at the declared version and is one version higher, the new
    variant is the only one marked primary, and it is the one later reads
    take as primary. *)
Theorem append_promotes effect p result inputs task_id ts s v s' :
  apply_generation_append effect (Some p) result inputs task_id ts s = (Ok v, s') ->
  jget (jget effect "payload") "primary_policy" = JStr "promote" ->
  let target := text_of (jget effect "target_id") in
  append_bound effect p (tb s) /\
  (exists g', generation_by_id target (tb s') = Some g' /\
              jget effect "expected_version" = JInt (g_version g' - 1)) /\
  exists new, primaries target (tb s') = [new] /\ (generation_primary_variant target s').1 = Ok new /\
              jget v "variant_id" = JStr (v_id new).
Proof.
  intros Hs Hpol target.
  enough (post (fun t => t = tb s) (apply_generation_append effect (Some p) result inputs task_id ts)
    (fun v t => append_bound effect p (tb s) /\
       (exists g', generation_by_id target t = Some g' /\ jget effect "expected_version" = JInt (g_version g' - 1)) /\
       exists new, primaries target t = [new] /\ jget v "variant_id" = JStr (v_id new))) as Hpost.
  { destruct (Hpost s eq_refl) as [_ Hq]. rewrite Hs in Hq. destruct Hq as (Hb & Hg & new & Hp & Hv).
    split; [done|]. split; [done|]. exists new. split; [done|]. split; [by apply single_primary|done]. }
  unfold apply_generation_append. eapply post_bind; [apply post_read; steps_walk|]. intros ?.
  eapply post_bind; [apply validate_append_post|]. intros [plan|]; [|apply post_raise].
  rewrite Hpol. cbv zeta. cbn [is_json_str]. rewrite String.eqb_refl. fold target.
  do 3 (eapply post_bind; [apply post_read; unfold text_digest, appended_metadata; steps_walk|]; intros ?).
  apply (post_conseq _ (fun t => append_bound effect p (tb s) /\ t = tb s) _ (fun v t => append_bound effect p (tb s) /\
       (exists g', generation_by_id target t = Some g' /\ jget effect "expected_version" = JInt (g_version g' - 1)) /\
       exists new, primaries target t = [new] /\ jget v "variant_id" = JStr (v_id new))); [|by intros t [-> ?]|done].
  apply post_pure. intros Hb. pose proof Hb as (g & Hg & Hgp & Hgv). rewrite Hgv. cbn [as_int default].
  eapply post_bind.
  { eapply post_conseq; [apply (update_generation_post target p g _ _ _ (tb s))|by intros t ->|intros ? t Ht; exact Ht]. }
  intros ?. eapply post_bind.
  { eapply post_conseq; [apply (clear_primaries_post target (fun t => exists g', generation_by_id target t = Some g' /\
      g_version g' = g_version g + 1)); by intros t l|intros t [_ Ht]; exact Ht|intros ? t Ht; exact Ht]. }
  intros ?. eapply post_bind; [apply post_read; unfold variant_thumbnail_columns; steps_walk|]. intros [[th ths] rc].
  eapply post_bind; [apply on_integrity_post, insert_variant_post|].
  intros ?. apply post_ret. intros t (t1 & (Hnone & g' & Hg' & Hv') & ->). split; [done|]. split.
  { exists g'. split; [exact Hg'|]. f_equal. lia. }
  eexists. split.
  - unfold primaries in *. simpl. rewrite List.filter_app, Hnone. cbn [app List.filter v_generation_id].
    rewrite String.eqb_refl.
    assert (forall v, jget (v_metadata_json v) "is_primary" = JBool true -> marked_primary v = true) as Hmark
      by (intros v0 Hv0; unfold marked_primary; by apply bool_decide_eq_true).
    rewrite Hmark; reflexivity.
  - reflexivity.
Qed.
End Promotion.

(** ** A generation with one variant *)

Definition sample_digest (c : ascii) : string := string_of_list_ascii (List.repeat c 64).
Definition sample_object_id (c : ascii) : string := "sha256:" +:+ sample_digest c.

Definition gallery : state :=
  let early := At 1690000000000 in
  State (empty_realm {{ projects := [demo_project] }}
           {{ objects := [Object (sample_digest "a") 10 "image/png" None early;
                          Object (sample_digest "b") 12 "image/jpeg" None early] }}
           {{ project_objects := [ProjectObject "project-1" (sample_digest "a") "input" early] }}
           {{ generations := [Generation "gen-1" "project-1" None "image" "ready" (JObj []) 3 early early] }}
           {{ generation_variants := [Variant "variant-1" "gen-1" (Some (sample_digest "a")) "original"
                (JObj [("is_primary", JBool true)]) None None None None early] }}) 0 0 JNull.

Definition sample_append : json :=
  JObj [("effect_type", JStr APPEND); ("target_id", JStr "gen-1"); ("expected_version", JInt 3);
        ("payload", JObj [("source_variant_id", JStr "variant-1"); ("source_object_id", JStr (sample_object_id "a"));
                          ("variant_type", JStr "upscaled"); ("output_name", JStr "image");
                          ("output_ordinal", JInt 0); ("primary_policy", JStr "promote")])].

Definition sample_outputs : json :=
  JObj [("outputs", JArr [JObj [("name", JStr "image"); ("ordinal", JInt 0); ("kind", JStr "object");
                                ("digest", JStr (sample_object_id "b")); ("media_type", JStr "image/jpeg")]])].

Definition sample_promotion : res json * state := Eval vm_compute in
  apply_generation_append sample_append (Some "project-1") sample_outputs
    (JArr [JStr (sample_object_id "a")]) "task-9" (At 1700000000000) gallery.

Definition sample_promotion_value : json := Eval vm_compute in
  match sample_promotion.1 with Ok v => v | Err _ => JNull end.

(** C23: the variant of [gallery] is replaced as the primary one. *)
Lemma append_promotes_witness :
  append_bound sample_append "project-1" (tb gallery) /\
  exists new, primaries "gen-1" (tb sample_promotion.2) = [new] /\
              jget sample_promotion_value "variant_id" = JStr (v_id new).
Proof.
  destruct (append_promotes sample_append "project-1" sample_outputs
              (JArr [JStr (sample_object_id "a")]) "task-9" (At 1700000000000) gallery
              sample_promotion_value sample_promotion.2) as (Hb & _ & new & Hp & _ & Hv).
  - vm_compute. reflexivity.
  - reflexivity.
  - split; [exact Hb|]. exists new. split; [exact Hp|exact Hv].
Defined.
