(* ===== verification/Chain.v ===== *)
(** * The event hash chain

    The events of a run form a hash chain: each row carries the hash of its
    predecessor and the hash of its own content.  [_append_event] is the only
    writer of the table, so every handler extends the log and keeps every chain
    valid; and two valid chains that end in the same hash have the same
    content, or SHA-256 has a collision. *)

From Stdlib Require Import ZArith String Ascii List Bool Lia Sorted.
From stdpp Require Import base list strings.
From S2P Require Import Prelude Json Errors Facts Sha256 Store Idempotency Ledger Bindings.
From S2P Require Import Executors Continuations Delegation Claim Outputs Settle Runs Admission.
From S2P Require Import Evolution.

Open Scope Z_scope.

(** The content an event row commits to, read from the row. *)
Definition row_content (e : event_row) : json :=
  event_content (e_run_id e) (e_task_id e) (e_kind e) (e_payload_json e) (e_previous_hash e) (e_created_at e).

(** The check of one run's chain from a starting hash. *)
Fixpoint verify_chain (previous : string) (l : list event_row) : bool :=
  match l with
  | [] => true
  | e :: rest =>
      String.eqb (e_previous_hash e) previous &&
      String.eqb (e_event_hash e) (sha256 (canonical_json (row_content e))) &&
      verify_chain (e_event_hash e) rest
  end.

Record chain_ok (t : tables) : Prop := {
  chain_valid : forall run, verify_chain EmptyString (run_events run (events t)) = true;
  chain_sorted : StronglySorted (fun a b => e_id a < e_id b) (events t);
  chain_bound : Forall (fun e => e_id e < next_event_id t) (events t) }.

(** [chain_ok] is decidable. *)
Definition chain_okb (t : tables) : bool :=
  forallb (fun e => verify_chain EmptyString (run_events (e_run_id e) (events t)) && (e_id e <? next_event_id t))
    (events t) &&
  forallb (fun p => e_id p.1 <? e_id p.2) (combine (events t) (tail (events t))).

Lemma adjacent_sorted (l : list event_row) :
  forallb (fun p => e_id p.1 <? e_id p.2) (combine l (tail l)) = true ->
  StronglySorted (fun a b => e_id a < e_id b) l.
Proof.
  intros H. apply Sorted_StronglySorted; [intros a b c; lia|].
  induction l as [|a [|b l] IH]; [constructor|by repeat constructor|].
  simpl in H. apply andb_true_iff in H as [Hab H]. constructor; [by apply IH|].
  constructor. by apply Z.ltb_lt.
Qed.

Lemma chain_okb_sound t : chain_okb t = true -> chain_ok t.
Proof.
  intros H. apply andb_true_iff in H as [Hall Hs]. rewrite forallb_forall in Hall. constructor.
  - intros run. destruct (run_events run (events t)) as [|e l] eqn:E; [done|].
    assert (In e (run_events run (events t))) as He by (rewrite E; by left).
    unfold run_events in He. apply filter_In in He as [He Hr]. apply String.eqb_eq in Hr. subst run.
    rewrite <- E. apply Hall in He. by apply andb_true_iff in He as [? _].
  - by apply adjacent_sorted.
  - apply List.Forall_forall. intros e He. apply Hall in He. apply andb_true_iff in He as [_ He]. by apply Z.ltb_lt.
Qed.

(** The log only grows, and stays a valid chain. *)
Definition extends (t t' : tables) : Prop :=
  (exists new, events t' = events t ++ new) /\ (chain_ok t -> chain_ok t').

#[global] Instance extends_preorder : PreOrder extends.
Proof.
  split.
  - intros t. split; [exists []; by rewrite app_nil_r|done].
  - intros a b c [[l1 H1] Hc1] [[l2 H2] Hc2]. split; [|auto].
    exists (l1 ++ l2). by rewrite H2, H1, app_assoc.
Qed.

Lemma verify_chain_app previous l e :
  verify_chain previous (l ++ [e]) =
  verify_chain previous l &&
  (String.eqb (e_previous_hash e) (match last l with Some x => e_event_hash x | None => previous end) &&
   String.eqb (e_event_hash e) (sha256 (canonical_json (row_content e)))).
Proof.
  revert previous. induction l as [|x l IH]; intros previous; simpl.
  - by rewrite andb_true_r.
  - rewrite IH, <- !andb_assoc. do 3 f_equal. destruct l as [|y l]; [done|].
    assert (forall d d' : string, match last (y :: l) with Some z => e_event_hash z | None => d end =
                     match last (y :: l) with Some z => e_event_hash z | None => d' end) as Hd.
    { intros d d'. destruct (last (y :: l)) eqn:E; [done|]. by apply last_None in E. }
    f_equal. f_equal. rewrite (Hd (e_event_hash x) previous). done.
Qed.

(** Hashing the stored payload gives the hash of the payload that was passed. *)
Lemma content_column run task kind payload previous created :
  canonical_json (event_content run task kind (json_column payload) previous created) =
  canonical_json (event_content run task kind payload previous created).
Proof.
  apply canonical_json_inj. unfold event_content, json_column. simpl. by rewrite jnorm_idem.
Qed.

Lemma next_event_valid run task kind payload stamp t :
  verify_chain EmptyString (run_events run (events t)) = true ->
  verify_chain EmptyString (run_events run (events t) ++ [next_event run task kind payload stamp t]) = true.
Proof.
  intros Hv. rewrite verify_chain_app, Hv. simpl.
  unfold row_content, next_event. simpl. rewrite content_column. unfold event_hash_of, last_hash.
  by rewrite !String.eqb_refl.
Qed.

Lemma extends_insert run task kind payload stamp t : extends t (insert_event run task kind payload stamp t).
Proof.
  split; [by eexists|]. intros [Hv Hs Hb]. constructor.
  - intros r. unfold insert_event. simpl. unfold run_events. rewrite List.filter_app. simpl.
    destruct (String.eqb run r) eqn:E.
    + apply String.eqb_eq in E. subst r. by apply next_event_valid.
    + rewrite app_nil_r. apply Hv.
  - clear Hv. simpl. induction Hs as [|e l Hs IH Hf]; simpl; [repeat constructor|].
    inversion Hb; subst. constructor; [auto|]. apply Forall_app. split; [done|]. by repeat constructor.
  - simpl. apply Forall_app. split.
    + eapply List.Forall_impl; [|exact Hb]. simpl. lia.
    + repeat constructor. simpl. lia.
Qed.

#[global] Instance extends_benign : Benign extends.
Proof.
  constructor; try exact _; intros; try (split; [exists []; simpl; by rewrite app_nil_r|]);
    try (intros [Hv Hs Hb]; constructor; assumption).
  apply extends_insert.
Qed.

#[global] Instance extends_checkpoints : CheckpointWrites extends.
Proof. split; intros; (split; [exists []; simpl; by rewrite app_nil_r|]); intros [Hv Hs Hb]; constructor; assumption. Qed.

#[global] Instance extends_tasks : TaskUpdates extends (fun _ _ => True).
Proof.
  intros t p f _. split; [exists []; simpl; by rewrite app_nil_r|].
  intros [Hv Hs Hb]. by constructor.
Qed.

Lemma extends_other t f :
  (events (f t) = events t) -> (next_event_id (f t) = next_event_id t) -> extends t (f t).
Proof.
  intros He Hn. split; [exists []; by rewrite app_nil_r|].
  intros [Hv Hs Hb]. constructor; rewrite ?He, ?Hn; assumption.
Qed.

#[global] Instance extends_commits `{World} : Commits extends.
Proof.
  intros task spec ex lease epoch st. unfold commit_claim, reserve. benign_walk.
  - apply (update_tasks_ok extends (fun _ _ => True)). done.
  - apply steps_modify. intros t. by apply (extends_other t (fun t => t {{ reservations := _ }})).
Qed.

#[global] Instance extends_admits `{World} : Admits extends.
Proof.
  intros row _. unfold insert_task. steps_walk. apply steps_modify. intros t.
  by apply (extends_other t (fun t => t {{ tasks := _ }})).
Qed.

(** ** Tamper evidence *)

Lemma last_hash_chain_nonempty previous l :
  verify_chain previous l = true -> l <> [] -> last_hash l <> EmptyString.
Proof.
  unfold last_hash. destruct (last l) as [e|] eqn:E; [|by apply last_None in E].
  intros Hv _. apply last_Some in E as [l' ->].
  rewrite verify_chain_app in Hv. apply andb_true_iff in Hv as [_ Hv].
  apply andb_true_iff in Hv as [_ Hv]. apply String.eqb_eq in Hv. rewrite Hv. apply sha256_nonempty.
Qed.

Lemma content_inj e e' :
  sha256 (canonical_json (row_content e)) = sha256 (canonical_json (row_content e')) ->
  (jnorm (row_content e) = jnorm (row_content e') /\ e_previous_hash e = e_previous_hash e') \/
  sha256_collision.
Proof.
  intros Hh. apply sha256_inj_or_collision in Hh as [Hh|]; [left|by right].
  apply canonical_json_inj in Hh. split; [done|].
  unfold row_content, event_content in Hh.
  apply (f_equal (fun j => jget j "previous_hash")) in Hh. simpl in Hh. unfold jget in Hh. simpl in Hh.
  by injection Hh.
Qed.

Lemma chains_agree l l' :
  verify_chain EmptyString l = true -> verify_chain EmptyString l' = true ->
  last_hash l = last_hash l' ->
  map (fun e => jnorm (row_content e)) l = map (fun e => jnorm (row_content e)) l' \/ sha256_collision.
Proof.
  revert l'. induction l as [|e l IH] using rev_ind; intros l' Hv Hv' Hl.
  - destruct l' as [|x l']; [by left|]. exfalso.
    by eapply (last_hash_chain_nonempty EmptyString (x :: l')).
  - destruct l' as [|e' l' _] using rev_ind.
    { exfalso. eapply (last_hash_chain_nonempty EmptyString (l ++ [e])); [done|by destruct l|done]. }
    rewrite verify_chain_app in Hv, Hv'. bool_hyps.
    unfold last_hash in Hl. rewrite !last_snoc in Hl.
    match goal with H1 : e_event_hash e = sha256 _, H2 : e_event_hash e' = sha256 _ |- _ => rewrite H1, H2 in Hl end.
    apply content_inj in Hl as [[Hc Hp]|]; [|by right].
    destruct (IH l') as [IHm|]; [done|done| |left|by right].
    + unfold last_hash. etrans; [symmetry|]; [|etrans; [exact Hp|]]; assumption.
    + rewrite !map_app, IHm. cbn [map]. by rewrite Hc.
Qed.
