(* ===== verification/Tasks.v ===== *)
(** * The task state machine

    Every handler moves the rows of [tasks] along [task_evolves]: identity is
    immutable, fences and attempt counts never decrease, and a completed task
    keeps its status, result and fence for ever.  Handlers that overwrite a
    status after an earlier read are followed with the assertion [held], which
    says that the tasks they read as unfinished still are. *)

From Stdlib Require Import ZArith String Ascii List Bool Lia.
From stdpp Require Import base list strings.
From S2P Require Import Prelude Json Errors Facts Sha256 Store Idempotency Ledger Bindings.
From S2P Require Import Executors Continuations Delegation Claim Outputs Settle Runs Admission.
From S2P Require Import Evolution.

Open Scope Z_scope.

(** A table that may have grown, and whose old rows are related pointwise. *)
Definition grows {A} (R : A -> A -> Prop) (l l' : list A) : Prop :=
  exists l1 l2, l' = l1 ++ l2 /\ Forall2 R l l1.

#[global] Instance grows_preorder {A} (R : A -> A -> Prop) `{!PreOrder R} : PreOrder (grows R).
Proof.
  split.
  - intros l. exists l, []. split; [by rewrite app_nil_r|]. by induction l; constructor.
  - intros a b c (l1 & l2 & -> & H1) (m1 & m2 & -> & H2).
    apply Forall2_app_inv_l in H2 as (n1 & n2 & H3 & H4 & ->).
    exists n1, (n2 ++ m2). split; [by rewrite app_assoc|].
    by transitivity l1.
Qed.

Lemma grows_update {A} (R : A -> A -> Prop) (p : A -> bool) f l :
  (forall x, R x x) -> (forall x, In x l -> p x = true -> R x (f x)) -> grows R l (update_where p f l).
Proof.
  intros Hr Hf. exists (update_where p f l), []. split; [by rewrite app_nil_r|].
  induction l as [|x l IH]; simpl; constructor.
  - destruct (p x) eqn:E; [|done]. apply Hf; [by left|done].
  - apply IH. intros y Hy. apply Hf. by right.
Qed.

Record task_evolves (x y : task_row) : Prop := {
  te_id : t_id y = t_id x;
  te_run : t_run_id y = t_run_id x;
  te_capability : t_capability y = t_capability x;
  te_created : t_created_at y = t_created_at x;
  te_fence : t_lease_fence x <= t_lease_fence y;
  te_attempt : t_attempt x <= t_attempt y;
  te_completed : t_status x = Completed ->
    t_status y = Completed /\ t_result_json y = t_result_json x /\ t_lease_fence y = t_lease_fence x }.

#[global] Instance task_evolves_preorder : PreOrder task_evolves.
Proof.
  split.
  - intros x. by constructor.
  - intros x y z [] []. constructor; try congruence; try lia.
    intros Hc. destruct (te_completed0 Hc) as (Hs & ? & ?).
    destruct (te_completed1 Hs) as (? & ? & ?). split; [done|]. split; congruence.
Qed.

Lemma benign_evolves x y : benign_row x y -> task_evolves x y.
Proof. intros []. constructor; try congruence; try lia. intros. repeat split; congruence. Qed.

(** PRIMARY KEY of [tasks] *)
Definition task_keys (t : tables) : Prop := List.NoDup (map t_id (tasks t)).

(** The task of that id, if there is one, has not completed. *)
Definition unfinished (id : string) (t : tables) : Prop :=
  forall x, In x (tasks t) -> t_id x = id -> t_status x <> Completed.

Record evolves (t t' : tables) : Prop := {
  ev_tasks : task_keys t -> task_keys t' /\ grows task_evolves (tasks t) (tasks t') }.

(** [evolves] for the handlers that complete nothing. *)
Record undoes (t t' : tables) : Prop := {
  un_evolves : evolves t t';
  un_unfinished : task_keys t -> forall id, unfinished id t -> unfinished id t' }.

#[global] Instance evolves_preorder : PreOrder evolves.
Proof.
  split.
  - intros t. constructor. intros Hk. split; [done|]. reflexivity.
  - intros a b c [H1] [H2]. constructor. intros Hk. destruct (H1 Hk) as [Hkb Hg].
    destruct (H2 Hkb) as [Hkc Hg']. split; [done|]. by etrans.
Qed.

#[global] Instance undoes_preorder : PreOrder undoes.
Proof.
  split.
  - intros t. constructor; [reflexivity|auto].
  - intros a b c [[H1] Hu1] [[H2] Hu2]. constructor; [by transitivity b|].
    intros Hk id Hid. apply Hu2; [by apply H1|auto].
Qed.

Lemma update_keys (p : task_row -> bool) f l :
  (forall x, In x l -> p x = true -> t_id (f x) = t_id x) ->
  map t_id (update_where p f l) = map t_id l.
Proof.
  intros Hf. unfold update_where. rewrite map_map. apply map_ext_in. intros x Hx.
  destruct (p x) eqn:E; auto.
Qed.

#[global] Instance evolves_tasks : TaskUpdates evolves task_evolves.
Proof.
  intros t p f Hf. constructor. intros Hk. unfold task_keys in *. simpl. split.
  - rewrite update_keys; [done|]. intros x Hx Hp. by apply Hf.
  - apply grows_update; [reflexivity|auto].
Qed.

(** What an update may do to a row without finishing a task. *)
Record undo_row (x y : task_row) : Prop := {
  ur_evolves : task_evolves x y;
  ur_status : t_status y = Completed -> t_status x = Completed }.

#[global] Instance undoes_tasks : TaskUpdates undoes undo_row.
Proof.
  intros t p f Hf. constructor.
  - apply task_updates. intros x Hx Hp. by apply Hf.
  - intros _ id Hu x Hx Hid. simpl in Hx. apply in_update_where in Hx as (y & Hy & ->).
    destruct (p y) eqn:E; [|by apply Hu].
    destruct (Hf y Hy E) as [[] Hs]. intros Hc. eapply (Hu y Hy); [congruence|auto].
Qed.

Lemma evolves_same t t' : tasks t' = tasks t -> evolves t t'.
Proof.
  intros Ht. constructor. unfold task_keys. rewrite Ht. intros Hk. split; [done|]. reflexivity.
Qed.

Lemma undoes_same t t' : tasks t' = tasks t -> undoes t t'.
Proof.
  intros Ht. constructor; [by apply evolves_same|]. intros _ id Hu x Hx. rewrite Ht in Hx. by apply Hu.
Qed.

#[global] Instance evolves_benign : Benign evolves.
Proof.
  constructor; try exact _; intros; try (by apply evolves_same).
  apply task_updates. intros. by apply benign_evolves.
Qed.

#[global] Instance evolves_checkpoints : CheckpointWrites evolves.
Proof. split; intros; by apply evolves_same. Qed.

#[global] Instance undoes_benign : Benign undoes.
Proof.
  constructor; try exact _; intros; try (by apply undoes_same).
  apply task_updates. intros x _ _. split; [by apply benign_evolves|].
  intros Hc. by rewrite (br_status _ _ (H x)) in Hc.
Qed.

#[global] Instance undoes_checkpoints : CheckpointWrites undoes.
Proof. split; intros; by apply undoes_same. Qed.

(** ** Following unfinished tasks through a handler *)

(** The tasks named in [ids] are unfinished, and task ids are keys. *)
Record held (ids : list string) (t : tables) : Prop := {
  held_keys : task_keys t;
  held_unfinished : forall id, In id ids -> unfinished id t }.

Lemma held_undoes ids t t' : undoes t t' -> held ids t -> held ids t'.
Proof.
  intros [[He] Hu] [Hk Hids]. constructor; [by apply He|]. intros id Hin. auto.
Qed.

(** [m] keeps the assertion and stays within [undoes]. *)
Definition holds {A} (ids : list string) (m : M A) : Prop :=
  spec undoes (held ids) m (fun _ => held ids).

Lemma holds_steps {A} ids (m : M A) : steps undoes m -> holds ids m.
Proof.
  intros Hm s Hs. split; [apply Hm|]. destruct (m s).1; [|done]. eapply held_undoes; [apply Hm|done].
Qed.

Lemma holds_bind {A B} ids (m : M A) (k : A -> M B) :
  holds ids m -> (forall a, holds ids (k a)) -> holds ids (m ≫= k).
Proof. intros Hm Hk. eapply spec_bind; [exact _|exact Hm|exact Hk]. Qed.

Lemma holds_transaction {A} ids (m : M A) : holds ids m -> holds ids (transaction m).
Proof. apply spec_transaction. exact _. Qed.

Lemma holds_foldS {A B} ids (f : B -> A -> M B) b l :
  (forall b x, In x l -> holds ids (f b x)) -> holds ids (foldS f b l).
Proof. intros Hf. apply (spec_foldS undoes f (fun _ => held ids)). auto. Qed.

Lemma holds_update ids id f :
  In id ids ->
  (forall x, t_status x <> Completed -> task_evolves x (f x)) -> (forall x, t_status (f x) <> Completed) ->
  holds ids (update_tasks (is_task id) f).
Proof.
  intros Hin He Hs. apply spec_modify. intros t Ht.
  assert (undoes t (t {{ tasks := update_where (is_task id) f (tasks t) }})) as Hu.
  { apply task_updates. intros x Hx Hp. unfold is_task in Hp. apply String.eqb_eq in Hp. split.
    - apply He. by eapply held_unfinished.
    - intros Hc. by destruct (Hs x). }
  split; [done|]. by eapply held_undoes.
Qed.

Lemma holds_to_steps {A} (m : M A) : holds [] m -> steps undoes m.
Proof.
  intros Hm s.
  assert (task_keys (tb s) -> undoes (tb s) (tb (m s).2)) as Hu.
  { intros Hk. apply Hm. constructor; [done|by intros ? []]. }
  constructor; [constructor|]; intros Hk; by apply Hu.
Qed.

Lemma nodup_map_inj {A B} (f : A -> B) l x y :
  List.NoDup (map f l) -> In x l -> In y l -> f x = f y -> x = y.
Proof.
  induction l as [|z l IH]; simpl; [done|]. intros Hk Hx Hy He.
  apply List.NoDup_cons_iff in Hk as [Hn Hk].
  destruct Hx as [Hx|Hx], Hy as [Hy|Hy]; subst; [done| | |auto].
  - exfalso. apply Hn. rewrite He. by apply in_map.
  - exfalso. apply Hn. rewrite <- He. by apply in_map.
Qed.

Lemma task_by_id_some id t x : task_by_id id t = Some x -> In x (tasks t) /\ t_id x = id.
Proof.
  unfold task_by_id. intros E. apply find_some in E as [Hx E]. split; [done|]. by apply String.eqb_eq.
Qed.

(** Branch on a row the handler read. *)
Lemma task_by_id_unfinished id t x :
  task_keys t -> task_by_id id t = Some x -> t_status x <> Completed -> unfinished id t.
Proof.
  intros Hk Hf Hs y Hy Hid. apply task_by_id_some in Hf as [Hx Hxe].
  assert (x = y) as <-; [|done]. eapply (nodup_map_inj t_id); [exact Hk|done..|congruence].
Qed.

(** Walk a handler under [held]; what touches no status is solved by the
    frame, the status updates are left. *)
Ltac holds_walk_with first_step :=
  repeat first
    [ match goal with |- forall _, _ => intro end
    | first_step
    | solve [apply holds_steps; eauto 3 with steps typeclass_instances]
    | solve [auto]
    | apply holds_bind
    | apply holds_transaction
    | match goal with
      | |- holds _ (match ?x with _ => _ end) => destruct x
      | |- holds _ (let '_ := ?x in _) => destruct x
      end
    | solve [apply holds_steps; benign_walk] ].

Ltac holds_walk := holds_walk_with fail.

(** The row updates that take a task away from a lease. *)
Lemma undo_evolves x y :
  t_id y = t_id x -> t_run_id y = t_run_id x -> t_capability y = t_capability x ->
  t_created_at y = t_created_at x -> t_lease_fence y = t_lease_fence x -> t_attempt y = t_attempt x ->
  t_status x <> Completed -> task_evolves x y.
Proof. intros. constructor; try congruence; lia. Qed.

Ltac undo_update :=
  apply holds_update; [auto with datatypes | intros; by apply undo_evolves | intros; done].

Definition undoing (record : recorder) : Prop := records undoes record.

Section Undo.
Context `{World}.

(** From the row read at the head of a handler. *)
Lemma holds_read_task {A} id (k : option task_row -> M A) :
  holds [] (k None) ->
  (forall x, t_id x = id -> t_status x = Completed -> holds [] (k (Some x))) ->
  (forall x, t_id x = id -> t_status x <> Completed -> holds [id] (k (Some x))) ->
  holds [] (row ← gets (task_by_id id); k row).
Proof.
  intros Hn Hc Hu s Hs. unfold mbind, M_bind, gets. simpl.
  destruct (task_by_id id (tb s)) as [x|] eqn:E; [|by apply Hn].
  assert (t_id x = id) as Hid by (by destruct (task_by_id_some _ _ _ E)).
  destruct (decide (t_status x = Completed)) as [Hx|Hx]; [by apply Hc|].
  assert (held [id] (tb s)) as Hh.
  { constructor; [apply Hs|]. intros i [<-|[]]. by eapply task_by_id_unfinished; [apply Hs|..]. }
  destruct (Hu x Hid Hx s Hh) as [H1 H2]. split; [done|]. destruct (k (Some x) s).1; [|done].
  constructor; [apply H2|by intros ? []].
Qed.

Lemma contain_with_undoes cancel id a r :
  (forall c, steps undoes (cancel c)) -> steps undoes (contain_with cancel id a r).
Proof. intros Hc. unfold contain_with, contain_child. benign_walk. Qed.

Lemma reconcile_with_undoes cancel id a :
  (forall c, steps undoes (cancel c)) -> steps undoes (reconcile_with cancel id a).
Proof. intros Hc. pose proof contain_with_undoes. unfold reconcile_with. benign_walk. Qed.

Lemma cancel_task_undoes fuel id record :
  undoing record -> steps undoes (cancel_task fuel id record).
Proof.
  revert id record. induction fuel as [|fuel IH]; intros id record Hr; simpl; [steps_walk|].
  assert (undoing no_record) as Hn by (intros v e s c; unfold no_record; steps_walk).
  assert (forall c, steps undoes (cancel_task fuel c no_record)) as Hc by (intros c; by apply IH).
  assert (forall x, steps undoes (contain_with (fun c => cancel_task fuel c no_record) x None "parent_cancelled"))
    as Hcon by (intros; by apply contain_with_undoes).
  assert (forall x a, steps undoes (reconcile_with (fun c => cancel_task fuel c no_record) x a))
    as Hrec by (intros; by apply reconcile_with_undoes).
  unfold undoing, records in Hr. apply holds_to_steps, holds_read_task; [holds_walk|..]; intros x Hid Hx.
  - rewrite Hx. cbn [status_in existsb]. holds_walk.
  - holds_walk; undo_update.
Qed.

Lemma no_record_undoes : undoing no_record.
Proof. intros v e s c. unfold no_record. steps_walk. Qed.

Lemma contain_undoes id a r : steps undoes (contain_delegated_children id a r).
Proof. apply contain_with_undoes. intros c. apply cancel_task_undoes, no_record_undoes. Qed.

Lemma reconcile_undoes id a : steps undoes (reconcile_runtime_attempt id a).
Proof. apply reconcile_with_undoes. intros c. apply cancel_task_undoes, no_record_undoes. Qed.

#[local] Hint Resolve contain_undoes reconcile_undoes : steps.

Lemma contain_orphaned_undoes : steps undoes contain_orphaned_delegations.
Proof. unfold contain_orphaned_delegations, contain_if_orphaned. benign_walk. Qed.

Lemma reap_row_undoes row : steps undoes (reap_row row).
Proof.
  unfold reap_row. apply holds_to_steps, holds_read_task; [holds_walk|..]; intros x Hid Hx.
  - rewrite Hx. cbn [status_in existsb]. holds_walk.
  - holds_walk; undo_update.
Qed.

#[local] Hint Resolve contain_orphaned_undoes reap_row_undoes : steps.

Lemma reap_expired_leases_undoes : steps undoes reap_expired_leases.
Proof. unfold reap_expired_leases. benign_walk. Qed.

Lemma reap_overdue_leases_undoes : steps undoes reap_overdue_leases.
Proof. pose proof reap_expired_leases_undoes. unfold reap_overdue_leases. benign_walk. Qed.

Lemma recover_task_undoes pe e pb b ts row : steps undoes (recover_task pe e pb b ts row).
Proof.
  unfold recover_task, recover_interrupted. apply holds_to_steps, holds_read_task; [holds_walk|..]; intros x Hid Hx.
  - rewrite Hx. cbn [status_in existsb]. holds_walk.
  - holds_walk; try undo_update.
    + apply holds_update; [by left|intros; by apply undo_evolves|]. intros. by destruct (bool_decide _).
    + apply spec_modify. intros t Ht.
      assert (undoes t (t {{ tasks := update_where (fun y => is_task (t_id row) y && bool_decide (t_status y = Running))
        (mark_recovered ts) (tasks t) }})) as Hu.
      { apply task_updates. intros y Hy Hp. apply andb_true_iff in Hp as [_ Hp].
        apply bool_decide_eq_true in Hp. split; [|done]. apply undo_evolves; try done. by rewrite Hp. }
      split; [done|]. by eapply held_undoes.
Qed.

Lemma begin_runtime_session_undoes b f : steps undoes (begin_runtime_session b f).
Proof.
  pose proof recover_task_undoes. unfold begin_runtime_session, open_session. benign_walk;
    apply steps_modify; intros; by apply undoes_same.
Qed.

(** ** Handlers over the rows of a run *)

Definition unfinished_ids (l : list task_row) : list string :=
  map t_id (List.filter (fun x => negb (bool_decide (t_status x = Completed))) l).

Lemma in_unfinished_ids l x : In x l -> t_status x <> Completed -> In (t_id x) (unfinished_ids l).
Proof.
  intros Hx Hs. unfold unfinished_ids. apply in_map, List.filter_In. split; [done|].
  apply negb_true_iff, bool_decide_eq_false. done.
Qed.

Lemma row_unfinished t x : task_keys t -> In x (tasks t) -> t_status x <> Completed -> unfinished (t_id x) t.
Proof.
  intros Hk Hx Hs y Hy Hid. assert (x = y) as <-; [|done].
  eapply (nodup_map_inj t_id); [exact Hk|done..|congruence].
Qed.

Lemma holds_read_rows {A} (f : tables -> list task_row) (k : list task_row -> M A) :
  (forall t x, In x (f t) -> In x (tasks t)) ->
  (forall l, holds (unfinished_ids l) (k l)) -> holds [] (l ← gets f; k l).
Proof.
  intros Hf Hk s Hs. unfold mbind, M_bind, gets. simpl.
  assert (held (unfinished_ids (f (tb s))) (tb s)) as Hh.
  { constructor; [apply Hs|]. intros id Hid. unfold unfinished_ids in Hid.
    apply in_map_iff in Hid as (x & <- & Hx). apply List.filter_In in Hx as [Hx Hsx].
    apply row_unfinished; [apply Hs|by apply Hf|]. by apply negb_true_iff, bool_decide_eq_false in Hsx. }
  destruct (Hk (f (tb s)) s Hh) as [H1 H2]. split; [done|]. destruct (k (f (tb s)) s).1; [|done].
  constructor; [apply H2|by intros ? []].
Qed.

Lemma run_tasks_in run t x : In x (run_tasks run t) -> In x (tasks t).
Proof. unfold run_tasks. rewrite sort_in. intros Hx. by apply List.filter_In in Hx as [? _]. Qed.

(** Walk up to the selection of the run's tasks, and assert what it shows. *)
Ltac holds_walk_run :=
  holds_walk_with ltac:(idtac; lazymatch goal with
    | |- holds [] (gets (run_tasks _) ≫= _) => apply holds_read_rows; [apply run_tasks_in|]
    end).

Lemma not_terminal_not_completed x : status_in (t_status x) terminal = false -> t_status x <> Completed.
Proof. intros E Hc. by rewrite Hc in E. Qed.

Lemma cancel_run_task_holds ids run ts acc x :
  (t_status x <> Completed -> In (t_id x) ids) -> holds ids (cancel_run_task run ts acc x).
Proof.
  intros Hin. unfold cancel_run_task. destruct acc as [cancelled requested].
  destruct (status_in (t_status x) terminal) eqn:E; [holds_walk|].
  apply not_terminal_not_completed, Hin in E. holds_walk; undo_update.
Qed.

Lemma cancel_run_undoes id k : steps undoes (cancel_run id k).
Proof.
  unfold cancel_run, replay_run_command, record_run_command, run_result. apply holds_to_steps.
  holds_walk_run. apply holds_foldS. intros acc x Hx. apply cancel_run_task_holds. by apply in_unfinished_ids.
Qed.

Lemma retry_run_undoes id s k : steps undoes (retry_run id s k).
Proof.
  unfold retry_run, replay_run_command, record_run_command, run_result, configured_spec_retention_days.
  apply holds_to_steps. holds_walk_run. apply holds_foldS. intros acc x Hx. apply List.filter_In in Hx as [Hx Hs].
  apply andb_true_iff in Hs as [Hs _]. apply bool_decide_eq_true in Hs.
  assert (In (t_id x) (unfinished_ids _)) as Hin by (apply in_unfinished_ids; [exact Hx|by rewrite Hs]).
  unfold retry_task. holds_walk. undo_update.
Qed.

(** ** Handlers behind the lease fence *)

Lemma check_lease_running x l f :
  spec undoes (fun _ => True) (check_lease x l f)
    (fun _ _ => t_status x = Running /\ t_lease_token x = Some l).
Proof.
  unfold check_lease. eapply spec_bind; [exact _|apply spec_lift; exact _|]. intros u.
  assert (steps undoes (let m := (match f with
     | Some f => guard_raise_with (negb (f =? t_lease_fence x)) LeaseError "attempt fence is stale"
         (JObj [("expected", JInt (t_lease_fence x)); ("actual", JInt f)])
     | None => mret tt end);;
     if negb (stamp_truthy (t_lease_expires_at x)) then mret tt else
     us ← utcnow;
     match t_lease_expires_at x with
     | Some deadline =>
         match expired_at deadline us with
         | Some expired => guard_raise expired LeaseError "attempt lease has expired"
         | None => raiseM LeaseError "attempt lease deadline is invalid"
         end
     | None => mret tt
     end in m)) as Hrest by (simpl; benign_walk).
  intros s [Hs _]. split; [apply Hrest|]. apply raise_if_Ok, orb_false_iff in Hs as [H1 H2].
  apply negb_false_iff, bool_decide_eq_true in H1. apply negb_false_iff, bool_decide_eq_true in H2.
  by destruct (_ s).1.
Qed.

Lemma leased_task_held id l f :
  spec undoes (held []) (leased_task id l f)
    (fun x t => (t_id x = id /\ t_status x = Running) /\ held [id] t).
Proof.
  intros s Hs. unfold leased_task, mbind, M_bind, gets. simpl.
  destruct (task_by_id id (tb s)) as [x|] eqn:E; [|split; [reflexivity|done]].
  destruct (check_lease_running x l f s) as [H1 H2]; [done|].
  destruct (check_lease x l f s) as [[u|e] s'] eqn:Ec; simpl in *; [|done]. split; [done|].
  destruct H2 as [Hr _]. assert (t_id x = id) as Hid by (by destruct (task_by_id_some _ _ _ E)).
  split; [done|]. eapply held_undoes; [exact H1|]. constructor; [apply Hs|].
  intros i [<-|[]]. eapply task_by_id_unfinished; [apply Hs|done|]. by rewrite Hr.
Qed.

Lemma holds_leased {A} id l f (k : task_row -> M A) :
  (forall x, t_id x = id -> t_status x = Running -> holds [id] (k x)) ->
  holds [] (x ← leased_task id l f; k x).
Proof.
  intros Hk. eapply spec_bind; [exact _|apply leased_task_held|]. intros x s [[Hid Hr] Hs].
  destruct (Hk x Hid Hr s Hs) as [H1 H2]. split; [done|]. destruct (k x s).1; [|done].
  constructor; [apply H2|by intros ? []].
Qed.

Lemma fail_task_undoes id l f fe a record : undoing record -> steps undoes (fail_task id l f fe a record).
Proof.
  intros Hr. unfold undoing, records in Hr. unfold fail_task. apply holds_to_steps, holds_leased.
  intros x Hid Hx. holds_walk. undo_update.
Qed.

Lemma heartbeat_task_undoes id l f n record : undoing record -> steps undoes (heartbeat_task id l f n record).
Proof. apply heartbeat_task_steps. exact _. Qed.
End Undo.

(** ** Claims and settlements *)

Section ClaimSettle.
Context `{World}.

#[local] Hint Resolve contain_undoes reconcile_undoes reap_expired_leases_undoes : steps.

(** The task row a handler works with is the stored one. *)
Record current (x : task_row) (t : tables) : Prop := {
  cu_keys : task_keys t;
  cu_row : task_by_id (t_id x) t = Some x }.

Lemma claim_update_undoes x ex lease fence deadline epoch ts s t :
  s <> Completed -> t_lease_fence x < fence -> current x t ->
  undoes t (t {{ tasks := update_where (fun y => is_task (t_id x) y && bool_decide (t_status y = s))
                   (claim_row ex lease fence deadline epoch ts) (tasks t) }}).
Proof.
  intros Hs Hf [Hk Hx]. apply task_updates. intros y Hy Hp. apply andb_true_iff in Hp as [Hid Hst].
  apply bool_decide_eq_true in Hst. unfold is_task in Hid. apply String.eqb_eq in Hid.
  destruct (task_by_id_some _ _ _ Hx) as [Hin _].
  assert (x = y) as <- by (by eapply (nodup_map_inj t_id)).
  split; [|done]. constructor; simpl; try done; try lia. intros Hc. congruence.
Qed.

(** [m] reads only, so what is known of the tables stays known. *)
Lemma spec_read {A} (m : M A) (P : tables -> Prop) :
  steps eq m -> spec undoes P m (fun _ => P).
Proof.
  intros Hm s Hs. specialize (Hm s). split; [rewrite <- Hm; reflexivity|].
  destruct (m s).1; [by rewrite <- Hm|done].
Qed.

Lemma commit_claim_undoes x spec ex lease epoch s :
  s <> Completed ->
  Store.spec undoes (current x) (commit_claim x spec ex lease epoch s) (fun _ _ => True).
Proof.
  intros Hs. unfold commit_claim.
  eapply spec_bind; [exact _|apply spec_read; steps_walk|]. intros ts.
  eapply spec_bind; [exact _|apply spec_read; steps_walk|]. intros deadline.
  eapply spec_bind; [exact _|apply spec_read; steps_walk|]. intros changed.
  eapply spec_bind; [exact _| |].
  - apply (spec_modify undoes _ (current x) (fun _ _ => True)). intros t Ht.
    split; [|done]. apply claim_update_undoes; [done|lia|done].
  - intros u. apply spec_steps. unfold reserve. benign_walk.
    apply steps_modify. intros. by apply undoes_same.
Qed.

Lemma current_read id t x : task_keys t -> task_by_id id t = Some x -> current x t.
Proof. intros Hk Hx. constructor; [done|]. by destruct (task_by_id_some _ _ _ Hx) as [_ ->]. Qed.

Lemma claim_row_or_wait_undoes x e l ep (recovery : bool) :
  (recovery = true -> t_status x <> Completed) ->
  Store.spec undoes (current x) (claim_row_or_wait x e l ep recovery) (fun _ _ => True).
Proof.
  intros Hrec. unfold claim_row_or_wait.
  eapply spec_bind; [exact _|apply spec_read; steps_walk|]. intros executor.
  eapply spec_bind; [exact _|apply spec_read; steps_walk|]. intros capability.
  eapply spec_bind; [exact _|apply spec_read; steps_walk|]. intros spec.
  eapply spec_bind; [exact _|apply spec_read; steps_walk|]. intros [run|];
    [|apply spec_steps; benign_walk].
  eapply spec_bind; [exact _|apply spec_read; steps_walk|]. intros refs.
  eapply spec_bind; [exact _|apply spec_read; steps_walk|]. intros reason.
  assert (forall r, Store.spec undoes (current x) (set_waiting_reason (t_id x) r;; get_task (t_id x)) (fun _ _ => True))
    as Hwait by (intros; apply spec_steps; benign_walk).
  destruct reason, executor; try apply Hwait.
  eapply spec_bind; [exact _|apply commit_claim_undoes|intros; apply spec_steps; benign_walk].
  destruct recovery; [by apply Hrec|done].
Qed.

Lemma read_current {A} id (k : option task_row -> M A) (Q : A -> tables -> Prop) :
  Store.spec undoes task_keys (k None) Q ->
  (forall x, t_id x = id -> Store.spec undoes (current x) (k (Some x)) Q) ->
  Store.spec undoes task_keys (row ← gets (task_by_id id); k row) Q.
Proof.
  intros Hn Hs s Hk. unfold mbind, M_bind, gets. simpl.
  destruct (task_by_id id (tb s)) as [x|] eqn:E; [|by apply Hn].
  apply Hs; [by destruct (task_by_id_some _ _ _ E)|by eapply current_read].
Qed.

Lemma keys_undoes {A} (m : M A) : steps undoes m -> Store.spec undoes task_keys m (fun _ => task_keys).
Proof.
  intros Hm s Hk. split; [apply Hm|]. destruct (m s).1; [|done].
  destruct (Hm s) as [[He] _]. by apply He.
Qed.

Lemma current_held x t : current x t -> t_status x <> Completed -> held [t_id x] t.
Proof.
  intros [Hk Hx] Hs. constructor; [done|]. intros i [<-|[]]. by eapply task_by_id_unfinished.
Qed.

(** The row read again, where it was known to be unfinished. *)
Lemma reread_current {A} id ids (k : option task_row -> M A) (Q : A -> tables -> Prop) :
  Store.spec undoes task_keys (k None) Q ->
  (forall x, (In id ids -> t_status x <> Completed) -> Store.spec undoes (current x) (k (Some x)) Q) ->
  Store.spec undoes (held ids) (row ← gets (task_by_id id); k row) Q.
Proof.
  intros Hn Hs s [Hk Hu]. unfold mbind, M_bind, gets. simpl.
  destruct (task_by_id id (tb s)) as [x|] eqn:E; [|by apply Hn].
  apply Hs; [|by eapply current_read]. intros Hin.
  destruct (task_by_id_some _ _ _ E) as [Hx <-]. by apply (Hu (t_id x) Hin).
Qed.

Lemma claim_body_undoes id e l ep rec : steps undoes (claim_body id e l ep rec).
Proof.
  assert (Store.spec undoes task_keys (claim_body id e l ep rec) (fun _ _ => True)) as Hspec.
  { unfold claim_body. eapply spec_bind; [exact _|apply keys_undoes; benign_walk|]. intros ?.
    apply read_current; [apply spec_steps; benign_walk|]. intros x Hid.
    set (recovery := rec && _ && _).
    assert (recovery = true -> t_status x <> Completed) as Hrec.
    { intros Hr Hc. unfold recovery in Hr. apply andb_true_iff in Hr as [_ Hr]. by rewrite Hc in Hr. }
    eapply spec_bind; [exact _|apply spec_read; steps_walk|]. intros ?.
    destruct (_ && negb rec); [apply spec_steps; benign_walk|].
    eapply spec_bind; [exact _|apply spec_read; steps_walk|]. intros deps.
    eapply spec_bind; [exact _|apply spec_read; steps_walk|]. intros admitted.
    destruct (negb (nil_or deps) && negb admitted); [|by apply claim_row_or_wait_undoes].
    eapply (spec_conseq undoes _ (held (if recovery then [id] else []))); [| |intros ? ? Hq; exact Hq].
    2:{ intros t Ht. rewrite <- Hid. destruct recovery; [by apply current_held; auto|].
        constructor; [apply Ht|by intros ? []]. }
    eapply spec_bind; [exact _|apply holds_steps; benign_walk|]. intros ?.
    eapply spec_bind; [exact _|apply holds_steps; benign_walk|]. intros admitted'.
    destruct (negb admitted'); [apply spec_steps; benign_walk|].
    apply reread_current; [apply spec_steps; benign_walk|]. intros y Hy.
    apply claim_row_or_wait_undoes. intros Hr. rewrite Hr in Hy. apply Hy. by left. }
  intros s.
  assert (task_keys (tb s) -> undoes (tb s) (tb (claim_body id e l ep rec s).2)) as Hu
    by (intros Hk; by apply Hspec).
  constructor; [constructor|]; intros Hk; by apply Hu.
Qed.

Lemma claim_task_undoes t e l ep tr rec : steps undoes (claim_task t e l ep tr rec).
Proof. pose proof claim_body_undoes. unfold claim_task. benign_walk. Qed.

Lemma claim_selected_undoes t e ep p : steps undoes (claim_selected t e ep p).
Proof. pose proof claim_task_undoes. unfold claim_selected, fence_attempt, record_attempt. benign_walk. Qed.

(** A settlement finishes the task it holds the lease of, and no other. *)
Lemma commit_settlement_evolves x l a e r ts record :
  records evolves record ->
  forall s, held [t_id x] (tb s) -> evolves (tb s) (tb (commit_settlement x l a e r ts record s).2).
Proof.
  intros Hr s Hh. unfold records in Hr.
  assert (Store.spec evolves (held [t_id x]) (commit_settlement x l a e r ts record) (fun _ _ => True)) as Hspec.
  { unfold commit_settlement. eapply spec_bind; [exact _| |].
    - apply (spec_modify evolves _ (held [t_id x]) (fun _ _ => True)). intros t Ht. split; [|done].
      apply task_updates. intros y Hy Hp. unfold is_task in Hp. apply String.eqb_eq in Hp.
      assert (t_status y <> Completed) as Hn by (eapply held_unfinished; [exact Ht|by left|done|done]).
      constructor; simpl; try done; try lia.
    - intros u. apply spec_steps. benign_walk. }
  by apply Hspec.
Qed.

Lemma undoes_evolves {A} (m : M A) : steps undoes m -> steps evolves m.
Proof. apply steps_weaken. by intros ? ? []. Qed.

Lemma settle_attempt_evolves calls id l r e f a record :
  settlement_respects undoes calls -> records evolves record ->
  steps evolves (settle_attempt calls id l r e f a record).
Proof.
  intros [Hp Hv Ha] Hr s. constructor. intros Hk.
  pose proof (associate_managed_outputs_steps undoes).
  enough (Store.spec evolves (held []) (settle_attempt calls id l r e f a record) (fun _ _ => True)) as Hs.
  { assert (held [] (tb s)) as Hh by (constructor; [done|by intros ? []]).
    by apply (Hs s Hh). }
  unfold settle_attempt, settle_leased.
  eapply spec_bind; [exact _|eapply (spec_weaken undoes evolves); [by intros ? ? []|apply leased_task_held]|].
  intros x. apply spec_pure. intros [Hid Hst].
  do 4 (eapply spec_bind; [exact _|eapply (spec_weaken undoes evolves); [by intros ? ? []|apply holds_steps; benign_walk]|];
        intros ?).
  eapply spec_bind; [exact _|eapply (spec_weaken undoes evolves); [by intros ? ? []|apply holds_steps; benign_walk]|].
  intros ?. apply spec_transaction; [exact _|].
  eapply spec_bind; [exact _|eapply (spec_weaken undoes evolves); [by intros ? ? []|apply holds_steps; benign_walk]|].
  intros ts.
  eapply spec_bind; [exact _|eapply (spec_weaken undoes evolves); [by intros ? ? []|apply holds_steps; benign_walk]|].
  intros ?.
  eapply spec_bind; [exact _|eapply (spec_weaken undoes evolves); [by intros ? ? []|apply holds_steps; unfold settle_effects; benign_walk]|].
  intros applied.
  eapply spec_bind; [exact _|eapply (spec_weaken undoes evolves); [by intros ? ? []|apply holds_steps; benign_walk]|].
  intros ?. rewrite <- Hid. intros s' Hs'. split; [by apply commit_settlement_evolves|by destruct (_ s').1].
Qed.
End ClaimSettle.

(** A new task has a new id and has not completed. *)
#[global] Instance undoes_admits `{World} : Admits undoes.
Proof.
  intros row Hq s. unfold insert_task, mbind, M_bind, gets, unique, foreign_key, guard_raise, lift, modify. simpl.
  destruct (existsb (is_task (t_id row)) (tasks (tb s))) eqn:E; simpl; [reflexivity|].
  destruct (existsb (is_run (t_run_id row)) (runs (tb s))); simpl; [|reflexivity].
  assert (forall x, In x (tasks (tb s)) -> t_id x <> t_id row) as Hnew.
  { intros x Hx He. assert (existsb (is_task (t_id row)) (tasks (tb s)) = true); [|congruence].
    apply existsb_exists. exists x. split; [done|]. by apply String.eqb_eq. }
  constructor; [constructor; intros Hk; split|].
  - unfold task_keys in *. simpl. rewrite map_app. simpl. apply List.NoDup_app; [done|by repeat constructor; intros []|].
    intros k Hin [<-|[]]. apply in_map_iff in Hin as (x & Hx & Hin). by eapply Hnew.
  - simpl. exists (tasks (tb s)), [row]. split; [done|]. by apply Forall_Forall2_diag, Forall_true.
  - intros _ id Hu x Hx Hid. simpl in Hx. apply in_app_or in Hx as [Hx|[<-|[]]]; [by apply Hu|]. by rewrite Hq.
Qed.
