(* ===== verification/Reservations.v ===== *)
(** * Exclusive resources

    A resource key of an executor is held by at most one lease: among the
    reservations that have not been released, an executor and a key determine
    the row.  Claims check and reserve every key of the capability in one
    transaction; every other handler only releases or extends. *)

From Stdlib Require Import ZArith String Ascii List Bool Lia.
From stdpp Require Import base list strings.
From S2P Require Import Prelude Json Errors Facts Sha256 Store Idempotency Ledger Bindings.
From S2P Require Import Executors Continuations Delegation Claim Outputs Settle Runs Admission.
From S2P Require Import Evolution.

Open Scope Z_scope.

Definition reservation_key (r : reservation_row) : string * string := (rv_task_id r, rv_resource_key r).

(** [r] holds [key] of [executor] now. *)
Definition holds_resource (executor key : string) (r : reservation_row) : Prop :=
  active r = true /\ rv_executor_id r = Some executor /\ rv_resource_key r = key.

Record exclusive (t : tables) : Prop := {
  ex_keys : List.NoDup (map reservation_key (reservations t));
  ex_single : forall executor key r r', In r (reservations t) -> In r' (reservations t) ->
    holds_resource executor key r -> holds_resource executor key r' -> r = r' }.

Definition excludes (t t' : tables) : Prop := exclusive t -> exclusive t'.

#[global] Instance excludes_preorder : PreOrder excludes.
Proof. split; [by intros ? ?|]. intros a b c H1 H2 Ha. auto. Qed.

Lemma excludes_same t t' : reservations t' = reservations t -> excludes t t'.
Proof. intros He [Hk Hs]. constructor; rewrite He; [done|]. exact Hs. Qed.

Lemma keeps_reservation_holds x y executor key :
  keeps_reservation x y -> holds_resource executor key y -> holds_resource executor key x.
Proof. intros [] (Ha & He & Hr). repeat split; [auto|congruence..]. Qed.

Lemma excludes_keeps t p f :
  (forall x, keeps_reservation x (f x)) ->
  excludes t (t {{ reservations := update_where p f (reservations t) }}).
Proof.
  intros Hf [Hk Hs].
  assert (forall x, keeps_reservation x (if p x then f x else x)) as Hg.
  { intros x. destruct (p x); [apply Hf|]. by constructor. }
  constructor; simpl.
  - unfold update_where. rewrite map_map. erewrite map_ext; [exact Hk|].
    intros x. unfold reservation_key. destruct (Hg x). by f_equal.
  - intros executor key r r' Hr Hr' Hh Hh'.
    apply in_update_where in Hr as (x & Hx & ->). apply in_update_where in Hr' as (x' & Hx' & ->).
    rewrite (Hs executor key x x'); [done|done|done| |];
      eapply keeps_reservation_holds; [apply Hg|done|apply Hg|done].
Qed.

#[global] Instance excludes_benign : Benign excludes.
Proof.
  constructor; try exact _; intros; try (by apply excludes_same). by apply excludes_keeps.
Qed.

#[global] Instance excludes_checkpoints : CheckpointWrites excludes.
Proof. split; intros; by apply excludes_same. Qed.

#[global] Instance excludes_tasks : TaskUpdates excludes (fun _ _ => True).
Proof. intros t p f _. by apply excludes_same. Qed.

(** ** Claims *)

(** The keys are free for the task: whoever holds one of them is the task. *)
Definition free_for (executor task : string) (keys : list string) (t : tables) : Prop :=
  forall key r, In key keys -> In r (reservations t) -> holds_resource executor key r -> rv_task_id r = task.

Definition replace_reservation (row : reservation_row) (l : list reservation_row) : list reservation_row :=
  upsert (fun r => String.eqb (rv_task_id r) (rv_task_id row) &&
                   String.eqb (rv_resource_key r) (rv_resource_key row)) (fun _ => row) row l.

Lemma same_key_iff r row :
  String.eqb (rv_task_id r) (rv_task_id row) && String.eqb (rv_resource_key r) (rv_resource_key row) = true <->
  reservation_key r = reservation_key row.
Proof.
  rewrite andb_true_iff, !String.eqb_eq. unfold reservation_key. split; [intros [-> ->]; done|by intros [= -> ->]].
Qed.

(** A row of the new table is the reserved row or an old row with another key. *)
Lemma in_replace_reservation row l r :
  In r (replace_reservation row l) -> r = row \/ (In r l /\ reservation_key r <> reservation_key row).
Proof.
  unfold replace_reservation, upsert. destruct (existsb _ l) eqn:E.
  - intros Hr. apply in_update_where in Hr as (x & Hx & ->).
    destruct (_ && _) eqn:Es; [by left|]. right. split; [done|]. intros Hk.
    apply same_key_iff in Hk. congruence.
  - intros Hr. apply in_app_or in Hr as [Hr|[<-|[]]]; [|by left]. right. split; [done|]. intros Hk.
    apply same_key_iff in Hk. assert (existsb (fun r0 => String.eqb (rv_task_id r0) (rv_task_id row) &&
      String.eqb (rv_resource_key r0) (rv_resource_key row)) l = true); [|congruence].
    apply existsb_exists. by exists r.
Qed.

Lemma replace_reservation_keys row l :
  List.NoDup (map reservation_key l) -> List.NoDup (map reservation_key (replace_reservation row l)).
Proof.
  intros Hk. unfold replace_reservation, upsert. destruct (existsb _ l) eqn:E.
  - unfold update_where. rewrite map_map. erewrite map_ext; [exact Hk|]. intros x. simpl.
    destruct (_ && _) eqn:Es; [|done]. symmetry. by apply same_key_iff.
  - rewrite map_app. simpl. apply List.NoDup_app; [done|by repeat constructor; intros []|].
    intros k Hin Hin'. destruct Hin' as [<-|[]].
    apply in_map_iff in Hin as (r & Hr & Hin). apply same_key_iff in Hr.
    assert (existsb (fun r0 => String.eqb (rv_task_id r0) (rv_task_id row) &&
      String.eqb (rv_resource_key r0) (rv_resource_key row)) l = true); [|congruence].
    apply existsb_exists. by exists r.
Qed.

Definition reserved (task key lease : string) (created : stamp) (executor : string) (fence : Z)
    (deadline : stamp) (epoch : Z) : reservation_row :=
  Reservation task key lease created None (Some executor) fence (Some deadline) epoch.

Lemma reserve_exclusive row executor keys t :
  rv_executor_id row = Some executor -> In (rv_resource_key row) keys ->
  exclusive t -> free_for executor (rv_task_id row) keys t ->
  exclusive (t {{ reservations := replace_reservation row (reservations t) }}) /\
  free_for executor (rv_task_id row) keys (t {{ reservations := replace_reservation row (reservations t) }}).
Proof.
  intros He Hin [Hk Hs] Hfree. split; [constructor|].
  - simpl. by apply replace_reservation_keys.
  - intros executor' key r r' Hr Hr' Hh Hh'. simpl in Hr, Hr'.
    assert (forall x, In x (reservations t) -> reservation_key x <> reservation_key row ->
              holds_resource executor' key x -> holds_resource executor' key row -> False) as Hno.
    { intros x Hx Hne Hhx (_ & Her & Hkr). rewrite He in Her. injection Her as <-.
      apply Hne. unfold reservation_key. rewrite (Hfree key x); [|by subst key|done|done].
      destruct Hhx as (_ & _ & ->). by rewrite Hkr. }
    apply in_replace_reservation in Hr as [->|[Hr Hne]], Hr' as [->|[Hr' Hne']]; [done| | |by eapply Hs].
    + exfalso. by apply (Hno r').
    + exfalso. by apply (Hno r).
  - intros key r Hkey Hr Hh. simpl in Hr. apply in_replace_reservation in Hr as [->|[Hr _]]; [done|].
    by apply (Hfree key r).
Qed.

Section ClaimExclusive.
Context `{World}.

Definition frees (executor task : string) (keys : list string) (t : tables) : Prop :=
  exclusive t /\ free_for executor task keys t.

Lemma reserve_loop executor task keys all lease created fence deadline epoch :
  incl keys all ->
  spec excludes (frees executor task all)
    (for_each keys (fun key => reserve (Reservation task key lease created None (Some executor) fence
                                          (Some deadline) epoch)))
    (fun _ => frees executor task all).
Proof.
  intros Hincl. apply (spec_foldS excludes _ (fun _ => frees executor task all)).
  intros u key Hkey. apply spec_modify. intros t [Hex Hfree].
  destruct (reserve_exclusive (Reservation task key lease created None (Some executor) fence
    (Some deadline) epoch) executor all t) as [H1 H2]; [done|by apply Hincl|done|done|].
  split; [by intros _|done].
Qed.

(** What precedes the reservations leaves reservations and capabilities alone. *)
Definition same_resources (t t' : tables) : Prop :=
  reservations t' = reservations t /\ capabilities t' = capabilities t.

#[local] Instance same_resources_preorder : PreOrder same_resources.
Proof. split; [done|]. intros a b c [] []. split; congruence. Qed.

Lemma spec_same {A} (m : M A) (P : tables -> Prop) :
  (forall t t', same_resources t t' -> P t -> P t') -> steps same_resources m ->
  spec excludes P m (fun _ => P).
Proof.
  intros HP Hm s Hs. specialize (Hm s). split; [apply excludes_same, Hm|].
  destruct (m s).1; [|done]. by eapply HP.
Qed.

(** The resources of the capability are free on the executor. *)
Definition unblocked (executor : executor_row) (capability : string) (t : tables) : Prop :=
  forall key, In key (required_resource_keys capability t) -> occupied (ex_id executor) key t = false.

Lemma unblocked_same executor capability t t' :
  same_resources t t' -> unblocked executor capability t -> unblocked executor capability t'.
Proof.
  intros [Hr Hc] Hu key. unfold required_resource_keys, capability_by_id, occupied. rewrite Hr, Hc. apply Hu.
Qed.

Lemma unblocked_free executor capability task t :
  unblocked executor capability t ->
  free_for (ex_id executor) task (required_resource_keys capability t) t.
Proof.
  intros Hu key r Hkey Hr (Ha & He & Hk). exfalso. specialize (Hu key Hkey).
  assert (occupied (ex_id executor) key t = true) as Ho; [|congruence].
  apply existsb_exists. exists r. split; [done|]. rewrite Ha, andb_true_r.
  apply andb_true_iff. split; [by apply bool_decide_eq_true|by apply String.eqb_eq].
Qed.

Definition claimable (executor : executor_row) (capability : string) (t : tables) : Prop :=
  exclusive t /\ unblocked executor capability t.

Lemma claimable_same executor capability t t' :
  same_resources t t' -> claimable executor capability t -> claimable executor capability t'.
Proof.
  intros Hr [Hex Hu]. split; [by apply (excludes_same t); [apply Hr|]|by eapply unblocked_same].
Qed.

Ltac same_step :=
  eapply spec_bind; [exact _|apply spec_same; [by apply claimable_same|]; steps_walk;
    try (apply steps_modify; by intros ?) | intros ?].

Lemma commit_claim_excludes x spec ex lease epoch s :
  Store.spec excludes (claimable ex (t_capability x)) (commit_claim x spec ex lease epoch s) (fun _ _ => True).
Proof.
  unfold commit_claim, store_spec, set_run_status, update_tasks, update_runs, update_executors.
  do 8 same_step. eapply spec_bind; [exact _| |].
  - eapply spec_conseq; [apply spec_gets; exact _|intros t Ht; exact Ht|].
    intros keys t [-> [Hex Hu]].
    exact (conj Hex (unblocked_free ex (t_capability x) (t_id x) t Hu) : frees _ _ _ t).
  - intros keys. eapply spec_bind; [exact _|apply reserve_loop, incl_refl|].
    intros ?. apply spec_steps. benign_walk.
Qed.

(** A claim with no reason to wait found every key free. *)
Lemma claim_waiting_reason_unblocked x js ex cap :
  Store.spec excludes exclusive (claim_waiting_reason x js (Some ex) cap)
    (fun reason t => exclusive t /\ (reason = None -> unblocked ex (t_capability x) t)).
Proof.
  assert (forall keys t, blocked_resource ex keys t = None ->
            forall key, In key keys -> occupied (ex_id ex) key t = false) as Hblocked.
  { intros keys t. induction keys as [|k keys IH]; simpl; [done|].
    destruct (negb _) eqn:E1; simpl; [done|]. destruct (occupied (ex_id ex) k t) eqn:E2; simpl; [done|].
    intros Hb key [<-|Hin]; [done|auto]. }
  assert (forall r : option string, r <> None -> Store.spec excludes exclusive (mret (M := M) r)
    (fun reason t => exclusive t /\ (reason = None -> unblocked ex (t_capability x) t))) as Hret.
  { intros r Hr. eapply spec_conseq; [apply spec_ret; exact _|done|]. by intros ? ? [-> ?]. }
  assert (forall A (m : M A), steps eq m -> Store.spec excludes exclusive m (fun _ => exclusive)) as Hread.
  { intros A m Hm s Hs. specialize (Hm s). split; [by intros _; rewrite <- Hm|].
    destruct (m s).1; [by rewrite <- Hm|done]. }
  unfold claim_waiting_reason. cbv zeta.
  repeat first
    [ solve [apply Hret; discriminate]
    | eapply spec_bind; [exact _|apply Hread; steps_walk|]; intros ?
    | match goal with |- Store.spec _ _ (if ?b then _ else _) _ => destruct b end ].
  eapply spec_conseq; [apply spec_gets; exact _|intros t Ht; exact Ht|].
  intros reason t [-> Hex]. split; [done|]. intros Hb. exact (Hblocked _ _ Hb).
Qed.

Lemma claim_row_or_wait_excludes x e l ep r : steps excludes (claim_row_or_wait x e l ep r).
Proof.
  assert (Store.spec excludes exclusive (claim_row_or_wait x e l ep r) (fun _ _ => True)) as Hspec.
  { assert (forall A (m : M A), steps excludes m -> Store.spec excludes exclusive m (fun _ => exclusive)) as Hkeep.
    { intros A m Hm s Hs. split; [apply Hm|]. destruct (m s).1; [by apply Hm|done]. }
    unfold claim_row_or_wait. do 4 (eapply spec_bind; [exact _|apply Hkeep; steps_walk|]; intros ?).
    destruct a2 as [run|]; [|apply spec_steps; steps_walk].
    eapply spec_bind; [exact _|apply Hkeep; steps_walk|]. intros refs.
    destruct a as [ex|].
    - eapply spec_bind; [exact _|apply claim_waiting_reason_unblocked|]. intros [reason|].
      + apply spec_steps. benign_walk.
      + eapply spec_bind; [exact _| |intros; apply spec_steps; benign_walk].
        eapply spec_conseq; [apply commit_claim_excludes| |intros ? ? Hq; exact Hq].
        intros t [Hex Hu]. split; auto.
    - apply spec_steps. benign_walk. }
  intros s Hs. by apply Hspec.
Qed.

Lemma claim_task_excludes t e l ep tr rec : steps excludes (claim_task t e l ep tr rec).
Proof.
  pose proof (reap_expired_leases_steps excludes (fun _ _ => True)). pose proof claim_row_or_wait_excludes.
  unfold claim_task, claim_body. benign_walk.
Qed.

Lemma claim_selected_excludes t e ep p : steps excludes (claim_selected t e ep p).
Proof. pose proof claim_task_excludes. unfold claim_selected, fence_attempt, record_attempt. benign_walk. Qed.
End ClaimExclusive.

#[global] Instance excludes_admits `{World} : Admits excludes.
Proof. intros row _. unfold insert_task. steps_walk. apply steps_modify. intros t. by apply excludes_same. Qed.
