(* ===== verification/Routes.v ===== *)
(** * The commands of the service as steps

    Every mutating route of the service that is modelled, as one type of
    commands, and the frame each stays in.  A relation on the tables that
    accepts the bookkeeping writes ([Benign]), any change of a task's status
    and the claims of the store is kept by every command; the relations of the
    system follow. *)

From Stdlib Require Import ZArith String Ascii List Bool Lia.
From stdpp Require Import base list strings.
From S2P Require Import Prelude Json Errors Facts Sha256 Store Idempotency Ledger Bindings.
From S2P Require Import Executors Continuations Snapshots Delegation Claim Outputs Settle Runs.
From S2P Require Import Admission Effects Generations Wire Commands Deployments Activation Recovery Dispatch.
From S2P Require Import Durable Reboot Staging ChildPolicy Settlement Authority Children Evolution Leases ActivationFacts DispatchFacts StagingFacts.
From S2P Require Import GenerationFacts Tasks.

Open Scope Z_scope.

Inductive command :=
  | Claim (body key identity : json)
  | Heartbeat (attempt_id : string) (body key identity : json)
  | Fail (attempt_id : string) (body key identity : json)
  | Settle (attempt_id : string) (body key identity : json) (verified : option (list (string * json)))
  | Cancel (task_id : string) (body key : json)
  | Retry (task_id : string) (body key : json)
  | Remote (c : remote_command)
  | Create (calls : admission_calls) (body : json) (enforce_readiness host_owned : bool) (by_ : delegated)
  | Authorize (authority_key attempt_id : string) (body identity : json)
  | Delegate (calls : admission_calls) (authority_key : string) (body key identity : json)
  | Draft (attempt_id : string) (body key identity : json)
  | PrepareReboot (body identity : json)
  | TakeCheckpoint (written : nat -> string -> string -> bool) (attempt_id : string) (body identity : json)
  | ReserveReboot (allowlist : list string) (host : option executor) (body identity : json)
  | ReportReboot (reserved : reboot_reservation) (outcome : res json)
  | Resume (body identity : json).

Definition ignore {A} (m : M A) : M unit := m;; mret tt.

Lemma steps_ignore (I : tables -> tables -> Prop) `{!PreOrder I} {A} (m : M A) : steps I m -> steps I (ignore m).
Proof. intros Hm. unfold ignore. apply steps_bind; [exact _|done|]. intros ?. by apply steps_ret. Qed.

Section Serve.
Context `{World} (svc : service) (iso : string -> option (Z * bool)) (fid : nat -> string -> json).

Definition serve_remote (c : remote_command) : M unit :=
  match c with
  | RecordActivation id q i => ignore (record_remote_activation svc iso id q i)
  | RevokeActivation id a i q => revoke_remote_activation svc id (JStr a) i q
  | BeginDrain id q i => ignore (begin_remote_drain svc id q i)
  | FinishDrain id q i => ignore (finish_remote_drain svc id q i)
  | RecoverPlacement id b k i => ignore (recover_task_placement svc iso id b k i)
  end.

Definition serve (c : command) : M unit :=
  match c with
  | Claim b k i => ignore (claim_next svc iso b k i)
  | Heartbeat a b k i => ignore (heartbeat_attempt svc iso a b k i)
  | Fail a b k i => ignore (fail_attempt svc iso a b k i)
  | Settle a b k i v => ignore (settle_attempt_route svc iso fid a b k i v)
  | Cancel id b k => ignore (cancel_task_canonical svc id b k)
  | Retry id b k => ignore (retry_task_canonical svc id b k)
  | Remote c => serve_remote c
  | Create calls b e h d => ignore (service_create_task svc calls b e h d)
  | Authorize secret a b i => ignore (issue_child_authority svc iso secret a b i)
  | Delegate calls secret b k i => ignore (admit_delegated_child svc iso secret calls b k i)
  | Draft a b k i => ignore (publish_recoverable_snapshot svc iso a b k i)
  | PrepareReboot b i => ignore (prepare_reboot svc iso b i)
  | TakeCheckpoint w a b i => ignore (checkpoint_attempt svc iso w a b i)
  | ReserveReboot l h b i => ignore (reserve_reboot svc iso l h b i)
  | ReportReboot r o => ignore (report_reboot r o)
  | Resume b i => ignore (resume_attempt svc iso b i)
  end.

(** The callbacks of a command stay within a relation. *)
Definition command_callbacks (I : tables -> tables -> Prop) (c : command) : Prop :=
  match c with
  | Create calls _ _ _ _ | Delegate calls _ _ _ _ => admission_respects I calls
  | _ => True
  end.
End Serve.

(** ** Reads *)

Section RouteReads.
Context `{World} (I : tables -> tables -> Prop) `{!PreOrder I}.
Context (svc : service) (iso : string -> option (Z * bool)) (fid : nat -> string -> json).

Lemma admitted_mutation_steps : steps I (assert_mutation_admitted svc).
Proof. unfold assert_mutation_admitted. steps_walk. Qed.

Lemma verified_steps {A} (m : M A) : steps I m -> steps I (verified_mutation svc m).
Proof. intros Hm. unfold verified_mutation. apply steps_bind; [exact _|apply admitted_mutation_steps|]. by intros ?. Qed.

Lemma durable_steps {A} (m : M A) : steps I m -> steps I (durable_mutation svc m).
Proof.
  intros Hm. unfold durable_mutation. apply steps_bind; [exact _|apply admitted_mutation_steps|]. intros ?.
  by apply steps_transaction.
Qed.

Lemma set_recorded_steps v : steps I (set_recorded v).
Proof. intros s. simpl. reflexivity. Qed.
Lemma get_recorded_steps : steps I get_recorded.
Proof. intros s. simpl. reflexivity. Qed.

Lemma claim_answer_steps id e c : steps I (claim_answer id e c).
Proof. unfold claim_answer, set_dict, copy_field, py_dict. steps_walk. Qed.
Lemma waiting_answer_steps v r : steps I (waiting_answer v r).
Proof. unfold waiting_answer. steps_walk. Qed.
Lemma expected_version_steps b a : steps I (check_expected_version b a).
Proof. unfold check_expected_version. steps_walk. Qed.
Lemma task_drain_steps id : steps I (task_drain id).
Proof. unfold task_drain. steps_walk. Qed.
Lemma object_body_steps b : steps I (require_object_body b).
Proof. unfold require_object_body. steps_walk. Qed.
Lemma grant_binding_steps p q c d : steps I (validate_discovery_grant_binding p q c d).
Proof. unfold validate_discovery_grant_binding. steps_walk. Qed.
Lemma parent_activation_steps id i : steps I (check_parent_activation svc iso id i).
Proof. unfold check_parent_activation. steps_walk. Qed.
#[local] Hint Resolve grant_binding_steps parent_activation_steps : steps.
Lemma live_parent_steps a l i : steps I (live_delegating_parent svc iso a l i).
Proof. unfold live_delegating_parent. steps_walk. Qed.
#[local] Hint Resolve live_parent_steps : steps.
Lemma lineage_steps l : steps I (check_lineage svc iso l).
Proof. unfold check_lineage. steps_walk. Qed.
Lemma child_association_steps p a : steps I (check_child_association p a).
Proof. unfold check_child_association, verify_child_object_bytes. steps_walk. Qed.
#[local] Hint Resolve lineage_steps child_association_steps : steps.
Lemma child_outputs_steps p t a : steps I (check_child_outputs p t a).
Proof. unfold check_child_outputs, list_managed_outputs. steps_walk. Qed.
Lemma verified_source_steps s p o : steps I (check_verified_source svc iso s p o).
Proof. unfold check_verified_source, get_managed_output. steps_walk. Qed.
Lemma declared_effect_steps x e : steps I (check_declared_effect x e).
Proof. unfold check_declared_effect. steps_walk. Qed.
#[local] Hint Resolve child_outputs_steps verified_source_steps declared_effect_steps : steps.
Lemma check_settlement_steps a x p c b i : steps I (check_settlement svc iso a x p c b i).
Proof. unfold check_settlement. steps_walk. Qed.

Lemma authorized_output_steps by_ d z m n p f r : steps I (is_authorized_generic_output by_ d z m n p f r).
Proof. unfold is_authorized_generic_output, upload_binding, recorded_upload. steps_walk; apply catch_steps; steps_walk. Qed.
#[local] Hint Resolve authorized_output_steps : steps.
Lemma stage_output_steps by_ v st o : steps I (stage_output fid by_ v st o).
Proof. unfold stage_output, output_bytes, stored_bytes, check_output_object. steps_walk. Qed.
#[local] Hint Resolve stage_output_steps : steps.
Lemma stage_outputs_steps by_ v o : steps I (stage_outputs fid by_ v o).
Proof. unfold stage_outputs. steps_walk. Qed.
Lemma task_project_steps x : steps I (task_project x).
Proof. unfold task_project. steps_walk. Qed.
Lemma admission_spec_steps b d : steps I (admission_spec b d).
Proof.
  unfold admission_spec, admitted_policy, body_project. steps_walk.
Qed.
Lemma identity_digest_steps i : steps I (child_identity_digest i).
Proof. unfold child_identity_digest. steps_walk. Qed.
Lemma placement_version_steps id : steps I (placement_version_of id).
Proof. unfold placement_version_of. steps_walk. Qed.
Lemma verify_bytes_steps d n m : steps I (verify_child_object_bytes d n m).
Proof. unfold verify_child_object_bytes. steps_walk. Qed.
#[local] Hint Resolve verify_bytes_steps : steps.
Lemma verify_derived_steps r x a p : steps I (verify_derived_association r x a p).
Proof. unfold verify_derived_association, get_managed_output. steps_walk. Qed.
#[local] Hint Resolve verify_derived_steps : steps.
Lemma child_activation_steps y i x t v : steps I (check_child_activation svc iso y i x t v).
Proof. unfold check_child_activation. steps_walk. Qed.
Lemma child_counts_steps p c : steps I (check_child_counts p c).
Proof. unfold check_child_counts. steps_walk. Qed.
Lemma named_child_steps y t k : steps I (check_named_child y t k).
Proof. unfold check_named_child. steps_walk. Qed.
Lemma stage_rows_steps p l : steps I (delegated_stage_rows p l).
Proof. unfold delegated_stage_rows, note_stage. steps_walk. Qed.
#[local] Hint Resolve stage_rows_steps : steps.
Lemma child_inputs_steps a x p y t r l e d k : steps I (child_inputs a x p y t r l e d k).
Proof.
  unfold child_inputs, unstaged_inputs, staged_inputs, check_derived_ref, resolve_delegated_stage_inputs, mapS,
    resolve_input, producer_input, get_managed_output, verified_source_of. steps_walk.
Qed.
Lemma input_bytes_steps p r l : steps I (check_input_bytes p r l).
Proof. unfold check_input_bytes, derived_bytes. steps_walk. Qed.
Lemma find_checkpoint_steps c a : steps I (find_checkpoint c a).
Proof. unfold find_checkpoint. steps_walk. Qed.
Lemma checked_checkpoint_steps c : steps I (checked_checkpoint c).
Proof. unfold checked_checkpoint, read_checkpoint, load_checkpoint. steps_walk. Qed.
Lemma nonce_expired_steps a : steps I (nonce_expired a).
Proof. unfold nonce_expired. steps_walk. Qed.
#[local] Hint Resolve nonce_expired_steps : steps.
Lemma reboot_authorized_steps b a e c : steps I (reboot_authorized b a e c).
Proof. unfold reboot_authorized. steps_walk. Qed.
Lemma wire_recovery_steps b l : steps I (wire_recovery b l).
Proof. unfold wire_recovery. steps_walk. Qed.
Lemma attempt_resource_steps a : steps I (attempt_resource a).
Proof. unfold attempt_resource. steps_walk. Qed.
#[local] Hint Resolve attempt_resource_steps : steps.
Lemma resumed_before_steps c : steps I (resumed_before c).
Proof. unfold resumed_before. steps_walk. Qed.
Lemma snapshots_steps p a o : steps I (recoverable_snapshots p a o).
Proof. unfold recoverable_snapshots. steps_walk. Qed.
End RouteReads.

#[export] Hint Resolve admitted_mutation_steps set_recorded_steps get_recorded_steps claim_answer_steps
  waiting_answer_steps expected_version_steps task_drain_steps object_body_steps check_settlement_steps
  stage_outputs_steps task_project_steps admission_spec_steps live_parent_steps identity_digest_steps
  placement_version_steps verify_bytes_steps verify_derived_steps child_activation_steps child_counts_steps
  named_child_steps child_inputs_steps input_bytes_steps snapshots_steps authorized_output_steps
  parent_activation_steps grant_binding_steps stage_rows_steps find_checkpoint_steps checked_checkpoint_steps
  nonce_expired_steps reboot_authorized_steps wire_recovery_steps attempt_resource_steps resumed_before_steps : steps.

(** ** Commands *)

Section RouteWrites.
Context `{World} (I : tables -> tables -> Prop) `{!Benign I}.
Context (svc : service) (iso : string -> option (Z * bool)) (fid : nat -> string -> json).

Lemma record_durable_steps kind a key h r p ev st n b c :
  String.eqb kind "parent_composition.publish" = false -> steps I (record_durable svc kind a key h r p ev st n b c).
Proof.
  intros Hk. unfold record_durable. apply steps_bind; [exact _|steps_walk|]. intros ?.
  destruct (negb b); [steps_walk|]. apply steps_view; [exact _|]. intros t.
  destruct (receipt_of kind a key t) as [row|] eqn:Er; [|steps_walk].
  assert (plain row) as Hr by (unfold plain; by rewrite (receipt_of_kind _ _ _ _ _ Er)).
  pose proof (fun b q => receipt_payload_plain I svc row b q Hr). steps_walk.
Qed.

Lemma service_record_steps kind a key h r p ev st n b c :
  String.eqb kind "parent_composition.publish" = false ->
  steps I (Commands.command_record svc kind a key h r p ev st n b c).
Proof.
  intros Hk. pose proof (record_durable_steps kind).
  unfold Commands.command_record, record_session, insert_session, expire_session. benign_walk.
Qed.

Lemma recording_steps kind a key h p view :
  String.eqb kind "parent_composition.publish" = false -> (forall v, steps I (view v)) ->
  records I (recording svc kind a key h p view).
Proof. intros Hk Hv v e s c. pose proof (service_record_steps kind). unfold recording. benign_walk. Qed.

Lemma heartbeat_record_steps a x p key h q : records I (heartbeat_record svc a x p key h q).
Proof.
  intros v e s c. pose proof (fun a key h r p ev st n b c => service_record_steps "attempt.heartbeat" a key h r p ev st n b c eq_refl).
  unfold heartbeat_record. benign_walk.
Qed.

Lemma publish_item_steps p i : steps I (publish_item fid p i).
Proof. unfold publish_item, verify_published. benign_walk. Qed.

Lemma publish_staged_steps p l : steps I (publish_staged_outputs fid p l).
Proof. pose proof publish_item_steps. unfold publish_staged_outputs. steps_walk. Qed.

Lemma heartbeat_attempt_steps a b k i : steps I (heartbeat_attempt svc iso a b k i).
Proof.
  unfold heartbeat_attempt. apply verified_steps; [exact _|]. pose proof heartbeat_record_steps.
  pose proof (fun a k h p => command_replay_plain I svc "attempt.heartbeat" a k h p eq_refl eq_refl).
  pose proof (fun id l f n r => heartbeat_task_steps I id l f n r).
  steps_walk.
Qed.

Lemma record_activation_steps id q i : steps I (record_remote_activation svc iso id q i).
Proof. unfold record_remote_activation. apply durable_steps; [exact _|]. unfold record_body. benign_walk. Qed.

Lemma begin_drain_steps id q i : steps I (begin_remote_drain svc id q i).
Proof. unfold begin_remote_drain. apply durable_steps; [exact _|]. benign_walk. Qed.

Lemma relate_object_steps p d : steps I (relate_object p d).
Proof. unfold relate_object. benign_walk. Qed.

Lemma associate_one_steps o x a p : steps I (associate_one o x a p).
Proof. pose proof (associate_managed_outputs_steps I). unfold associate_one. benign_walk. Qed.

Lemma issue_steps secret a b i : steps I (issue_child_authority svc iso secret a b i).
Proof.
  unfold issue_child_authority. apply durable_steps; [exact _|]. pose proof relate_object_steps. pose proof associate_one_steps.
  unfold register_derived_inputs, register_item. benign_walk.
Qed.

Lemma draft_steps a b k i : steps I (publish_recoverable_snapshot svc iso a b k i).
Proof.
  unfold publish_recoverable_snapshot. apply durable_steps; [exact _|]. pose proof relate_object_steps. pose proof associate_one_steps.
  pose proof (fun a k h p => command_replay_plain I svc "attempt.recoverable_snapshot.publish" a k h p eq_refl eq_refl).
  pose proof (fun a k h p => command_replay_plain I svc "attempt.recoverable_snapshot.replay" a k h p eq_refl eq_refl).
  pose proof (fun a key h r p ev st n b c => service_record_steps "attempt.recoverable_snapshot.publish" a key h r p ev st n b c eq_refl).
  pose proof (fun a key h r p ev st n b c => service_record_steps "attempt.recoverable_snapshot.replay" a key h r p ev st n b c eq_refl).
  unfold publish_snapshot_body, publish_revision, alias_revision. benign_walk.
Qed.

Lemma prepare_reboot_steps b i : steps I (prepare_reboot svc iso b i).
Proof.
  unfold prepare_reboot. apply verified_steps; [exact _|]. unfold issue_nonce, reusable_nonce, seconds_left. benign_walk.
Qed.

Lemma insert_checkpoint_steps `{!CheckpointWrites I} c : ck_state c = Durable -> steps I (insert_checkpoint c).
Proof.
  intros Hc s. unfold insert_checkpoint, mbind, M_bind, gets, unique, foreign_key, guard_raise, lift, raise_if, modify.
  destruct (existsb _ (recovery_checkpoints (tb s))) eqn:E; [simpl; reflexivity|]. simpl.
  destruct (existsb _ (attempts (tb s)) && _); simpl; [|reflexivity]. by apply checkpoint_inserted.
Qed.

Lemma checkpoint_steps `{!CheckpointWrites I} w a b i : steps I (checkpoint_attempt svc iso w a b i).
Proof.
  unfold checkpoint_attempt. apply verified_steps; [exact _|]. pose proof insert_checkpoint_steps.
  unfold same_checkpoint_bytes, read_checkpoint, load_checkpoint, store_checkpoint. benign_walk.
Qed.

Lemma reserve_steps `{!CheckpointWrites I} l h b i : steps I (reserve_reboot svc iso l h b i).
Proof. unfold reserve_reboot, take_checkpoint, is_durable. benign_walk. Qed.

Lemma report_steps `{!CheckpointWrites I} r o : steps I (report_reboot r o).
Proof. unfold report_reboot, finish_checkpoint, is_requested. benign_walk. Qed.

Lemma rebind_steps id r ts : steps I (rebind id r ts).
Proof. unfold rebind. benign_walk. Qed.
Lemma revoke_previous_steps run id ts : steps I (revoke_previous run id ts).
Proof. unfold revoke_previous. benign_walk. Qed.
End RouteWrites.

#[export] Hint Resolve rebind_steps revoke_previous_steps : steps.

(** ** Commands that change the status of tasks

    Each is stated from the steps of the store's handlers it calls, so that it
    can be used with a relation that restricts how a status may change. *)

Section RouteHandlers.
Context `{World} (I : tables -> tables -> Prop) `{!Benign I}.
Context (svc : service) (iso : string -> option (Z * bool)) (fid : nat -> string -> json).

Lemma claim_replay_steps key h : steps I (command_replay_state svc "task.claim" "claim" key h None false).
Proof.
  unfold command_replay_state. change (String.eqb "task.claim" "parent_composition.publish") with false. steps_walk.
Qed.

Lemma claim_next_steps b k i :
  (forall t e l ep tr rec, steps I (claim_task t e l ep tr rec)) -> steps I reap_expired_leases ->
  steps I (claim_next svc iso b k i).
Proof.
  intros Hc Hr. unfold claim_next. apply durable_steps; [exact _|].
  pose proof claim_replay_steps.
  pose proof (fun a key h r p ev st n b c => service_record_steps I svc "task.claim" a key h r p ev st n b c eq_refl).
  unfold Dispatch.claim_body, claim_fresh, claim_selected_answer, fence_attempt, record_attempt. benign_walk.
Qed.

Lemma resume_steps `{!CheckpointWrites I} b i :
  (forall t e l ep tr rec, steps I (claim_task t e l ep tr rec)) -> steps I (resume_attempt svc iso b i).
Proof.
  intros Hc. unfold resume_attempt. apply verified_steps; [exact _|].
  unfold take_up, rebind_placement, resume_row, resume_checkpoint, is_ready, ready_to_resume. benign_walk.
Qed.

Lemma fail_attempt_steps a b k i :
  (forall id l f fe a record, records I record -> steps I (fail_task id l f fe a record)) ->
  steps I (fail_attempt svc iso a b k i).
Proof.
  intros Hf. unfold fail_attempt. apply verified_steps; [exact _|].
  pose proof (fun a k h p => command_replay_plain I svc "attempt.fail" a k h p eq_refl eq_refl).
  pose proof (fun a key h p => recording_steps I svc "attempt.fail" a key h p task_resource eq_refl (task_resource_steps I)).
  steps_walk.
Qed.

(** The calls and the recorder of a settlement by the service. *)
Lemma settlement_calls_respect p l : settlement_respects I (store_settlement (Some (publish_staged_outputs fid p l))).
Proof. apply store_settlement_respects, publish_staged_steps; exact _. Qed.

Lemma settlement_records a key h p : records I (recording svc "attempt.settle" a key h p task_resource).
Proof. apply recording_steps; [exact _|done|apply task_resource_steps, _]. Qed.

Lemma settle_route_steps a b k i v :
  (forall p items t l r e f a key h q, steps I (
     settle_attempt (store_settlement (Some (publish_staged_outputs fid p items))) t l r e f a
       (recording svc "attempt.settle" a key h q task_resource))) ->
  steps I (settle_attempt_route svc iso fid a b k i v).
Proof.
  intros Hs. unfold settle_attempt_route. apply durable_steps; [exact _|].
  pose proof (fun a k h p => command_replay_plain I svc "attempt.settle" a k h p eq_refl eq_refl).
  unfold settle_route_body, commit_staged. steps_walk.
Qed.

Lemma cancel_canonical_steps id b k :
  (forall record, records I record -> steps I (cancel_task max_depth id record)) ->
  steps I (cancel_task_canonical svc id b k).
Proof.
  intros Hc. unfold cancel_task_canonical. apply verified_steps; [exact _|].
  pose proof (fun a k h p => command_replay_plain I svc "task.cancel" a k h p eq_refl eq_refl).
  pose proof (fun a key h p => recording_steps I svc "task.cancel" a key h p task_resource eq_refl (task_resource_steps I)).
  steps_walk.
Qed.

Lemma retry_canonical_steps id b k :
  (forall key h p run c v, steps I (transaction (requeue_task svc id key h p run c v))) ->
  steps I (retry_task_canonical svc id b k).
Proof.
  intros Hc. unfold retry_task_canonical. apply verified_steps; [exact _|].
  pose proof (fun a k h p => command_replay_plain I svc "task.retry" a k h p eq_refl eq_refl).
  steps_walk.
Qed.

Lemma revoke_steps id a i q :
  (forall id a r, steps I (contain_delegated_children id a r)) -> steps I (revoke_remote_activation svc id a i q).
Proof.
  intros Hc. unfold revoke_remote_activation. apply durable_steps; [exact _|]. unfold revoke_body. benign_walk.
Qed.

Lemma finish_drain_steps id q i :
  (forall id a r, steps I (contain_delegated_children id a r)) -> steps I (finish_remote_drain svc id q i).
Proof.
  intros Hc. pose proof (fun id a i q => revoke_steps id a i q Hc). unfold finish_remote_drain.
  apply durable_steps; [exact _|]. steps_walk.
Qed.

Lemma recover_placement_steps id b k i :
  (forall v r ts c, steps I (fence_child id v r ts c)) -> steps I (recover_task_placement svc iso id b k i).
Proof.
  intros Hf. unfold recover_task_placement. apply durable_steps; [exact _|].
  pose proof (fun a k h p => command_replay_plain I svc "task.placement_recover" a k h p eq_refl eq_refl).
  pose proof (fun a key h r p ev st n b c => service_record_steps I svc "task.placement_recover" a key h r p ev st n b c eq_refl).
  unfold recover_body, recover_fresh, commit_recovery, mapS. benign_walk.
Qed.

Lemma service_create_steps calls b e h d :
  (forall c s p k e d b r, steps I (create_task calls c s p k e d b r)) ->
  steps I (service_create_task svc calls b e h d).
Proof.
  intros Hc. unfold service_create_task. apply verified_steps; [exact _|]. unfold bind_opt_text. steps_walk.
Qed.

Lemma admit_child_steps secret calls b k i :
  (forall c s p k e d b r, steps I (create_task calls c s p k e d b r)) ->
  steps I (admit_delegated_child svc iso secret calls b k i).
Proof.
  intros Hc. unfold admit_delegated_child. apply durable_steps; [exact _|].
  pose proof (fun b e h d => service_create_steps calls b e h d Hc).
  unfold admit_child_body, admit_checked_child. steps_walk.
Qed.
End RouteHandlers.

(** ** Every command *)

Section Serves.
Context `{World} (I : tables -> tables -> Prop) `{!Benign I} `{!TaskUpdates I (fun _ _ => True)} `{!Admits I}.
Context (svc : service) (iso : string -> option (Z * bool)) (fid : nat -> string -> json).

Lemma fence_child_steps id v r ts c : steps I (fence_child id v r ts c).
Proof. unfold fence_child. benign_walk. by apply (update_tasks_ok I (fun _ _ => True)). Qed.

Lemma requeue_steps id key h p run c v : steps I (transaction (requeue_task svc id key h p run c v)).
Proof.
  pose proof (fun a key h r p ev st n b c => service_record_steps I svc "task.retry" a key h r p ev st n b c eq_refl).
  unfold requeue_task. benign_walk. by apply (update_tasks_ok I (fun _ _ => True)).
Qed.

(** A relation that asks nothing of a task's status stays with every command,
    provided the claims of the store stay with it. *)
Lemma serve_steps `{!CheckpointWrites I} c :
  (forall t e l ep tr rec, steps I (claim_task t e l ep tr rec)) ->
  command_callbacks I c -> steps I (serve svc iso fid c).
Proof.
  intros Hclaim Hc. pose proof (contain_steps I (fun _ _ => True)) as Hk.
  destruct c as [b k i|a b k i|a b k i|a b k i v|id b k|id b k|[]|calls b e h d|secret a b i|calls secret b k i|a b k i
    |b i|w a b i|l h b i|r o|b i]; simpl; try (apply steps_ignore; [exact _|]).
  - apply claim_next_steps; [exact _|done|]. apply (reap_expired_leases_steps I (fun _ _ => True)).
  - apply heartbeat_attempt_steps, _.
  - apply fail_attempt_steps; [exact _|]. intros. by apply (fail_task_steps I (fun _ _ => True)).
  - apply settle_route_steps; [exact _|]. intros. apply (settle_attempt_steps I (fun _ _ => True));
      [apply settlement_calls_respect, _|apply settlement_records, _].
  - apply cancel_canonical_steps; [exact _|]. intros. by apply (cancel_task_steps I (fun _ _ => True)).
  - apply retry_canonical_steps; [exact _|]. intros. apply requeue_steps.
  - apply record_activation_steps, _.
  - by apply revoke_steps; [exact _|].
  - apply begin_drain_steps, _.
  - by apply finish_drain_steps; [exact _|].
  - apply recover_placement_steps; [exact _|]. intros. apply fence_child_steps.
  - apply service_create_steps; [exact _|]. intros. by apply create_task_steps.
  - apply issue_steps, _.
  - apply admit_child_steps; [exact _|]. intros. by apply create_task_steps.
  - apply draft_steps, _.
  - apply prepare_reboot_steps, _.
  - apply checkpoint_steps; exact _.
  - apply reserve_steps; exact _.
  - apply report_steps; exact _.
  - by apply resume_steps; [exact _|exact _|].
Qed.
End Serves.

(** ** What the commands do to tasks *)

(** The children a recovery reads, with the unfinished ones held. *)
Lemma children_rows `{World} parent s l s' :
  service_children parent s = (Ok l, s') -> Forall (fun c => In c.1 (tasks (tb s))) l.
Proof.
  change (service_children parent s) with (foldS (collect_child parent) [] (tasks (tb s)) s).
  assert (forall rows acc s l s', foldS (collect_child parent) acc rows s = (Ok l, s') ->
    forall c, In c l -> In c acc \/ In c.1 rows) as Hf.
  { clear. induction rows as [|row rows IH]; intros acc s l s' E c Hc; simpl in E; [injection E as -> _; by left|].
    unfold mbind, M_bind in E. destruct (collect_child parent acc row s) as [[acc'|e] s1] eqn:E1; [|done].
    destruct (IH _ _ _ _ E c Hc) as [Ha|Hr]; [|by right; right]. unfold collect_child, mbind, M_bind in E1.
    destruct (catch _ _ _ s) as [[lineage|e] s2]; [|done]. injection E1 as <- _.
    destruct (_ && _); [|by left]. apply in_app_or in Ha as [Ha|[<-|[]]]; [by left|]. by right; left. }
  intros E. apply Forall_forall. intros c Hc%list_elem_of_In. by destruct (Hf _ _ _ _ _ E c Hc) as [[]|].
Qed.

Lemma holds_read_children `{World} {A} parent (k : list (task_row * json) -> M A) :
  (forall l, holds (unfinished_ids (map fst l)) (k l)) -> holds [] (service_children parent ≫= k).
Proof.
  intros Hk s Hs. unfold mbind, M_bind. pose proof (service_children_steps eq parent s) as Ht.
  destruct (service_children parent s) as [[l|e] s'] eqn:E; simpl in Ht; [|rewrite Ht; by split].
  apply children_rows in E. rewrite Forall_forall in E.
  assert (held (unfinished_ids (map fst l)) (tb s')) as Hh.
  { rewrite <- Ht. constructor; [apply Hs|]. intros id Hid. unfold unfinished_ids in Hid.
    apply in_map_iff in Hid as (x & <- & Hx). apply List.filter_In in Hx as [Hx Hsx].
    apply row_unfinished; [apply Hs| |by apply negb_true_iff, bool_decide_eq_false in Hsx].
    apply in_map_iff in Hx as (c & <- & Hc). by apply E, list_elem_of_In. }
  destruct (Hk l s' Hh) as [H1 H2]. rewrite Ht. split; [done|]. destruct (k l s').1; [|done].
  constructor; [apply H2|by intros ? []].
Qed.
