(* ===== verification/SettlementFacts.v ===== *)
(** * What an answered settlement leaves behind

    The route [settle_attempt] as a whole: the outputs it staged are stored as
    objects of the task's project in the same transaction that completes the
    task with them. *)

From Stdlib Require Import ZArith String Ascii List Bool Lia.
From stdpp Require Import base list strings.
From S2P Require Import Prelude Json Errors Facts Sha256 Base64 Store Idempotency Ledger Bindings.
From S2P Require Import Executors Continuations Snapshots Delegation Claim Outputs Settle Runs.
From S2P Require Import Admission Effects Generations Wire Commands Deployments Activation Recovery Dispatch.
From S2P Require Import Staging ChildPolicy Settlement Demo Evolution Leases ActivationFacts DispatchFacts StagingFacts.
From S2P Require Import GenerationFacts Routes.

Open Scope Z_scope.

(** ** Objects are never lost *)

Record keeps_objects (t t' : tables) : Prop := {
  ko_objects : forall d o, object_by_digest d t = Some o -> object_by_digest d t' = Some o;
  ko_projects : forall p d, in_project p d t = true -> in_project p d t' = true }.

#[global] Instance keeps_objects_preorder : PreOrder keeps_objects.
Proof. split; [by constructor|]. intros a b c [O1 P1] [O2 P2]. constructor; auto. Qed.

Lemma find_snoc {A} (q : A -> bool) x l y : find q l = Some y -> find q (l ++ [x]) = Some y.
Proof. induction l as [|z l IH]; simpl; [done|]. by destruct (q z). Qed.

Lemma find_insert_or_ignore {A} (p q : A -> bool) x l y :
  find q l = Some y -> find q (insert_or_ignore p x l) = Some y.
Proof. intros Hf. unfold insert_or_ignore. destruct (existsb p l); [done|]. by apply find_snoc. Qed.

Lemma existsb_insert_or_ignore {A} (p q : A -> bool) x l :
  existsb q l = true -> existsb q (insert_or_ignore p x l) = true.
Proof. intros Hf. unfold insert_or_ignore. destruct (existsb p l); [done|]. by rewrite existsb_app, Hf. Qed.

Lemma keeps_objects_same t t' :
  objects t' = objects t -> project_objects t' = project_objects t -> keeps_objects t t'.
Proof. intros Ho Hp. constructor; unfold object_by_digest, in_project; [by rewrite Ho|by rewrite Hp]. Qed.

#[global] Instance keeps_objects_benign : Benign keeps_objects.
Proof.
  constructor; try exact _; intros; try (by apply keeps_objects_same); constructor; try done; simpl.
  - intros p d Hd. by apply existsb_insert_or_ignore.
  - intros d o' Hd. by apply find_insert_or_ignore.
Qed.

(** The tables hold the same objects. *)
Definition same_objects (t t' : tables) : Prop := objects t' = objects t.
#[global] Instance same_objects_preorder : PreOrder same_objects.
Proof. split; [done|]. unfold same_objects. intros a b c H1 H2. by rewrite H2, H1. Qed.

(** ** Publication *)

(** The object of the item is stored as what the item says, in the project of
    the task when it has one. *)
Definition published (project : option string) (t : tables) (item : staged_item) : Prop :=
  (exists o, object_by_digest (si_digest item) t = Some o /\ o_size o = si_size item /\ o_media_type o = si_media_type item) /\
  forall p, project = Some p -> nonempty p = true -> in_project p (si_digest item) t = true.

(** No stored object contradicts an item. *)
Definition agrees (t : tables) (item : staged_item) : Prop :=
  forall o, object_by_digest (si_digest item) t = Some o -> o_size o = si_size item /\ o_media_type o = si_media_type item.

(** Items with the same digest describe the same content. *)
Definition consistent (items : list staged_item) : Prop :=
  forall i j, In i items -> In j items -> si_digest i = si_digest j ->
    si_size i = si_size j /\ si_media_type i = si_media_type j.

Lemma published_kept project t t' item : keeps_objects t t' -> published project t item -> published project t' item.
Proof.
  intros [O P] [(o & Ho & Hs & Hm) Hp]. split; [exists o; by split; [apply O|]|]. intros p E Hn. by apply P, Hp.
Qed.

Lemma agrees_same t t' items : same_objects t t' -> Forall (agrees t) items -> Forall (agrees t') items.
Proof. intros E Ha. apply (Forall_impl _ _ _ Ha). intros i Hi o. unfold object_by_digest. rewrite E. apply Hi. Qed.

(** The object row a publication looks for is there afterwards. *)
Lemma find_inserted (o : object_row) l :
  exists o', find (fun x => String.eqb (o_digest x) (o_digest o))
               (insert_or_ignore (fun x => String.eqb (o_digest x) (o_digest o)) o l) = Some o' /\
    (find (fun x => String.eqb (o_digest x) (o_digest o)) l = Some o' \/ o' = o).
Proof.
  unfold insert_or_ignore. induction l as [|x l IH]; simpl; [rewrite String.eqb_refl; eauto|].
  destruct (String.eqb (o_digest x) (o_digest o)) eqn:E; simpl; [rewrite E; eauto|].
  destruct (existsb _ l); simpl in *; rewrite E; exact IH.
Qed.

Lemma find_other (o : object_row) d l :
  d <> o_digest o ->
  find (fun x => String.eqb (o_digest x) d) (insert_or_ignore (fun x => String.eqb (o_digest x) (o_digest o)) o l) =
  find (fun x => String.eqb (o_digest x) d) l.
Proof.
  intros Hd. unfold insert_or_ignore. destruct (existsb _ l); [done|].
  induction l as [|x l IH]; simpl; [by destruct (String.eqb_spec (o_digest o) d)|].
  destruct (String.eqb (o_digest x) d); [done|exact IH].
Qed.

Section Publication.
Context `{World} (fid : nat -> string -> json).

(** The two writes of a publication. *)
Lemma insert_object_post items item created t :
  consistent items -> In item items -> Forall (agrees t) items ->
  let t' := t {{ objects := insert_or_ignore (fun o => String.eqb (o_digest o) (si_digest item))
    (Object (si_digest item) (si_size item) (si_media_type item) (Some (si_name item)) created) (objects t) }} in
  Forall (agrees t') items /\ published None t' item.
Proof.
  intros Hc Hin Ha t'. set (row := Object _ _ _ _ created) in t'.
  destruct (find_inserted row (objects t)) as (o & Ho & Hor).
  assert (o_size o = si_size item /\ o_media_type o = si_media_type item) as [Hs Hm].
  { destruct Hor as [Hor | ->]; [|done]. exact (proj1 (List.Forall_forall _ _) Ha item Hin o Hor). }
  split; [|split; [by exists o|done]].
  apply List.Forall_forall. intros j Hj o' Ho'. destruct (decide (si_digest j = si_digest item)) as [E|E].
  - destruct (Hc item j Hin Hj (eq_sym E)) as [Es Em]. unfold object_by_digest in Ho'. simpl in Ho'. rewrite E in Ho'.
    change (si_digest item) with (o_digest row) in Ho'. rewrite Ho in Ho'. injection Ho' as <-. by rewrite Hs, Hm, Es, Em.
  - unfold object_by_digest in Ho'. simpl in Ho'. rewrite (find_other row) in Ho' by done.
    exact (proj1 (List.Forall_forall _ _) Ha j Hj o' Ho').
Qed.

Lemma publish_item_post project items item :
  consistent items -> In item items ->
  post (fun t => Forall (agrees t) items) (publish_item fid project item)
    (fun _ t => Forall (agrees t) items /\ published project t item).
Proof.
  intros Hc Hin. unfold publish_item. eapply post_bind; [apply post_read; unfold verify_published; steps_walk|]. intros [].
  eapply post_bind; [apply post_read; steps_walk|]. intros created.
  eapply post_bind; [apply (post_modify _ _ (fun t => Forall (agrees t) items /\ published None t item));
    intros t Ha; by apply insert_object_post|]. intros [].
  destruct project as [p|]; [|by apply post_ret].
  destruct (nonempty p) eqn:En; cbn [negb];
    [|apply post_ret; intros t [Ha [Ho _]]; split; [done|]; split; [done|]; intros q [= <-]; congruence].
  eapply post_bind; [apply post_read; steps_walk|]. intros related. apply post_modify. intros t [Ha [Ho _]].
  split; [exact Ha|]. split; [exact Ho|]. intros q [= <-] _. unfold in_project. simpl. unfold insert_or_ignore.
  destruct (existsb _ (project_objects t)) eqn:E.
  - apply existsb_exists in E as (r & Hr & Hq). apply existsb_exists. exists r. split; [done|].
    by apply andb_true_iff in Hq as [Hq _].
  - rewrite existsb_app. simpl. rewrite !String.eqb_refl. apply orb_true_r.
Qed.

Lemma post_for_each_cons {A} (f : A -> M unit) x l P Q Q' :
  post P (f x) (fun _ => Q) -> post Q (for_each l f) Q' -> post P (for_each (x :: l) f) Q'.
Proof. intros Hx Hl. unfold for_each. cbn [foldS]. eapply post_bind; [exact Hx|]. intros []. exact Hl. Qed.

(** The publication loop. *)
Lemma publish_staged_post project items :
  consistent items ->
  post (fun t => Forall (agrees t) items) (publish_staged_outputs fid project items)
    (fun _ t => Forall (published project t) items).
Proof.
  intros Hc. unfold publish_staged_outputs.
  assert (forall todo, incl todo items ->
    post (fun t => Forall (agrees t) items) (for_each todo (publish_item fid project))
      (fun _ t => Forall (published project t) todo /\ Forall (agrees t) items)) as Hall.
  { induction todo as [|i todo IH]; intros Hi; [apply post_ret; intros t Ht; by split; [constructor|]|].
    pose proof (Hi i (or_introl eq_refl)) as Hin.
    eapply post_for_each_cons; [by apply publish_item_post|].
    assert (incl todo items) as Ht by (intros x Hx; apply Hi; by right).
    intros s [Ha Hp]. destruct (IH Ht s Ha) as [H1 H2]. split; [done|].
    pose proof (steps_for_each keeps_objects todo (publish_item fid project)
      (fun x => publish_item_steps keeps_objects fid project x) s) as Hk.
    destruct (for_each todo (publish_item fid project) s) as [[u|e] s']; simpl in *; [|exact H2].
    destruct H2 as [H2 H3]. split; [|done]. constructor; [by eapply published_kept|done]. }
  eapply post_conseq; [apply (Hall items), incl_refl|done|]. by intros _ t [Hp _].
Qed.
End Publication.

(** ** The settlement *)

Lemma post_and {A} (m : M A) P P' Q Q' :
  post P m Q -> post P' m Q' -> post (fun t => P t /\ P' t) m (fun a t => Q a t /\ Q' a t).
Proof. intros H1 H2 s [Hp Hp']. destruct (H1 s Hp) as [_ Hq], (H2 s Hp') as [_ Hq']. split; [done|]. by destruct (m s).1. Qed.

Lemma effect_result_outputs effect result applied :
  jget (effect_result effect result applied) "outputs" = jget result "outputs".
Proof.
  unfold effect_result. destruct (is_null applied); [done|].
  destruct (is_json_str _ _); [by apply jget_set_ne|]. destruct (is_json_str _ _); by apply jget_set_ne.
Qed.

(** An effect that is not applied after the publication does not touch the
    objects. *)
Lemma other_effect_objects `{World} effect p r t i ts a :
  in_set (effect_type effect) append_effects = Ok false ->
  steps same_objects (apply_settlement_effect effect p r t i ts a).
Proof.
  intros Hf. unfold apply_settlement_effect. cbv zeta.
  assert (forall k, In k append_effects -> is_json_str k (effect_type effect) = false) as Hk.
  { intros k Hin. destruct (is_json_str k (effect_type effect)) eqn:E; [|done].
    unfold is_json_str in E. destruct (effect_type effect) as [| | |x| |]; try done. apply String.eqb_eq in E as <-.
    simpl in Hf. injection Hf as Hf. exfalso. simpl in Hin.
    destruct Hin as [<-|[<-|[<-|[<-|[]]]]]; by vm_compute in Hf. }
  rewrite !Hk by (vm_compute; tauto). unfold apply_project_update, text_column.
  steps_walk; apply steps_modify; by intros.
Qed.

Section SettledRoute.
Context `{World} (svc : service) (iso : string -> option (Z * bool)) (fid : nat -> string -> json).

Lemma settle_effects_post project items id attempt p input effect result ts :
  consistent items ->
  post (fun t => Forall (agrees t) items)
    (settle_effects (store_settlement (Some (publish_staged_outputs fid project items))) id attempt p input effect result ts)
    (fun _ t => Forall (published project t) items).
Proof.
  intros Hc. unfold settle_effects. cbn [store_settlement st_validate_effect st_publish st_apply_effect run_publish].
  eapply post_bind; [apply post_read; steps_walk|]. intros [].
  eapply post_bind; [apply post_read; steps_walk|]. intros m.
  destruct (is_null effect).
  - eapply post_bind; [apply (post_ret false _ (fun b t => b = false /\ Forall (agrees t) items)); by intros|].
    intros b. apply post_pure. intros ->.
    do 2 (eapply post_bind; [apply post_read; steps_walk|]; intros ?).
    eapply post_bind; [by apply publish_staged_post|]. intros []. by apply post_ret.
  - eapply post_bind; [apply post_lift|]. intros [|]; apply post_pure; intros Hb.
    + eapply post_bind; [by apply publish_staged_post|]. intros [].
      eapply post_bind; [apply (post_steps keeps_objects); [apply (apply_effect_steps keeps_objects)|]|].
      { intros t t' Hk Hp. apply (Forall_impl _ _ _ Hp). intros i. by apply published_kept. }
      intros v. eapply post_bind; [apply post_read; steps_walk|]. intros []. by apply post_ret.
    + eapply post_bind; [apply post_read; steps_walk|]. intros [].
      eapply post_bind; [apply (post_steps same_objects); [by apply other_effect_objects|intros t t'; apply agrees_same]|].
      intros v. eapply post_bind; [by apply publish_staged_post|]. intros []. by apply post_ret.
Qed.

Lemma settle_leased_publishes project items x l result effect attempt record :
  consistent items -> records keeps_objects record ->
  post (fun t => Forall (agrees t) items)
    (settle_leased (store_settlement (Some (publish_staged_outputs fid project items))) x l result effect attempt record)
    (fun _ t => Forall (published project t) items).
Proof.
  intros Hc Hr. unfold records in Hr. unfold settle_leased. cbv zeta.
  do 5 (eapply post_bind; [apply post_read; steps_walk|]; intros ?). apply post_transaction.
  do 2 (eapply post_bind; [apply post_read; steps_walk|]; intros ?).
  eapply post_bind; [by apply settle_effects_post|]. intros applied.
  apply (post_steps keeps_objects).
  - pose proof (associate_managed_outputs_steps keeps_objects). unfold commit_settlement. benign_walk.
    apply steps_modify. intros t. by apply keeps_objects_same.
  - intros t t' Hk Hp. apply (Forall_impl _ _ _ Hp). intros i. by apply published_kept.
Qed.

Lemma settle_replay_post attempt_id key hash p t0 :
  post (fun t => t = t0) (command_replay svc "attempt.settle" attempt_id (JStr key) hash p)
    (fun found t => (is_Some found -> is_Some (receipt_of "attempt.settle" attempt_id key t0)) /\ t = t0).
Proof.
  assert (forall k, validate_idempotency_key (JStr key) = Ok k -> k = key) as Hk by (intros k; apply valid_key_same).
  destruct (receipt_of "attempt.settle" attempt_id key t0) as [r|] eqn:Er.
  - eapply post_conseq; [apply post_read; apply command_replay_reads; done|intros t Ht; exact Ht|]. by intros a t ->.
  - unfold command_replay, command_replay_state. cbn [is_null].
    eapply (post_bind _ _ _ (fun found t => found = None /\ t = t0)).
    + eapply post_bind; [apply post_lift|]. intros k. apply post_pure. intros ->%Hk. apply post_view.
      unfold prior_receipt. change (session_kind "attempt.settle") with false. cbn iota. rewrite Er. apply post_ret. by intros t ->.
    + intros found. apply post_pure. intros ->. apply post_ret. intros t ->. split; [by intros [? ?]|done].
Qed.

(** The attempt the lease check lets through. *)
Lemma attempt_lease_post a body current t0 :
  post (fun t => t = t0) (validate_attempt_lease (Some a) body current true false)
    (fun _ t => at_settled a = false /\ t = t0).
Proof.
  unfold validate_attempt_lease. eapply post_bind; [apply post_read; steps_walk|]. intros []. guards.
  eapply post_conseq; [apply (post_read _ (fun t => t = t0))|intros t Ht; exact Ht|intros [] t Ht; split; [|exact Ht]; done].
  steps_walk; apply catch_steps; steps_walk.
Qed.

Lemma check_settlement_post a x project current body import t0 :
  post (fun t => t = t0) (check_settlement svc iso a x project current body import)
    (fun _ t => settles_task a x = true /\ t = t0).
Proof.
  intros s Hs. split; [done|].
  destruct (settles_task a x) eqn:E.
  - pose proof (check_settlement_steps eq svc iso a x project current body import s) as Hr.
    destruct (check_settlement _ _ _ _ _ _ _ _ s) as [[u|e] s']; simpl in *; [|done]. by rewrite <- Hr.
  - unfold check_settlement, guard_raise. rewrite E. unfold mbind, M_bind. by destruct (stale_epoch x current).
Qed.

Lemma required_key_text key k : require_idempotency_key key = Ok k -> key = JStr k.
Proof.
  unfold require_idempotency_key. intros E. res_inv. destruct key as [| | |x| |]; try done.
  f_equal. symmetry. by apply valid_key_same.
Qed.

(** What the commit of a settlement by attempt [a] of task [x] establishes. *)
Definition settled (a : attempt_row) (x : task_row) (project : option string) (t : tables) : Prop :=
  exists items result,
    completed_with (t_id x) result (t_lease_fence x) t /\ jget result "outputs" = JArr (map si_output items) /\
    lease_released (t_id x) (at_lease_id a) t /\ attempt_recorded (at_id a) true t /\
    Forall established items /\ Forall (published project t) items.

Lemma commit_staged_post a x project body key hash t0 :
  task_by_id (at_task_id a) t0 = Some x -> In a (attempts t0) ->
  post (fun t => t = t0) (commit_staged svc fid a x project body key hash None) (fun _ t => settled a x project t).
Proof.
  intros Hx Ha. unfold commit_staged.
  eapply post_bind.
  { unfold stage_outputs. instantiate (1 := fun items t => (Forall established items /\ Forall (agrees t0) items /\ consistent items) /\ t = t0).
    destruct (jget_def body "outputs" (JArr [])) as [| | | |l|]; try apply post_raise.
    eapply post_bind; [apply (stage_outputs_post fid)|]. intros st. apply post_ret. intros t [[Hi Had _ _ Hc] ->].
    split; [|done]. split; [done|]. split.
    - apply (Forall_impl _ _ _ Had). intros i Hi' o Ho. by destruct (Hi' o Ho) as (? & ? & _).
    - intros i j Hi' Hj Hd. pose proof (Hc i Hi') as H1. rewrite Hd, (Hc j Hj) in H1. by injection H1 as -> ->. }
  intros items. apply post_pure. intros (He & Hag & Hc).
  do 2 (eapply post_bind; [apply post_read; steps_walk|]; intros ?).
  eapply (post_bind _ _ _ (fun _ t => settled a x project t)); [|intros ?; apply post_read; steps_walk].
  unfold settle_attempt.
  eapply (post_bind _ _ _ (fun y t => y = x /\ t = t0)).
  { unfold leased_task. apply post_view. rewrite Hx. eapply post_bind; [apply post_read; steps_walk|]. intros [].
    apply post_ret. by intros t ->. }
  intros y. apply post_pure. intros ->.
  assert (t_id x = at_task_id a) as Hid by (unfold task_by_id in Hx; apply find_some in Hx as [_ Hx]; by apply String.eqb_eq).
  eapply post_conseq; [apply post_and; [apply settle_rest_post|apply settle_leased_publishes]| |].
  - apply settlement_calls_respect, _.
  - apply settlement_records, _.
  - exact Hc.
  - apply settlement_records, _.
  - intros t ->. split; [|exact Hag]. split; [exists x; by rewrite Hid|]. exists a. by split.
  - intros v t [(applied & Hq & Hl & Hs) Hp]. exists items, (effect_result (jget body "effect") (settled_result body items) applied).
    split; [done|]. split; [rewrite effect_result_outputs; apply jget_set_eq|]. done.
Qed.
End SettledRoute.


(** ** An instance *)

#[local] Existing Instance demo_world.

Definition settle_report : json :=
  JObj (jfields (demo_report 1) ++ [("outputs", StagingFacts.sample_outputs); ("result", JObj [("note", JStr "done")])]).

Definition demo_settlement : res json * state := Eval vm_compute in
  settle_attempt_route remote_service remote_iso (fun _ _ => JNull) demo_attempt_id settle_report (JStr "settle-1") JNull
    None demo_dispatched.2.

