(* ===== verification/ChildFacts.v ===== *)
(** * What delegation guarantees

    Authorities are read back as they were signed and only with their exact
    signature; a child is admitted only under a live parent and within its
    policy; and the objects an attempt derives stay within the budget of the
    policy. *)

From Stdlib Require Import ZArith String Ascii List Bool Lia.
From stdpp Require Import base list strings.
From S2P Require Import Prelude Json Errors Facts Sha256 Base64 Store Idempotency Ledger Bindings.
From S2P Require Import Executors Continuations Snapshots Delegation Claim Outputs Settle Runs.
From S2P Require Import Admission Effects Generations Wire Commands Deployments Activation Recovery Dispatch.
From S2P Require Import Staging ChildPolicy Settlement Pages Authority Children Demo Evolution Leases ActivationFacts.
From S2P Require Import DispatchFacts StagingFacts ChildPolicyFacts Routes SettlementFacts.

Open Scope Z_scope.

(** ** Tokens *)

Definition plain_digit (c : ascii) : bool := negb (Ascii.eqb c dot).

Lemma digits_plain : forallb (fun n => plain_digit (b64_char n)) (below 64) = true.
Proof. vm_compute. reflexivity. Qed.

Lemma digit_plain n : (n < 64)%N -> plain_digit (b64_char n) = true.
Proof.
  intros Hn. pose proof digits_plain as Hp. rewrite forallb_forall in Hp. apply Hp. apply in_below. lia.
Qed.

Lemma encode_plain s : all_chars plain_digit (b64_encode s) = true.
Proof.
  enough (forall n s, (String.length s <= n)%nat -> all_chars plain_digit (b64_encode s) = true) as Hall by by eapply Hall.
  clear s. induction n as [|n IH]; intros s Hn; [by destruct s; [|simpl in Hn; lia]|].
  destruct s as [|a [|b [|c r]]]; [done| | |].
  - destruct (group_bytes (N_of_ascii a) 0 0) as (H1 & H2 & _); [apply byte_bound|lia..|].
    change (0 / 16)%N with 0%N in H2. rewrite N.add_0_r in H2. cbn [b64_encode all_chars].
    by rewrite !digit_plain.
  - destruct (group_bytes (N_of_ascii a) (N_of_ascii b) 0) as (H1 & H2 & H3 & _); [apply byte_bound..|lia|].
    change (0 / 64)%N with 0%N in H3. rewrite N.add_0_r in H3. cbn [b64_encode all_chars].
    by rewrite !digit_plain.
  - destruct (group_bytes (N_of_ascii a) (N_of_ascii b) (N_of_ascii c)) as (H1 & H2 & H3 & H4 & _); [apply byte_bound..|].
    cbn [b64_encode all_chars]. rewrite !digit_plain, IH by (done || (simpl in Hn; lia)). done.
Qed.

Lemma all_chars_rstrip p q s : all_chars p s = true -> all_chars p (rstrip_by q s) = true.
Proof.
  induction s as [|c s IH]; [done|]. cbn [all_chars rstrip_by]. intros Hs. bool_hyps. specialize (IH H0).
  destruct (rstrip_by q s) as [|d r]; [destruct (q c); [done|cbn [all_chars]; by rewrite H]|].
  cbn [all_chars] in *. by rewrite H, IH.
Qed.

Lemma count_plain s : all_chars plain_digit s = true -> count_char dot s = 0%nat.
Proof.
  induction s as [|c s IH]; [done|]. cbn [all_chars count_char]. unfold plain_digit at 1. intros Hs. bool_hyps.
  rewrite H. by apply IH.
Qed.

Lemma count_app c a b : count_char c (a +:+ b) = (count_char c a + count_char c b)%nat.
Proof.
  induction a as [|x a IH]; [done|]. change (count_char c (String x a +:+ b)) with
    ((if Ascii.eqb x c then 1 else 0) + count_char c (a +:+ b))%nat. rewrite IH. cbn [count_char]. lia.
Qed.

Lemma partition_plain a b : all_chars plain_digit a = true -> partition_on dot (a +:+ "." +:+ b) = (a, Some b).
Proof.
  induction a as [|c a IH]; [done|]. cbn [all_chars]. unfold plain_digit at 1. intros Hs. bool_hyps.
  change (partition_on dot (String c a +:+ "." +:+ b)) with
    (if Ascii.eqb c dot then (EmptyString, Some (a +:+ "." +:+ b))
     else let '(h, t) := partition_on dot (a +:+ "." +:+ b) in (String c h, t)).
  rewrite H, IH by done. done.
Qed.

Lemma hex_plain s : all_chars is_hex s = true -> all_chars plain_digit s = true /\ all_chars is_ascii s = true.
Proof.
  induction s as [|c s IH]; [done|]. cbn [all_chars]. intros Hs. bool_hyps. destruct (IH H0) as [-> ->].
  rewrite !andb_true_r. assert (forallb (fun n => negb (is_hex (ascii_of_N n)) ||
    plain_digit (ascii_of_N n) && is_ascii (ascii_of_N n)) (below 256) = true) as Hall by (vm_compute; reflexivity).
  rewrite forallb_forall in Hall. specialize (Hall (N_of_ascii c) (in_below 256 (N_of_ascii c) ltac:(pose proof (byte_bound c); lia))).
  rewrite ascii_N_embedding, H in Hall. simpl in Hall. by apply andb_true_iff in Hall.
Qed.

Lemma hmac_hex key text : all_chars is_hex (hmac_sha256 key text) = true.
Proof. unfold hmac_sha256, digest_bytes. apply hex_of_shape, concat_bytes. Qed.

Lemma partition_none c s h : partition_on c s = (h, None) -> h = s /\ count_char c s = 0%nat.
Proof.
  revert h. induction s as [|x s IH]; intros h; simpl; [by intros [= <-]|].
  destruct (Ascii.eqb x c); [done|]. destruct (partition_on c s) as [h' t] eqn:E. intros [= <- ->].
  destruct (IH h' eq_refl) as [-> ->]. done.
Qed.

Section Tokens.
Context `{World} (svc : service) (secret : string).

(** A payload of this session under the size limit. *)
Record of_session (payload : json) : Prop := {
  os_dict : is_dict payload = true;
  os_version : jget payload "version" = JInt 1;
  os_realm : jget payload "realm_id" = JStr realm_id;
  os_session : jget payload "session_id" = JStr (sv_session_id svc) }.

Lemma decode_signed payload :
  of_session payload -> utf8_valid (canonical_json payload) = true ->
  py_len (sign_payload secret payload) <= AUTHORITY_MAX_CHARS ->
  decode_child_authority svc secret (JStr (sign_payload secret payload)) = Ok (json_column payload).
Proof.
  intros [Hd Hv Hr Hs] Hu Hl. unfold decode_child_authority. set (token := sign_payload secret payload) in *.
  assert (all_chars plain_digit (b64_text (canonical_json payload)) = true) as Hp by apply all_chars_rstrip, encode_plain.
  destruct (hex_plain _ (hmac_hex secret (b64_text (canonical_json payload)))) as [Hq Ha].
  assert (count_char dot token = 1%nat) as ->.
  { unfold token, sign_payload. by rewrite !count_app, (count_plain _ Hp), (count_plain _ Hq). }
  replace (AUTHORITY_MAX_CHARS <? py_len token) with false by (symmetry; by apply Z.ltb_ge).
  unfold token, sign_payload. rewrite partition_plain by done. unfold mbind, res_bind.
  set (signature := hmac_sha256 _ _) in *.
  assert (compare_digest (default EmptyString (Some signature)) signature = Ok true) as ->
    by (unfold compare_digest; simpl; by rewrite Ha, String.eqb_refl).
  cbn [orb negb Nat.eqb raise_if]. cbv beta iota zeta. cbn [raise_if negb]. unfold cursor_value. rewrite b64_decode_text, Hu.
  unfold canonical_json. rewrite json_loads_dumps.
  rewrite !jget_jnorm, Hv, Hr, Hs. cbn [jnorm is_json_str py_eq]. rewrite !String.eqb_refl.
  assert (is_dict (jnorm payload) = true) as -> by by destruct payload.
  reflexivity.
Qed.

Lemma signed_text payload : b64_decode (partition_on dot (sign_payload secret payload)).1 = Some (canonical_json payload).
Proof.
  unfold sign_payload. rewrite partition_plain by apply all_chars_rstrip, encode_plain. apply b64_decode_text.
Qed.

(** Only texts with the exact signature of the session are read. *)
Lemma decode_authentic token payload :
  decode_child_authority svc secret token = Ok payload ->
  exists encoded, token = JStr (encoded +:+ "." +:+ hmac_sha256 secret encoded) /\ cursor_value encoded = Some payload /\
    py_eq (jget payload "version") (JInt 1) = true /\ jget payload "realm_id" = JStr realm_id /\
    jget payload "session_id" = JStr (sv_session_id svc).
Proof.
  unfold decode_child_authority. destruct token as [| | |s| |]; try done. intros E.
  apply res_bind_Ok in E as (u & Hc & E). destruct (partition_on dot s) as [encoded rest] eqn:Ep.
  apply res_bind_Ok in E as (same & Hs & E). apply res_bind_Ok in E as (u' & Hsame & E).
  unfold raise_if in Hc, Hsame. destruct (_ || _) eqn:Eb in Hc; [done|]. destruct same; [|done].
  apply orb_false_iff in Eb as [_ Eb]. apply negb_false_iff, Nat.eqb_eq in Eb.
  unfold compare_digest in Hs. destruct (all_chars is_ascii _); [|done]. injection Hs as Hs. apply String.eqb_eq in Hs.
  destruct (cursor_value encoded) as [p|] eqn:Ev; [|done]. res_inv. bool_hyps. exists encoded.
  destruct rest as [rest|].
  - apply partition_on_some in Ep. simpl in Hs. subst. split; [done|]. split; [done|]. split; [done|].
    split; by apply is_json_str_inv.
  - apply partition_none in Ep as [_ Ep]. lia.
Qed.
End Tokens.

(** ** The parent of a delegation *)

#[local] Existing Instance anything_preorder.

(** The attempt runs the task, and the policy is the one in its spec. *)
Record delegates (attempt_id : string) (t : tables) (a : attempt_row) (x : task_row) (project : option string)
    (policy : json) : Prop := {
  dl_attempt : attempt_by_id attempt_id t = Some a;
  dl_settled : at_settled a = false;
  dl_task : task_by_id (at_task_id a) t = Some x;
  dl_holds : holds_task a x = true;
  dl_project : exists r, run_by_id (t_run_id x) t = Some r /\ project = r_project_id r;
  dl_policy : exists value, child_policy value = Ok policy }.

Section Parents.
Context `{World} (svc : service) (iso : string -> option (Z * bool)).

Lemma live_parent_post attempt_id lease identity t0 :
  post (fun t => t = t0) (live_delegating_parent svc iso attempt_id lease identity)
    (fun r t => delegates attempt_id t0 r.1.1.1 r.1.1.2 r.1.2 r.2 /\ t = t0).
Proof.
  unfold live_delegating_parent. apply post_view. eapply post_bind; [apply post_read; steps_walk|]. intros [].
  apply post_view. destruct (attempt_by_id attempt_id t0) as [a|] eqn:Ea.
  2: { eapply post_bind; [apply post_any|]. intros []. apply post_raise. }
  eapply post_bind; [apply attempt_lease_post|]. intros []. apply post_pure. intros Hs. apply post_view.
  destruct (task_by_id (at_task_id a) t0) as [x|] eqn:Ex; [|apply post_raise]. guards.
  do 2 (eapply post_bind; [apply post_read; steps_walk|]; intros ?). guards.
  eapply post_bind; [apply post_lift|]. intros policy. apply post_pure. intros Hp. apply post_view.
  destruct (run_by_id (t_run_id x) t0) as [r|] eqn:Er; [|apply post_raise].
  eapply post_bind; [apply post_read; steps_walk|]. intros []. apply post_ret. intros t ->. split; [|done].
  constructor; simpl; try done; by eexists.
Qed.
End Parents.

(** ** The budget of derived inputs *)

(** Objects and their sizes, in the order of the registry. *)
Definition shape (registry : list (string * json)) : list (string * Z) := map (fun kv => (kv.1, size_at kv.2)) registry.

Definition note_shape (sh : list (string * Z)) (item : json) : list (string * Z) :=
  if str_in (text_at item "object_id") (map fst sh) then sh else sh ++ [(text_at item "object_id", size_at item)].

Lemma shape_keys r : map fst (shape r) = akeys r.
Proof. unfold shape, akeys. by rewrite map_map. Qed.

Lemma candidates_shape items r : shape (with_candidates r items) = foldl note_shape (shape r) items.
Proof.
  revert r. unfold with_candidates. induction items as [|item items IH]; intros r; [done|]. cbn [foldl]. rewrite IH. f_equal.
  unfold note_shape. rewrite shape_keys. destruct (str_in _ _); [done|]. unfold shape. by rewrite map_app.
Qed.

Lemma total_shape r : total_size (map snd r) = foldr (fun p n => p.2 + n) 0 (shape r).
Proof. induction r as [|[k v] r IH]; [done|]. unfold total_size in *. cbn [map foldr shape]. by rewrite IH. Qed.

Section Budget.
Context `{World} (svc : service) (iso : string -> option (Z * bool)).

Lemma register_item_shape by_ r refs item P :
  post P (register_item by_ (r, refs) item) (fun st _ => shape st.1 = note_shape (shape r) item).
Proof.
  unfold register_item. cbv zeta.
  eapply post_bind; [apply post_any|]. intros authorized. eapply post_bind; [apply post_any|]. intros [].
  set (id := text_at item "object_id").
  eapply (post_bind _ _ _ (fun st _ => shape st.1 = note_shape (shape r) item)).
  - destruct (alookup id r) as [previous|] eqn:El.
    + eapply post_bind; [apply post_any|]. intros []. apply post_ret. intros t _. unfold note_shape. rewrite shape_keys. fold id.
      by rewrite (proj2 (str_in_spec _ _) (proj1 (alookup_Some_key id r) (ex_intro _ _ El))).
    + do 6 (eapply post_bind; [apply post_any|]; intros ?). apply post_ret. intros t _. simpl. unfold note_shape.
      rewrite shape_keys. fold id. rewrite (proj2 (str_in_false _ _) (proj1 (alookup_None_key id r) El)). unfold shape.
      rewrite map_app. simpl. unfold size_at. by rewrite !jget_set_ne by done.
  - intros [r' ref]. eapply post_bind; [apply (post_steps eq); [steps_walk|by intros ? ? ->]|]. intros []. by apply post_ret.
Qed.

Lemma register_items_shape by_ items r refs P :
  post P (foldS (register_item by_) (r, refs) items) (fun st _ => shape st.1 = foldl note_shape (shape r) items).
Proof.
  revert r refs P. induction items as [|item items IH]; intros r refs P; [by apply post_ret|]. cbn [foldS foldl].
  eapply post_bind; [apply register_item_shape|]. intros [r' refs']. simpl.
  intros s Hs. destruct (IH r' refs' (fun _ => True) s I) as [_ Hq]. split; [done|].
  destruct (foldS _ _ _ _) as [[st|e] s']; simpl in *; [|done]. by rewrite Hq, Hs.
Qed.

(** The task row names a spec whose registry of derived inputs is within the
    limits of the policy. *)
Definition within_budget (policy : json) (id : string) (t : tables) : Prop :=
  exists spec registry y, task_by_id id t = Some y /\
    t_spec_digest y = Some (sha256 (canonical_json (jset spec "derived_input_registry" (JObj registry)))) /\
    Z.of_nat (length registry) <= limit policy "max_derived_objects" /\
    total_size (map snd registry) <= limit policy "max_derived_bytes".

Lemma derived_items_bounded policy project registry inputs items :
  derived_items policy project registry inputs = Ok items ->
  Z.of_nat (length (with_candidates registry items)) <= limit policy "max_derived_objects" /\
  total_size (map snd (with_candidates registry items)) <= limit policy "max_derived_bytes".
Proof.
  unfold derived_items. destruct inputs as [| | | |l|]; try done. intros E. res_inv. bool_hyps.
  split; lia.
Qed.

Lemma store_spec_post spec P (Q : tables -> Prop) :
  (forall t t', frame t t' -> P t -> Q t') ->
  post P (store_spec spec) (fun d t => d = sha256 (canonical_json spec) /\ Q t).
Proof.
  intros HP. unfold store_spec. eapply post_bind; [apply post_read; steps_walk|]. intros ts.
  eapply post_bind; [apply (post_modify _ _ Q)|].
  - intros t Ht. eapply HP; [|exact Ht]. apply benign_spec_insert.
  - intros []. by apply post_ret.
Qed.

Lemma register_post by_ policy inputs fence :
  post (has_fence (t_id (sl_task by_)) fence) (register_derived_inputs inputs by_ policy)
    (fun _ t => within_budget policy (t_id (sl_task by_)) t).
Proof.
  unfold register_derived_inputs. set (id := t_id (sl_task by_)).
  eapply post_bind; [apply post_read; steps_walk|]. intros spec. cbv zeta.
  eapply post_bind; [apply post_lift|]. intros items. apply post_pure. intros [Hn Hb]%derived_items_bounded.
  eapply (post_bind _ _ _ (fun st t => shape st.1 = shape (with_candidates (registry_of (at_id (sl_attempt by_)) spec) items) /\
    has_fence id fence t)).
  { rewrite candidates_shape. eapply post_conseq; [apply post_and;
      [apply (register_items_shape by_ items _ _ (fun _ => True))|apply (post_steps frame _ (has_fence id fence))]| |].
    - pose proof (relate_object_steps frame). pose proof (associate_one_steps frame). unfold register_item. benign_walk.
    - eauto with framed.
    - intros t Ht. split; [done|exact Ht].
    - intros [r refs] t Hq. exact Hq. }
  intros [registry refs]. apply post_pure. intros Hshape. simpl in Hshape.
  eapply post_bind; [apply (store_spec_post _ _ (has_fence id fence)); eauto with framed|].
  intros digest. apply post_pure. intros ->.
  eapply post_bind; [apply (post_modify _ _ (within_budget policy id))|intros ?; by apply post_ret].
  intros t (y & Hy & _). eexists spec, registry, _. split; [|split; [|split]].
  - unfold task_by_id. simpl. rewrite find_update_where; [|done]. unfold task_by_id in Hy. rewrite Hy.
    apply find_some in Hy as [_ Hy]. unfold is_task. fold id. rewrite Hy. reflexivity.
  - reflexivity.
  - assert (length registry = length (with_candidates (registry_of (at_id (sl_attempt by_)) spec) items)) as ->; [|done].
    apply (f_equal length) in Hshape. unfold shape in Hshape. by rewrite !length_map in Hshape.
  - by rewrite total_shape, Hshape, <- total_shape.
Qed.
End Budget.

(** ** Issue *)

(** The payload names the parent attempt, its fence and its policy. *)
Record names_parent (payload : json) (a : attempt_row) (x : task_row) (project : option string) (policy : json) : Prop := {
  np_task : jget payload "parent_task_id" = JStr (t_id x);
  np_attempt : jget payload "parent_attempt_id" = JStr (at_id a);
  np_lease : jget payload "parent_lease_id" = JStr (at_lease_id a);
  np_fence : jget payload "parent_fence" = JInt (at_fence a);
  np_epoch : jget payload "runtime_epoch" = JInt (at_runtime_epoch a);
  np_project : jget payload "project_id" = opt_str project;
  np_expiry : jget payload "expires_at" = jstamp (at_lease_expires_at a);
  np_policy : jget payload "policy_digest" = JStr (policy_digest policy) }.

Section Issue.
Context `{World} (svc : service) (iso : string -> option (Z * bool)) (secret : string).

(** What an answered request for an authority leaves. *)
Definition issued (attempt_id : string) (body : json) (t0 : tables) (v : json) (t : tables) : Prop :=
  exists a x project policy payload,
    delegates attempt_id t0 a x project policy /\
    jget v "authority" = JStr (sign_payload secret payload) /\
    of_session svc payload /\ names_parent payload a x project policy /\
    (jhas body "derived_inputs" = true \/ jhas body "child" = true -> within_budget policy (t_id x) t).

Lemma delegates_fence attempt_id t a x project policy :
  delegates attempt_id t a x project policy -> has_fence (t_id x) (t_lease_fence x) t.
Proof.
  intros [_ _ Hx _ _ _]. exists x. split; [|done]. unfold task_by_id in *. pose proof Hx as Hy.
  apply find_some in Hy as [_ Hy]. apply String.eqb_eq in Hy. by rewrite Hy.
Qed.

Lemma issue_post attempt_id body identity t0 :
  post (fun t => t = t0) (issue_child_authority svc iso secret attempt_id body identity) (issued attempt_id body t0).
Proof.
  unfold issue_child_authority, durable_mutation. eapply post_bind; [apply post_read; steps_walk|]. intros [].
  apply post_transaction. eapply post_bind; [apply post_lift|]. intros b. apply post_pure. intros Hb.
  assert (b = body) as -> by (unfold wire_object in Hb; by res_inv).
  do 3 (eapply post_bind; [apply post_read; steps_walk|]; intros ?).
  eapply post_bind; [apply live_parent_post|]. intros [[[a' x] project] policy]. apply post_pure. simpl. intros Hd.
  do 3 (eapply post_bind; [apply post_read; steps_walk|]; intros ?). cbv zeta.
  destruct (jhas body "derived_inputs" || jhas body "child") eqn:Ej.
  - eapply post_bind; [apply post_lift|]. intros child. apply post_pure. intros _.
    eapply post_bind; [eapply post_conseq; [apply (register_post _ _ _ (t_lease_fence x))| |intros ? ? Hq; exact Hq]|].
    { intros t ->. by eapply delegates_fence. }
    intros refs. apply post_ret. intros t Ht. exists a', x, project, policy. eexists.
    split; [done|]. split; [reflexivity|]. split; [by constructor|]. split; [by constructor|]. by intros _.
  - apply post_ret. intros t ->. exists a', x, project, policy. eexists.
    split; [done|]. split; [reflexivity|]. split; [by constructor|]. split; [by constructor|].
    apply orb_false_iff in Ej as [-> ->]. by intros [?|?].
Qed.
End Issue.



(** ** Admission *)

Section Admission.
Context `{World}.

(** The task runs this stage for the parent attempt of the lineage. *)
Record runs_stage (t0 : tables) (project : option string) (lineage : json) (name : string) (x : task_row) : Prop := {
  rs_row : In x (staged_candidates project (jget lineage "parent_attempt_id") t0);
  rs_spec : exists spec t, ran (spec_of x) t0 spec t /\ jget spec "delegated_stage" = JStr name /\
    same_lineage (jget spec "delegated_parent") lineage = true }.

(** An earlier stage is over. *)
Definition stage_over (t0 : tables) (project : option string) (lineage stage : json) : Prop :=
  exists x, runs_stage t0 project lineage (text_at stage "name") x /\ t_status x = Completed.

(** An object a child may consume: a root of the policy, a derived input of
    the authority, or the settled output of a stage that is over. *)
Definition input_allowed (t0 : tables) (project : option string) (policy payload lineage input : json) : Prop :=
  json_in input (list_of (jget policy "input_object_ids") ++
                 map (fun r => jget r "object_id") (list_of (jget_def payload "derived_inputs" (JArr [])))) = true \/
  exists name x id row,
    runs_stage t0 project lineage name x /\ t_status x = Completed /\ output_by_id id t0 = Some row /\
    jget (managed_output_value row) "object_id" = input /\
    py_eq (jget (managed_output_value row) "task_id") (JStr (t_id x)) = true /\
    producer_settled (managed_output_value row) x (jget lineage "runtime_epoch") t0 = true.

Definition siblings_ok (t0 : tables) (project : option string) (lineage : json) (l : list (string * task_row)) : Prop :=
  Forall (fun p => runs_stage t0 project lineage p.1 p.2) l.

Lemma sibling_of t0 project lineage l name x :
  siblings_ok t0 project lineage l -> alookup name l = Some x -> runs_stage t0 project lineage name x.
Proof.
  intros Hl Hx. apply alookup_In in Hx. unfold siblings_ok in Hl. rewrite List.Forall_forall in Hl. by apply (Hl (name, x)).
Qed.

Lemma spec_reads x t0 : post (fun t => t = t0) (spec_of x) (fun spec t => ran (spec_of x) t0 spec t0 /\ t = t0).
Proof.
  intros s Hs. split; [done|]. pose proof (spec_of_steps eq x s) as Hr.
  destruct (spec_of x s) as [[v|e] s'] eqn:E; simpl in *; [|done]. split; [|congruence]. exists s, s'. split; [done|]. split; [done|congruence].
Qed.

Lemma note_stage_post lineage project l x t0 :
  siblings_ok t0 project lineage l -> In x (staged_candidates project (jget lineage "parent_attempt_id") t0) ->
  post (fun t => t = t0) (note_stage lineage l x) (fun l' t => siblings_ok t0 project lineage l' /\ t = t0).
Proof.
  intros Hl Hx. unfold note_stage. eapply post_bind; [apply spec_reads|]. intros spec. apply post_pure. intros Hs.
  destruct (same_lineage _ _) eqn:El; cbn [negb]; [|apply post_ret; by intros t ->].
  destruct (jget spec "delegated_stage") as [| | |name| |] eqn:En; try (apply post_ret; by intros t ->). guards.
  apply post_ret. intros t ->. split; [|done]. apply Forall_app_2; [done|]. constructor; [|constructor].
  constructor; [done|]. by exists spec, t0.
Qed.

Lemma stage_rows_post lineage project t0 :
  post (fun t => t = t0) (delegated_stage_rows project lineage) (fun l t => siblings_ok t0 project lineage l /\ t = t0).
Proof.
  unfold delegated_stage_rows. apply post_view.
  assert (forall rows l, incl rows (staged_candidates project (jget lineage "parent_attempt_id") t0) ->
    siblings_ok t0 project lineage l ->
    post (fun t => t = t0) (foldS (note_stage lineage) l rows) (fun l t => siblings_ok t0 project lineage l /\ t = t0)) as Hall.
  { induction rows as [|x rows IH]; intros l Hi Hl; [apply post_ret; by intros t ->|]. cbn [foldS].
    eapply post_bind; [apply note_stage_post; [exact Hl|apply Hi; by left]|]. intros l'. apply post_pure. intros Hl'.
    apply IH; [|done]. intros y Hy. apply Hi. by right. }
  apply Hall; [apply incl_refl|constructor].
Qed.

(** ** Inputs of a staged child *)

Lemma producer_input_post expected ref siblings project policy payload lineage t0 :
  siblings_ok t0 project lineage siblings ->
  post (fun t => t = t0) (producer_input expected ref siblings project lineage)
    (fun r t => input_allowed t0 project policy payload lineage (jget r "object_id") /\ t = t0).
Proof.
  intros Hs. unfold producer_input. guards. destruct (alookup _ siblings) as [x|] eqn:Ex; [|apply post_raise]. guards.
  unfold get_managed_output. eapply (post_bind _ _ _ (fun a t => (exists row,
    output_by_id (py_text (jget ref "association_id")) t0 = Some row /\ a = managed_output_value row) /\ t = t0)).
  { apply post_view. destruct (output_by_id _ t0) as [row|] eqn:Er; [|apply post_raise]. apply post_ret. intros t ->.
    split; [|done]. by exists row. }
  intros association. apply post_pure. intros (row & Hr & ->).
  eapply post_bind; [apply post_guard|]. intros []. apply post_pure. unfold producer_changed. intros Hc. bool_hyps.
  apply post_view. guards. apply post_ret. intros t ->. split; [|done]. right.
  exists (text_at expected "producer_stage"), x, (py_text (jget ref "association_id")), row.
  split; [by eapply sibling_of|]. repeat (split; [done|]). done.
Qed.

Lemma resolve_input_post inputs earlier expected ref siblings project policy payload lineage t0 :
  siblings_ok t0 project lineage siblings -> jget policy "input_object_ids" = JArr inputs ->
  resolvable inputs earlier expected ->
  post (fun t => t = t0) (resolve_input siblings project lineage (expected, ref))
    (fun r t => input_allowed t0 project policy payload lineage (jget r "object_id") /\ t = t0).
Proof.
  intros Hs Hi Hr. unfold resolve_input. guards. unfold resolvable in Hr. destruct (jhas expected "root_object_id").
  - guards. apply post_ret. intros t ->. split; [|done]. left. rewrite Hi. unfold json_in in *.
    rewrite existsb_app. apply orb_true_iff. left. exact Hr.
  - by apply producer_input_post.
Qed.

Lemma post_mapS {A B} (f : A -> M B) (R : B -> Prop) l t0 :
  (forall x, In x l -> post (fun t => t = t0) (f x) (fun b t => R b /\ t = t0)) ->
  post (fun t => t = t0) (mapS f l) (fun r t => Forall R r /\ t = t0).
Proof.
  intros Hf. unfold mapS. assert (forall todo acc, incl todo l -> Forall R acc ->
    post (fun t => t = t0) (foldS (fun acc x => y ← f x; mret (acc ++ [y])) acc todo) (fun r t => Forall R r /\ t = t0)) as Hall.
  { induction todo as [|x todo IH]; intros acc Hi Ha; [apply post_ret; by intros t ->|]. cbn [foldS].
    eapply (post_bind _ _ _ (fun r t => Forall R r /\ t = t0)).
    - eapply post_bind; [apply Hf, Hi; by left|]. intros b. apply post_pure. intros Hb. apply post_ret. intros t ->.
      split; [|done]. by apply Forall_app_2; [|constructor].
    - intros r. apply post_pure. intros Hr. apply IH; [|done]. intros y Hy. apply Hi. by right. }
  apply Hall; [apply incl_refl|constructor].
Qed.

Lemma resolve_inputs_post inputs earlier declared supplied siblings project policy payload lineage t0 :
  siblings_ok t0 project lineage siblings -> jget policy "input_object_ids" = JArr inputs ->
  Forall (resolvable inputs earlier) declared ->
  post (fun t => t = t0) (resolve_delegated_stage_inputs declared supplied siblings project lineage)
    (fun r t => Forall (fun x => input_allowed t0 project policy payload lineage (jget x "object_id")) r /\ t = t0).
Proof.
  intros Hs Hi Hd. unfold resolve_delegated_stage_inputs. destruct supplied as [| | | |refs|]; try apply post_raise. guards.
  eapply post_bind; [apply post_mapS with (R := fun x => input_allowed t0 project policy payload lineage (jget x "object_id"))|].
  - intros [expected ref] Hin. apply in_combine_l in Hin. rewrite List.Forall_forall in Hd.
    by apply (resolve_input_post inputs earlier); [| |apply Hd].
  - intros r. apply post_pure. intros Hr. guards. apply post_ret. by intros t ->.
Qed.

Lemma stage_at_declared caps inputs names stages name before stage :
  runnable caps inputs names stages -> stage_at name stages = Some (before, stage) ->
  exists earlier, Forall (resolvable inputs earlier) (list_of (jget stage "inputs")).
Proof.
  intros Hr. assert (Forall (fun st => exists earlier, Forall (resolvable inputs earlier) (list_of (jget st "inputs"))) stages) as Ha.
  { induction Hr as [|names stages st n Hr IH Hs]; [constructor|]. apply Forall_app_2; [done|]. constructor; [|constructor].
    exists names. apply Hs. }
  clear Hr. revert before. induction Ha as [|st stages Hst Ha IH]; intros before; simpl; [done|].
  destruct (is_json_str name (jget st "name")); [by intros [= _ <-]|].
  destruct (stage_at name stages) as [[b f]|] eqn:E; [|done]. intros [= _ <-]. by eapply IH.
Qed.

(** The stage of the child, with every stage before it over. *)
Definition in_turn (t0 : tables) (project : option string) (policy task lineage : json) : Prop :=
  exists name before stage, jget task "stage" = JStr name /\
    stage_at name (list_of (jget policy "stages")) = Some (before, stage) /\
    Forall (stage_over t0 project lineage) before.

Lemma staged_inputs_post project policy payload task request lineage target key caps targets inputs t0 :
  policy_sound policy caps targets inputs -> is_null (jget policy "stages") = false ->
  post (fun t => t = t0) (staged_inputs project policy task request lineage target (list_of (jget policy "stages")) key)
    (fun r t => ((in_turn t0 project policy task lineage /\
      Forall (input_allowed t0 project policy payload lineage) r.1.1) /\
      Z.of_nat (length r.1.1) <= limit policy "max_child_inputs") /\ t = t0).
Proof.
  intros Hp Hn. unfold staged_inputs. destruct (jhas task "input_object_ids"); [apply post_raise|].
  destruct (jget task "stage") as [| | |name| |] eqn:Et; try apply post_raise.
  destruct (stage_at name _) as [[before stage]|] eqn:Ea; [|apply post_raise]. guards.
  eapply post_bind; [apply post_read; steps_walk|]. intros supplied. guards.
  eapply post_bind; [apply stage_rows_post|]. intros siblings. apply post_pure. intros Hs. apply post_view. guards.
  assert (jhas policy "stages" = true) as Hh.
  { unfold jhas, jget in *. destruct (alookup "stages" (jfields policy)); [done|]. done. }
  destruct (ps_stages _ _ _ _ Hp Hh) as (names & stages & Hst & Hrun). rewrite Hst in Ea. simpl in Ea.
  destruct (stage_at_declared _ _ _ _ _ _ _ Hrun Ea) as [earlier Hd].
  eapply post_bind; [apply (resolve_inputs_post inputs earlier _ _ _ _ policy payload); [done|apply Hp|done]|].
  intros resolved. apply post_pure. intros Hr. cbv zeta. guards.
  eapply post_bind; [apply post_read; unfold verified_source_of; steps_walk|]. intros source. apply post_ret. intros t ->.
  split; [|done]. simpl. split; [split|].
  - exists name, before, stage. rewrite Hst. split; [done|]. split; [done|]. apply List.Forall_forall. intros st Hin.
    match goal with H : forallb (stage_done siblings) before = true |- _ => rewrite forallb_forall in H; specialize (H st Hin); rename H into Hdone end.
    unfold stage_done in Hdone. destruct (alookup (text_at st "name") siblings) as [x|] eqn:Ex; [|done].
    apply bool_decide_eq_true in Hdone. exists x. split; [by eapply sibling_of|done].
  - apply List.Forall_map. exact Hr.
  - done.
Qed.

Lemma unstaged_inputs_post a parent project policy payload task lineage t0 :
  post (fun t => t = t0)
    (unstaged_inputs a parent project policy task (list_of (jget_def payload "derived_inputs" (JArr []))))
    (fun r t => (Forall (input_allowed t0 project policy payload lineage) r.1 /\
      Z.of_nat (length r.1) <= limit policy "max_child_inputs") /\ t = t0).
Proof.
  unfold unstaged_inputs. guards. cbv zeta. set (derived := list_of _).
  destruct (jget_def task "input_object_ids" (JArr [])) as [| | | |inputs|]; try apply post_raise. guards.
  assert (Forall (input_allowed t0 project policy payload lineage) inputs) as Ha.
  { apply List.Forall_forall. intros i Hi. left.
    match goal with H : existsb _ inputs = false |- _ => rename H into He end.
    destruct (json_in i _) eqn:Ej; [done|]. exfalso. apply not_true_iff_false in He. apply He. apply existsb_exists.
    exists i. split; [done|]. by apply negb_true_iff. }
  destruct (nil_or derived); [apply post_ret; by intros t ->|]. guards.
  do 2 (eapply post_bind; [apply post_read; unfold check_derived_ref; steps_walk|]; intros ?). apply post_ret. by intros t ->.
Qed.

(** What is known of an admitted child. *)
Record within_policy (t0 : tables) (a : attempt_row) (parent : task_row) (project : option string)
    (policy payload task lineage : json) (key : string) (inputs : list json) : Prop := {
  wp_capability : json_in (pin_of task) (list_of (jget policy "capabilities")) = true;
  wp_digest : py_eq (jget payload "policy_digest") (JStr (policy_digest policy)) = true;
  wp_counts : let c := delegated_child_accounting (t_id parent) (at_id a) (Some key) t0 in
    ac_replay c = true \/
    (ac_lifetime c < limit policy "max_children" /\ ac_active c < limit policy "max_active_children");
  wp_inputs : Forall (input_allowed t0 project policy payload lineage) inputs;
  wp_length : Z.of_nat (length inputs) <= limit policy "max_child_inputs";
  wp_stage : is_null (jget policy "stages") = false -> in_turn t0 project policy task lineage }.

Section Admit.
Context (svc : service) (iso : string -> option (Z * bool)) (secret : string) (calls : admission_calls).

(** The child was created with the lineage of its parent and these inputs. *)
Definition created_under (t0 : tables) (project : option string) (payload lineage : json) (key : string) (inputs : list json)
    (v : json) (t : tables) : Prop :=
  exists admitted by_, ran (service_create_task svc calls admitted true false by_) t0 v t /\
    jget admitted "input_object_ids" = JArr inputs /\ jget admitted "idempotency_key" = JStr key /\
    jget admitted "project" = opt_str project /\
    dg_lineage by_ = jset lineage "policy_digest" (jget payload "policy_digest").

Lemma child_inputs_post a parent project policy payload task request lineage target key t0 value :
  child_policy value = Ok policy ->
  post (fun t => t = t0) (child_inputs a parent project policy task request lineage target
      (list_of (jget_def payload "derived_inputs" (JArr []))) key)
    (fun r t => ((is_null (jget policy "stages") = false -> in_turn t0 project policy task lineage) /\
      Forall (input_allowed t0 project policy payload lineage) r.1.1 /\
      Z.of_nat (length r.1.1) <= limit policy "max_child_inputs") /\ t = t0).
Proof.
  intros Hv. unfold child_inputs. destruct (is_null (jget policy "stages")) eqn:En.
  - eapply post_bind; [apply (unstaged_inputs_post a parent project policy payload task lineage)|].
    intros [inputs resolved]. apply post_pure. intros [Ha Hl]. apply post_ret. intros t ->. by split.
  - destruct (child_policy_sound _ _ Hv) as (caps & targets & inputs & Hp).
    eapply post_conseq; [by apply (staged_inputs_post project policy payload task request lineage target key caps targets inputs t0)|intros t Ht; exact Ht|].
    intros [[l resolved] source] t [[[Hi Ha] Hl] ->]. by split.
Qed.

Lemma checked_child_post payload identity a parent project policy target version task key t0 value :
  child_policy value = Ok policy -> json_in (pin_of task) (list_of (jget policy "capabilities")) = true ->
  py_eq (jget payload "policy_digest") (JStr (policy_digest policy)) = true ->
  post (fun t => t = t0)
    (admit_checked_child svc calls payload identity a parent project policy target version task key)
    (fun v t => exists placement inputs, let lineage := lineage_of_parent a parent project placement target version in
      within_policy t0 a parent project policy payload task lineage key inputs /\
      created_under t0 project payload lineage key inputs v t).
Proof.
  intros Hv Hcap Hdig. unfold admit_checked_child. apply post_view.
  set (counts := delegated_child_accounting _ _ _ _).
  eapply (post_bind _ _ _ (fun _ t => (ac_replay counts = true \/
    (ac_lifetime counts < limit policy "max_children" /\ ac_active counts < limit policy "max_active_children")) /\ t = t0)).
  { unfold check_child_counts. destruct (ac_replay counts); [apply post_ret; intros t ->; split; [by left|done]|].
    eapply post_bind; [apply post_guard|]. intros []. apply post_pure. intros H1.
    eapply post_conseq; [apply post_guard|intros t Ht; exact Ht|]. intros [] t [H2 ->]. bool_hyps.
    split; [right; split; lia|done]. }
  intros []. apply post_pure. intros Hcounts. cbv zeta. guards.
  eapply post_bind; [apply post_read; steps_walk|]. intros placement. set (lineage := lineage_of_parent _ _ _ _ _ _).
  eapply post_bind; [by apply (child_inputs_post _ _ _ _ payload _ _ _ _ _ _ value)|].
  intros [[inputs resolved] source]. apply post_pure. intros (Hturn & Hin & Hlen).
  do 2 (eapply post_bind; [apply post_read; steps_walk|]; intros ?). guards.
  eapply post_bind; [apply post_read; steps_walk|]. intros request. guards.
  eapply post_conseq; [apply post_ran|intros t Ht; exact Ht|]. intros v t Hr. exists placement, inputs. simpl.
  split; [by constructor|]. eexists _, _. split; [exact Hr|]. unfold admitted_body. cbv zeta.
  split; [|split; [apply jget_set_eq|split; [rewrite jget_set_ne by done; apply jget_set_eq|done]]].
  do 2 rewrite jget_set_ne by done. unfold put.
  destruct (is_null source), (is_null request); repeat rewrite jget_set_ne by done; apply jget_set_eq.
Qed.
End Admit.
End Admission.


(** ** An instance *)

#[local] Existing Instance demo_world.

Definition render_digest : string := "sha256:" +:+ sha256 "render".

Definition family_policy : json :=
  JObj [("capabilities", JArr [JObj [("capability_id", JStr "render"); ("capability_digest", JStr render_digest)]]);
        ("targets", JArr [default_target]); ("input_object_ids", JArr [])].

(** A session with one worker for both capabilities, and a parent task that
    may delegate renders. *)
Definition family_setup : M json :=
  let offers id digest := JObj [("capability_id", JStr id); ("definition_digest", JStr digest);
                                ("required_resource_keys", JArr [])] in
  begin_runtime_session "boot-1" None;;
  register_capability "edit" demo_digest (JArr []) "ready" None (JInt 0) (JInt 0);;
  register_capability "render" render_digest (JArr []) "ready" None (JInt 0) (JInt 0);;
  upsert_executor "worker-1" (JArr [offers "edit" demo_digest; offers "render" render_digest])
    2 (JArr []) "v1" "ready" None (JInt 1) None None None JNull;;
  service_create_task remote_service no_admission_calls
    (JObj [("capability_id", JStr "edit"); ("capability_digest", JStr demo_digest); ("project", JStr "demo");
           ("idempotency_key", JStr "parent-1"); ("child_delegation", family_policy)]) false false not_delegated;;
  claim_next remote_service remote_iso
    (JObj [("executor_id", JStr "worker-1"); ("capability_ids", JArr [JStr "edit"]); ("runtime_epoch", JInt 1)])
    (JStr "claim-1") JNull.

Definition family : res json * state := Eval vm_compute in family_setup demo_start.
Definition family_attempt : string := Eval vm_compute in
  match family.1 with Ok v => text_of (jget v "attempt_id") | Err _ => EmptyString end.
Definition family_worker : json := JObj [("actor", JStr "worker-1")].
Definition family_request : json := Eval vm_compute in
  match family.1 with
  | Ok v => JObj [("lease_id", jget v "lease_id"); ("fence", jget v "fence"); ("runtime_epoch", JInt 1);
                  ("child", JObj [("child_id", JStr "child-1"); ("capability_id", JStr "render");
                                  ("capability_digest", JStr render_digest)])]
  | Err _ => JNull
  end.
Definition family_issued : res json * state := Eval vm_compute in
  issue_child_authority remote_service remote_iso "secret" family_attempt family_request family_worker family.2.
Definition family_child : json := Eval vm_compute in
  match family_issued.1 with
  | Ok v => JObj [("authority", jget v "authority");
                  ("task", JObj [("capability_id", JStr "render"); ("capability_digest", JStr render_digest)])]
  | Err _ => JNull
  end.
Definition family_admitted : res json * state := Eval vm_compute in
  admit_delegated_child remote_service remote_iso "secret" no_admission_calls family_child (JStr "child-1") family_worker
    family_issued.2.

Lemma family_issue : exists v, issue_child_authority remote_service remote_iso "secret" family_attempt family_request
  family_worker family.2 = (Ok v, family_issued.2) /\ jget v "authority" = jget family_child "authority".
Proof. eexists. split; vm_compute; reflexivity. Qed.



Lemma family_admission : exists v, admit_delegated_child remote_service remote_iso "secret" no_admission_calls family_child
  (JStr "child-1") family_worker family_issued.2 = (Ok v, family_admitted.2).
Proof. eexists. vm_compute. reflexivity. Qed.


(** A signature that is not ASCII is answered with [TypeError] instead of the
    error of an invalid authority. *)
Example foreign_signature :
  match decode_child_authority remote_service "secret" (JStr ("e30." +:+ String "195" (String "169" EmptyString))) with
  | Err e => exn_class e = TypeError
  | Ok _ => False
  end.
Proof. reflexivity. Qed.
