(* ===== verification/TaskHistory.v ===== *)
(** * The history of a task

    A completed task stays completed until an owner retries it, and a retry
    leaves an event.  [moves] is what every handler of the store and every
    command of the service does to the tasks: identity is immutable, fences
    and attempt counts never decrease, and a task whose history shows no
    retry keeps its completion. *)

From Stdlib Require Import ZArith String Ascii List Bool Lia.
From stdpp Require Import base list strings.
From S2P Require Import Prelude Json Errors Facts Sha256 Store Idempotency Ledger Bindings.
From S2P Require Import Executors Continuations Snapshots Delegation Claim Outputs Settle Runs.
From S2P Require Import Admission Effects Generations Wire Commands Deployments Activation Recovery Dispatch.
From S2P Require Import Staging ChildPolicy Settlement Authority Children Evolution Leases ActivationFacts DispatchFacts StagingFacts.
From S2P Require Import GenerationFacts Chain Tasks Routes.

Open Scope Z_scope.

(** ** Recovery of a placement cancels unfinished children only *)

Section Recoveries.
Context `{World} (svc : service) (iso : string -> option (Z * bool)).

Lemma fence_child_holds ids id v r ts c :
  (t_status c.1 <> Completed -> In (t_id c.1) ids) -> holds ids (fence_child id v r ts c).
Proof.
  intros Hin. unfold fence_child. destruct (bool_decide (t_status c.1 = Queued)) eqn:E.
  - apply bool_decide_eq_true in E. assert (In (t_id c.1) ids) as Hid by (apply Hin; by rewrite E).
    holds_walk; undo_update.
  - holds_walk.
Qed.

Lemma recover_placement_undoes id b k i : steps undoes (recover_task_placement svc iso id b k i).
Proof.
  unfold recover_task_placement. apply durable_steps; [exact _|].
  pose proof (fun a k h p => command_replay_plain undoes svc "task.placement_recover" a k h p eq_refl eq_refl).
  pose proof (fun a key h r p ev st n b c => service_record_steps undoes svc "task.placement_recover" a key h r p ev st n b c eq_refl).
  unfold recover_body, recover_fresh, commit_recovery. apply holds_to_steps.
  holds_walk_with ltac:(idtac; lazymatch goal with
    | |- holds [] (service_children _ ≫= _) => apply holds_read_children
    end).
  apply holds_foldS. intros acc c Hc. apply holds_bind; [|holds_walk]. apply fence_child_holds.
  apply in_unfinished_ids. by apply in_map.
Qed.
End Recoveries.

(** ** Retries *)

(** A retry of the task is among the events recorded since [t]. *)
Definition retried (id : string) (t t' : tables) : Prop :=
  exists new e, events t' = events t ++ new /\ In e new /\ e_task_id e = Some id /\ e_kind e = "task.retried".

Definition grew (t t' : tables) : Prop := exists new, events t' = events t ++ new.

#[global] Instance grew_preorder : PreOrder grew.
Proof.
  split.
  - intros t. exists []. by rewrite app_nil_r.
  - intros a b c [l Hl] [m Hm]. exists (l ++ m). by rewrite Hm, Hl, app_assoc.
Qed.

Lemma retried_before id a b c : retried id a b -> grew b c -> retried id a c.
Proof.
  intros (new & e & Hn & Hin & He) [m Hm]. exists (new ++ m), e. rewrite Hm, Hn, app_assoc. split; [done|].
  split; [|done]. apply in_or_app. by left.
Qed.

Lemma retried_after id a b c : grew a b -> retried id b c -> retried id a c.
Proof.
  intros [m Hm] (new & e & Hn & Hin & He). exists (m ++ new), e. rewrite Hn, Hm, app_assoc. split; [done|].
  split; [|done]. apply in_or_app. by right.
Qed.

(** What no handler and no command changes, and what never decreases. *)
Record task_moves (x y : task_row) : Prop := {
  tm_id : t_id y = t_id x;
  tm_run : t_run_id y = t_run_id x;
  tm_capability : t_capability y = t_capability x;
  tm_fence : t_lease_fence x <= t_lease_fence y;
  tm_attempt : t_attempt x <= t_attempt y }.

#[global] Instance task_moves_preorder : PreOrder task_moves.
Proof. split; [intros x; by constructor|]. intros x y z [] []. constructor; try congruence; lia. Qed.

Lemma evolves_task_moves x y : task_evolves x y -> task_moves x y.
Proof. intros []. by constructor. Qed.

Record moves (t t' : tables) : Prop := {
  mv_events : grew t t';
  mv_keys : task_keys t -> task_keys t';
  mv_tasks : task_keys t -> forall x, In x (tasks t) ->
    exists y, In y (tasks t') /\ task_moves x y /\ (task_evolves x y \/ retried (t_id x) t t') }.

#[global] Instance moves_preorder : PreOrder moves.
Proof.
  split.
  - intros t. constructor; [reflexivity|done|]. intros _ x Hx. exists x. split; [done|]. split; [reflexivity|by left].
  - intros a b c [E1 K1 T1] [E2 K2 T2]. constructor; [by etrans|auto|]. intros Hk x Hx.
    destruct (T1 Hk x Hx) as (y & Hy & Hxy & Hr1). destruct (T2 (K1 Hk) y Hy) as (z & Hz & Hyz & Hr2).
    exists z. split; [done|]. split; [by etrans|]. destruct Hr1 as [Hr1|Hr1]; [|right; by eapply retried_before].
    destruct Hr2 as [Hr2|Hr2]; [left; by etrans|right]. rewrite (tm_id _ _ Hxy) in Hr2. by eapply retried_after.
Qed.

Lemma evolves_moves t t' : evolves t t' -> grew t t' -> moves t t'.
Proof.
  intros [He] Hg. constructor; [done|intros Hk; by apply He|]. intros Hk x Hx. destruct (He Hk) as [_ (l1 & l2 & Hl & Hf)].
  apply list_elem_of_In, list_elem_of_lookup in Hx as [i Hi].
  destruct (Forall2_lookup_l _ _ _ _ _ Hf Hi) as (y & Hy & Hxy). exists y. rewrite Hl. split.
  - apply in_or_app. left. apply list_elem_of_In, list_elem_of_lookup. by exists i.
  - split; [by apply evolves_task_moves|by left].
Qed.

Lemma steps_moves {A} (m : M A) : steps evolves m -> steps extends m -> steps moves m.
Proof. intros He Hx s. apply evolves_moves; [apply He|]. apply (Hx s). Qed.

(** A retry touches one task and records itself. *)

Definition touched_row (id : string) (x y : task_row) : Prop :=
  task_moves x y /\ (t_id x <> id -> task_evolves x y).

#[global] Instance touched_row_preorder id : PreOrder (touched_row id).
Proof.
  split; [intros x; split; reflexivity|]. intros x y z [M1 E1] [M2 E2]. split; [by etrans|]. intros Hne.
  etrans; [by apply E1|]. apply E2. by rewrite (tm_id _ _ M1).
Qed.

Record touches (id : string) (t t' : tables) : Prop := {
  tc_events : grew t t';
  tc_tasks : task_keys t -> task_keys t' /\ grows (touched_row id) (tasks t) (tasks t') }.

#[global] Instance touches_preorder id : PreOrder (touches id).
Proof.
  split.
  - intros t. constructor; [reflexivity|]. intros Hk. split; [done|]. reflexivity.
  - intros a b c [E1 H1] [E2 H2]. constructor; [by etrans|]. intros Hk. destruct (H1 Hk) as [Hkb Hg].
    destruct (H2 Hkb) as [Hkc Hg']. split; [done|]. by etrans.
Qed.

#[global] Instance touches_tasks id : TaskUpdates (touches id) (touched_row id).
Proof.
  intros t p f Hf. constructor; [by exists []; rewrite app_nil_r|]. intros Hk. unfold task_keys in *. simpl. split.
  - rewrite update_keys; [done|]. intros x Hx Hp. by destruct (Hf x Hx Hp) as [[] _].
  - apply grows_update; [reflexivity|auto].
Qed.

Lemma touches_same id t t' : tasks t' = tasks t -> grew t t' -> touches id t t'.
Proof.
  intros Ht Hg. constructor; [done|]. unfold task_keys. rewrite Ht. intros Hk. split; [done|]. reflexivity.
Qed.

#[global] Instance touches_benign id : Benign (touches id).
Proof.
  constructor; try exact _; intros; try (apply touches_same; [done|by exists []; rewrite app_nil_r]).
  - apply touches_same; [done|]. by eexists.
  - apply task_updates. intros x _ _. pose proof (benign_evolves _ _ (H x)). split; [by apply evolves_task_moves|done].
Qed.

Section Retries.
Context `{World} (svc : service).

Lemma retry_row_touches id ts : steps (touches id) (update_tasks (is_task id) (service_retry_row ts)).
Proof.
  apply steps_modify. intros t. apply task_updates. intros x _ Hid.
  unfold is_task in Hid. apply String.eqb_eq in Hid. split; [by constructor|done].
Qed.

Lemma requeue_touches id key h p run c v : steps (touches id) (requeue_task svc id key h p run c v).
Proof.
  pose proof (fun a key h r p ev st n b c => service_record_steps (touches id) svc "task.retry" a key h r p ev st n b c eq_refl).
  pose proof (retry_row_touches id). unfold requeue_task. benign_walk.
Qed.

Lemma grew_keeps {A} id t0 (m : M A) :
  steps (touches id) m -> post (fun t => grew t0 t) m (fun _ t => grew t0 t).
Proof. intros Hm. apply (post_steps (touches id)); [done|]. intros t t' Ht Hg. etrans; [exact Hg|apply Ht]. Qed.

Lemma retried_keeps {A} id t0 (m : M A) :
  steps (touches id) m -> post (fun t => retried id t0 t) m (fun _ t => retried id t0 t).
Proof. intros Hm. apply (post_steps (touches id)); [done|]. intros t t' Ht Hg. eapply retried_before; [exact Hg|apply Ht]. Qed.

Lemma requeue_retried id key h p run c v t0 :
  post (fun t => t = t0) (requeue_task svc id key h p run c v) (fun _ t => retried id t0 t).
Proof.
  pose proof (fun a key h r p ev st n b c => service_record_steps (touches id) svc "task.retry" a key h r p ev st n b c eq_refl) as Hr.
  apply (post_conseq _ (fun t => grew t0 t) _ (fun _ t => retried id t0 t)); [|by intros t ->|done].
  unfold requeue_task. cbv zeta.
  do 3 (eapply post_bind; [apply (grew_keeps id); benign_walk|]; intros ?).
  eapply post_bind; [apply (grew_keeps id), retry_row_touches|]. intros ?. do 2 (eapply post_bind; [apply (grew_keeps id); benign_walk|]; intros ?).
  eapply post_bind; [apply (append_event_post _ _ _ _ _ _ (fun t => retried id t0 t))|].
  { intros t ts [new Hn]. eexists (new ++ [_]), _. simpl. rewrite Hn, <- app_assoc. split; [done|].
    split; [apply in_or_app; right; by left|done]. }
  intros event. do 4 (eapply post_bind; [apply (retried_keeps id); benign_walk|]; intros ?).
  apply (retried_keeps id). apply Hr.
Qed.
End Retries.

#[global] Instance moves_benign : Benign moves.
Proof.
  constructor; try exact _; intros;
    (apply evolves_moves; [first [by apply evolves_same|apply task_updates; intros; by apply benign_evolves]|]);
    first [by exists []; rewrite app_nil_r|by eexists].
Qed.

#[global] Instance moves_checkpoints : CheckpointWrites moves.
Proof. split; intros; (apply evolves_moves; [by apply evolves_same|by exists []; rewrite app_nil_r]). Qed.

Lemma touched_moves id t t' : touches id t t' -> retried id t t' -> moves t t'.
Proof.
  intros [Hg Ht] Hr. constructor; [done|by intros Hk; apply Ht|]. intros Hk x Hx.
  destruct (Ht Hk) as [_ (l1 & l2 & Hl & Hf)]. apply list_elem_of_In, list_elem_of_lookup in Hx as [i Hi].
  destruct (Forall2_lookup_l _ _ _ _ _ Hf Hi) as (y & Hy & Hm & He). exists y. rewrite Hl. split.
  - apply in_or_app. left. apply list_elem_of_In, list_elem_of_lookup. by exists i.
  - split; [done|]. destruct (decide (t_id x = id)) as [->|Hne]; [by right|left; by apply He].
Qed.

Section Moves.
Context `{World} (svc : service) (iso : string -> option (Z * bool)) (fid : nat -> string -> json).

Lemma requeue_moves id key h p run c v : steps moves (transaction (requeue_task svc id key h p run c v)).
Proof.
  intros s. unfold transaction. pose proof (requeue_touches svc id key h p run c v s) as Ht.
  pose proof (proj2 (requeue_retried svc id key h p run c v (tb s) s eq_refl)) as Hr.
  destruct (requeue_task svc id key h p run c v s) as [[r|e] s']; simpl in *; [by eapply touched_moves|reflexivity].
Qed.

Lemma undoes_moves {A} (m : M A) : steps undoes m -> steps extends m -> steps moves m.
Proof. intros Hu. apply steps_moves. by apply undoes_evolves. Qed.

(** Every command of the service stays within [moves]. *)
Lemma serve_moves c :
  command_callbacks undoes c -> command_callbacks extends c -> steps moves (serve svc iso fid c).
Proof.
  intros Hc Hx. assert (steps extends (serve svc iso fid c)) as He.
  { apply (serve_steps extends); [exact _| |done]. intros. apply (claim_task_steps extends (fun _ _ => True)). }
  destruct c as [b k i|a b k i|a b k i|a b k i v|id b k|id b k|[]|calls b e h d|secret a b i|calls secret b k i|a b k i
    |b i|w a b i|l h b i|r o|b i]; simpl in *.
  1-3, 5, 7-20 : apply undoes_moves; [|exact He].
  all: try (apply steps_ignore; [exact _|]).
  - apply claim_next_steps; [exact _|apply claim_task_undoes|apply reap_expired_leases_undoes].
  - apply heartbeat_attempt_steps, _.
  - apply fail_attempt_steps; [exact _|]. intros. by apply fail_task_undoes.
  - apply cancel_canonical_steps; [exact _|]. intros. by apply cancel_task_undoes.
  - apply record_activation_steps, _.
  - apply revoke_steps; [exact _|]. intros. apply contain_undoes.
  - apply begin_drain_steps, _.
  - apply finish_drain_steps; [exact _|]. intros. apply contain_undoes.
  - apply recover_placement_undoes.
  - apply service_create_steps; [exact _|]. intros. apply create_task_steps; first [exact Hc|exact _].
  - apply issue_steps, _.
  - apply admit_child_steps; [exact _|]. intros. apply create_task_steps; first [exact Hc|exact _].
  - apply draft_steps, _.
  - apply prepare_reboot_steps, _.
  - apply checkpoint_steps; exact _.
  - apply reserve_steps; exact _.
  - apply report_steps; exact _.
  - apply resume_steps; [exact _|exact _|]. apply claim_task_undoes.
  - apply steps_moves; apply settle_route_steps; try exact _; intros.
    + apply settle_attempt_evolves; [apply settlement_calls_respect, _|apply settlement_records, _].
    + apply (settle_attempt_steps extends (fun _ _ => True)); [apply settlement_calls_respect, _|apply settlement_records, _].
  - apply retry_canonical_steps; [exact _|]. intros. apply requeue_moves.
Qed.
End Moves.
