(* ===== verification/System.v ===== *)
(** * The ledger as a whole

    The handlers of the store and the commands of the service as the
    operations of one machine, its reachable states, and what holds of all of
    them: the event log only grows and stays hash-chained, tasks move forward
    only and a completed one stays so unless it is retried, and no two leases
    of an executor share a resource. *)

From Stdlib Require Import ZArith String Ascii List Bool Lia Sorted.
From stdpp Require Import base list strings.
From S2P Require Import Prelude Json Errors Facts Sha256 Store Idempotency Ledger Bindings.
From S2P Require Import Executors Continuations Snapshots Delegation Claim Outputs Settle Runs.
From S2P Require Import Admission Effects Generations Wire Commands Deployments Activation Recovery Dispatch.
From S2P Require Import Staging ChildPolicy Settlement Demo Evolution Specs Chain Tasks Reservations Routes.
From S2P Require Import TaskHistory.

Open Scope Z_scope.

(** The receipt a command leaves: command kind, aggregate, key, request hash
    and project ([_command_record] of a project-scoped command); the view is
    the part of the result that is stored. *)
Record receipt_request := ReceiptRequest {
  rq_kind : string; rq_aggregate : string; rq_key : string; rq_hash : string; rq_project : string;
  rq_view : json -> json }.

Section System.
Context `{World}.

Definition command_record (request : option receipt_request) : recorder :=
  fun value event_ids stream created =>
    match request with
    | None => mret tt
    | Some q =>
        record_command_receipt (rq_kind q) (rq_aggregate q) (rq_key q) (rq_hash q) (rq_view q value)
          (rq_project q) event_ids stream None created;;
        mret tt
    end.

Inductive op :=
| BeginSession (boot_id : string) (epoch_floor : option Z)
| RegisterCapability (id digest : string) (keys : json) (status : string) (reason : option string)
    (scratch output : json)
| UpsertExecutor (id : string) (capabilities : json) (max_concurrency : Z) (keys : json)
    (protocol readiness : string) (reason : option string) (epoch : json)
    (source_digest dependency_digest source_epoch : option string) (facts : json)
| SetReadiness (id : string) (ready : bool) (reason : option string) (epoch : json)
| HeartbeatExecutor (id : string) (ready : option bool) (reason : option string) (epoch : json)
| CreateTask (calls : admission_calls) (capability : string) (spec : json) (project key : option string)
    (effect : json) (digest : option string) (enforce : bool) (request : json)
| ClaimNext (task_id executor_id : string) (epoch : Z) (placement : json)
| ClaimTask (task_id executor_id lease_token : string) (epoch : json) (allow_recovery : bool)
| HeartbeatTask (task_id lease : string) (fence : option Z) (seconds : Z) (receipt : option receipt_request)
| SettleAttempt (calls : settlement) (task_id lease : string) (result effect : json) (fence : option Z)
    (attempt_id : string) (receipt : option receipt_request)
| FailTask (task_id lease : string) (failure : json) (fence : option Z) (attempt_id : option string)
    (receipt : option receipt_request)
| CancelTask (task_id : string) (receipt : option receipt_request)
| CancelRun (run_id : string) (key : option string)
| RetryRun (run_id : string) (selected : json) (key : option string)
| ReapLeases
| RetireSpecs (days : option Z)
| PreparePublication (task_id attempt_id : string) (fence epoch : Z) (hash : string) (prepared : json)
| CompletePublication (task_id attempt_id : string) (fence epoch : Z) (timeline_id : string) (version : Z)
    (render_task_id render_run_id : string) (result : json)
| UpdateOutput (association_id operation : string) (version : json) (lease_id owner : option string)
    (seconds : json)
| Serve (svc : service) (fromisoformat : string -> option (Z * bool)) (file_identity : nat -> string -> json)
    (c : command).

Definition handle (o : op) : M unit :=
  match o with
  | BeginSession b f => ignore (begin_runtime_session b f)
  | RegisterCapability i d k s r a b => ignore (register_capability i d k s r a b)
  | UpsertExecutor i c m k p r n e sd dd se f => ignore (upsert_executor i c m k p r n e sd dd se f)
  | SetReadiness i r n e => ignore (set_executor_readiness i r n e)
  | HeartbeatExecutor i r n e => ignore (heartbeat_executor i r n e)
  | CreateTask calls c s p k e d b r => ignore (create_task calls c s p k e d b r)
  | ClaimNext t e ep pl => ignore (claim_selected t e ep pl)
  | ClaimTask t e l ep rec => ignore (claim_task t e l ep true rec)
  | HeartbeatTask t l f n q => ignore (heartbeat_task t l f n (command_record q))
  | SettleAttempt calls t l r e f a q => ignore (settle_attempt calls t l r e f a (command_record q))
  | FailTask t l e f a q => ignore (fail_task t l e f a (command_record q))
  | CancelTask t q => ignore (cancel_task max_depth t (command_record q))
  | CancelRun r k => ignore (cancel_run r k)
  | RetryRun r s k => ignore (retry_run r s k)
  | ReapLeases => reap_overdue_leases
  | RetireSpecs d => ignore (retire_terminal_specs d)
  | PreparePublication t a f e h p => ignore (prepare_timeline_render_publication t a f e h p)
  | CompletePublication t a f e tl v rt rr r => ignore (complete_timeline_render_publication t a f e tl v rt rr r)
  | UpdateOutput a o v l w n => ignore (update_managed_output_lifecycle a o v l w n)
  | Serve svc iso fid c => serve svc iso fid c
  end.

(** The callbacks of an operation stay within a relation. *)
Definition callbacks (I : tables -> tables -> Prop) (o : op) : Prop :=
  match o with
  | CreateTask calls _ _ _ _ _ _ _ _ => admission_respects I calls
  | SettleAttempt calls _ _ _ _ _ _ _ => settlement_respects I calls
  | Serve _ _ _ c => command_callbacks I c
  | _ => True
  end.

Lemma callbacks_weaken (I J : tables -> tables -> Prop) o :
  (forall t t', I t t' -> J t t') -> callbacks I o -> callbacks J o.
Proof.
  intros Hij. assert (forall calls, admission_respects I calls -> admission_respects J calls) as Ha
    by (intros calls []; constructor; intros; by eapply steps_weaken).
  destruct o; simpl; auto; [|by destruct c; simpl; auto]. intros []; constructor; intros; by eapply steps_weaken.
Qed.

(** The state after an operation, whether it returned or raised. *)
Definition after (o : op) (s : state) : state := (handle o s).2.

(** Any sequence of operations, each ending before the next begins. *)
Inductive reachable (I : tables -> tables -> Prop) (s : state) : state -> Prop :=
| reach_here : reachable I s s
| reach_next s' o : reachable I s s' -> callbacks I o -> reachable I s (after o s').

Fixpoint run_ops (ops : list op) (s : state) : state :=
  match ops with
  | [] => s
  | o :: rest => run_ops rest (after o s)
  end.

Lemma run_ops_reachable I ops s0 s :
  reachable I s0 s -> Forall (callbacks I) ops -> reachable I s0 (run_ops ops s).
Proof.
  revert s. induction ops as [|o ops IH]; intros s Hs Hc; simpl; [done|].
  inversion Hc; subst. apply IH; [|done]. by constructor.
Qed.

Lemma command_record_steps (I : tables -> tables -> Prop) `{!Benign I} q : records I (command_record q).
Proof. intros v e s c. unfold command_record. benign_walk. Qed.

(** A preorder every operation stays in is kept along a run. *)
Lemma reachable_steps (I : tables -> tables -> Prop) `{!PreOrder I} J s0 s :
  (forall o, callbacks J o -> steps I (handle o)) -> reachable J s0 s -> I (tb s0) (tb s).
Proof.
  intros Hh. induction 1 as [|s o Hr IH Hc]; [reflexivity|]. etrans; [exact IH|]. by apply Hh.
Qed.

(** The handlers that decide nothing about tasks. *)
Ltac stays :=
  lazymatch goal with
  | |- steps _ (register_capability _ _ _ _ _ _ _) => apply register_capability_steps; exact _
  | |- steps _ (upsert_executor _ _ _ _ _ _ _ _ _ _ _ _) => apply upsert_executor_steps; exact _
  | |- steps _ (set_executor_readiness _ _ _ _) => apply set_executor_readiness_steps; exact _
  | |- steps _ (heartbeat_executor _ _ _ _) => apply heartbeat_executor_steps; exact _
  | |- steps _ (retire_terminal_specs _) => apply retire_terminal_specs_steps; exact _
  | |- steps _ (prepare_timeline_render_publication _ _ _ _ _ _) => apply prepare_publication_steps; exact _
  | |- steps _ (complete_timeline_render_publication _ _ _ _ _ _ _ _ _) =>
      apply complete_publication_steps; exact _
  | |- steps _ (update_managed_output_lifecycle _ _ _ _ _ _) =>
      apply update_managed_output_lifecycle_steps; exact _
  end.

(** A relation that asks nothing of a task's status stays with every
    operation whose claims stay with it. *)
Lemma handle_steps (I : tables -> tables -> Prop) `{!Benign I} `{!CheckpointWrites I} `{!TaskUpdates I (fun _ _ => True)} `{!Admits I} o :
  (forall t l, I t (t {{ runtime_lifecycle := l }})) ->
  (forall t e ep p, steps I (claim_selected t e ep p)) ->
  (forall t e l ep tr rec, steps I (claim_task t e l ep tr rec)) ->
  callbacks I o -> steps I (handle o).
Proof.
  intros Hl Hsel Hclaim. destruct o; cbn [handle callbacks]; intros Hc; try (apply steps_ignore; [exact _|]);
    try stays; try done.
  - by apply (begin_runtime_session_steps I (fun _ _ => True)).
  - apply create_task_steps; first [exact Hc|exact _].
  - apply (heartbeat_task_steps I), command_record_steps; exact _.
  - apply (settle_attempt_steps I (fun _ _ => True)); [done|]. apply command_record_steps, _.
  - apply (fail_task_steps I (fun _ _ => True)), command_record_steps, _.
  - apply (cancel_task_steps I (fun _ _ => True)), command_record_steps, _.
  - apply (cancel_run_steps I (fun _ _ => True)).
  - apply (retry_run_steps I (fun _ _ => True)).
  - apply (reap_overdue_leases_steps I (fun _ _ => True)).
  - by apply serve_steps.
Qed.

(** The same when any claim commit stays with it. *)
Lemma handle_steps_commits (I : tables -> tables -> Prop) `{!Benign I} `{!CheckpointWrites I} `{!TaskUpdates I (fun _ _ => True)}
    `{!Admits I} `{!Commits I} o :
  (forall t l, I t (t {{ runtime_lifecycle := l }})) -> callbacks I o -> steps I (handle o).
Proof.
  intros Hl. apply (handle_steps I); [done| |]; intros.
  - apply (claim_selected_steps I (fun _ _ => True)).
  - apply (claim_task_steps I (fun _ _ => True)).
Qed.

Lemma handle_extends o : callbacks extends o -> steps extends (handle o).
Proof.
  apply (handle_steps_commits extends). intros t l. by apply (extends_other t (fun t => t {{ runtime_lifecycle := l }})).
Qed.

(** The callbacks of admissions and settlements finish no task and only append
    events. *)
Definition guarded (t t' : tables) : Prop := undoes t t' /\ extends t t'.

#[local] Instance guarded_preorder : PreOrder guarded.
Proof. split; [intros t; split; reflexivity|]. intros a b c [] []. split; by etrans. Qed.

Lemma store_moves {A} (m : M A) : steps undoes m -> steps extends (ignore m) -> steps moves (ignore m).
Proof. intros Hm. apply undoes_moves, steps_ignore; [exact _|exact Hm]. Qed.

Lemma handle_moves o : callbacks guarded o -> steps moves (handle o).
Proof.
  intros Hg. assert (callbacks extends o) as Hx by (by eapply callbacks_weaken; [|exact Hg]; intros ? ? []).
  assert (callbacks undoes o) as Hc by (by eapply callbacks_weaken; [|exact Hg]; intros ? ? []).
  pose proof (handle_extends o Hx) as He. destruct o; cbn [handle callbacks] in *;
    try (apply store_moves; [stays|exact He]).
  - apply store_moves; [apply begin_runtime_session_undoes|exact He].
  - apply store_moves; [apply create_task_steps; first [exact Hc|exact _]|exact He].
  - apply store_moves; [apply claim_selected_undoes|exact He].
  - apply store_moves; [apply claim_task_undoes|exact He].
  - apply store_moves; [apply heartbeat_task_undoes, command_record_steps, _|exact He].
  - apply steps_moves; [|exact He]. apply steps_ignore; [exact _|].
    apply settle_attempt_evolves; [done|]. apply command_record_steps, _.
  - apply store_moves; [apply fail_task_undoes, command_record_steps, _|exact He].
  - apply store_moves; [apply cancel_task_undoes, command_record_steps, _|exact He].
  - apply store_moves; [apply cancel_run_undoes|exact He].
  - apply store_moves; [apply retry_run_undoes|exact He].
  - apply undoes_moves; [apply reap_overdue_leases_undoes|exact He].
  - by apply serve_moves.
Qed.

Lemma handle_excludes o : callbacks excludes o -> steps excludes (handle o).
Proof.
  apply (handle_steps excludes); intros; [by apply excludes_same|apply claim_selected_excludes|apply claim_task_excludes].
Qed.

Lemma handle_keeps_specs o : callbacks keeps_specs o -> steps keeps_specs (handle o).
Proof. apply (handle_steps_commits keeps_specs). intros t l. by apply keeps_specs_same. Qed.

(** C1: from a realm whose event table is hash-chained, whatever operations
    are run and whether they succeed or raise, the events recorded so far
    remain, in order, at the head of the table, and every run's chain still
    verifies. *)
Theorem event_log_append_only s0 s :
  chain_ok (tb s0) -> reachable extends s0 s ->
  (exists new, events (tb s) = events (tb s0) ++ new) /\ chain_ok (tb s).
Proof.
  intros Hok Hr. destruct (reachable_steps extends extends s0 s handle_extends Hr) as [Hnew Hkeep]. auto.
Qed.


(** C2: tasks are never removed and only move forward, whatever handlers and
    commands run.  Each task keeps its identity; its fence and attempt count
    never decrease; and a completed task stays completed, with the same result
    and fence, unless the event log shows that it was retried since. *)
Theorem tasks_move_forward s0 s x :
  task_keys (tb s0) -> reachable guarded s0 s -> In x (tasks (tb s0)) ->
  exists y, In y (tasks (tb s)) /\ task_moves x y /\
    (t_status x = Completed -> ~ retried (t_id x) (tb s0) (tb s) ->
     t_status y = Completed /\ t_result_json y = t_result_json x /\ t_lease_fence y = t_lease_fence x).
Proof.
  intros Hk Hr Hx. destruct (reachable_steps moves guarded s0 s handle_moves Hr) as [_ _ Ht].
  destruct (Ht Hk x Hx) as (y & Hy & Hm & Ho). exists y. split; [done|]. split; [done|]. intros Hs Hn.
  destruct Ho as [He|]; [|done]. by apply (te_completed _ _ He).
Qed.

(** C3: no two live leases share a resource.  Among the reservations that
    have not been released, an executor and a resource key determine the
    reservation, whatever operations have run. *)
Theorem resources_exclusive s0 s executor key r r' :
  exclusive (tb s0) -> reachable excludes s0 s ->
  In r (reservations (tb s)) -> In r' (reservations (tb s)) ->
  holds_resource executor key r -> holds_resource executor key r' -> r = r'.
Proof.
  intros Hex Hr. apply ex_single. by apply (reachable_steps excludes excludes s0 s handle_excludes Hr).
Qed.
End System.

(** ** Instances *)

#[local] Existing Instance demo_world.

Lemma no_calls_respect (I : tables -> tables -> Prop) `{!PreOrder I} :
  admission_respects I no_admission_calls /\ settlement_respects I no_settlement_calls.
Proof. split; constructor; intros; steps_walk. Qed.

Definition demo_ops : list op :=
  [ClaimNext demo_task_1 "worker-1" 1 JNull;
   ClaimNext demo_task_2 "worker-1" 1 JNull;
   SettleAttempt no_settlement_calls demo_task_1 demo_lease (JObj [("outputs", JArr [])]) JNull (Some 1)
     demo_attempt None;
   CancelTask demo_task_2 None].

Lemma demo_ops_callbacks (I : tables -> tables -> Prop) `{!PreOrder I} : Forall (callbacks I) demo_ops.
Proof. repeat constructor; simpl; try done; by apply no_calls_respect. Qed.

Lemma demo_reachable (I : tables -> tables -> Prop) `{!PreOrder I} :
  reachable I demo_admitted (run_ops demo_ops demo_admitted).
Proof. apply run_ops_reachable; [constructor|]. by apply demo_ops_callbacks. Qed.


Lemma demo_chain_ok : chain_ok (tb demo_admitted).
Proof. apply chain_okb_sound. vm_compute. reflexivity. Qed.

(** C1 on the sample run. *)
Lemma event_log_append_only_witness :
  chain_ok (tb (run_ops demo_ops demo_admitted)) /\ length (events (tb (run_ops demo_ops demo_admitted))) = 5%nat.
Proof.
  split; [|vm_compute; reflexivity].
  apply (event_log_append_only demo_admitted); [exact demo_chain_ok|]. apply demo_reachable, _.
Defined.


(** C2: the settlement of the sample run, seen from the claimed task. *)
Lemma tasks_move_forward_witness :
  exists x y, task_by_id demo_task_1 (tb demo_claimed) = Some x /\
    In y (tasks (tb (after (nth 2 demo_ops ReapLeases) demo_claimed))) /\ t_id y = t_id x /\
    t_lease_fence x = 1 /\ 1 <= t_lease_fence y.
Proof.
  set (x := nth 0 (tasks (tb demo_claimed)) (new_task_row "x" "r" "c" "d" None None JNull JNull (At 0))).
  destruct (tasks_move_forward demo_claimed (after (nth 2 demo_ops ReapLeases) demo_claimed) x) as (y & Hy & He & _).
  - vm_compute. repeat constructor; simpl; intuition discriminate.
  - constructor; [constructor|]. apply no_calls_respect, guarded_preorder.
  - left. reflexivity.
  - exists x, y. split; [reflexivity|]. split; [exact Hy|].
    split; [exact (tm_id _ _ He)|]. split; [reflexivity|exact (tm_fence _ _ He)].
Defined.

(** Two claims for the same resource: the second one waits. *)
Definition demo_contended : state :=
  after (nth 1 demo_ops ReapLeases) (after (nth 0 demo_ops ReapLeases) demo_admitted).

(** C3: the reservations after both claims. *)
Lemma resources_exclusive_witness :
  exists r, reservations (tb demo_contended) = [r] /\ holds_resource "worker-1" "gpu" r /\ r = r.
Proof.
  assert (exists r, reservations (tb demo_contended) = [r] /\ holds_resource "worker-1" "gpu" r) as (r & Hr & Hh).
  { eexists. split; [vm_compute; reflexivity|]. repeat split; reflexivity. }
  exists r. split; [exact Hr|]. split; [exact Hh|].
  apply (resources_exclusive demo_admitted demo_contended "worker-1" "gpu"); [| |rewrite Hr; by left..|exact Hh|exact Hh].
  - constructor; [constructor|by intros ? ? ? ? []].
  - constructor; [constructor; [constructor|exact I]|exact I].
Defined.

