(* ===== verification/RebootFacts.v ===== *)
(** * What the recovery handshake guarantees

    Checkpoints follow their life cycle whatever else runs, a host is rebooted
    at most once for a checkpoint and only with the nonce, the lease and the
    bytes that were recorded, and a checkpoint is taken up by one attempt, to
    which every later resume of it leads back. *)

From Stdlib Require Import ZArith String Ascii List Bool Lia.
From stdpp Require Import base list strings relations.
From S2P Require Import Prelude Json Errors Facts Sha256 Store Idempotency Ledger Bindings.
From S2P Require Import Executors Continuations Snapshots Delegation Claim Outputs Settle Runs.
From S2P Require Import Admission Effects Generations Wire Durable Commands Deployments Activation Recovery Dispatch.
From S2P Require Import Reboot Demo Evolution Leases ActivationFacts DispatchFacts Tasks Routes System.

Open Scope Z_scope.

(** ** Checkpoints through a run *)

(** The ids and the nonces of checkpoints are keys. *)
Definition checkpoint_keys (t : tables) : Prop :=
  List.NoDup (map ck_id (recovery_checkpoints t)) /\ List.NoDup (map ck_nonce (recovery_checkpoints t)).

Record checkpoints_move (t t' : tables) : Prop := {
  cm_rows : grows (rtc keeps_checkpoint) (recovery_checkpoints t) (recovery_checkpoints t');
  cm_keys : checkpoint_keys t -> checkpoint_keys t' }.

#[global] Instance checkpoints_move_preorder : PreOrder checkpoints_move.
Proof.
  split; [intros t; split; [reflexivity|done]|]. intros a b c [R1 K1] [R2 K2]. split; [by etrans|auto].
Qed.

Lemma checkpoints_move_same t t' : recovery_checkpoints t' = recovery_checkpoints t -> checkpoints_move t t'.
Proof. intros He. split; [rewrite He; reflexivity|]. unfold checkpoint_keys. by rewrite He. Qed.

Lemma update_key {A B} (key : A -> B) (p : A -> bool) f l :
  (forall x, p x = true -> key (f x) = key x) -> map key (update_where p f l) = map key l.
Proof.
  intros Hf. unfold update_where. rewrite map_map. apply map_ext. intros x. destruct (p x) eqn:E; auto.
Qed.

Lemma nodup_snoc {A B} (key : A -> B) l x : List.NoDup (map key l) -> ~ In (key x) (map key l) ->
  List.NoDup (map key (l ++ [x])).
Proof.
  intros Hl Hx. rewrite map_app. apply List.NoDup_app; [done|by repeat constructor; intros []|].
  by intros y Hy [<-|[]].
Qed.

Lemma checkpoints_insert t c :
  existsb (fun x => String.eqb (ck_id x) (ck_id c) || String.eqb (ck_nonce x) (ck_nonce c)) (recovery_checkpoints t) = false ->
  checkpoints_move t (t {{ recovery_checkpoints := recovery_checkpoints t ++ [c] }}).
Proof.
  intros He. assert (forall x, In x (recovery_checkpoints t) -> ck_id x <> ck_id c /\ ck_nonce x <> ck_nonce c) as Hn.
  { intros x Hx. assert (String.eqb (ck_id x) (ck_id c) || String.eqb (ck_nonce x) (ck_nonce c) = false) as E.
    { destruct (_ || _) eqn:E; [|done]. rewrite <- He. symmetry. apply existsb_exists. by exists x. }
    apply orb_false_iff in E as [E1 E2]. by apply String.eqb_neq in E1, E2. }
  split; simpl.
  - exists (recovery_checkpoints t), [c]. split; [done|]. induction (recovery_checkpoints t); by constructor.
  - intros [H1 H2]. split; apply nodup_snoc; try done; intros Hin; apply in_map_iff in Hin as (x & Hx & Hin);
      by destruct (Hn x Hin).
Qed.

#[global] Instance checkpoints_move_benign : Benign checkpoints_move.
Proof. constructor; try exact _; intros; by apply checkpoints_move_same. Qed.

#[global] Instance checkpoints_move_checkpoints : CheckpointWrites checkpoints_move.
Proof.
  split; intros; [|by apply checkpoints_insert]. split; simpl.
  - apply grows_update; [intros x; reflexivity|]. intros x _ Hp. apply rtc_once. by apply H.
  - intros [H1 H2]. split; simpl; rewrite update_key; try done; intros x Hp; apply (kc_same _ _ (H x Hp)).
Qed.

#[global] Instance checkpoints_move_tasks : TaskUpdates checkpoints_move (fun _ _ => True).
Proof. intros t p f _. by apply checkpoints_move_same. Qed.

#[global] Instance checkpoints_move_commits `{World} : Commits checkpoints_move.
Proof.
  intros task spec ex lease epoch st. unfold commit_claim, reserve. benign_walk.
  - apply (update_tasks_ok checkpoints_move (fun _ _ => True)). done.
  - apply steps_modify. intros t. by apply checkpoints_move_same.
Qed.

#[global] Instance checkpoints_move_admits `{World} : Admits checkpoints_move.
Proof. intros row _. unfold insert_task. steps_walk. apply steps_modify. intros t. by apply checkpoints_move_same. Qed.

Lemma handle_checkpoints `{World} o : callbacks checkpoints_move o -> steps checkpoints_move (handle o).
Proof. apply (handle_steps_commits checkpoints_move). intros t l. by apply checkpoints_move_same. Qed.

(** What a row becomes is the same checkpoint, further along. *)
Lemma rtc_same x y : rtc keeps_checkpoint x y -> same_checkpoint x y /\ rtc checkpoint_edge (ck_state x) (ck_state y).
Proof.
  induction 1 as [x|x y z [Hs He] _ [IHs IHe]]; [split; [by constructor|apply rtc_refl]|]. split.
  - destruct Hs, IHs. constructor; congruence.
  - by eapply rtc_l.
Qed.

(** A checkpoint that was resumed or whose reboot failed does not change. *)
Lemma rtc_final x y : ck_state x = Resumed \/ ck_state x = ExecutorFailed -> rtc keeps_checkpoint x y -> y = x.
Proof.
  intros Hf Hr. inversion Hr as [|? z ? [_ He]]; [done|]. subst. exfalso.
  inversion He as [Hs|Hs|Hs|s Hs Hq|s Hs Hq]; rewrite <- ?Hs in Hf; intuition congruence.
Qed.

Lemma rtc_past_durable s s' : rtc checkpoint_edge s s' -> s <> Durable -> s' <> Durable.
Proof. induction 1 as [|a b c He _ IH]; [done|]. intros _. apply IH. by inversion He. Qed.

Lemma grows_checkpoint id l l' x :
  grows (rtc keeps_checkpoint) l l' -> find (fun c => String.eqb (ck_id c) id) l = Some x ->
  exists y, find (fun c => String.eqb (ck_id c) id) l' = Some y /\ rtc keeps_checkpoint x y.
Proof.
  intros (l1 & l2 & -> & Hf). induction Hf as [|a b l l1 Hab _ IH]; simpl; [done|].
  destruct (rtc_same _ _ Hab) as [[Hid _ _ _ _ _ _ _ _ _ _] _]. rewrite Hid.
  destruct (String.eqb (ck_id a) id); [intros [= <-]; by exists b|]. exact IH.
Qed.

Lemma moved_checkpoint id t t' x : checkpoints_move t t' -> checkpoint_by_id id t = Some x ->
  exists y, checkpoint_by_id id t' = Some y /\ rtc keeps_checkpoint x y.
Proof. intros [Hg _]. by apply grows_checkpoint. Qed.

(** ** What the checks establish *)

Section Handshake.
Context `{World} (svc : service) (iso : string -> option (Z * bool)).

(** The checkpoint a request is about, with its attempt. *)
Record found_checkpoint (t : tables) (checkpoint_id : json) (c : checkpoint_row) : Prop := {
  fc_row : In c (recovery_checkpoints t);
  fc_named : truthy checkpoint_id = true -> checkpoint_by_id (text_of checkpoint_id) t = Some c;
  fc_attempt : exists a, attempt_by_id (ck_attempt_id c) t = Some a /\ holds_checkpoint c a = true }.

Lemma later_in l acc c : foldl later_checkpoint acc l = Some c -> In c l \/ acc = Some c.
Proof.
  revert acc. induction l as [|x l IH]; simpl; intros acc Hc; [by right|]. destruct (IH _ Hc) as [Hi|Hi]; [by left; right|].
  unfold later_checkpoint in Hi. destruct acc as [b|]; [|by left; left; congruence].
  destruct (stamp_ltb _ _); [by right|left; left; congruence].
Qed.

Lemma find_checkpoint_post cid aid t0 :
  post (fun t => t = t0) (find_checkpoint cid aid) (fun c t => found_checkpoint t0 cid c /\ t = t0).
Proof.
  unfold find_checkpoint.
  eapply (post_bind _ _ _ (fun row t => (forall c, row = Some c -> In c (recovery_checkpoints t0) /\
    (truthy cid = true -> checkpoint_by_id (text_of cid) t0 = Some c)) /\ t = t0)).
  { destruct (truthy cid).
    - eapply post_bind; [apply post_gets_at|]. intros row. apply post_pure. intros Hrow.
      eapply post_bind; [apply post_read; destruct row; steps_walk|]. intros ?. apply post_ret. intros t ->. split; [|done].
      intros c ->. symmetry in Hrow. split; [|by intros _]. unfold checkpoint_by_id in Hrow. by apply find_some in Hrow as [].
    - eapply post_conseq; [apply post_gets_at|intros t Ht; exact Ht|]. intros row t [-> ->]. split; [|done]. intros c Hc.
      split; [|done]. unfold latest_checkpoint in Hc. destruct (later_in _ _ _ Hc) as [Hi|]; [|done]. by apply filter_In in Hi as []. }
  intros [c|]; [|apply post_raise]. apply post_pure. intros Hc. destruct (Hc c eq_refl) as [Hi Hn].
  eapply post_bind; [apply post_gets_at|]. intros attempt. apply post_pure. intros Ha. guards. apply post_ret. intros t ->.
  split; [|done]. split; [done|done|]. destruct attempt as [b|]; [|done]. by exists b.
Qed.

(** The nonce of an attempt, presented by the caller. *)
Record presents (t : tables) (body : json) (attempt_id : string) (allow_consumed : bool) (nonce : string) : Prop := {
  pn_attempt : exists a, attempt_by_id attempt_id t = Some a /\ at_recovery_nonce a = Some nonce /\
    (at_recovery_nonce_used a = true -> allow_consumed = true);
  pn_nonce : py_text (jget body "nonce") = nonce;
  pn_authorization : py_text (jget body "authorization") = nonce }.

Lemma authorized_post body attempt_id expected allow t0 :
  post (fun t => t = t0) (reboot_authorized body attempt_id expected allow)
    (fun nonce t => (presents t0 body attempt_id allow nonce /\ forall e, expected = Some e -> e = nonce) /\ t = t0).
Proof.
  unfold reboot_authorized. eapply post_bind; [apply post_gets_at|]. intros attempt. apply post_pure. intros Ha. guards.
  destruct attempt as [b|]; [|apply post_raise]. destruct (at_recovery_nonce b) as [nonce|] eqn:En; [|apply post_raise].
  guards. eapply post_bind; [apply post_read; steps_walk|]. intros late. guards. apply post_ret. intros t ->. split; [|done].
  unfold supplies in *. bool_hyps. split; [|by intros e ->; bool_hyps]. split; [|done|done].
  exists b. split; [done|]. split; [done|]. intros Hu. rewrite Hu in *. by destruct allow.
Qed.

(** The bytes on record are those the value was read from. *)
Definition read_from (c : checkpoint_row) (value : json) : Prop :=
  exists bytes, sha256 bytes = ck_checkpoint_digest c /\ durable_loads bytes = Some value.

Lemma checked_checkpoint_post c (P : tables -> Prop) :
  post P (checked_checkpoint c) (fun v t => read_from c v /\ P t).
Proof.
  unfold checked_checkpoint. eapply post_bind; [apply post_read; unfold read_checkpoint; steps_walk|]. intros bytes. guards.
  unfold load_checkpoint. destruct (durable_loads bytes) as [v|] eqn:Ev; [|apply post_raise]. apply post_ret. intros t Ht.
  split; [|done]. by exists bytes.
Qed.

(** An attempt that is open in the epoch. *)
Lemma open_attempt_post row body current b (P : tables -> Prop) :
  post P (validate_attempt_lease row body current true b)
    (fun _ t => (exists a, row = Some a /\ at_settled a = false /\ at_runtime_epoch a = current) /\ P t).
Proof.
  unfold validate_attempt_lease. eapply post_bind; [apply post_read; steps_walk|]. intros ?.
  destruct row as [x|]; [|apply post_raise]. guards.
  eapply post_conseq; [apply post_read; steps_walk; apply catch_steps; steps_walk|intros t Ht; exact Ht|].
  intros ? t Ht. split; [|done]. by exists x.
Qed.

(** What [take_checkpoint] leaves: no durable row under the id, and a spent
    nonce. *)
Definition taken (c : checkpoint_row) (t : tables) : Prop :=
  (forall x, In x (recovery_checkpoints t) -> ck_id x = ck_id c -> ck_state x <> Durable) /\
  (forall a, In a (attempts t) -> at_id a = ck_attempt_id c -> at_recovery_nonce_used a = true).

Lemma take_checkpoint_post c ts P : post P (take_checkpoint c ts) (fun _ => taken c).
Proof.
  unfold take_checkpoint. apply post_transaction.
  eapply post_bind; [apply post_any|]. intros consumed. eapply (post_bind _ _ _ (fun _ t =>
    forall a, In a (attempts t) -> at_id a = ck_attempt_id c -> at_recovery_nonce_used a = true)).
  { apply post_modify. intros t _ a Ha Hid. simpl in Ha. unfold update_where in Ha. apply in_map_iff in Ha as (x & <- & _).
    destruct (String.eqb (at_id x) (ck_attempt_id c)) eqn:E; simpl in *; [|apply String.eqb_neq in E; congruence].
    destruct (at_recovery_nonce_used x) eqn:Eu; simpl; [done|by destruct x]. }
  intros ?. guards. eapply post_bind; [apply post_read; steps_walk|]. intros claimed.
  eapply (post_bind _ _ _ (fun _ => taken c)).
  { apply post_modify. intros t Ht. split; [|exact Ht]. intros y Hy Hid. simpl in Hy. unfold update_where in Hy.
    apply in_map_iff in Hy as (x & <- & _). unfold is_durable in *.
    destruct (String.eqb (ck_id x) (ck_id c)) eqn:E; simpl in *; [|apply String.eqb_neq in E; congruence].
    destruct (bool_decide (ck_state x = Durable)) eqn:Ed; [by destruct x|by apply bool_decide_eq_false in Ed]. }
  intros ?. eapply post_conseq; [apply post_guard_with|intros t Ht; exact Ht|]. by intros ? t [_ ?].
Qed.

(** A reserved reboot: the checkpoint was durable, its attempt open under its
    unspent nonce, which the caller presented, and the command allowed. *)
Record reserves (allowlist : list string) (body : json) (r : reboot_reservation) (t : tables) : Prop := {
  rv_row : In (rs_checkpoint r) (recovery_checkpoints t);
  rv_durable : ck_state (rs_checkpoint r) = Durable;
  rv_command : In (rs_command r) allowlist;
  rv_attempt : exists a, attempt_by_id (ck_attempt_id (rs_checkpoint r)) t = Some a /\
    holds_checkpoint (rs_checkpoint r) a = true /\ at_settled a = false /\
    at_recovery_nonce a = Some (ck_nonce (rs_checkpoint r)) /\ at_recovery_nonce_used a = false;
  rv_nonce : py_text (jget body "nonce") = ck_nonce (rs_checkpoint r) /\
    py_text (jget body "authorization") = ck_nonce (rs_checkpoint r);
  rv_value : read_from (rs_checkpoint r) (rs_value r) }.

Lemma wire_recovery_post body optional (P : tables -> Prop) :
  post P (wire_recovery body optional) (fun b t => b = body /\ P t).
Proof.
  unfold wire_recovery. eapply post_bind; [apply post_lift|]. intros b. apply post_pure. intros Hb.
  assert (b = body) as -> by (unfold wire_object in Hb; by res_inv).
  do 4 (eapply post_bind; [apply post_read; steps_walk|]; intros ?). by apply post_ret.
Qed.

Lemma reserve_post allowlist host body identity t0 :
  post (fun t => t = t0) (reserve_reboot svc iso allowlist host body identity)
    (fun r t => match r with inl _ => t = t0 | inr r => reserves allowlist body r t0 /\ taken (rs_checkpoint r) t end).
Proof.
  unfold reserve_reboot. eapply post_bind; [apply wire_recovery_post|]. intros b. apply post_pure. intros ->.
  do 2 (eapply post_bind; [apply post_read; steps_walk|]; intros ?).
  eapply post_bind; [apply find_checkpoint_post|]. intros c. apply post_pure. intros Hc.
  eapply post_bind; [apply post_read; steps_walk|]. intros ?.
  match goal with |- context [match ?x with Some _ => _ | None => _ end] => destruct x as [text|] end.
  { do 2 (eapply post_bind; [apply post_read; steps_walk|]; intros ?). by apply post_ret. }
  eapply post_bind; [apply authorized_post|]. intros nonce. apply post_pure. intros [Hp He]. specialize (He _ eq_refl).
  cbv zeta. guards. eapply post_bind; [apply post_read; steps_walk|]. intros epoch. guards.
  eapply post_bind; [apply post_gets_at|]. intros attempt. apply post_pure. intros Ha.
  eapply post_bind; [apply open_attempt_post|]. intros ?. apply post_pure. intros (b & Hb & Hs & _).
  eapply post_bind; [apply checked_checkpoint_post|]. intros value. apply post_pure. intros Hv. guards.
  eapply post_bind; [apply post_read; steps_walk|]. intros ts.
  eapply post_bind; [apply take_checkpoint_post|]. intros ?. apply post_ret. intros t Ht. split; [|exact Ht].
  destruct Hc as [Hrow _ (d & Hd & Hh)], Hp as [(e & Hae & Hn & Hu) Hn1 Hn2].
  assert (d = b /\ e = b) as [-> ->] by (split; congruence). subst nonce.
  constructor; simpl; try done.
  - by apply str_in_spec.
  - exists b. repeat split; [done..|congruence|]. destruct (at_recovery_nonce_used b); [by discriminate Hu|done].
  - split; congruence.
Qed.

(** ** Taking a checkpoint up *)

(** Nothing is written to the checkpoints. *)
Definition same_checkpoints (t t' : tables) : Prop := recovery_checkpoints t' = recovery_checkpoints t.

#[local] Instance same_checkpoints_preorder : PreOrder same_checkpoints.
Proof. split; [done|]. unfold same_checkpoints. intros a b c H1 H2. congruence. Qed.

#[local] Instance same_checkpoints_benign : Benign same_checkpoints.
Proof. by constructor; try exact _. Qed.

#[local] Instance same_checkpoints_tasks : TaskUpdates same_checkpoints (fun _ _ => True).
Proof. done. Qed.

#[local] Instance same_checkpoints_commits : Commits same_checkpoints.
Proof.
  intros task spec ex lease epoch st. unfold commit_claim, reserve. benign_walk.
  - apply (update_tasks_ok same_checkpoints (fun _ _ => True)). done.
  - by apply steps_modify.
Qed.

#[local] Instance frame_checkpoints : CheckpointWrites frame.
Proof. split; intros; by apply frame_same. Qed.

(** The row with the receipt of its resume. *)
Definition resumed_row (receipt : json) (ts : stamp) (x : checkpoint_row) : checkpoint_row :=
  x {{ ck_state := Resumed; ck_recovery_receipt_json := Some (canonical_json receipt); ck_updated_at := ts }}.

(** The answer of a fresh resume, and what it does to the checkpoints. *)
Definition receipt_recorded (c : checkpoint_row) (current : Z) (l : list checkpoint_row) (v : json) (t : tables) : Prop :=
  exists attempt_id value ts, read_from c value /\ jget v "receipt" = resume_receipt c attempt_id current value /\
    recovery_checkpoints t = update_where (is_ready (ck_id c)) (resumed_row (jget v "receipt") ts) l.

Ltac quiet := eapply post_bind; [apply (post_steps same_checkpoints); [benign_walk|by unfold same_checkpoints; intros ? ? -> ->]|].

Lemma take_up_receipt c identity current l :
  post (fun t => recovery_checkpoints t = l) (take_up c identity current) (receipt_recorded c current l).
Proof.
  unfold take_up. eapply post_bind; [apply checked_checkpoint_post|]. intros value. apply post_pure. intros Hv.
  do 2 (quiet; intros ?). unfold rebind_placement. quiet. intros ?. quiet. intros lease.
  pose proof (claim_task_steps same_checkpoints (fun _ _ => True)) as Hc.
  eapply post_bind; [apply (post_steps same_checkpoints); [apply Hc|by unfold same_checkpoints; intros ? ? -> ->]|]. intros claim.
  quiet. intros [task|]; [|apply post_raise]. guards. quiet. intros attempt_id. unfold resume_row. quiet. intros ?.
  quiet. intros [r|]; [|apply post_raise]. unfold resume_checkpoint. eapply (post_bind _ _ _ (fun _ t => exists ts,
    recovery_checkpoints t = update_where (is_ready (ck_id c)) (resumed_row (resume_receipt c (at_id r) current value) ts) l)).
  { apply post_transaction. quiet. intros ts. apply post_modify. intros t <-. by exists ts. }
  intros ?. eapply post_bind; [apply post_read; steps_walk|]. intros resource. apply post_ret. intros t [ts Ht].
  by exists (at_id r), value, ts.
Qed.
(** The attempt a fresh resume leaves behind. *)
Definition attempt_taken (c : checkpoint_row) (fence : Z) (v : json) (t : tables) : Prop :=
  exists attempt_id lease, jget (jget v "receipt") "attempt_id" = JStr attempt_id /\
    claim_backed (ck_task_id c) (ck_executor_id c) fence (ClaimedAttempt attempt_id lease fence None JNull) t.

Lemma resume_row_post c task attempt_id lease current bound placement fence :
  t_lease_fence task = fence ->
  post (fun t => exists y, task_by_id (ck_task_id c) t = Some y /\ leased_to (ck_executor_id c) lease fence y)
    (resume_row c task attempt_id lease current bound placement)
    (fun _ => claim_backed (ck_task_id c) (ck_executor_id c) fence (ClaimedAttempt attempt_id lease fence None JNull)).
Proof.
  intros <-. unfold resume_row. apply post_transaction. destruct (t_lease_expires_at task) as [expires|]; [|apply post_raise].
  eapply post_bind.
  { unfold insert_attempt.
    do 4 (eapply post_bind; [apply (post_steps frame); [steps_walk|eauto using leased_row_frame]|]; intros ?).
    apply (post_modify _ _ (claim_backed (ck_task_id c) (ck_executor_id c) (t_lease_fence task)
      (ClaimedAttempt attempt_id lease (t_lease_fence task) None JNull))).
    intros t Ht. split; [exact Ht|]. eexists. split; [apply in_or_app; right; by left|]. by repeat split. }
  intros ?. do 2 (eapply post_bind; [apply (post_steps frame); [benign_walk|eauto using claim_backed_frame]|]; intros ?).
  apply (post_steps frame); [benign_walk|eauto using claim_backed_frame].
Qed.

Lemma take_up_attempt c identity current fence :
  post (has_fence (ck_task_id c) fence) (take_up c identity current) (attempt_taken c (fence + 1)).
Proof.
  unfold take_up. do 3 (eapply post_bind; [apply (post_steps frame); [benign_walk|eauto with framed]|]; intros ?).
  eapply post_bind; [apply (post_steps frame); [unfold rebind_placement; benign_walk|eauto with framed]|]. intros ?.
  eapply post_bind; [apply (post_steps frame); [steps_walk|eauto with framed]|]. intros lease.
  eapply post_bind; [apply claim_task_post|]. intros claim.
  intros s0 Hs. revert s0 Hs. apply (post_read_row (ck_task_id c) (fun x =>
    jget (jget claim "task") "status" = JStr (status_text (t_status x)) /\
    (t_status x <> Running \/ leased_to (ck_executor_id c) lease (fence + 1) x))).
  { intros t [(y & Hy & Hv) (y' & Hy' & Ho)]. assert (y' = y) as -> by congruence. by exists y. }
  intros task Hid [Hv Ho]. guards.
  assert (leased_to (ck_executor_id c) lease (fence + 1) task) as Hl.
  { destruct Ho as [Hn|]; [|done]. exfalso. rewrite Hv in H0. simpl in H0. bool_hyps. by destruct (t_status task). }
  eapply (post_bind _ _ _ (fun _ t => task_by_id (ck_task_id c) t = Some task)).
  { eapply post_conseq; [apply post_read; steps_walk|intros t Ht; exact Ht|]. by intros ? t []. }
  intros attempt_id. eapply post_bind.
  { eapply post_conseq; [apply (resume_row_post c task attempt_id lease _ _ _ (fence + 1)); apply Hl| |intros ? ? Ht; exact Ht].
    intros t Ht. by exists task. }
  intros ?. eapply (post_bind _ _ _ (fun r t => (forall a, r = Some a -> at_id a = attempt_id) /\
    claim_backed (ck_task_id c) (ck_executor_id c) (fence + 1) (ClaimedAttempt attempt_id lease (fence + 1) None JNull) t)).
  { eapply post_conseq; [apply post_gets|intros t Ht; exact Ht|]. intros r t [-> Ht]. split; [|done]. intros b Hb.
    unfold attempt_by_id in Hb. apply find_some in Hb as [_ Hb]. by apply String.eqb_eq. }
  intros [b|]; [|apply post_pure; intros; apply post_raise]. apply post_pure. intros Hb. specialize (Hb b eq_refl).
  eapply post_bind; [apply (post_steps frame); [unfold resume_checkpoint, is_ready, ready_to_resume; benign_walk|eauto using claim_backed_frame]|].
  intros ?. eapply post_bind; [apply post_read; steps_walk|]. intros resource. apply post_ret. intros t Ht.
  exists attempt_id, lease. split; [cbn; by rewrite Hb|done].
Qed.
(** The receipt a resumed checkpoint carries. *)
Definition carries (c : checkpoint_row) (receipt : json) : Prop :=
  ck_state c = Resumed /\ exists text, ck_recovery_receipt_json c = Some text /\ json_loads text = Some receipt.

(** A resume that was answered: from the receipt on record, or by taking the
    checkpoint up. *)
Definition resumes (body identity : json) (t0 : tables) (v : json) (t : tables) : Prop :=
  exists c, found_checkpoint t0 (jget body "checkpoint_id") c /\
    ((carries c (jget v "receipt") /\ t = t0) \/
     (ready_to_resume (ck_state c) = true /\ exists current, ran (take_up c identity current) t0 v t)).

Lemma resumed_before_post c t0 :
  post (fun t => t = t0) (resumed_before c) (fun r t => (forall v, r = Some v -> carries c (jget v "receipt")) /\ t = t0).
Proof.
  unfold resumed_before, stored_receipt. destruct (bool_decide (ck_state c = Resumed)) eqn:Es; [|by apply post_ret; intros t ->].
  apply bool_decide_eq_true in Es. destruct (ck_recovery_receipt_json c) as [text|] eqn:Et; [|by apply post_ret; intros t ->].
  destruct (nonempty text); [|by apply post_ret; intros t ->]. unfold loads.
  destruct (json_loads text) as [receipt|] eqn:El; [|intros s Hs; by split].
  eapply (post_bind _ _ _ (fun r t => r = receipt /\ t = t0)); [by apply post_ret; intros t ->|]. intros r'. apply post_pure. intros ->.
  eapply (post_bind _ _ _ (fun id t => t = t0)); [apply post_read; steps_walk|]. intros id.
  eapply post_bind; [apply post_read; steps_walk|]. intros [a|]; [|by apply post_ret; intros t ->].
  eapply post_bind; [apply post_read; steps_walk|]. intros resource. apply post_ret. intros t ->. split; [|done].
  intros v [= <-]. split; [done|]. exists text. by split.
Qed.

Lemma resume_post body identity t0 :
  post (fun t => t = t0) (resume_attempt svc iso body identity) (resumes body identity t0).
Proof.
  unfold resume_attempt, verified_mutation. do 2 (eapply post_bind; [apply post_read; steps_walk|]; intros ?).
  eapply post_bind; [apply wire_recovery_post|]. intros b. apply post_pure. intros ->.
  eapply post_bind; [apply post_read; steps_walk|]. intros current.
  eapply post_bind; [apply find_checkpoint_post|]. intros c. apply post_pure. intros Hc.
  eapply post_bind; [apply post_read; steps_walk|]. intros ?.
  eapply post_bind; [apply post_read; steps_walk|]. intros [owner|]; [|apply post_raise].
  do 2 (eapply post_bind; [apply post_read; steps_walk|]; intros ?).
  eapply post_bind; [apply resumed_before_post|]. intros replay. apply post_pure. intros Hr.
  destruct replay as [v|]; [apply post_ret; intros t ->; exists c; split; [done|left]; by split; [apply Hr|]|].
  cbv zeta. eapply post_bind; [apply post_read; steps_walk|]. intros drain. guards.
  eapply post_conseq; [apply post_ran|intros t Ht; exact Ht|]. intros v t Hran. exists c. split; [done|]. right.
  split; [done|]. by exists current.
Qed.
End Handshake.

Section Runs.
Context `{World}.

(** C91: checkpoints follow their life cycle.  Whatever handlers and commands
    run, a checkpoint that was recorded stays recorded for the same attempt,
    lease, fence, nonce and bytes; its state moves only along the edges of the
    life cycle; and once it was resumed, or its reboot failed, the row does
    not change any more. *)
Theorem checkpoint_life_cycle s0 s id x :
  reachable checkpoints_move s0 s -> checkpoint_by_id id (tb s0) = Some x ->
  exists y, checkpoint_by_id id (tb s) = Some y /\ same_checkpoint x y /\ rtc checkpoint_edge (ck_state x) (ck_state y) /\
    (ck_state x = Resumed \/ ck_state x = ExecutorFailed -> y = x).
Proof.
  intros Hr Hx. pose proof (reachable_steps checkpoints_move checkpoints_move s0 s handle_checkpoints Hr) as Hm.
  destruct (moved_checkpoint id _ _ _ Hm Hx) as (y & Hy & Hk). exists y. split; [done|].
  destruct (rtc_same _ _ Hk) as [H1 H2]. split; [done|]. split; [done|]. intros Hf. by apply rtc_final.
Qed.

(** C92: a host is rebooted at most once for a checkpoint, and only on the
    terms of the checkpoint.  A reboot that was reserved was asked for with an
    allowed command and with the nonce of the checkpoint, which was unspent;
    the checkpoint was durable, its attempt open under the recorded lease and
    fence, and its value was read from bytes with the recorded digest.  From
    then on, whatever handlers and commands run, no other reboot is reserved
    for the checkpoint. *)
Theorem reboot_reserved_once svc iso allowlist host body identity s r s' :
  checkpoint_keys (tb s) -> reserve_reboot svc iso allowlist host body identity s = (Ok (inr r), s') ->
  reserves allowlist body r (tb s) /\
  forall s1 svc' iso' allowlist' host' body' identity' r' s2, reachable checkpoints_move s' s1 ->
    reserve_reboot svc' iso' allowlist' host' body' identity' s1 = (Ok (inr r'), s2) ->
    ck_id (rs_checkpoint r') <> ck_id (rs_checkpoint r).
Proof.
  intros Hk E. pose proof (post_run _ _ _ _ _ _ (reserve_post svc iso allowlist host body identity (tb s)) eq_refl E) as Hr.
  simpl in Hr. destruct Hr as [Hr Ht]. split; [done|]. intros s1 svc' iso' al' h' b' i' r' s2 Hreach E' Hid.
  pose proof (post_run _ _ _ _ _ _ (reserve_post svc' iso' al' h' b' i' (tb s1)) eq_refl E') as Hr'. simpl in Hr'.
  destruct Hr' as [Hr' _]. pose proof (reserve_steps checkpoints_move svc iso allowlist host body identity s) as Hs.
  rewrite E in Hs. simpl in Hs. pose proof (reachable_steps checkpoints_move _ s' s1 handle_checkpoints Hreach) as Hm.
  pose proof (find_key ck_id _ _ (proj1 Hk) (rv_row _ _ _ _ Hr)) as Hf.
  destruct (moved_checkpoint _ _ _ _ Hs Hf) as (y & Hy & Hxy). destruct (moved_checkpoint _ _ _ _ Hm Hy) as (z & Hz & Hyz).
  pose proof (find_key ck_id _ _ (proj1 (cm_keys _ _ Hm (cm_keys _ _ Hs Hk))) (rv_row _ _ _ _ Hr')) as Hf'.
  unfold checkpoint_by_id in Hz. rewrite Hid, Hz in Hf'. injection Hf' as ->.
  apply (rtc_past_durable _ _ (proj2 (rtc_same _ _ Hyz))); [|apply Hr'].
  unfold checkpoint_by_id in Hy. apply find_some in Hy as [Hin Heq]. apply String.eqb_eq in Heq. by apply (proj1 Ht).
Qed.
(** The row of a checkpoint that was just resumed. *)
Lemma resumed_lookup id l c receipt ts :
  find (fun x => String.eqb (ck_id x) id) l = Some c -> ready_to_resume (ck_state c) = true ->
  find (fun x => String.eqb (ck_id x) id) (update_where (is_ready (ck_id c)) (resumed_row receipt ts) l) =
  Some (resumed_row receipt ts c).
Proof.
  intros Hf Hr. induction l as [|x l IH]; simpl in *; [done|]. destruct (String.eqb (ck_id x) id) eqn:E.
  - injection Hf as ->. assert (is_ready (ck_id c) c = true) as -> by (unfold is_ready; by rewrite String.eqb_refl, Hr).
    change (ck_id (resumed_row receipt ts c)) with (ck_id c). by rewrite E.
  - assert (String.eqb (ck_id (if is_ready (ck_id c) x then resumed_row receipt ts x else x)) id = false) as ->
      by (by destruct (is_ready _ x)). by apply IH.
Qed.

(** The checkpoint after an answered resume of it. *)
Lemma resumed_carries svc iso body identity s v s' id :
  jget body "checkpoint_id" = JStr id -> nonempty id = true ->
  resume_attempt svc iso body identity s = (Ok v, s') ->
  exists c y receipt, checkpoint_by_id id (tb s) = Some c /\ checkpoint_by_id id (tb s') = Some y /\ carries y receipt /\
    canonical_json receipt = canonical_json (jget v "receipt") /\
    ((ck_state c = Resumed /\ tb s' = tb s /\ receipt = jget v "receipt") \/
     (ready_to_resume (ck_state c) = true /\ read_from c (jget (jget v "receipt") "checkpoint") /\
      forall x, task_by_id (ck_task_id c) (tb s) = Some x -> attempt_taken c (t_lease_fence x + 1) v (tb s'))).
Proof.
  intros Hid Hne E. destruct (post_run _ _ _ _ _ _ (resume_post svc iso body identity (tb s)) eq_refl E)
    as (c & [_ Hn _] & Hc). rewrite Hid in Hn. specialize (Hn Hne). simpl in Hn.
  destruct Hc as [[Hcar Ht]|(Hready & current & Hran)].
  - exists c, c, (jget v "receipt"). rewrite Ht. repeat split; try done; [apply Hcar..|]. left. by destruct Hcar.
  - destruct (ran_post _ _ _ _ _ _ Hran (take_up_receipt c identity current _) eq_refl)
      as (attempt_id & value & ts & Hv & Hrec & Hck).
    exists c, (resumed_row (jget v "receipt") ts c), (jnorm (jget v "receipt")). split; [done|].
    split; [unfold checkpoint_by_id; rewrite Hck; by apply resumed_lookup|].
    split; [split; [done|]; eexists; split; [reflexivity|]; apply json_loads_dumps|].
    split; [unfold canonical_json; by rewrite jnorm_idem|]. right. split; [done|]. split; [by rewrite Hrec|].
    intros x Hx. apply (ran_post _ _ _ _ _ _ Hran (take_up_attempt iso c identity current (t_lease_fence x))). by exists x.
Qed.

(** C93: a checkpoint is taken up by one attempt.  An answered resume that
    names a checkpoint found it either resumed before, and then changed no
    table, or ready; in that case the value it hands out was read from bytes
    with the recorded digest, and the task runs under a new lease of the same
    executor with the next fence and the attempt of the receipt.  Whatever
    runs afterwards, every later resume of the checkpoint that is answered
    changes no table and hands out the same receipt. *)
Theorem resume_leads_back svc iso body identity s v s' id :
  jget body "checkpoint_id" = JStr id -> nonempty id = true ->
  resume_attempt svc iso body identity s = (Ok v, s') ->
  (exists c, checkpoint_by_id id (tb s) = Some c /\
    ((ck_state c = Resumed /\ tb s' = tb s) \/
     (ready_to_resume (ck_state c) = true /\ read_from c (jget (jget v "receipt") "checkpoint") /\
      forall x, task_by_id (ck_task_id c) (tb s) = Some x -> attempt_taken c (t_lease_fence x + 1) v (tb s')))) /\
  forall s1 svc' iso' body' identity' v' s2, reachable checkpoints_move s' s1 -> jget body' "checkpoint_id" = JStr id ->
    resume_attempt svc' iso' body' identity' s1 = (Ok v', s2) ->
    tb s2 = tb s1 /\ canonical_json (jget v' "receipt") = canonical_json (jget v "receipt").
Proof.
  intros Hid Hne E. destruct (resumed_carries _ _ _ _ _ _ _ _ Hid Hne E) as (c & y & receipt & Hc & Hy & Hcar & Heq & Hcase).
  split; [exists c; split; [done|]; destruct Hcase as [(? & ? & _)|]; [by left|by right]|].
  intros s1 svc' iso' body' identity' v' s2 Hreach Hid' E'.
  pose proof (reachable_steps checkpoints_move _ s' s1 handle_checkpoints Hreach) as Hm.
  destruct (moved_checkpoint _ _ _ _ Hm Hy) as (z & Hz & Hyz). destruct Hcar as [Hst (text & Htext & Hload)].
  apply rtc_final in Hyz; [|by left]. subst z.
  destruct (post_run _ _ _ _ _ _ (resume_post svc' iso' body' identity' (tb s1)) eq_refl E') as (d & [_ Hn _] & Hd).
  rewrite Hid' in Hn. specialize (Hn Hne). simpl in Hn. assert (d = y) as -> by congruence.
  destruct Hd as [[[_ (text' & Ht' & Hl')] Ht]|[Hready _]].
  - split; [done|]. rewrite <- Heq. congruence.
  - by rewrite Hst in Hready.
Qed.
End Runs.

(** ** An instance *)

#[local] Existing Instance demo_world.

Definition host : executor := RebootExecutor true (fun _ _ _ => Ok (JStr "done")).

(** A worker that holds a task, has a nonce and has stored a checkpoint. *)
Definition handshake_setup : M (json * json) :=
  begin_runtime_session "boot-1" None;;
  register_capability "edit" demo_digest (JArr []) "ready" None (JInt 0) (JInt 0);;
  upsert_executor "worker-1" (JArr [JObj [("capability_id", JStr "edit"); ("definition_digest", JStr demo_digest);
      ("required_resource_keys", JArr [])]]) 2 (JArr []) "v1" "ready" None (JInt 1) None None None JNull;;
  create_task no_admission_calls "edit" (demo_spec 1) (Some "demo") (Some "key-1") JNull (Some demo_digest) false JNull;;
  lease ← claim_next remote_service remote_iso
    (JObj [("executor_id", JStr "worker-1"); ("capability_ids", JArr [JStr "edit"]); ("runtime_epoch", JInt 1)])
    (JStr "claim-1") JNull;
  let fields := [("lease_id", jget lease "lease_id"); ("fence", jget lease "fence"); ("runtime_epoch", JInt 1)] in
  prepared ← prepare_reboot remote_service remote_iso (JObj (("attempt_id", jget lease "attempt_id") :: fields)) JNull;
  let nonce := [("nonce", jget prepared "nonce"); ("authorization", jget prepared "nonce")] in
  stored ← checkpoint_attempt remote_service remote_iso (fun _ _ _ => true) (text_of (jget lease "attempt_id"))
    (JObj (fields ++ nonce ++ [("checkpoint", JObj [("frame", JInt 3)])])) JNull;
  mret (JObj (("checkpoint_id", jget stored "checkpoint_id") :: nonce), stored).

Definition handshake : res (json * json) * state := Eval vm_compute in handshake_setup demo_start.
Definition handshake_id : string := Eval vm_compute in
  match handshake.1 with Ok (b, _) => text_of (jget b "checkpoint_id") | Err _ => EmptyString end.
Definition handshake_body (epoch : Z) : json := Eval vm_compute in
  match handshake.1 with Ok (b, _) => jset b "runtime_epoch" (JInt epoch) | Err _ => JNull end.

(** The reboot, the next session, and the worker's return. *)
Definition reserved : res (json + reboot_reservation) * state := Eval vm_compute in
  reserve_reboot remote_service remote_iso REBOOT_COMMAND_ALLOWLIST (Some host) (handshake_body 1) JNull handshake.2.

Definition reboot_ops : list op :=
  [BeginSession "boot-2" None;
   UpsertExecutor "worker-1" (JArr [JObj [("capability_id", JStr "edit"); ("definition_digest", JStr demo_digest);
      ("required_resource_keys", JArr [])]]) 2 (JArr []) "v1" "ready" None (JInt 2) None None None JNull].

Definition rebooted : state := Eval vm_compute in run_ops reboot_ops reserved.2.

Definition resumed_once : res json * state := Eval vm_compute in
  resume_attempt remote_service remote_iso (handshake_body 2) JNull rebooted.

Lemma reboot_reachable : reachable checkpoints_move reserved.2 rebooted.
Proof.
  assert (rebooted = run_ops reboot_ops reserved.2) as -> by (vm_compute; reflexivity).
  apply run_ops_reachable; [constructor|]. by repeat constructor.
Qed.

Lemma handshake_keys : checkpoint_keys (tb handshake.2).
Proof. split; vm_compute; repeat constructor; intros []. Qed.

(** C91 on the sample: the checkpoint of a requested reboot is recovered by the
    next session. *)
Lemma checkpoint_life_cycle_witness :
  exists y, checkpoint_by_id handshake_id (tb rebooted) = Some y /\ ck_state y = Recovered /\
    rtc checkpoint_edge RebootRequested (ck_state y).
Proof.
  destruct (checkpoint_by_id handshake_id (tb reserved.2)) as [x|] eqn:Ex; [|vm_compute in Ex; discriminate].
  destruct (checkpoint_life_cycle reserved.2 rebooted handshake_id x reboot_reachable Ex) as (y & Hy & _ & He & _).
  exists y. split; [exact Hy|]. vm_compute in Ex. injection Ex as <-. vm_compute in Hy. injection Hy as <-.
  split; [reflexivity|exact He].
Defined.

(** C92 on the sample: the reserved reboot, and none after it. *)
Lemma reboot_reserved_once_witness :
  exists r, reserves REBOOT_COMMAND_ALLOWLIST (handshake_body 1) r (tb handshake.2) /\ ck_id (rs_checkpoint r) = handshake_id /\
    (forall r' s2, reserve_reboot remote_service remote_iso REBOOT_COMMAND_ALLOWLIST (Some host) (handshake_body 2) JNull rebooted
       = (Ok (inr r'), s2) -> ck_id (rs_checkpoint r') <> handshake_id).
Proof.
  destruct reserved as [[[?|r]|?] s'] eqn:E; try discriminate.
  destruct (reboot_reserved_once remote_service remote_iso REBOOT_COMMAND_ALLOWLIST (Some host) (handshake_body 1) JNull
    handshake.2 r s' handshake_keys) as [Hr Hn].
  { rewrite <- E. vm_compute. reflexivity. }
  assert (ck_id (rs_checkpoint r) = handshake_id) as Hid.
  { vm_compute in E. injection E as <- _. vm_compute. reflexivity. }
  exists r. split; [exact Hr|]. split; [exact Hid|]. intros r' s2 E'. rewrite <- Hid.
  apply (Hn rebooted remote_service remote_iso REBOOT_COMMAND_ALLOWLIST (Some host) (handshake_body 2) JNull r' s2); [|exact E'].
  pose proof reboot_reachable as Hreach. rewrite E in Hreach. exact Hreach.
Defined.

(** C93 on the sample: the worker resumes twice and gets one receipt. *)
Lemma resume_leads_back_witness :
  exists v v', resumed_once.1 = Ok v /\
    (resume_attempt remote_service remote_iso (handshake_body 2) JNull resumed_once.2).1 = Ok v' /\
    canonical_json (jget v' "receipt") = canonical_json (jget v "receipt") /\
    jget (jget v "receipt") "checkpoint" = JObj [("frame", JInt 3)].
Proof.
  destruct (resume_attempt remote_service remote_iso (handshake_body 2) JNull rebooted) as [[v|e] s1] eqn:E;
    [|vm_compute in E; discriminate].
  destruct (resume_leads_back remote_service remote_iso (handshake_body 2) JNull rebooted v s1 handshake_id
    ltac:(vm_compute; reflexivity) ltac:(vm_compute; reflexivity) E) as [_ Hlater].
  assert (resumed_once = (Ok v, s1)) as H1 by (rewrite <- E; vm_compute; reflexivity). rewrite H1. clear E.
  destruct (resume_attempt remote_service remote_iso (handshake_body 2) JNull s1) as [[v'|e] s2] eqn:E'.
  2: { exfalso. vm_compute in H1. injection H1 as _ <-. vm_compute in E'. discriminate. }
  destruct (Hlater s1 remote_service remote_iso (handshake_body 2) JNull v' s2 (reach_here _ _)
    ltac:(vm_compute; reflexivity) E') as [_ Heq].
  exists v, v'. cbn [fst snd]. rewrite E'. split; [reflexivity|]. split; [reflexivity|]. split; [exact Heq|].
  vm_compute in H1. injection H1 as <- _. vm_compute. reflexivity.
Defined.
