(* ===== verification/Replays.v ===== *)
(** * Exactly-once admission

    What an idempotency key promises.  A keyed admission that returned leaves
    its key behind; from then on, whatever else has run, an admission under the
    same project and key adds no run, no task and no event, whether it is
    answered or refused.  The keys of runs survive every operation. *)

From Stdlib Require Import ZArith String Ascii List Bool Lia.
From stdpp Require Import base list strings.
From S2P Require Import Prelude Json Errors Facts Sha256 Store Idempotency Ledger Bindings.
From S2P Require Import Executors Continuations Snapshots Delegation Claim Outputs Settle Runs.
From S2P Require Import Admission Demo Evolution Leases System.

Open Scope Z_scope.

(** ** Work and keys *)

(** No work was admitted, started, finished or recorded. *)
Record same_work (t t' : tables) : Prop := {
  sw_tasks : tasks t' = tasks t;
  sw_runs : runs t' = runs t;
  sw_events : events t' = events t;
  sw_attempts : attempts t' = attempts t;
  sw_reservations : reservations t' = reservations t;
  sw_bindings : execution_bindings t' = execution_bindings t;
  sw_dependencies : task_dependencies t' = task_dependencies t;
  sw_specs : task_specs t' = task_specs t }.

#[global] Instance same_work_preorder : PreOrder same_work.
Proof. split; [by constructor|]. intros a b c [] []. constructor; congruence. Qed.

(** The same, and the receipts and projects are untouched too. *)
Record idle (t t' : tables) : Prop := {
  id_work : same_work t t';
  id_receipts : command_idempotency t' = command_idempotency t;
  id_projects : projects t' = projects t }.

#[global] Instance idle_preorder : PreOrder idle.
Proof.
  split; [by constructor|]. intros a b c [W1 R1 P1] [W2 R2 P2].
  constructor; [by etrans|congruence..].
Qed.

(** A run was admitted under the key. *)
Definition run_keyed (project_id : option string) (key : string) (t : tables) : Prop :=
  exists r, In r (runs t) /\ r_project_id r = project_id /\ r_idempotency_key r = Some key.

Definition receipt_scope (project_id : option string) : string :=
  if str_truthy project_id then default EmptyString project_id else "unscoped".

Definition receipt_keyed (project_id : option string) (key : string) (t : tables) : Prop :=
  exists r, receipt_of "task.create" (receipt_scope project_id) key t = Some r.

Definition keyed (project_id : option string) (key : string) (t : tables) : Prop :=
  run_keyed project_id key t \/ receipt_keyed project_id key t.

(** The project a request names, by id or slug. *)
Definition names_project (project project_id : option string) (t : tables) : Prop :=
  if str_truthy project
  then exists p, find (fun p => String.eqb (p_id p) (default EmptyString project) ||
                                String.eqb (p_slug p) (default EmptyString project)) (projects t) = Some p /\
                 project_id = Some (p_id p)
  else project_id = None.

Lemma keyed_idle pid k t t' : idle t t' -> keyed pid k t -> keyed pid k t'.
Proof.
  intros [W R _]. unfold keyed, run_keyed, receipt_keyed, receipt_of. by rewrite R, (sw_runs _ _ W).
Qed.

(** Receipts are the only record an answer writes. *)
Lemma same_work_receipts t l : same_work t (t {{ command_idempotency := l }}).
Proof. by constructor. Qed.

Section Answers.
Context `{World}.

Lemma record_command_receipt_work k a i h r p ev s n c :
  steps same_work (record_command_receipt k a i h r p ev s n c).
Proof.
  unfold record_command_receipt, prune_replay_bodies, expire_receipt, expired_publication_result,
    allocate_project_seq, insert_receipt.
  steps_walk; apply steps_modify; intros; by constructor.
Qed.
#[local] Hint Resolve record_command_receipt_work : steps.

Lemma prior_admission_reads (I : tables -> tables -> Prop) `{!PreOrder I} c s r p k e d :
  steps I (prior_admission c s r p k e d).
Proof. unfold prior_admission. steps_walk. Qed.

Lemma answer_receipt_work a k h r old : steps same_work (answer_receipt a k h r old).
Proof.
  unfold answer_receipt, current_result. steps_walk. apply steps_modify. intros. apply same_work_receipts.
Qed.

Lemma rebuild_receipt_work a k h r old : steps same_work (rebuild_receipt a k h r old).
Proof.
  unfold rebuild_receipt, current_result. steps_walk. apply steps_modify. intros. apply same_work_receipts.
Qed.

Lemma record_existing_work a k h r x : steps same_work (record_existing a k h r x).
Proof. unfold record_existing, current_result. steps_walk. Qed.

Lemma publish_snapshot_idle p s v : steps idle (publish_snapshot p s v).
Proof.
  unfold publish_snapshot, pinned_revision, cas_put, cas_read. steps_walk.
  all: apply steps_modify; intros; by constructor.
Qed.

Lemma rewrite_spec_snapshots_idle p s : steps idle (rewrite_spec_snapshots (publish_snapshot p) s).
Proof.
  pose proof publish_snapshot_idle.
  unfold rewrite_spec_snapshots, rewrite_location, rewrite_context_key, rewrite_filmstrip,
    rewrite_duplicate_key. steps_walk.
Qed.

(** The lookup of an earlier admission misses a keyed run never. *)
Lemma prior_admission_found c s r p k e d st old st' :
  prior_admission c s r p k e d st = (Ok old, st') -> run_keyed p k (tb st) -> old <> None.
Proof.
  intros Hs (x & Hx & Hp & Hk). unfold prior_admission, mbind, M_bind, gets in Hs. simpl in Hs.
  destruct (find _ (runs (tb st))) as [y|] eqn:E.
  - destruct (task_of_run (r_id y) (tb st)) as [z|]; [|done].
    unfold guard_raise, lift in Hs. destruct (negb _ || negb _); [done|]. cbn [raise_if] in Hs.
    destruct (load_spec (r_spec_digest y) st) as [[v|] s1]; [|done].
    destruct (execution_request_from_row _ _ _ s1) as [[w|] s2]; [|done].
    destruct (raise_if _ _ _); [|done]. by injection Hs as <- _.
  - apply (find_none _ _ E) in Hx. rewrite Hp, Hk in Hx. unfold opt_str_eqb in Hx.
    by rewrite !bool_decide_true in Hx.
Qed.
End Answers.

Section ExactlyOnce.
Context `{World}.

Lemma admit_task_keyed c s r pid k e d b l st :
  nonempty k = true -> keyed pid k (tb st) ->
  same_work (tb st) (tb (admit_task c s r pid (Some k) e d b l st).2).
Proof.
  intros Hne Hk. unfold admit_task. rewrite Hne. cbn [negb]. unfold mbind at 1, M_bind at 1.
  pose proof (prior_admission_reads eq c s r pid k e d st) as Ht.
  destruct (prior_admission c s r pid k e d st) as [[old|x] st1] eqn:E; simpl in Ht; [|by rewrite Ht].
  rewrite Ht in *. unfold mbind at 1, M_bind at 1, gets at 1. fold (receipt_scope pid).
  destruct (receipt_of "task.create" (receipt_scope pid) k (tb st1)) as [row|] eqn:Er.
  - destruct (has_spec (rc_txn_id row)); [apply answer_receipt_work|].
    destruct old as [prior|]; [apply rebuild_receipt_work|reflexivity].
  - destruct old as [prior|]; [apply rebuild_receipt_work|]. exfalso. destruct Hk as [Hk|(row & Hrow)]; [|congruence].
    eapply (prior_admission_found c s r pid k e d); [exact E|by rewrite Ht|done].
Qed.

(** The project of the request is found where [names_project] says. *)
Lemma select_project {A} project pid (rest : option string -> M A) st :
  names_project project pid (tb st) ->
  (q ← (if str_truthy project
        then p ← project_of (default EmptyString project); mret (Some (p_id p)) else mret None); rest q) st =
  rest pid st.
Proof.
  unfold names_project. destruct (str_truthy project); [|by intros ->].
  intros (p & Hfind & ->).
  assert (project_of (default EmptyString project) st = (Ok p, st)) as Hproj.
  { unfold project_of. unfold mbind, M_bind, gets. cbv beta iota. by rewrite Hfind. }
  unfold mbind, M_bind. by rewrite Hproj.
Qed.

Lemma create_task_body_keyed calls c s r project pid k e d b st :
  admission_respects idle calls -> nonempty k = true ->
  names_project project pid (tb st) -> keyed pid k (tb st) ->
  same_work (tb st) (tb (create_task_body calls c s r project (Some k) e d b st).2).
Proof.
  intros [Hf He] Hne Hp Hk.
  assert (forall A (m : M A) (q : A -> M json), steps idle m ->
    (forall a, spec same_work (keyed pid k) (q a) (fun _ _ => True)) ->
    spec same_work (keyed pid k) (m ≫= q) (fun _ _ => True)) as Hbind.
  { intros A m q Hm Hq. apply (spec_bind same_work m q _ (fun _ => keyed pid k)); [|done].
    intros u Hu. specialize (Hm u). split; [by apply id_work|].
    destruct (m u).1; [|done]. by eapply keyed_idle. }
  pose proof rewrite_spec_snapshots_idle.
  unfold create_task_body. rewrite (select_project project pid) by done.
  match goal with |- same_work _ (tb (?m st).2) =>
    assert (spec same_work (keyed pid k) m (fun _ _ => True)) as Hm; [|by apply Hm] end.
  apply Hbind; [destruct (String.eqb c _); steps_walk|]. intros s1.
  apply Hbind; [done|]. intros [s2 ?]. apply Hbind; [apply validate_spec_snapshot_refs_steps; exact _|]. intros ids.
  apply Hbind; [steps_walk|]. intros s3. apply Hbind; [steps_walk|]. intros preds.
  apply Hbind; [steps_walk|]. intros ?. apply Hbind; [steps_walk|]. intros ?.
  apply Hbind; [steps_walk|]. intros ?. apply spec_transaction; [exact _|].
  intros u Hu. split; [|by destruct (_ u).1]. by apply admit_task_keyed.
Qed.
End ExactlyOnce.

(** ** Keys survive *)

Definition keeps_keys (t t' : tables) : Prop := forall pid k, run_keyed pid k t -> run_keyed pid k t'.

#[global] Instance keeps_keys_preorder : PreOrder keeps_keys.
Proof. split; [by intros ? ? ?|]. intros a b c H1 H2 pid k Hk. auto. Qed.

Lemma keeps_keys_same t t' : runs t' = runs t -> keeps_keys t t'.
Proof. intros He pid k. unfold run_keyed. by rewrite He. Qed.

#[global] Instance keeps_keys_benign : Benign keeps_keys.
Proof.
  constructor; try exact _; intros; try (by apply keeps_keys_same); intros pid k (r0 & Hr & Hp & Hk).
  - exists (if p r0 then f r0 else r0). split; [simpl; apply in_update_where; by exists r0|].
    destruct (H r0) as [_ Hpr _ Hky]. destruct (p r0); split; congruence.
  - exists r0. split; [simpl; apply in_or_app; by left|done].
Qed.

#[global] Instance keeps_keys_checkpoints : CheckpointWrites keeps_keys.
Proof. split; intros; by apply keeps_keys_same. Qed.

#[global] Instance keeps_keys_tasks : TaskUpdates keeps_keys (fun _ _ => True).
Proof. intros t p f _. by apply keeps_keys_same. Qed.

#[global] Instance keeps_keys_commits `{World} : Commits keeps_keys.
Proof.
  intros task spec ex lease epoch st. unfold commit_claim, reserve. benign_walk.
  - apply (update_tasks_ok keeps_keys (fun _ _ => True)). done.
  - apply steps_modify. intros t. by apply keeps_keys_same.
Qed.

#[global] Instance keeps_keys_admits `{World} : Admits keeps_keys.
Proof. intros row _. unfold insert_task. steps_walk. apply steps_modify. intros t. by apply keeps_keys_same. Qed.

Section Promise.
Context `{World}.

(** C13: a key is admitted once.  Once a run was admitted under a project and
    a key, then after any further operations an admission under the same
    project and key, whatever else the request says and whether it is answered
    or refused, adds and changes no run, task, event, attempt, reservation,
    binding, dependency or spec. *)
Theorem admission_exactly_once s0 s calls c spec project pid k e d b r :
  run_keyed pid k (tb s0) -> reachable keeps_keys s0 s ->
  nonempty k = true -> names_project project pid (tb s) -> admission_respects idle calls ->
  same_work (tb s) (tb (after (CreateTask calls c spec project (Some k) e d b r) s)).
Proof.
  intros Hk Hr Hne Hp Hc.
  assert (run_keyed pid k (tb s)) as Hrun.
  { eapply (reachable_steps keeps_keys keeps_keys s0 s); [|exact Hr|exact Hk].
    intros o. apply (handle_steps_commits keeps_keys). intros. by apply keeps_keys_same. }
  unfold after, handle, Routes.ignore, create_task, mbind, M_bind, lift. cbv beta iota.
  destruct (admitted_request c spec r) as [[spec1 request]|x]; [|reflexivity]. cbv beta iota.
  pose proof (create_task_body_keyed calls c spec1 request project pid k e d b s Hc Hne Hp (or_introl Hrun)) as Hbody.
  destruct (String.eqb c _); [|by destruct (create_task_body _ _ _ _ _ _ _ _ _ s) as [[]]].
  unfold transaction. by destruct (create_task_body _ _ _ _ _ _ _ _ _ s) as [[]].
Qed.

Lemma insert_receipt_post row (P : tables -> Prop) :
  post P (insert_receipt row)
    (fun _ => fun t => receipt_of (rc_command_kind row) (rc_aggregate_id row) (rc_idempotency_key row) t = Some row).
Proof.
  unfold insert_receipt. eapply post_bind; [apply post_gets|]. intros known.
  eapply post_bind; [apply post_lift|]. intros ?. apply post_modify. intros t (Hu & -> & _). simpl in Hu.
  unfold receipt_of in *. simpl. destruct (find _ (command_idempotency t)) as [old|] eqn:E; [done|].
  rewrite find_app_none by done. simpl. unfold same_receipt. by rewrite !String.eqb_refl.
Qed.

Lemma record_command_receipt_post k a i h r p ev st n c P :
  post P (record_command_receipt k a i h r p ev st n c) (fun _ t => exists row, receipt_of k a i t = Some row).
Proof.
  unfold record_command_receipt.
  eapply post_bind; [apply post_any|]. intros ?. eapply post_bind; [apply post_any|]. intros seq.
  eapply post_bind; [apply post_any|]. intros id. cbv zeta.
  eapply post_bind; [apply post_any|]. intros ts.
  eapply post_bind; [apply insert_receipt_post|]. intros ?. apply post_ret. intros t Ht. by eexists.
Qed.

Definition admission_left (pid : option string) (k : string) {A} (_ : A) (t : tables) : Prop :=
  receipt_keyed pid k t.

Lemma answer_receipt_post pid k h r old :
  post (receipt_keyed pid k) (answer_receipt (receipt_scope pid) k h r old) (admission_left pid k).
Proof.
  unfold answer_receipt, current_result. destruct (String.eqb _ h).
  - apply (post_steps eq); [steps_walk|]. by intros t t' ->.
  - destruct old as [[run task]|]; [|apply post_raise].
    eapply post_bind; [apply (post_steps eq); [steps_walk|by intros t t' ->]|]. intros result.
    eapply (post_bind _ _ _ (fun _ => receipt_keyed pid k)); [|intros ?; by apply post_ret].
    apply post_modify. intros t [row Hrow]. unfold receipt_keyed, receipt_of in *. simpl.
    rewrite find_update_where by done. rewrite Hrow. by eexists.
Qed.

(** The receipt is the last thing written. *)
Ltac receipt_last :=
  lazymatch goal with
  | |- post _ (record_command_receipt _ _ _ _ _ _ _ _ _ _ ≫= _) _ =>
      eapply post_bind; [apply record_command_receipt_post|]; intros ?; apply post_ret; done
  | |- post _ (match ?x with _ => _ end) _ => destruct x; receipt_last
  | |- post _ (raiseM _ _) _ => apply post_raise
  | |- post _ (_ ≫= _) _ => eapply post_bind; [apply post_any|]; intros ?; receipt_last
  end.

Lemma rebuild_receipt_post pid k h r old P :
  post P (rebuild_receipt (receipt_scope pid) k h r old) (admission_left pid k).
Proof. unfold rebuild_receipt. receipt_last. Qed.

Lemma record_existing_post pid k h run task P :
  post P (record_existing (receipt_scope pid) k h run task) (admission_left pid k).
Proof. unfold record_existing. receipt_last. Qed.

Lemma insert_admission_post c s r pid k h e d w l P :
  nonempty k = true ->
  post P (insert_admission c s r pid (Some k) (receipt_scope pid) h e d w l) (admission_left pid k).
Proof.
  intros Hne. unfold insert_admission. rewrite Hne.
  do 11 (eapply post_bind; [apply post_any|]; intros ?).
  destruct a9 as [task|]; [|apply post_raise].
  eapply post_bind; [apply post_any|]. intros result.
  eapply (post_bind _ _ _ (admission_left pid k)); [|intros ?; by apply post_ret].
  receipt_last.
Qed.

Lemma admit_task_post c s r pid k e d b l :
  nonempty k = true -> post (fun _ => True) (admit_task c s r pid (Some k) e d b l) (admission_left pid k).
Proof.
  intros Hne. unfold admit_task. rewrite Hne. cbn [negb]. fold (receipt_scope pid).
  eapply post_bind; [apply post_any|]. intros old. eapply post_bind; [apply post_gets|]. intros receipt.
  destruct receipt as [row|].
  - destruct (has_spec (rc_txn_id row)); [|destruct old; [apply rebuild_receipt_post|apply post_raise]].
    eapply post_conseq; [apply answer_receipt_post|intros t [Hr _]; by exists row|done].
  - destruct old as [prior|]; [apply rebuild_receipt_post|].
    do 3 (eapply post_bind; [apply post_any|]; intros ?).
    destruct a1 as [[run task]|]; [apply record_existing_post|].
    unfold admit_new. eapply post_bind; [apply post_any|]. intros [dg wr].
    do 4 (eapply post_bind; [apply post_any|]; intros ?). by apply insert_admission_post.
Qed.

(** A keyed admission that returns leaves its key.  When [create_task]
    with a non-empty key returns a value, however it was answered, the receipt
    of the project and key is stored. *)
Theorem admission_leaves_key calls c spec project pid k e d b r s v s' :
  nonempty k = true -> names_project project pid (tb s) ->
  create_task calls c spec project (Some k) e d b r s = (Ok v, s') -> receipt_keyed pid k (tb s').
Proof.
  intros Hne Hp. unfold create_task, mbind at 1, M_bind at 1, lift at 1.
  destruct (admitted_request c spec r) as [[spec1 request]|x]; [|done]. cbv beta iota zeta.
  set (body := create_task_body _ _ _ _ _ _ _ _ _).
  assert (forall s1 v1, body s = (Ok v1, s1) -> receipt_keyed pid k (tb s1)) as Hbody.
  { intros s1 v1. unfold body, create_task_body. rewrite (select_project project pid) by done.
    match goal with |- ?m s = _ -> _ =>
      assert (post (fun _ => True) m (admission_left pid k)) as Hm; [|intros Hs; destruct (Hm s I) as [_ Hq]; by rewrite Hs in Hq] end.
    eapply post_bind; [apply post_any|]. intros s2. eapply post_bind; [apply post_any|]. intros [s3 ?].
    do 6 (eapply post_bind; [apply post_any|]; intros ?).
    apply post_transaction. eapply post_conseq; [by apply admit_task_post|done|done]. }
  destruct (String.eqb c _); [|apply Hbody].
  unfold transaction. destruct (body s) as [[v1|] s1] eqn:E; [|done]. intros [= -> ->]. by eapply Hbody.
Qed.
End Promise.

(** ** Replays of run commands *)

(** A receipt from which a run command is answered. *)
Definition run_receipt (kind id k hash : string) (v : json) (t : tables) : Prop :=
  exists row r ms, receipt_of kind id k t = Some row /\ v = run_json r /\ rc_request_hash row = hash /\
    rc_result_json row = canonical_json v /\ rc_created_at row = At ms.

(** The receipt is younger than the replay window. *)
Definition in_replay_window `{World} (kind id k : string) (s : state) : Prop :=
  forall row ms, receipt_of kind id k (tb s) = Some row -> rc_created_at row = At ms ->
    clock (step s) - RESULT_WINDOW_SECONDS * 1000000 <= ms * 1000.

Section RunCommands.
Context `{World}.

Lemma run_command_tail kind id k h P :
  nonempty k = true ->
  post P (result ← run_result id; record_run_command kind id (Some k) h result;; mret result)
    (fun v => run_receipt kind id k h v).
Proof.
  intros Hne. eapply (post_bind _ _ _ (fun v _ => exists r, v = run_json r)).
  { unfold run_result. eapply post_bind; [apply post_any|]. intros [r|]; [|apply post_raise].
    apply post_ret. intros. by exists r. }
  intros v. eapply (post_bind _ _ _ (fun _ => run_receipt kind id k h v)); [|intros ?; by apply post_ret].
  unfold record_run_command. simpl. rewrite Hne. cbn [negb].
  eapply (post_bind _ _ _ (fun ts _ => (exists r, v = run_json r) /\ exists ms, ts = At ms)).
  { intros u Hu. split; [done|]. split; [exact Hu|]. by eexists. }
  intros ts u [[r ->] [ms ->]]. split; [done|].
  destruct (insert_receipt_post (Receipt kind id k h (canonical_json (run_json r)) (At ms) None None None None None None)
    (fun _ => True) u I) as [_ Hq].
  destruct (insert_receipt _ u).1; [|done]. by eexists _, r, ms.
Qed.

Lemma replay_answers kind id k h v s :
  nonempty k = true -> run_receipt kind id k h v (tb s) -> in_replay_window kind id k s ->
  exists n, replay_run_command kind id (Some k) h s = (Ok (Some (json_column v)), State (tb s) n (last_prune s) (recorded s)).
Proof.
  intros Hne (row & r & ms & Hrow & -> & Hh & Hres & Hat) Hw. unfold replay_run_command. simpl. rewrite Hne.
  cbn [negb]. unfold mbind, M_bind, gets, guard_raise, lift. cbv beta iota. rewrite Hrow, Hh, String.eqb_refl. simpl.
  unfold command_result, command_result_within. rewrite Hat, Hres. unfold mbind, M_bind, utcnow, tick. simpl.
  specialize (Hw row ms Hrow Hat). replace (ms * 1000 <? _) with false by (symmetry; by apply Z.ltb_ge).
  unfold loads, canonical_json. rewrite json_loads_dumps. simpl.
  by eexists.
Qed.

(** The shape both run commands share: look for a replay, else do the work. *)
Definition replay_or (kind id k h : string) (work : M json) : M json :=
  replay ← replay_run_command kind id (Some k) h;
  match replay with Some value => mret value | None => work end.

Lemma replay_or_fresh kind id k h work s v s1 :
  nonempty k = true -> receipt_of kind id k (tb s) = None ->
  post (fun _ => True) work (run_receipt kind id k h) ->
  replay_or kind id k h work s = (Ok v, s1) -> run_receipt kind id k h v (tb s1).
Proof.
  intros Hne Hfresh Hw. assert (replay_run_command kind id (Some k) h s = (Ok None, s)) as Hr.
  { unfold replay_run_command. simpl. rewrite Hne. unfold mbind, M_bind, gets. simpl. by rewrite Hfresh. }
  unfold replay_or, mbind, M_bind. rewrite Hr. intros Hs. destruct (Hw s I) as [_ Hq]. by rewrite Hs in Hq.
Qed.

Lemma replay_or_answers kind id k h work v s :
  nonempty k = true -> run_receipt kind id k h v (tb s) -> in_replay_window kind id k s ->
  exists n, replay_or kind id k h work s = (Ok (json_column v), State (tb s) n (last_prune s) (recorded s)).
Proof.
  intros Hne Hr Hw. destruct (replay_answers kind id k h v s Hne Hr Hw) as [n Hn]. exists n.
  unfold replay_or, mbind, M_bind. by rewrite Hn.
Qed.

(** What the work of a run command ends with. *)
Ltac run_command_post :=
  lazymatch goal with
  | |- post _ (run_result _ ≫= _) _ => by apply run_command_tail
  | |- post _ (transaction _) _ => apply post_transaction; run_command_post
  | |- post _ (match ?x with _ => _ end) _ => destruct x; run_command_post
  | |- post _ (raiseM _ _) _ => apply post_raise
  | |- post _ (_ ≫= _) _ => eapply post_bind; [apply post_any|]; intros ?; run_command_post
  end.

Definition retry_hash (selected : option (list string)) : string :=
  sha256 (canonical_json (JObj [("selected_task_ids", selected_json selected)])).

(** A run command that finds its run either replays or works. *)
Lemma cancel_run_shape id k s :
  nonempty k = true -> run_by_id id (tb s) <> None ->
  exists work, cancel_run id (Some k) s = replay_or "run.cancel" id k (sha256 "{}") work s /\
    post (fun _ => True) work (run_receipt "run.cancel" id k (sha256 "{}")).
Proof.
  intros Hne Hrun. unfold cancel_run. unfold mbind at 1, M_bind at 1, gets at 1.
  destruct (run_by_id id (tb s)) as [run|]; [|done].
  eexists. split; [reflexivity|]. run_command_post.
Qed.

Lemma retry_run_shape id selection k s selected :
  nonempty k = true -> run_by_id id (tb s) <> None -> selected_ids selection = Ok selected ->
  exists work, retry_run id selection (Some k) s = replay_or "run.retry" id k (retry_hash selected) work s /\
    post (fun _ => True) work (run_receipt "run.retry" id k (retry_hash selected)).
Proof.
  intros Hne Hrun Hsel. unfold retry_run. unfold mbind at 1, M_bind at 1, gets at 1.
  destruct (run_by_id id (tb s)) as [run|]; [|done].
  unfold mbind at 1, M_bind at 1, lift at 1. rewrite Hsel.
  eexists. split; [reflexivity|]. run_command_post.
Qed.

Inductive run_command_kind := CancelCommand | RetryCommand (selected_task_ids : json).

Definition run_command (c : run_command_kind) (id k : string) : M json :=
  match c with
  | CancelCommand => cancel_run id (Some k)
  | RetryCommand selection => retry_run id selection (Some k)
  end.

Definition kind_text (c : run_command_kind) : string :=
  match c with CancelCommand => "run.cancel" | RetryCommand _ => "run.retry" end.

Lemma run_command_shape c id k :
  nonempty k = true ->
  (exists h, forall s, run_by_id id (tb s) <> None ->
    exists work, run_command c id k s = replay_or (kind_text c) id k h work s /\
      post (fun _ => True) work (run_receipt (kind_text c) id k h)) \/
  (forall s v s1, run_command c id k s <> (Ok v, s1)).
Proof.
  intros Hne. destruct c as [|selection]; simpl.
  - left. eexists. intros s Hrun. by apply cancel_run_shape.
  - destruct (selected_ids selection) as [selected|x] eqn:E.
    + left. exists (retry_hash selected). intros s Hrun. by apply retry_run_shape.
    + right. intros s v s1. unfold retry_run, mbind, M_bind, gets, lift.
      destruct (run_by_id id (tb s)); [|done]. by rewrite E.
Qed.

Lemma run_command_found c id k s v s1 : run_command c id k s = (Ok v, s1) -> run_by_id id (tb s) <> None.
Proof.
  destruct c; simpl; unfold cancel_run, retry_run, mbind, M_bind, gets; by destruct (run_by_id id (tb s)).
Qed.

(** C30: a repeated run command is answered from its receipt.  When [cancel_run]
    or [retry_run] under a new key returned a value, then in every later state
    that still has the run and the receipt, within the replay window, the same
    command returns the same value (with its keys in order) and changes no
    table. *)
Theorem run_command_replay c id k s v s1 s2 :
  nonempty k = true -> receipt_of (kind_text c) id k (tb s) = None ->
  run_command c id k s = (Ok v, s1) ->
  receipt_of (kind_text c) id k (tb s2) = receipt_of (kind_text c) id k (tb s1) ->
  run_by_id id (tb s2) <> None -> in_replay_window (kind_text c) id k s2 ->
  exists n, run_command c id k s2 = (Ok (json_column v), State (tb s2) n (last_prune s2) (recorded s2)).
Proof.
  intros Hne Hfresh Hs Hsame Hrun Hw.
  destruct (run_command_shape c id k Hne) as [[h Hshape]|Hnone]; [|by destruct (Hnone s v s1)].
  destruct (Hshape s (run_command_found _ _ _ _ _ _ Hs)) as (work & Hwork & Hpost). rewrite Hwork in Hs.
  apply replay_or_fresh in Hs; [|done..].
  destruct (Hshape s2 Hrun) as (work2 & -> & _). apply replay_or_answers; [done| |done].
  unfold run_receipt. rewrite Hsame. exact Hs.
Qed.
End RunCommands.

(** ** Instances *)

#[local] Existing Instance demo_world.

(** The first request of the sample realm again, with another prompt. *)
Definition demo_repeat : op :=
  CreateTask no_admission_calls "image.make" (demo_spec 9) (Some "demo") (Some "key-1") JNull (Some demo_digest) false JNull.

Lemma demo_names_project : names_project (Some "demo") (Some "project-1") (tb (run_ops demo_ops demo_admitted)).
Proof. exists demo_project. split; vm_compute; reflexivity. Qed.

(** C13: the key of the first admission is used again after the sample run. *)
Lemma admission_exactly_once_witness :
  same_work (tb (run_ops demo_ops demo_admitted)) (tb (after demo_repeat (run_ops demo_ops demo_admitted))).
Proof.
  apply (admission_exactly_once demo_admitted) with (pid := Some "project-1").
  - exists (hd (Run "" None "" None Queued None (At 0) (At 0)) (runs (tb demo_admitted))).
    split; [by left|]. split; reflexivity.
  - apply demo_reachable, _.
  - reflexivity.
  - exact demo_names_project.
  - apply no_calls_respect, _.
Defined.

(** A third admission in the sample realm. *)
Lemma admission_leaves_key_witness :
  let s := run_ops demo_ops demo_admitted in
  receipt_keyed (Some "project-1") "key-3"
    (tb (create_task no_admission_calls "image.make" (demo_spec 9) (Some "demo") (Some "key-3") JNull
           (Some demo_digest) false JNull s).2).
Proof.
  intros s.
  destruct (create_task no_admission_calls "image.make" (demo_spec 9) (Some "demo") (Some "key-3") JNull
    (Some demo_digest) false JNull s) as [[v|] s'] eqn:E.
  - exact (admission_leaves_key no_admission_calls "image.make" (demo_spec 9) (Some "demo") (Some "project-1") "key-3"
      JNull (Some demo_digest) false JNull s v s' eq_refl demo_names_project E).
  - exfalso. assert (is_ok (create_task no_admission_calls "image.make" (demo_spec 9) (Some "demo") (Some "key-3")
      JNull (Some demo_digest) false JNull s).1 = true) as Hok by (vm_compute; reflexivity).
    by rewrite E in Hok.
Defined.

(** The run of the first sample task cancelled. *)
Definition demo_stopped : state := Eval vm_compute in (cancel_run "id-7" (Some "stop") demo_admitted).2.
Definition demo_stop_result : json := Eval vm_compute in
  match (cancel_run "id-7" (Some "stop") demo_admitted).1 with Ok v => v | Err _ => JNull end.

(** C30: the run cancelled a second time. *)
Lemma run_command_replay_witness :
  exists n, cancel_run "id-7" (Some "stop") demo_stopped =
    (Ok (json_column demo_stop_result), State (tb demo_stopped) n (last_prune demo_stopped) (recorded demo_stopped)).
Proof.
  apply (run_command_replay CancelCommand "id-7" "stop" demo_admitted demo_stop_result demo_stopped demo_stopped);
    [reflexivity|reflexivity|vm_compute; reflexivity|reflexivity|discriminate|].
  intros row ms Hrow Hat. vm_compute in Hrow. injection Hrow as <-. vm_compute in Hat. injection Hat as <-.
  vm_compute. discriminate.
Defined.
